(** * Device alias assignment (qemu_alias.c) and backup-disk alignment
      (backup_conf.c): a shallow embedding and its properties.

    The C functions are embedded as Rocq functions over explicit state:
    a function that mutates a device through a pointer returns the new
    device, the callers write it back at its index.  Return codes and
    the undefined signed increment are kept in [outcome]. *)

From Stdlib Require Import ZArith Ascii String DecimalString DecimalZ Decimal.
From stdpp Require Import base tactics option list strings gmap.

Local Open Scope string_scope.
Local Open Scope Z_scope.

(** ** C integers *)

Definition INT_MAX : Z := 2147483647.
Definition INT_MIN : Z := -2147483648.
Definition UINT_MAX : Z := 4294967295.

(** Conversion of a wider integer to [int] (as the compilers libvirt
    supports do it: reduction modulo 2^32 into the signed range). *)
Definition to_int (z : Z) : Z := (z + 2147483648) mod 4294967296 - 2147483648.

(** [(int) i] for a loop counter [size_t i]. *)
Definition int_of_size_t (i : nat) : Z := to_int (Z.of_nat i).

(** [x + 1] on [int]: defined only below [INT_MAX] (signed overflow has
    no defined behaviour in C). *)
Definition int_succ (x : Z) : option Z :=
  if x <? INT_MAX then Some (x + 1) else None.

(** ** Outcomes of the C functions *)

(** [Ret0 s]: the function returned 0 and left the state [s];
    [RetErr s]: it returned -1 and left the state [s];
    [Undef]: the execution evaluated a signed increment at [INT_MAX]. *)
Inductive outcome (S : Type) : Type :=
| Ret0 (s : S)
| RetErr (s : S)
| Undef.
Arguments Ret0 {S} s.
Arguments RetErr {S} s.
Arguments Undef {S}.

(** [obind o f] runs [f] after a call that returned 0; a call that
    returned -1 makes the caller return -1 at once ([if (f() < 0) return -1]). *)
Definition obind {S : Type} (o : outcome S) (f : S -> outcome S) : outcome S :=
  match o with
  | Ret0 s => f s
  | RetErr s => RetErr s
  | Undef => Undef
  end.

(** [for (i = 0; i < n; i++) if (body(i) < 0) return -1;] *)
Fixpoint for_from {S : Type} (body : nat -> S -> outcome S) (i n : nat) (s : S)
  : outcome S :=
  match n with
  | O => Ret0 s
  | Datatypes.S n' => obind (body i s) (for_from body (Datatypes.S i) n')
  end.

Definition for_each {S : Type} (n : nat) (body : nat -> S -> outcome S) (s : S)
  : outcome S :=
  for_from body 0 n s.

(** ** printf and strtol *)

(** [%d] (and [%zd]) of [g_strdup_printf]. *)
Definition fmt_d (z : Z) : string := NilZero.string_of_int (Z.to_int z).

(** [isspace] of the C locale. *)
Definition isspace (c : ascii) : bool :=
  let n := nat_of_ascii c in
  (Nat.eqb n 32 || (Nat.leb 9 n && Nat.leb n 13))%bool.

Fixpoint skip_space (s : string) : string :=
  match s with
  | String c r => if isspace c then skip_space r else s
  | EmptyString => s
  end.

(** Modelled from the spec: virStrToLong_i (util/virstring.c) is missing;
    the spec has the remainder after the prefix parse as a base-10
    integer.  The call is [virStrToLong_i(s, NULL, 10, &idx)], a wrapper of
    [strtol] that fails on trailing characters, on no digits and on a
    value outside [int]: leading white space and one sign are accepted. *)
Definition virStrToLong_i (s : string) : option Z :=
  let s1 := skip_space s in
  let '(neg, s2) :=
    match s1 with
    | String c r =>
      if Ascii.eqb c "-" then (true, r)
      else if Ascii.eqb c "+" then (false, r)
      else (false, s1)
    | EmptyString => (false, s1)
    end in
  match s2 with
  | EmptyString => None
  | _ =>
    match NilEmpty.uint_of_string s2 with
    | Some d =>
      let v := if neg then - Z.of_uint d else Z.of_uint d in
      if ((INT_MIN <=? v) && (v <=? INT_MAX))%bool then Some v else None
    | None => None
    end
  end.

(** [STRPREFIX(a, p)] followed by [a + strlen(p)]: the rest of [a] after
    [p], when [a] starts with [p]. *)
Fixpoint strip_prefix (p a : string) : option string :=
  match p with
  | EmptyString => Some a
  | String c p' =>
    match a with
    | String c' a' => if Ascii.eqb c c' then strip_prefix p' a' else None
    | EmptyString => None
    end
  end.

(** ** qemuDomainDeviceAliasIndex *)

(** Over the alias field of the device info ([None] is the NULL pointer). *)
Definition qemuDomainDeviceAliasIndex (alias : option string) (prefix : string) : Z :=
  match alias with
  | None => -1
  | Some a =>
    match strip_prefix prefix a with
    | None => -1
    | Some rest =>
      match virStrToLong_i rest with
      | None => -1
      | Some idx => idx
      end
    end
  end.

(** The scanning loop shared, in its text, by the hostdev, net, redirdev,
    shmem and character-device scavengers:
    [if ((thisidx = index(..)) < 0) continue; if (thisidx >= idx) idx = thisidx + 1;] *)
Fixpoint scan_skip (prefix : string) (aliases : list (option string)) (idx : Z)
  : option Z :=
  match aliases with
  | [] => Some idx
  | a :: rest =>
    let thisidx := qemuDomainDeviceAliasIndex a prefix in
    if thisidx <? 0 then scan_skip prefix rest idx
    else if thisidx >=? idx then
      match int_succ thisidx with
      | Some idx' => scan_skip prefix rest idx'
      | None => None
      end
    else scan_skip prefix rest idx
  end.

(** The loop of the RNG, memory and input scavengers, which has no
    [continue]: [if ((idx = index(..)) >= maxidx) maxidx = idx + 1;] *)
Fixpoint scan_ge (prefix : string) (aliases : list (option string)) (maxidx : Z)
  : option Z :=
  match aliases with
  | [] => Some maxidx
  | a :: rest =>
    let idx := qemuDomainDeviceAliasIndex a prefix in
    if idx >=? maxidx then
      match int_succ idx with
      | Some m => scan_ge prefix rest m
      | None => None
      end
    else scan_ge prefix rest maxidx
  end.

(** ** Data model *)

Inductive virDomainDeviceAddressType :=
| VIR_DOMAIN_DEVICE_ADDRESS_TYPE_NONE
| VIR_DOMAIN_DEVICE_ADDRESS_TYPE_PCI
| VIR_DOMAIN_DEVICE_ADDRESS_TYPE_DRIVE
| VIR_DOMAIN_DEVICE_ADDRESS_TYPE_DIMM
| VIR_DOMAIN_DEVICE_ADDRESS_TYPE_USB.

(** [info.addr.drive]: four [unsigned int] members. *)
Record virDomainDeviceDriveAddress := {
  drive_controller : Z;
  drive_bus : Z;
  drive_target : Z;
  drive_unit : Z
}.

(** [virDomainDeviceInfo]: the alias ([None] is NULL), the address type
    and the two members of the address union that the code reads, kept
    side by side, with the value a read through that member gives; the
    DIMM slot is an [unsigned int]. *)
Record virDomainDeviceInfo := {
  alias : option string;
  info_type : virDomainDeviceAddressType;
  addr_drive : virDomainDeviceDriveAddress;
  addr_dimm_slot : Z
}.

Definition set_alias (a : option string) (info : virDomainDeviceInfo)
  : virDomainDeviceInfo :=
  {| alias := a; info_type := info_type info;
     addr_drive := addr_drive info; addr_dimm_slot := addr_dimm_slot info |}.

Inductive virStorageType :=
| VIR_STORAGE_TYPE_NONE
| VIR_STORAGE_TYPE_FILE
| VIR_STORAGE_TYPE_BLOCK
| VIR_STORAGE_TYPE_DIR
| VIR_STORAGE_TYPE_NETWORK
| VIR_STORAGE_TYPE_VOLUME.

(** [virStorageSource], the fields read or written by backup_conf.c. *)
Record virStorageSource := {
  storage_type : virStorageType;
  storage_path : option string;
  storage_readonly : bool;
  storage_format : Z;
  storage_id : Z
}.

Inductive virDomainDiskBus :=
| VIR_DOMAIN_DISK_BUS_IDE
| VIR_DOMAIN_DISK_BUS_FDC
| VIR_DOMAIN_DISK_BUS_SCSI
| VIR_DOMAIN_DISK_BUS_VIRTIO
| VIR_DOMAIN_DISK_BUS_XEN
| VIR_DOMAIN_DISK_BUS_USB
| VIR_DOMAIN_DISK_BUS_UML
| VIR_DOMAIN_DISK_BUS_SATA
| VIR_DOMAIN_DISK_BUS_SD
| VIR_DOMAIN_DISK_BUS_LAST.

(** [virDomainDiskDef] with [qomName] of its private data. *)
Record virDomainDiskDef := {
  disk_info : virDomainDeviceInfo;
  disk_bus : virDomainDiskBus;
  disk_dst : string;
  disk_src : virStorageSource;
  disk_qomName : option string
}.

(** The values of [virDomainNetResolveActualType] the code tells apart. *)
Inductive virDomainNetType :=
| VIR_DOMAIN_NET_TYPE_HOSTDEV
| VIR_DOMAIN_NET_TYPE_OTHER.

(** [virDomainNetDef]; [net_actual_type] is what
    [virDomainNetResolveActualType(net)] returns. *)
Record virDomainNetDef := {
  net_info : virDomainDeviceInfo;
  net_actual_type : virDomainNetType
}.

(** [hostdev->info] is a pointer: to the info of the host device itself,
    or, for a host device linked to a network interface, to the info of
    [def->nets[n]], which the two then share. *)
Inductive info_ptr :=
| OwnInfo (info : virDomainDeviceInfo)
| NetInfo (n : nat).

Record virDomainHostdevDef := {
  hostdev_info : info_ptr
}.

(** The controller types the code names; the others fall under the
    default naming scheme. *)
Inductive virDomainControllerType :=
| VIR_DOMAIN_CONTROLLER_TYPE_IDE
| VIR_DOMAIN_CONTROLLER_TYPE_FDC
| VIR_DOMAIN_CONTROLLER_TYPE_SCSI
| VIR_DOMAIN_CONTROLLER_TYPE_SATA
| VIR_DOMAIN_CONTROLLER_TYPE_VIRTIO_SERIAL
| VIR_DOMAIN_CONTROLLER_TYPE_CCID
| VIR_DOMAIN_CONTROLLER_TYPE_USB
| VIR_DOMAIN_CONTROLLER_TYPE_PCI
| VIR_DOMAIN_CONTROLLER_TYPE_XENBUS
| VIR_DOMAIN_CONTROLLER_TYPE_ISA.

Record virDomainControllerDef := {
  controller_info : virDomainDeviceInfo;
  controller_type : virDomainControllerType;
  controller_idx : Z;
  controller_model : Z
}.

Inductive virDomainChrDeviceType :=
| VIR_DOMAIN_CHR_DEVICE_TYPE_PARALLEL
| VIR_DOMAIN_CHR_DEVICE_TYPE_SERIAL
| VIR_DOMAIN_CHR_DEVICE_TYPE_CONSOLE
| VIR_DOMAIN_CHR_DEVICE_TYPE_CHANNEL
| VIR_DOMAIN_CHR_DEVICE_TYPE_LAST.

Record virDomainChrDef := {
  chr_info : virDomainDeviceInfo;
  chr_deviceType : virDomainChrDeviceType
}.

Inductive virDomainMemoryModel :=
| VIR_DOMAIN_MEMORY_MODEL_NONE
| VIR_DOMAIN_MEMORY_MODEL_DIMM
| VIR_DOMAIN_MEMORY_MODEL_NVDIMM
| VIR_DOMAIN_MEMORY_MODEL_VIRTIO_PMEM
| VIR_DOMAIN_MEMORY_MODEL_LAST.

Record virDomainMemoryDef := {
  mem_info : virDomainDeviceInfo;
  mem_model : virDomainMemoryModel
}.

(** The memory balloon models the code tells apart. *)
Inductive virDomainMemballoonModel :=
| VIR_DOMAIN_MEMBALLOON_MODEL_VIRTIO
| VIR_DOMAIN_MEMBALLOON_MODEL_NONE.

Record virDomainMemballoonDef := {
  memballoon_info : virDomainDeviceInfo;
  memballoon_model : virDomainMemballoonModel
}.

(** [virDomainDef]: one list per device array ([def->nnets] is the length
    of [nets]); the devices of which the code reads the info only (file
    systems, sound, ..., vsock) are given by that info.  The two flags are
    what [qemuDomainHasBuiltinIDE(def)] and [qemuDomainIsQ35(def)] return. *)
Record virDomainDef := {
  disks : list virDomainDiskDef;
  nets : list virDomainNetDef;
  fss : list virDomainDeviceInfo;
  sounds : list virDomainDeviceInfo;
  hostdevs : list virDomainHostdevDef;
  redirdevs : list virDomainDeviceInfo;
  videos : list virDomainDeviceInfo;
  controllers : list virDomainControllerDef;
  inputs : list virDomainDeviceInfo;
  parallels : list virDomainChrDef;
  serials : list virDomainChrDef;
  channels : list virDomainChrDef;
  consoles : list virDomainChrDef;
  hubs : list virDomainDeviceInfo;
  shmems : list virDomainDeviceInfo;
  smartcards : list virDomainDeviceInfo;
  watchdog : option virDomainDeviceInfo;
  memballoon : option virDomainMemballoonDef;
  rngs : list virDomainDeviceInfo;
  tpms : list virDomainDeviceInfo;
  mems : list virDomainMemoryDef;
  vsock : option virDomainDeviceInfo;
  has_builtin_ide : bool;
  is_q35 : bool
}.

Definition set_disks (v : list virDomainDiskDef) (d : virDomainDef) : virDomainDef :=
  {| disks := v; nets := nets d; fss := fss d; sounds := sounds d; hostdevs := hostdevs
     d; redirdevs := redirdevs d; videos := videos d; controllers := controllers d;
     inputs := inputs d; parallels := parallels d; serials := serials d; channels :=
     channels d; consoles := consoles d; hubs := hubs d; shmems := shmems d; smartcards
     := smartcards d; watchdog := watchdog d; memballoon := memballoon d; rngs := rngs d;
     tpms := tpms d; mems := mems d; vsock := vsock d; has_builtin_ide := has_builtin_ide
     d; is_q35 := is_q35 d |}.

Definition set_nets (v : list virDomainNetDef) (d : virDomainDef) : virDomainDef :=
  {| disks := disks d; nets := v; fss := fss d; sounds := sounds d; hostdevs := hostdevs
     d; redirdevs := redirdevs d; videos := videos d; controllers := controllers d;
     inputs := inputs d; parallels := parallels d; serials := serials d; channels :=
     channels d; consoles := consoles d; hubs := hubs d; shmems := shmems d; smartcards
     := smartcards d; watchdog := watchdog d; memballoon := memballoon d; rngs := rngs d;
     tpms := tpms d; mems := mems d; vsock := vsock d; has_builtin_ide := has_builtin_ide
     d; is_q35 := is_q35 d |}.

Definition set_fss (v : list virDomainDeviceInfo) (d : virDomainDef) : virDomainDef :=
  {| disks := disks d; nets := nets d; fss := v; sounds := sounds d; hostdevs := hostdevs
     d; redirdevs := redirdevs d; videos := videos d; controllers := controllers d;
     inputs := inputs d; parallels := parallels d; serials := serials d; channels :=
     channels d; consoles := consoles d; hubs := hubs d; shmems := shmems d; smartcards
     := smartcards d; watchdog := watchdog d; memballoon := memballoon d; rngs := rngs d;
     tpms := tpms d; mems := mems d; vsock := vsock d; has_builtin_ide := has_builtin_ide
     d; is_q35 := is_q35 d |}.

Definition set_sounds (v : list virDomainDeviceInfo) (d : virDomainDef) : virDomainDef :=
  {| disks := disks d; nets := nets d; fss := fss d; sounds := v; hostdevs := hostdevs d;
     redirdevs := redirdevs d; videos := videos d; controllers := controllers d; inputs
     := inputs d; parallels := parallels d; serials := serials d; channels := channels d;
     consoles := consoles d; hubs := hubs d; shmems := shmems d; smartcards := smartcards
     d; watchdog := watchdog d; memballoon := memballoon d; rngs := rngs d; tpms := tpms
     d; mems := mems d; vsock := vsock d; has_builtin_ide := has_builtin_ide d; is_q35 :=
     is_q35 d |}.

Definition set_hostdevs (v : list virDomainHostdevDef) (d : virDomainDef) : virDomainDef :=
  {| disks := disks d; nets := nets d; fss := fss d; sounds := sounds d; hostdevs := v;
     redirdevs := redirdevs d; videos := videos d; controllers := controllers d; inputs
     := inputs d; parallels := parallels d; serials := serials d; channels := channels d;
     consoles := consoles d; hubs := hubs d; shmems := shmems d; smartcards := smartcards
     d; watchdog := watchdog d; memballoon := memballoon d; rngs := rngs d; tpms := tpms
     d; mems := mems d; vsock := vsock d; has_builtin_ide := has_builtin_ide d; is_q35 :=
     is_q35 d |}.

Definition set_redirdevs (v : list virDomainDeviceInfo) (d : virDomainDef) : virDomainDef :=
  {| disks := disks d; nets := nets d; fss := fss d; sounds := sounds d; hostdevs :=
     hostdevs d; redirdevs := v; videos := videos d; controllers := controllers d; inputs
     := inputs d; parallels := parallels d; serials := serials d; channels := channels d;
     consoles := consoles d; hubs := hubs d; shmems := shmems d; smartcards := smartcards
     d; watchdog := watchdog d; memballoon := memballoon d; rngs := rngs d; tpms := tpms
     d; mems := mems d; vsock := vsock d; has_builtin_ide := has_builtin_ide d; is_q35 :=
     is_q35 d |}.

Definition set_videos (v : list virDomainDeviceInfo) (d : virDomainDef) : virDomainDef :=
  {| disks := disks d; nets := nets d; fss := fss d; sounds := sounds d; hostdevs :=
     hostdevs d; redirdevs := redirdevs d; videos := v; controllers := controllers d;
     inputs := inputs d; parallels := parallels d; serials := serials d; channels :=
     channels d; consoles := consoles d; hubs := hubs d; shmems := shmems d; smartcards
     := smartcards d; watchdog := watchdog d; memballoon := memballoon d; rngs := rngs d;
     tpms := tpms d; mems := mems d; vsock := vsock d; has_builtin_ide := has_builtin_ide
     d; is_q35 := is_q35 d |}.

Definition set_controllers (v : list virDomainControllerDef) (d : virDomainDef) : virDomainDef :=
  {| disks := disks d; nets := nets d; fss := fss d; sounds := sounds d; hostdevs :=
     hostdevs d; redirdevs := redirdevs d; videos := videos d; controllers := v; inputs
     := inputs d; parallels := parallels d; serials := serials d; channels := channels d;
     consoles := consoles d; hubs := hubs d; shmems := shmems d; smartcards := smartcards
     d; watchdog := watchdog d; memballoon := memballoon d; rngs := rngs d; tpms := tpms
     d; mems := mems d; vsock := vsock d; has_builtin_ide := has_builtin_ide d; is_q35 :=
     is_q35 d |}.

Definition set_inputs (v : list virDomainDeviceInfo) (d : virDomainDef) : virDomainDef :=
  {| disks := disks d; nets := nets d; fss := fss d; sounds := sounds d; hostdevs :=
     hostdevs d; redirdevs := redirdevs d; videos := videos d; controllers := controllers
     d; inputs := v; parallels := parallels d; serials := serials d; channels := channels
     d; consoles := consoles d; hubs := hubs d; shmems := shmems d; smartcards :=
     smartcards d; watchdog := watchdog d; memballoon := memballoon d; rngs := rngs d;
     tpms := tpms d; mems := mems d; vsock := vsock d; has_builtin_ide := has_builtin_ide
     d; is_q35 := is_q35 d |}.

Definition set_parallels (v : list virDomainChrDef) (d : virDomainDef) : virDomainDef :=
  {| disks := disks d; nets := nets d; fss := fss d; sounds := sounds d; hostdevs :=
     hostdevs d; redirdevs := redirdevs d; videos := videos d; controllers := controllers
     d; inputs := inputs d; parallels := v; serials := serials d; channels := channels d;
     consoles := consoles d; hubs := hubs d; shmems := shmems d; smartcards := smartcards
     d; watchdog := watchdog d; memballoon := memballoon d; rngs := rngs d; tpms := tpms
     d; mems := mems d; vsock := vsock d; has_builtin_ide := has_builtin_ide d; is_q35 :=
     is_q35 d |}.

Definition set_serials (v : list virDomainChrDef) (d : virDomainDef) : virDomainDef :=
  {| disks := disks d; nets := nets d; fss := fss d; sounds := sounds d; hostdevs :=
     hostdevs d; redirdevs := redirdevs d; videos := videos d; controllers := controllers
     d; inputs := inputs d; parallels := parallels d; serials := v; channels := channels
     d; consoles := consoles d; hubs := hubs d; shmems := shmems d; smartcards :=
     smartcards d; watchdog := watchdog d; memballoon := memballoon d; rngs := rngs d;
     tpms := tpms d; mems := mems d; vsock := vsock d; has_builtin_ide := has_builtin_ide
     d; is_q35 := is_q35 d |}.

Definition set_channels (v : list virDomainChrDef) (d : virDomainDef) : virDomainDef :=
  {| disks := disks d; nets := nets d; fss := fss d; sounds := sounds d; hostdevs :=
     hostdevs d; redirdevs := redirdevs d; videos := videos d; controllers := controllers
     d; inputs := inputs d; parallels := parallels d; serials := serials d; channels :=
     v; consoles := consoles d; hubs := hubs d; shmems := shmems d; smartcards :=
     smartcards d; watchdog := watchdog d; memballoon := memballoon d; rngs := rngs d;
     tpms := tpms d; mems := mems d; vsock := vsock d; has_builtin_ide := has_builtin_ide
     d; is_q35 := is_q35 d |}.

Definition set_consoles (v : list virDomainChrDef) (d : virDomainDef) : virDomainDef :=
  {| disks := disks d; nets := nets d; fss := fss d; sounds := sounds d; hostdevs :=
     hostdevs d; redirdevs := redirdevs d; videos := videos d; controllers := controllers
     d; inputs := inputs d; parallels := parallels d; serials := serials d; channels :=
     channels d; consoles := v; hubs := hubs d; shmems := shmems d; smartcards :=
     smartcards d; watchdog := watchdog d; memballoon := memballoon d; rngs := rngs d;
     tpms := tpms d; mems := mems d; vsock := vsock d; has_builtin_ide := has_builtin_ide
     d; is_q35 := is_q35 d |}.

Definition set_hubs (v : list virDomainDeviceInfo) (d : virDomainDef) : virDomainDef :=
  {| disks := disks d; nets := nets d; fss := fss d; sounds := sounds d; hostdevs :=
     hostdevs d; redirdevs := redirdevs d; videos := videos d; controllers := controllers
     d; inputs := inputs d; parallels := parallels d; serials := serials d; channels :=
     channels d; consoles := consoles d; hubs := v; shmems := shmems d; smartcards :=
     smartcards d; watchdog := watchdog d; memballoon := memballoon d; rngs := rngs d;
     tpms := tpms d; mems := mems d; vsock := vsock d; has_builtin_ide := has_builtin_ide
     d; is_q35 := is_q35 d |}.

Definition set_shmems (v : list virDomainDeviceInfo) (d : virDomainDef) : virDomainDef :=
  {| disks := disks d; nets := nets d; fss := fss d; sounds := sounds d; hostdevs :=
     hostdevs d; redirdevs := redirdevs d; videos := videos d; controllers := controllers
     d; inputs := inputs d; parallels := parallels d; serials := serials d; channels :=
     channels d; consoles := consoles d; hubs := hubs d; shmems := v; smartcards :=
     smartcards d; watchdog := watchdog d; memballoon := memballoon d; rngs := rngs d;
     tpms := tpms d; mems := mems d; vsock := vsock d; has_builtin_ide := has_builtin_ide
     d; is_q35 := is_q35 d |}.

Definition set_smartcards (v : list virDomainDeviceInfo) (d : virDomainDef) : virDomainDef :=
  {| disks := disks d; nets := nets d; fss := fss d; sounds := sounds d; hostdevs :=
     hostdevs d; redirdevs := redirdevs d; videos := videos d; controllers := controllers
     d; inputs := inputs d; parallels := parallels d; serials := serials d; channels :=
     channels d; consoles := consoles d; hubs := hubs d; shmems := shmems d; smartcards
     := v; watchdog := watchdog d; memballoon := memballoon d; rngs := rngs d; tpms :=
     tpms d; mems := mems d; vsock := vsock d; has_builtin_ide := has_builtin_ide d;
     is_q35 := is_q35 d |}.

Definition set_watchdog (v : option virDomainDeviceInfo) (d : virDomainDef) : virDomainDef :=
  {| disks := disks d; nets := nets d; fss := fss d; sounds := sounds d; hostdevs :=
     hostdevs d; redirdevs := redirdevs d; videos := videos d; controllers := controllers
     d; inputs := inputs d; parallels := parallels d; serials := serials d; channels :=
     channels d; consoles := consoles d; hubs := hubs d; shmems := shmems d; smartcards
     := smartcards d; watchdog := v; memballoon := memballoon d; rngs := rngs d; tpms :=
     tpms d; mems := mems d; vsock := vsock d; has_builtin_ide := has_builtin_ide d;
     is_q35 := is_q35 d |}.

Definition set_memballoon (v : option virDomainMemballoonDef) (d : virDomainDef) : virDomainDef :=
  {| disks := disks d; nets := nets d; fss := fss d; sounds := sounds d; hostdevs :=
     hostdevs d; redirdevs := redirdevs d; videos := videos d; controllers := controllers
     d; inputs := inputs d; parallels := parallels d; serials := serials d; channels :=
     channels d; consoles := consoles d; hubs := hubs d; shmems := shmems d; smartcards
     := smartcards d; watchdog := watchdog d; memballoon := v; rngs := rngs d; tpms :=
     tpms d; mems := mems d; vsock := vsock d; has_builtin_ide := has_builtin_ide d;
     is_q35 := is_q35 d |}.

Definition set_rngs (v : list virDomainDeviceInfo) (d : virDomainDef) : virDomainDef :=
  {| disks := disks d; nets := nets d; fss := fss d; sounds := sounds d; hostdevs :=
     hostdevs d; redirdevs := redirdevs d; videos := videos d; controllers := controllers
     d; inputs := inputs d; parallels := parallels d; serials := serials d; channels :=
     channels d; consoles := consoles d; hubs := hubs d; shmems := shmems d; smartcards
     := smartcards d; watchdog := watchdog d; memballoon := memballoon d; rngs := v; tpms
     := tpms d; mems := mems d; vsock := vsock d; has_builtin_ide := has_builtin_ide d;
     is_q35 := is_q35 d |}.

Definition set_tpms (v : list virDomainDeviceInfo) (d : virDomainDef) : virDomainDef :=
  {| disks := disks d; nets := nets d; fss := fss d; sounds := sounds d; hostdevs :=
     hostdevs d; redirdevs := redirdevs d; videos := videos d; controllers := controllers
     d; inputs := inputs d; parallels := parallels d; serials := serials d; channels :=
     channels d; consoles := consoles d; hubs := hubs d; shmems := shmems d; smartcards
     := smartcards d; watchdog := watchdog d; memballoon := memballoon d; rngs := rngs d;
     tpms := v; mems := mems d; vsock := vsock d; has_builtin_ide := has_builtin_ide d;
     is_q35 := is_q35 d |}.

Definition set_mems (v : list virDomainMemoryDef) (d : virDomainDef) : virDomainDef :=
  {| disks := disks d; nets := nets d; fss := fss d; sounds := sounds d; hostdevs :=
     hostdevs d; redirdevs := redirdevs d; videos := videos d; controllers := controllers
     d; inputs := inputs d; parallels := parallels d; serials := serials d; channels :=
     channels d; consoles := consoles d; hubs := hubs d; shmems := shmems d; smartcards
     := smartcards d; watchdog := watchdog d; memballoon := memballoon d; rngs := rngs d;
     tpms := tpms d; mems := v; vsock := vsock d; has_builtin_ide := has_builtin_ide d;
     is_q35 := is_q35 d |}.

Definition set_vsock (v : option virDomainDeviceInfo) (d : virDomainDef) : virDomainDef :=
  {| disks := disks d; nets := nets d; fss := fss d; sounds := sounds d; hostdevs :=
     hostdevs d; redirdevs := redirdevs d; videos := videos d; controllers := controllers
     d; inputs := inputs d; parallels := parallels d; serials := serials d; channels :=
     channels d; consoles := consoles d; hubs := hubs d; shmems := shmems d; smartcards
     := smartcards d; watchdog := watchdog d; memballoon := memballoon d; rngs := rngs d;
     tpms := tpms d; mems := mems d; vsock := v; has_builtin_ide := has_builtin_ide d;
     is_q35 := is_q35 d |}.

(** Modelled from the spec: the capability handle is missing, the spec has
    it as an object of boolean queries; [caps_pci_multibus] answers
    [virQEMUCapsHasPCIMultiBus(qemuCaps, def)] and [caps_blockdev] answers
    [virQEMUCapsGet(qemuCaps, QEMU_CAPS_BLOCKDEV)]. *)
Record virQEMUCaps := {
  caps_pci_multibus : bool;
  caps_blockdev : bool
}.

(** The collaborators of qemu_alias.c that live in other files: the enum
    name tables, the disk target decoder, the SCSI controller lookup and
    the three controller-model constants. *)
Class Collaborators := {
  virDomainDiskBusTypeToString : virDomainDiskBus -> string;
  virDomainControllerTypeToString : virDomainControllerType -> string;
  virDiskNameToIndex : string -> Z;
  qemuDomainFindSCSIControllerModel : virDomainDef -> virDomainDeviceInfo -> Z;
  VIR_DOMAIN_CONTROLLER_MODEL_PCIE_ROOT : Z;
  VIR_DOMAIN_CONTROLLER_MODEL_SCSI_NCR53C90 : Z;
  VIR_DOMAIN_CONTROLLER_MODEL_SCSI_LSILOGIC : Z
}.

#[global] Instance virDomainDiskBus_eq_dec : EqDecision virDomainDiskBus.
Proof. solve_decision. Defined.
#[global] Instance virDomainControllerType_eq_dec : EqDecision virDomainControllerType.
Proof. solve_decision. Defined.
#[global] Instance virDomainDeviceAddressType_eq_dec : EqDecision virDomainDeviceAddressType.
Proof. solve_decision. Defined.
#[global] Instance virDomainNetType_eq_dec : EqDecision virDomainNetType.
Proof. solve_decision. Defined.
#[global] Instance virDomainMemoryModel_eq_dec : EqDecision virDomainMemoryModel.
Proof. solve_decision. Defined.
#[global] Instance virDomainChrDeviceType_eq_dec : EqDecision virDomainChrDeviceType.
Proof. solve_decision. Defined.
#[global] Instance virStorageType_eq_dec : EqDecision virStorageType.
Proof. solve_decision. Defined.
#[global] Instance virDomainMemballoonModel_eq_dec : EqDecision virDomainMemballoonModel.
Proof. solve_decision. Defined.

(** ** The per-class assigners *)

(** [%s] of a possibly NULL string (glibc prints "(null)"). *)
Definition fmt_s (s : option string) : string :=
  match s with
  | Some x => x
  | None => "(null)"
  end.

(** [def->hostdevs[i]->info->alias]: a read through the info pointer. *)
Definition hostdev_alias (def : virDomainDef) (h : virDomainHostdevDef)
  : option string :=
  match hostdev_info h with
  | OwnInfo info => alias info
  | NetInfo n =>
    match nets def !! n with
    | Some net => alias (net_info net)
    | None => None
    end
  end.

(** [virDomainChrGetDomainPtrs]: the array of [def] that holds the
    character devices of the given type. *)
Definition virDomainChrGetDomainPtrs (def : virDomainDef)
    (ty : virDomainChrDeviceType) : list virDomainChrDef :=
  match ty with
  | VIR_DOMAIN_CHR_DEVICE_TYPE_PARALLEL => parallels def
  | VIR_DOMAIN_CHR_DEVICE_TYPE_SERIAL => serials def
  | VIR_DOMAIN_CHR_DEVICE_TYPE_CONSOLE => consoles def
  | VIR_DOMAIN_CHR_DEVICE_TYPE_CHANNEL => channels def
  | VIR_DOMAIN_CHR_DEVICE_TYPE_LAST => []
  end.

(** The loop of [qemuGetNextChrDevIndex], on [ssize_t] (no overflow:
    [thisidx] holds an [int]). *)
Fixpoint chr_scan (prefix : string) (prefix2 : option string)
    (aliases : list (option string)) (idx : Z) : Z :=
  match aliases with
  | [] => idx
  | a :: rest =>
    let t1 := qemuDomainDeviceAliasIndex a prefix in
    let '(skip, thisidx) :=
      if t1 <? 0 then
        match prefix2 with
        | Some p2 =>
          let t2 := qemuDomainDeviceAliasIndex a p2 in (t2 <? 0, t2)
        | None => (false, t1)
        end
      else (false, t1) in
    if skip then chr_scan prefix prefix2 rest idx
    else if thisidx >=? idx then chr_scan prefix prefix2 rest (thisidx + 1)
    else chr_scan prefix prefix2 rest idx
  end.

Definition qemuGetNextChrDevIndex (def : virDomainDef) (chr : virDomainChrDef)
    (prefix : string) : Z :=
  let prefix2 :=
    match chr_deviceType chr with
    | VIR_DOMAIN_CHR_DEVICE_TYPE_CONSOLE => Some "serial"
    | _ => None
    end in
  let arrPtr := virDomainChrGetDomainPtrs def (chr_deviceType chr) in
  chr_scan prefix prefix2 (map (fun c => alias (chr_info c)) arrPtr) 0.

Definition chr_set_alias (a : option string) (chr : virDomainChrDef)
  : virDomainChrDef :=
  {| chr_info := set_alias a (chr_info chr);
     chr_deviceType := chr_deviceType chr |}.

Definition qemuAssignDeviceChrAlias (def : virDomainDef) (chr : virDomainChrDef)
    (idx : Z) : outcome virDomainChrDef :=
  match alias (chr_info chr) with
  | Some _ => Ret0 chr
  | None =>
    let prefix :=
      match chr_deviceType chr with
      | VIR_DOMAIN_CHR_DEVICE_TYPE_PARALLEL => Some "parallel"
      | VIR_DOMAIN_CHR_DEVICE_TYPE_SERIAL => Some "serial"
      | VIR_DOMAIN_CHR_DEVICE_TYPE_CONSOLE => Some "console"
      | VIR_DOMAIN_CHR_DEVICE_TYPE_CHANNEL => Some "channel"
      | VIR_DOMAIN_CHR_DEVICE_TYPE_LAST => None
      end in
    match prefix with
    | None => RetErr chr
    | Some prefix =>
      let idx' := if idx =? -1 then qemuGetNextChrDevIndex def chr prefix else idx in
      if ((idx =? -1) && (idx' <? 0))%bool then RetErr chr
      else Ret0 (chr_set_alias (Some (prefix ++ fmt_d idx')) chr)
    end
  end.

Definition controller_set_alias (a : option string) (c : virDomainControllerDef)
  : virDomainControllerDef :=
  {| controller_info := set_alias a (controller_info c);
     controller_type := controller_type c;
     controller_idx := controller_idx c;
     controller_model := controller_model c |}.

Definition disk_set_alias (a : option string) (disk : virDomainDiskDef)
  : virDomainDiskDef :=
  {| disk_info := set_alias a (disk_info disk);
     disk_bus := disk_bus disk;
     disk_dst := disk_dst disk;
     disk_src := disk_src disk;
     disk_qomName := disk_qomName disk |}.

Definition disk_set_qomName (q : option string) (disk : virDomainDiskDef)
  : virDomainDiskDef :=
  {| disk_info := disk_info disk;
     disk_bus := disk_bus disk;
     disk_dst := disk_dst disk;
     disk_src := disk_src disk;
     disk_qomName := q |}.

Definition net_set_alias (a : option string) (net : virDomainNetDef)
  : virDomainNetDef :=
  {| net_info := set_alias a (net_info net);
     net_actual_type := net_actual_type net |}.

Definition mem_set_alias (a : option string) (mem : virDomainMemoryDef)
  : virDomainMemoryDef :=
  {| mem_info := set_alias a (mem_info mem);
     mem_model := mem_model mem |}.

Definition memballoon_set_alias (a : option string) (b : virDomainMemballoonDef)
  : virDomainMemballoonDef :=
  {| memballoon_info := set_alias a (memballoon_info b);
     memballoon_model := memballoon_model b |}.

(** A scavenged or given index put behind a prefix; a scan that met the
    undefined increment leaves no result. *)
Definition with_index {S : Type} (idx : option Z) (k : Z -> S) : outcome S :=
  match idx with
  | Some i => Ret0 (k i)
  | None => Undef
  end.

Section Assigners.
Context `{Collaborators}.

Definition qemuAssignDeviceControllerAlias (domainDef : virDomainDef)
    (qemuCaps : virQEMUCaps) (controller : virDomainControllerDef)
  : outcome virDomainControllerDef :=
  let prefix := virDomainControllerTypeToString (controller_type controller) in
  let default :=
    Ret0 (controller_set_alias (Some (prefix ++ fmt_d (controller_idx controller)))
                               controller) in
  match alias (controller_info controller) with
  | Some _ => Ret0 controller
  | None =>
    match controller_type controller with
    | VIR_DOMAIN_CONTROLLER_TYPE_PCI =>
      if negb (caps_pci_multibus qemuCaps) then
        Ret0 (controller_set_alias (Some "pci") controller)
      else if controller_model controller =? VIR_DOMAIN_CONTROLLER_MODEL_PCIE_ROOT then
        Ret0 (controller_set_alias
                (Some ("pcie." ++ fmt_d (controller_idx controller))) controller)
      else
        Ret0 (controller_set_alias
                (Some ("pci." ++ fmt_d (controller_idx controller))) controller)
    | VIR_DOMAIN_CONTROLLER_TYPE_IDE =>
      if (has_builtin_ide domainDef && (controller_idx controller =? 0))%bool then
        Ret0 (controller_set_alias (Some "ide") controller)
      else default
    | VIR_DOMAIN_CONTROLLER_TYPE_SATA =>
      if (is_q35 domainDef && (controller_idx controller =? 0))%bool then
        Ret0 (controller_set_alias (Some "ide") controller)
      else default
    | VIR_DOMAIN_CONTROLLER_TYPE_USB =>
      if controller_idx controller =? 0 then
        Ret0 (controller_set_alias (Some "usb") controller)
      else default
    | VIR_DOMAIN_CONTROLLER_TYPE_SCSI =>
      if ((controller_model controller =? VIR_DOMAIN_CONTROLLER_MODEL_SCSI_NCR53C90)
          && (controller_idx controller =? 0))%bool then
        Ret0 (controller_set_alias (Some "scsi") controller)
      else default
    | _ => default
    end
  end.

(** The first half of [qemuAssignDeviceDiskAlias]: the alias.  The
    members of the drive address are [unsigned int] and are printed with
    [%d], that is as [int]. *)
Definition disk_assign_alias (def : virDomainDef) (disk : virDomainDiskDef)
  : outcome virDomainDiskDef :=
  let prefix := virDomainDiskBusTypeToString (disk_bus disk) in
  let info := disk_info disk in
  match alias info with
  | Some _ => Ret0 disk
  | None =>
    if bool_decide (info_type info = VIR_DOMAIN_DEVICE_ADDRESS_TYPE_DRIVE) then
      let is_scsi := bool_decide (disk_bus disk = VIR_DOMAIN_DISK_BUS_SCSI) in
      let controllerModel :=
        if is_scsi then qemuDomainFindSCSIControllerModel def info else -1 in
      if (is_scsi && (controllerModel <? 0))%bool then RetErr disk
      else if (negb is_scsi
               || (controllerModel =? VIR_DOMAIN_CONTROLLER_MODEL_SCSI_LSILOGIC))%bool then
        Ret0 (disk_set_alias
                (Some (prefix ++ fmt_d (to_int (drive_controller (addr_drive info)))
                       ++ "-" ++ fmt_d (to_int (drive_bus (addr_drive info)))
                       ++ "-" ++ fmt_d (to_int (drive_unit (addr_drive info))))) disk)
      else
        Ret0 (disk_set_alias
                (Some (prefix ++ fmt_d (to_int (drive_controller (addr_drive info)))
                       ++ "-" ++ fmt_d (to_int (drive_bus (addr_drive info)))
                       ++ "-" ++ fmt_d (to_int (drive_target (addr_drive info)))
                       ++ "-" ++ fmt_d (to_int (drive_unit (addr_drive info))))) disk)
    else
      let idx := virDiskNameToIndex (disk_dst disk) in
      Ret0 (disk_set_alias (Some (prefix ++ "-disk" ++ fmt_d idx)) disk)
  end.

(** The second half: the QOM name kept in the private data of the disk. *)
Definition disk_assign_qomName (qemuCaps : virQEMUCaps) (disk : virDomainDiskDef)
  : virDomainDiskDef :=
  let a := alias (disk_info disk) in
  match disk_qomName disk with
  | Some _ => disk
  | None =>
    if caps_blockdev qemuCaps then
      match disk_bus disk with
      | VIR_DOMAIN_DISK_BUS_FDC
      | VIR_DOMAIN_DISK_BUS_IDE
      | VIR_DOMAIN_DISK_BUS_SATA
      | VIR_DOMAIN_DISK_BUS_SCSI => disk_set_qomName a disk
      | VIR_DOMAIN_DISK_BUS_VIRTIO =>
        disk_set_qomName
          (Some ("/machine/peripheral/" ++ fmt_s a ++ "/virtio-backend")) disk
      | VIR_DOMAIN_DISK_BUS_USB =>
        disk_set_qomName
          (Some ("/machine/peripheral/" ++ fmt_s a ++ "/" ++ fmt_s a
                 ++ ".0/legacy[0]")) disk
      | VIR_DOMAIN_DISK_BUS_XEN
      | VIR_DOMAIN_DISK_BUS_UML
      | VIR_DOMAIN_DISK_BUS_SD
      | VIR_DOMAIN_DISK_BUS_LAST => disk
      end
    else disk
  end.

Definition qemuAssignDeviceDiskAlias (def : virDomainDef) (disk : virDomainDiskDef)
    (qemuCaps : virQEMUCaps) : outcome virDomainDiskDef :=
  obind (disk_assign_alias def disk)
        (fun disk' => Ret0 (disk_assign_qomName qemuCaps disk')).

End Assigners.

(** [*alias] is the alias slot of the host device, or of the network
    interface that resolved to the hostdev type. *)
Definition qemuAssignDeviceHostdevAlias (def : virDomainDef)
    (alias_slot : option string) (idx : Z) : outcome (option string) :=
  match alias_slot with
  | Some _ => Ret0 alias_slot
  | None =>
    let idx' :=
      if idx =? -1 then
        match scan_skip "hostdev" (map (hostdev_alias def) (hostdevs def)) 0 with
        | Some i =>
          (* network interfaces can also have a hostdevN alias *)
          scan_skip "hostdev" (map (fun n => alias (net_info n)) (nets def)) i
        | None => None
        end
      else Some idx in
    with_index idx' (fun i => Some ("hostdev" ++ fmt_d i))
  end.

Definition qemuAssignDeviceNetAlias (def : virDomainDef) (net : virDomainNetDef)
    (idx : Z) : outcome virDomainNetDef :=
  match alias (net_info net) with
  | Some _ => Ret0 net
  | None =>
    if bool_decide (net_actual_type net = VIR_DOMAIN_NET_TYPE_HOSTDEV) then
      match qemuAssignDeviceHostdevAlias def (alias (net_info net)) (-1) with
      | Ret0 a => Ret0 (net_set_alias a net)
      | RetErr a => RetErr (net_set_alias a net)
      | Undef => Undef
      end
    else
      let idx' :=
        if idx =? -1 then
          scan_skip "net" (map (fun n => alias (net_info n)) (nets def)) 0
        else Some idx in
      with_index idx' (fun i => net_set_alias (Some ("net" ++ fmt_d i)) net)
  end.

(** The assigners that put a given index behind a fixed prefix. *)
Definition assign_indexed (prefix : string) (info : virDomainDeviceInfo) (idx : Z)
  : outcome virDomainDeviceInfo :=
  match alias info with
  | Some _ => Ret0 info
  | None => Ret0 (set_alias (Some (prefix ++ fmt_d idx)) info)
  end.

Definition qemuAssignDeviceFSAlias (fss : virDomainDeviceInfo) (idx : Z) :=
  assign_indexed "fs" fss idx.

Definition qemuAssignDeviceSoundAlias (sound : virDomainDeviceInfo) (idx : Z) :=
  assign_indexed "sound" sound idx.

Definition qemuAssignDeviceVideoAlias (video : virDomainDeviceInfo) (idx : Z) :=
  assign_indexed "video" video idx.

Definition qemuAssignDeviceHubAlias (hub : virDomainDeviceInfo) (idx : Z) :=
  assign_indexed "hub" hub idx.

Definition qemuAssignDeviceSmartcardAlias (smartcard : virDomainDeviceInfo) (idx : Z) :=
  assign_indexed "smartcard" smartcard idx.

Definition qemuAssignDeviceMemballoonAlias (memballoon : virDomainMemballoonDef)
    (idx : Z) : outcome virDomainMemballoonDef :=
  match alias (memballoon_info memballoon) with
  | Some _ => Ret0 memballoon
  | None => Ret0 (memballoon_set_alias (Some ("balloon" ++ fmt_d idx)) memballoon)
  end.

Definition qemuAssignDeviceTPMAlias (tpm : virDomainDeviceInfo) (idx : Z) :=
  assign_indexed "tpm" tpm idx.

Definition qemuAssignDeviceRedirdevAlias (def : virDomainDef)
    (redirdev : virDomainDeviceInfo) (idx : Z) : outcome virDomainDeviceInfo :=
  match alias redirdev with
  | Some _ => Ret0 redirdev
  | None =>
    let idx' :=
      if idx =? -1 then scan_skip "redir" (map alias (redirdevs def)) 0
      else Some idx in
    with_index idx' (fun i => set_alias (Some ("redir" ++ fmt_d i)) redirdev)
  end.

Definition qemuAssignDeviceRNGAlias (def : virDomainDef) (rng : virDomainDeviceInfo)
  : outcome virDomainDeviceInfo :=
  match alias rng with
  | Some _ => Ret0 rng
  | None =>
    let maxidx := scan_ge "rng" (map alias (rngs def)) 0 in
    with_index maxidx (fun i => set_alias (Some ("rng" ++ fmt_d i)) rng)
  end.

(** The result is an [int]: the [unsigned int] slot is returned through
    the [int] return type; the undefined increment of the scan is [None]. *)
Definition qemuDeviceMemoryGetAliasID (def : virDomainDef) (mem : virDomainMemoryDef)
    (oldAlias : bool) (prefix : string) : option Z :=
  (* virtio-pmem goes onto PCI bus and thus DIMM address is not valid *)
  if (negb oldAlias
      && negb (bool_decide (mem_model mem = VIR_DOMAIN_MEMORY_MODEL_VIRTIO_PMEM)))%bool
  then Some (to_int (addr_dimm_slot (mem_info mem)))
  else scan_ge prefix (map (fun m => alias (mem_info m)) (mems def)) 0.

Definition qemuAssignDeviceMemoryAlias (def : virDomainDef) (mem : virDomainMemoryDef)
    (oldAlias : bool) : outcome virDomainMemoryDef :=
  match alias (mem_info mem) with
  | Some _ => Ret0 mem
  | None =>
    let prefix :=
      match mem_model mem with
      | VIR_DOMAIN_MEMORY_MODEL_DIMM => Some "dimm"
      | VIR_DOMAIN_MEMORY_MODEL_NVDIMM => Some "nvdimm"
      | VIR_DOMAIN_MEMORY_MODEL_VIRTIO_PMEM => Some "virtiopmem"
      | VIR_DOMAIN_MEMORY_MODEL_NONE
      | VIR_DOMAIN_MEMORY_MODEL_LAST => None
      end in
    match prefix with
    | None => RetErr mem
    | Some prefix =>
      with_index (qemuDeviceMemoryGetAliasID def mem oldAlias prefix)
                 (fun idx => mem_set_alias (Some (prefix ++ fmt_d idx)) mem)
    end
  end.

Definition qemuAssignDeviceShmemAlias (def : virDomainDef)
    (shmem : virDomainDeviceInfo) (idx : Z) : outcome virDomainDeviceInfo :=
  match alias shmem with
  | Some _ => Ret0 shmem
  | None =>
    let idx' :=
      if idx =? -1 then scan_skip "shmem" (map alias (shmems def)) 0
      else Some idx in
    with_index idx' (fun i => set_alias (Some ("shmem" ++ fmt_d i)) shmem)
  end.

Definition qemuAssignDeviceWatchdogAlias (watchdog : virDomainDeviceInfo)
  : outcome virDomainDeviceInfo :=
  match alias watchdog with
  | Some _ => Ret0 watchdog
  | None => Ret0 (set_alias (Some "watchdog0") watchdog)
  end.

(** The scan starts from the [idx] it was given, which is -1 there. *)
Definition qemuAssignDeviceInputAlias (def : virDomainDef)
    (input : virDomainDeviceInfo) (idx : Z) : outcome virDomainDeviceInfo :=
  match alias input with
  | Some _ => Ret0 input
  | None =>
    let idx' :=
      if idx =? -1 then scan_ge "input" (map alias (inputs def)) idx
      else Some idx in
    with_index idx' (fun i => set_alias (Some ("input" ++ fmt_d i)) input)
  end.

Definition qemuAssignDeviceVsockAlias (vsock : virDomainDeviceInfo)
  : outcome virDomainDeviceInfo :=
  match alias vsock with
  | Some _ => Ret0 vsock
  | None => Ret0 (set_alias (Some "vsock0") vsock)
  end.

(** ** The domain-wide pass *)

(** The callee worked on a part [a] of the state; [k] puts it back. *)
Definition put_back {A S : Type} (o : outcome A) (k : A -> S) : outcome S :=
  match o with
  | Ret0 a => Ret0 (k a)
  | RetErr a => RetErr (k a)
  | Undef => Undef
  end.

(** [for (i = 0; i < def->n; i++) if (assign(def, def->arr[i], ..) < 0) return -1;]
    over the device array read by [get] and written by [set]. *)
Definition loop_over {A : Type} (get : virDomainDef -> list A)
    (set : list A -> virDomainDef -> virDomainDef)
    (assign : virDomainDef -> nat -> A -> outcome A)
    (def : virDomainDef) : outcome virDomainDef :=
  for_each (length (get def))
    (fun i d =>
       match get d !! i with
       | Some x => put_back (assign d i x) (fun x' => set (<[i:=x']> (get d)) d)
       | None => Ret0 d
       end) def.

(** A store to [def->hostdevs[i]->info->alias], through the info pointer. *)
Definition hostdev_store_alias (def : virDomainDef) (i : nat)
    (h : virDomainHostdevDef) (a : option string) : virDomainDef :=
  match hostdev_info h with
  | OwnInfo info =>
    set_hostdevs (<[i:={| hostdev_info := OwnInfo (set_alias a info) |}]> (hostdevs def)) def
  | NetInfo n =>
    match nets def !! n with
    | Some net => set_nets (<[n:=net_set_alias a net]> (nets def)) def
    | None => def
    end
  end.

(** The steps of a function run in order, up to the first that fails. *)
Fixpoint run_steps {S : Type} (steps : list (S -> outcome S)) (s : S) : outcome S :=
  match steps with
  | [] => Ret0 s
  | f :: rest => obind (f s) (run_steps rest)
  end.

Definition assign_hostdevs (def : virDomainDef) : outcome virDomainDef :=
  for_each (length (hostdevs def))
    (fun i d =>
       match hostdevs d !! i with
       | Some h =>
         (* we can't start assigning at 0, since netdevs may have used
            up some hostdevN entries already. Also if the HostdevDef is
            linked to a NetDef, they will share an info and the alias
            will already be set, so don't try to set it again. *)
         put_back (qemuAssignDeviceHostdevAlias d (hostdev_alias d h) (-1))
                  (hostdev_store_alias d i h)
       | None => Ret0 d
       end) def.

Definition assign_watchdog (def : virDomainDef) : outcome virDomainDef :=
  match watchdog def with
  | Some w =>
    put_back (qemuAssignDeviceWatchdogAlias w) (fun w' => set_watchdog (Some w') def)
  | None => Ret0 def
  end.

Definition assign_memballoon (def : virDomainDef) : outcome virDomainDef :=
  match memballoon def with
  | Some b =>
    if negb (bool_decide (memballoon_model b = VIR_DOMAIN_MEMBALLOON_MODEL_NONE)) then
      put_back (qemuAssignDeviceMemballoonAlias b 0)
               (fun b' => set_memballoon (Some b') def)
    else Ret0 def
  | None => Ret0 def
  end.

Definition assign_vsock (def : virDomainDef) : outcome virDomainDef :=
  match vsock def with
  | Some v =>
    put_back (qemuAssignDeviceVsockAlias v) (fun v' => set_vsock (Some v') def)
  | None => Ret0 def
  end.

Section Pass.
Context `{Collaborators}.

Definition qemuAssignDeviceAliases_steps (qemuCaps : virQEMUCaps)
  : list (virDomainDef -> outcome virDomainDef) :=
  [ loop_over disks set_disks
      (fun d _ disk => qemuAssignDeviceDiskAlias d disk qemuCaps);
    loop_over nets set_nets
      (fun d _ net => qemuAssignDeviceNetAlias d net (-1));
    loop_over fss set_fss
      (fun _ i fs => qemuAssignDeviceFSAlias fs (int_of_size_t i));
    loop_over sounds set_sounds
      (fun _ i sound => qemuAssignDeviceSoundAlias sound (int_of_size_t i));
    assign_hostdevs;
    loop_over redirdevs set_redirdevs
      (fun d i redirdev => qemuAssignDeviceRedirdevAlias d redirdev (int_of_size_t i));
    loop_over videos set_videos
      (fun _ i video => qemuAssignDeviceVideoAlias video (int_of_size_t i));
    loop_over controllers set_controllers
      (fun d _ controller => qemuAssignDeviceControllerAlias d qemuCaps controller);
    loop_over inputs set_inputs
      (fun d i input => qemuAssignDeviceInputAlias d input (int_of_size_t i));
    (* the character devices take [ssize_t idx] *)
    loop_over parallels set_parallels
      (fun d i chr => qemuAssignDeviceChrAlias d chr (Z.of_nat i));
    loop_over serials set_serials
      (fun d i chr => qemuAssignDeviceChrAlias d chr (Z.of_nat i));
    loop_over channels set_channels
      (fun d i chr => qemuAssignDeviceChrAlias d chr (Z.of_nat i));
    loop_over consoles set_consoles
      (fun d i chr => qemuAssignDeviceChrAlias d chr (Z.of_nat i));
    loop_over hubs set_hubs
      (fun _ i hub => qemuAssignDeviceHubAlias hub (int_of_size_t i));
    loop_over shmems set_shmems
      (fun d i shmem => qemuAssignDeviceShmemAlias d shmem (int_of_size_t i));
    loop_over smartcards set_smartcards
      (fun _ i smartcard => qemuAssignDeviceSmartcardAlias smartcard (int_of_size_t i));
    assign_watchdog;
    assign_memballoon;
    loop_over rngs set_rngs
      (fun d _ rng => qemuAssignDeviceRNGAlias d rng);
    loop_over tpms set_tpms
      (fun _ i tpm => qemuAssignDeviceTPMAlias tpm (int_of_size_t i));
    loop_over mems set_mems
      (fun d _ mem => qemuAssignDeviceMemoryAlias d mem false);
    assign_vsock ].

Definition qemuAssignDeviceAliases (def : virDomainDef) (qemuCaps : virQEMUCaps)
  : outcome virDomainDef :=
  run_steps (qemuAssignDeviceAliases_steps qemuCaps) def.

End Pass.

(** ** Backup descriptors (backup_conf.c) *)

(** An XML element as the parser sees it through libxml2: its name, its
    attributes, its string value and its child elements. *)
#[warnings="-register-all"]
Inductive xmlNode :=
| XmlElem (name : string) (props : list (string * string)) (text : string)
          (children : list xmlNode).

Definition xml_name (n : xmlNode) : string :=
  match n with XmlElem name _ _ _ => name end.
Definition xml_props (n : xmlNode) : list (string * string) :=
  match n with XmlElem _ props _ _ => props end.
Definition xml_text (n : xmlNode) : string :=
  match n with XmlElem _ _ text _ => text end.
Definition xml_children (n : xmlNode) : list xmlNode :=
  match n with XmlElem _ _ _ children => children end.

(** [virXMLPropString]: the value of the attribute, NULL when absent. *)
Definition virXMLPropString (node : xmlNode) (name : string) : option string :=
  snd <$> List.find (fun p => String.eqb (fst p) name) (xml_props node).

Definition virXMLNodeNameEqual (node : xmlNode) (name : string) : bool :=
  String.eqb (xml_name node) name.

(** The node set of the XPath [./name]. *)
Definition xpath_child (name : string) (node : xmlNode) : list xmlNode :=
  List.filter (fun c => virXMLNodeNameEqual c name) (xml_children node).

(** [virXPathString]: NULL for an empty result. *)
Definition nonempty (s : string) : option string :=
  match s with
  | EmptyString => None
  | _ => Some s
  end.

(** [virXPathNode("./name", ctxt)]: the first node of the set. *)
Definition virXPathNode_child (name : string) (node : xmlNode) : option xmlNode :=
  head (xpath_child name node).

(** [virXPathNodeSet("./name/*", ctxt, &nodes)]; the count is never
    negative for this path. *)
Definition virXPathNodeSet_grandchildren (name : string) (node : xmlNode)
  : list xmlNode :=
  concat (map xml_children (xpath_child name node)).

(** [virXPathString("string(./name)", ctxt)] *)
Definition virXPathString_child (name : string) (node : xmlNode) : option string :=
  match xpath_child name node with
  | c :: _ => nonempty (xml_text c)
  | [] => None
  end.

(** [virXPathString("string(./name/@attr)", ctxt)] *)
Definition virXPathString_child_attr (name attr : string) (node : xmlNode)
  : option string :=
  match omap (fun c => virXMLPropString c attr) (xpath_child name node) with
  | v :: _ => nonempty v
  | [] => None
  end.

(** [VIR_ENUM_IMPL]: the index of the name in the table, -1 when absent. *)
Fixpoint virEnumFromString (names : list string) (type : string) : Z :=
  match names with
  | [] => -1
  | n :: rest =>
    if String.eqb n type then 0
    else let r := virEnumFromString rest type in
         if r <? 0 then -1 else r + 1
  end.

Definition VIR_DOMAIN_BACKUP_TYPE_DEFAULT : Z := 0.
Definition VIR_DOMAIN_BACKUP_TYPE_PUSH : Z := 1.
Definition VIR_DOMAIN_BACKUP_TYPE_PULL : Z := 2.

Definition virDomainBackupTypeFromString : string -> Z :=
  virEnumFromString ["default"; "push"; "pull"].

Definition VIR_DOMAIN_BACKUP_DISK_STATE_NONE : Z := 0.

Definition virDomainBackupDiskStateTypeFromString : string -> Z :=
  virEnumFromString [""; "running"; "complete"; "failed"; "cancelling"; "cancelled"].

Definition VIR_DOMAIN_BACKUP_DISK_BACKUP_MODE_DEFAULT : Z := 0.
Definition VIR_DOMAIN_BACKUP_DISK_BACKUP_MODE_FULL : Z := 1.
Definition VIR_DOMAIN_BACKUP_DISK_BACKUP_MODE_INCREMENTAL : Z := 2.

Definition virDomainBackupDiskBackupModeTypeFromString : string -> Z :=
  virEnumFromString [""; "full"; "incremental"].

Definition VIR_TRISTATE_BOOL_ABSENT : Z := 0.
Definition VIR_TRISTATE_BOOL_YES : Z := 1.
Definition VIR_TRISTATE_BOOL_NO : Z := 2.

(** Modelled from the spec: the table of virTristateBool (util/virenum.c)
    is missing; the spec has [backup] and [tls] range over yes and no, the
    value 0 standing for an absent attribute. *)
Definition virTristateBoolTypeFromString : string -> Z :=
  virEnumFromString ["default"; "yes"; "no"].

Inductive virStorageNetHostTransport :=
| VIR_STORAGE_NET_HOST_TRANS_TCP
| VIR_STORAGE_NET_HOST_TRANS_UNIX
| VIR_STORAGE_NET_HOST_TRANS_RDMA.

#[global] Instance virStorageNetHostTransport_eq_dec :
  EqDecision virStorageNetHostTransport.
Proof. solve_decision. Defined.

Record virStorageNetHostDef := {
  host_name : option string;
  host_port : Z;
  host_transport : virStorageNetHostTransport;
  host_socket : option string
}.

Record virDomainBackupDiskDef := {
  bdisk_name : option string;
  bdisk_backup : Z;
  bdisk_backupmode : Z;
  bdisk_incremental : option string;
  bdisk_exportname : option string;
  bdisk_exportbitmap : option string;
  bdisk_store : option virStorageSource;
  bdisk_state : Z
}.

Record virDomainBackupDef := {
  backup_type : Z;
  backup_incremental : option string;
  backup_server : option virStorageNetHostDef;
  backup_tls : Z;
  backup_disks : list virDomainBackupDiskDef;
  backup_tlsAlias : option string;
  backup_tlsSecretAlias : option string
}.

(** An entry as [g_new0] and [VIR_EXPAND_N] leave it: all zero. *)
Definition bdisk_zero : virDomainBackupDiskDef :=
  {| bdisk_name := None; bdisk_backup := 0; bdisk_backupmode := 0;
     bdisk_incremental := None; bdisk_exportname := None;
     bdisk_exportbitmap := None; bdisk_store := None; bdisk_state := 0 |}.

(** The collaborators of backup_conf.c that live in other files. *)
Class BackupCollaborators := {
  virDomainStorageNetworkParseHost : xmlNode -> option virStorageNetHostDef;
  virDomainStorageSourceParseBase :
    option string -> option string -> option string -> option virStorageSource;
  virDomainStorageSourceParse :
    xmlNode -> virStorageSource -> bool -> option virStorageSource;
  virStorageSourceIsEmpty : virStorageSource -> bool;
  virStorageSourceGetActualType : virStorageSource -> virStorageType
}.

Definition bdisk_set_store (st : option virStorageSource)
    (b : virDomainBackupDiskDef) : virDomainBackupDiskDef :=
  {| bdisk_name := bdisk_name b; bdisk_backup := bdisk_backup b;
     bdisk_backupmode := bdisk_backupmode b;
     bdisk_incremental := bdisk_incremental b;
     bdisk_exportname := bdisk_exportname b;
     bdisk_exportbitmap := bdisk_exportbitmap b;
     bdisk_store := st; bdisk_state := bdisk_state b |}.

Definition bdisk_set_name (n : option string)
    (b : virDomainBackupDiskDef) : virDomainBackupDiskDef :=
  {| bdisk_name := n; bdisk_backup := bdisk_backup b;
     bdisk_backupmode := bdisk_backupmode b;
     bdisk_incremental := bdisk_incremental b;
     bdisk_exportname := bdisk_exportname b;
     bdisk_exportbitmap := bdisk_exportbitmap b;
     bdisk_store := bdisk_store b; bdisk_state := bdisk_state b |}.

Definition bdisk_set_backup (v : Z)
    (b : virDomainBackupDiskDef) : virDomainBackupDiskDef :=
  {| bdisk_name := bdisk_name b; bdisk_backup := v;
     bdisk_backupmode := bdisk_backupmode b;
     bdisk_incremental := bdisk_incremental b;
     bdisk_exportname := bdisk_exportname b;
     bdisk_exportbitmap := bdisk_exportbitmap b;
     bdisk_store := bdisk_store b; bdisk_state := bdisk_state b |}.

Definition bdisk_set_backupmode (v : Z)
    (b : virDomainBackupDiskDef) : virDomainBackupDiskDef :=
  {| bdisk_name := bdisk_name b; bdisk_backup := bdisk_backup b;
     bdisk_backupmode := v;
     bdisk_incremental := bdisk_incremental b;
     bdisk_exportname := bdisk_exportname b;
     bdisk_exportbitmap := bdisk_exportbitmap b;
     bdisk_store := bdisk_store b; bdisk_state := bdisk_state b |}.

Definition bdisk_set_incremental (v : option string)
    (b : virDomainBackupDiskDef) : virDomainBackupDiskDef :=
  {| bdisk_name := bdisk_name b; bdisk_backup := bdisk_backup b;
     bdisk_backupmode := bdisk_backupmode b;
     bdisk_incremental := v;
     bdisk_exportname := bdisk_exportname b;
     bdisk_exportbitmap := bdisk_exportbitmap b;
     bdisk_store := bdisk_store b; bdisk_state := bdisk_state b |}.

Definition backup_set_disks (l : list virDomainBackupDiskDef)
    (def : virDomainBackupDef) : virDomainBackupDef :=
  {| backup_type := backup_type def;
     backup_incremental := backup_incremental def;
     backup_server := backup_server def; backup_tls := backup_tls def;
     backup_disks := l;
     backup_tlsAlias := backup_tlsAlias def;
     backup_tlsSecretAlias := backup_tlsSecretAlias def |}.

(** [def->server->socket[0] != '/'] *)
Definition starts_with_slash (s : option string) : bool :=
  match s with
  | Some (String c _) => Ascii.eqb c "/"
  | _ => false
  end.

Section Backup.
Context `{BackupCollaborators}.

(** NULL is [None]; [internal] is [flags & VIR_DOMAIN_BACKUP_PARSE_INTERNAL]. *)
Definition virDomainBackupDiskDefParseXML (node : xmlNode) (push internal : bool)
  : option virDomainBackupDiskDef :=
  match virXMLPropString node "name" with
  | None => None
  | Some name =>
    let backup_attr := virXMLPropString node "backup" in
    let tmp := from_option virTristateBoolTypeFromString 1 backup_attr in
    if tmp <=? 0 then None
    else
      let def := bdisk_set_backup tmp (bdisk_set_name (Some name) bdisk_zero) in
      (* don't parse anything else if backup is disabled *)
      if tmp =? VIR_TRISTATE_BOOL_NO then Some def
      else
        let exportname := if push then None else virXMLPropString node "exportname" in
        let exportbitmap := if push then None else virXMLPropString node "exportbitmap" in
        let backupmode :=
          from_option virDomainBackupDiskBackupModeTypeFromString 0
                      (virXMLPropString node "backupmode") in
        if backupmode <? 0 then None
        else
          let state :=
            if internal then
              from_option virDomainBackupDiskStateTypeFromString (-1)
                          (virXMLPropString node "state")
            else 0 in
          if state <? 0 then None
          else
            let type := virXMLPropString node "type" in
            let format := virXPathString_child_attr "driver" "type" node in
            let idx := if internal then virXMLPropString node "index" else None in
            match virDomainStorageSourceParseBase type format idx with
            | None => None
            | Some store =>
              if negb (bool_decide (storage_type store = VIR_STORAGE_TYPE_FILE))
                 && negb (bool_decide (storage_type store = VIR_STORAGE_TYPE_BLOCK))
              then None
              else
                let srcNode :=
                  if push then virXPathNode_child "target" node
                  else virXPathNode_child "scratch" node in
                let parsed :=
                  match srcNode with
                  | Some n => virDomainStorageSourceParse n store internal
                  | None => Some store
                  end in
                match parsed with
                | None => None
                | Some store' =>
                  Some {| bdisk_name := Some name; bdisk_backup := tmp;
                          bdisk_backupmode := backupmode;
                          bdisk_incremental := virXMLPropString node "incremental";
                          bdisk_exportname := exportname;
                          bdisk_exportbitmap := exportbitmap;
                          bdisk_store := Some store'; bdisk_state := state |}
                end
            end
  end.

(** The [<server>] block: the host and the tls state, or the error. *)
Definition backup_parse_server (type : Z) (node : xmlNode)
  : option (virStorageNetHostDef * Z) :=
  if negb (type =? VIR_DOMAIN_BACKUP_TYPE_PULL) then None
  else
    match virDomainStorageNetworkParseHost node with
    | None => None
    | Some server =>
      if bool_decide (host_transport server = VIR_STORAGE_NET_HOST_TRANS_RDMA)
      then None
      else if bool_decide (host_transport server = VIR_STORAGE_NET_HOST_TRANS_UNIX)
              && negb (starts_with_slash (host_socket server))
      then None
      else
        match virXMLPropString node "tls" with
        | Some tls =>
          let tmp := virTristateBoolTypeFromString tls in
          if tmp <=? 0 then None else Some (server, tmp)
        | None => Some (server, 0)
        end
    end.

(** The private data of the status XML:
    [./privateData/objects/secret[@type='tlskey']/@alias] and
    [./privateData/objects/TLSx509/@alias]. *)
Definition private_objects (node : xmlNode) : list xmlNode :=
  concat (map (xpath_child "objects") (xpath_child "privateData" node)).

Definition private_alias (elem : string) (pred : xmlNode -> bool) (node : xmlNode)
  : option string :=
  match omap (fun c => virXMLPropString c "alias")
             (List.filter pred (concat (map (xpath_child elem) (private_objects node)))) with
  | v :: _ => nonempty v
  | [] => None
  end.

(** [ctxt->node] is [root]; NULL is [None]. *)
Definition virDomainBackupDefParse (root : xmlNode) (internal : bool)
  : option virDomainBackupDef :=
  let type :=
    from_option virDomainBackupTypeFromString VIR_DOMAIN_BACKUP_TYPE_PUSH
                (virXMLPropString root "mode") in
  if bool_decide (is_Some (virXMLPropString root "mode")) && (type <=? 0) then None
  else
    let push := type =? VIR_DOMAIN_BACKUP_TYPE_PUSH in
    let incremental := virXPathString_child "incremental" root in
    let server :=
      match virXPathNode_child "server" root with
      | Some node =>
        match backup_parse_server type node with
        | Some (srv, tls) => Some (Some srv, tls)
        | None => None
        end
      | None => Some (None, 0)
      end in
    match server with
    | None => None
    | Some (srv, tls) =>
      let nodes := virXPathNodeSet_grandchildren "disks" root in
      match mapM (fun n => virDomainBackupDiskDefParseXML n push internal) nodes with
      | None => None
      | Some disks =>
        Some {| backup_type := type; backup_incremental := incremental;
                backup_server := srv; backup_tls := tls; backup_disks := disks;
                backup_tlsAlias :=
                  if internal then private_alias "TLSx509" (fun _ => true) root
                  else None;
                backup_tlsSecretAlias :=
                  if internal then
                    private_alias "secret"
                      (fun c => bool_decide (virXMLPropString c "type" = Some "tlskey"))
                      root
                  else None |}
      end
    end.

(** [schema_ok] is the result of the schema validation, which is run on
    documents that are not internal. *)
Definition virDomainBackupDefParseNode (root : xmlNode) (internal schema_ok : bool)
  : option virDomainBackupDef :=
  if negb (virXMLNodeNameEqual root "domainbackup") then None
  else if negb internal && negb schema_ok then None
  else virDomainBackupDefParse root internal.

End Backup.

(** [virDomainDiskByTarget] (conf/domain_conf.c): the first disk of the
    domain whose target is [dst]. *)
Definition virDomainDiskByTarget (dom : virDomainDef) (dst : string)
  : option virDomainDiskDef :=
  List.find (fun d => String.eqb (disk_dst d) dst) (disks dom).

(** [virStorageSourceNew()] with the type and the path set. *)
Definition new_file_store (path : string) : virStorageSource :=
  {| storage_type := VIR_STORAGE_TYPE_FILE; storage_path := Some path;
     storage_readonly := false; storage_format := 0; storage_id := 0 |}.

(** The last loop of [virDomainBackupAlignDisks], on one entry. *)
Definition backfill_mode (def_incremental : option string)
    (backupdisk : virDomainBackupDiskDef) : virDomainBackupDiskDef :=
  let b1 :=
    if bdisk_backupmode backupdisk =? VIR_DOMAIN_BACKUP_DISK_BACKUP_MODE_DEFAULT then
      if bool_decide (is_Some def_incremental)
         || bool_decide (is_Some (bdisk_incremental backupdisk))
      then bdisk_set_backupmode VIR_DOMAIN_BACKUP_DISK_BACKUP_MODE_INCREMENTAL backupdisk
      else bdisk_set_backupmode VIR_DOMAIN_BACKUP_DISK_BACKUP_MODE_FULL backupdisk
    else backupdisk in
  if negb (bool_decide (is_Some (bdisk_incremental b1)))
     && (bdisk_backupmode b1 =? VIR_DOMAIN_BACKUP_DISK_BACKUP_MODE_INCREMENTAL)
  then bdisk_set_incremental def_incremental b1
  else b1.

Section Align.
Context `{BackupCollaborators}.

Definition virDomainBackupDefAssignStore (disk : virDomainBackupDiskDef)
    (src : virStorageSource) (suffix : string) : outcome virDomainBackupDiskDef :=
  if virStorageSourceIsEmpty src then
    match bdisk_store disk with
    | Some _ => RetErr disk
    | None => Ret0 disk
    end
  else
    match bdisk_store disk with
    | None =>
      if bool_decide (virStorageSourceGetActualType src = VIR_STORAGE_TYPE_FILE) then
        Ret0 (bdisk_set_store
                (Some (new_file_store (fmt_s (storage_path src) ++ "." ++ suffix)))
                disk)
      else RetErr disk
    | Some _ => Ret0 disk
    end.

(** "Double check requested disks": the state is the array of directives
    and the hash table of the names seen.  A directive without a name
    would be a NULL passed to a string comparison. *)
Definition align_check (def_incremental : option string) (dom : virDomainDef)
    (suffix : string) (i : nat)
    (st : list virDomainBackupDiskDef * gset string)
  : outcome (list virDomainBackupDiskDef * gset string) :=
  let '(bdisks, seen) := st in
  match bdisks !! i with
  | None => Ret0 st
  | Some backupdisk =>
    match bdisk_name backupdisk with
    | None => Undef
    | Some name =>
      match virDomainDiskByTarget dom name with
      | None => RetErr st
      | Some domdisk =>
        if bool_decide (name ∈ seen) then RetErr st
        else
          let seen' := {[ name ]} ∪ seen in
          if (bdisk_backupmode backupdisk
                =? VIR_DOMAIN_BACKUP_DISK_BACKUP_MODE_INCREMENTAL)
             && negb (bool_decide (is_Some (bdisk_incremental backupdisk)))
             && negb (bool_decide (is_Some def_incremental))
          then RetErr (bdisks, seen')
          else if bdisk_backup backupdisk =? VIR_TRISTATE_BOOL_YES then
            put_back (virDomainBackupDefAssignStore backupdisk (disk_src domdisk) suffix)
                     (fun b => (<[i:=b]> bdisks, seen'))
          else Ret0 (bdisks, seen')
      end
    end
  end.

(** The loop over the disks of the domain: the state is the (expanded)
    array of directives and the counter [ndisks].  A counter past the end
    of the array would be a store outside it. *)
Definition align_fill (seen : gset string) (backup_all : bool) (dom : virDomainDef)
    (suffix : string) (i : nat) (st : list virDomainBackupDiskDef * nat)
  : outcome (list virDomainBackupDiskDef * nat) :=
  let '(bdisks, ndisks) := st in
  match disks dom !! i with
  | None => Ret0 st
  | Some domdisk =>
    if bool_decide (disk_dst domdisk ∈ seen) then Ret0 st
    else
      match bdisks !! ndisks with
      | None => Undef
      | Some slot =>
        let named := bdisk_set_name (Some (disk_dst domdisk)) slot in
        if backup_all
           && negb (virStorageSourceIsEmpty (disk_src domdisk))
           && negb (storage_readonly (disk_src domdisk))
        then
          put_back (virDomainBackupDefAssignStore
                      (bdisk_set_backup VIR_TRISTATE_BOOL_YES named)
                      (disk_src domdisk) suffix)
                   (fun b => (<[ndisks:=b]> bdisks, Datatypes.S ndisks))
        else
          Ret0 (<[ndisks:=bdisk_set_backup VIR_TRISTATE_BOOL_NO named]> bdisks,
                Datatypes.S ndisks)
      end
  end.

Definition virDomainBackupAlignDisks (def : virDomainBackupDef) (dom : virDomainDef)
    (suffix : string) : outcome virDomainBackupDef :=
  (* Unlikely to have a guest without disks but technically possible. *)
  if Nat.eqb (length (disks dom)) 0 then RetErr def
  else
    match for_each (length (backup_disks def))
                   (align_check (backup_incremental def) dom suffix)
                   (backup_disks def, (∅ : gset string)) with
    | Undef => Undef
    | RetErr (bdisks, _) => RetErr (backup_set_disks bdisks def)
    | Ret0 (bdisks, seen) =>
      let backup_all := Nat.eqb (length bdisks) 0 in
      let ndisks := length bdisks in
      (* VIR_EXPAND_N(def->disks, def->ndisks, dom->ndisks - def->ndisks) *)
      let expanded :=
        (bdisks ++ replicate (length (disks dom) - length bdisks)%nat bdisk_zero)%list in
      match for_each (length (disks dom))
                     (align_fill seen backup_all dom suffix)
                     (expanded, ndisks) with
      | Undef => Undef
      | RetErr (bdisks', _) => RetErr (backup_set_disks bdisks' def)
      | Ret0 (bdisks', _) =>
        Ret0 (backup_set_disks (map (backfill_mode (backup_incremental def)) bdisks')
                               def)
      end
    end.

End Align.

(** ** Concrete collaborators, to run the code on concrete domains *)

(** The decoder of disk target names of util/virutil.c: "vda" is 0,
    "vdb" is 1, "sdaa" is 26; trailing digits name a partition. *)
Definition is_lower (c : ascii) : bool :=
  let n := nat_of_ascii c in (Nat.leb 97 n && Nat.leb n 122)%bool.

Definition is_digit (c : ascii) : bool :=
  let n := nat_of_ascii c in (Nat.leb 48 n && Nat.leb n 57)%bool.

Fixpoint all_digits (s : string) : bool :=
  match s with
  | EmptyString => true
  | String c r => (is_digit c && all_digits r)%bool
  end.

Fixpoint disk_letters (s : string) (first : bool) (idx : Z) : Z :=
  match s with
  | String c r =>
    if is_lower c then
      disk_letters r false
        ((idx + (if first then 0 else 1)) * 26 + (Z.of_nat (nat_of_ascii c) - 97))
    else if all_digits s then idx else -1
  | EmptyString => idx
  end.

Definition disk_name_to_index (name : string) : Z :=
  match omap (fun p => strip_prefix p name) ["fd"; "hd"; "vd"; "sd"; "xvd"; "ubd"] with
  | rest :: _ => disk_letters rest true 0
  | [] => -1
  end.

(** The SCSI controller lookup of qemu_domain_address.c: the model of the
    SCSI controller the drive address names, -1 when there is none. *)
Definition find_scsi_controller_model (def : virDomainDef)
    (info : virDomainDeviceInfo) : Z :=
  match List.find
          (fun c => (bool_decide (controller_type c = VIR_DOMAIN_CONTROLLER_TYPE_SCSI)
                     && (controller_idx c =? drive_controller (addr_drive info)))%bool)
          (controllers def) with
  | Some c => controller_model c
  | None => -1
  end.

Definition libvirt_collaborators : Collaborators :=
  {| virDomainDiskBusTypeToString := fun b =>
       match b with
       | VIR_DOMAIN_DISK_BUS_IDE => "ide"
       | VIR_DOMAIN_DISK_BUS_FDC => "fdc"
       | VIR_DOMAIN_DISK_BUS_SCSI => "scsi"
       | VIR_DOMAIN_DISK_BUS_VIRTIO => "virtio"
       | VIR_DOMAIN_DISK_BUS_XEN => "xen"
       | VIR_DOMAIN_DISK_BUS_USB => "usb"
       | VIR_DOMAIN_DISK_BUS_UML => "uml"
       | VIR_DOMAIN_DISK_BUS_SATA => "sata"
       | VIR_DOMAIN_DISK_BUS_SD => "sd"
       | VIR_DOMAIN_DISK_BUS_LAST => "(null)"
       end;
     virDomainControllerTypeToString := fun t =>
       match t with
       | VIR_DOMAIN_CONTROLLER_TYPE_IDE => "ide"
       | VIR_DOMAIN_CONTROLLER_TYPE_FDC => "fdc"
       | VIR_DOMAIN_CONTROLLER_TYPE_SCSI => "scsi"
       | VIR_DOMAIN_CONTROLLER_TYPE_SATA => "sata"
       | VIR_DOMAIN_CONTROLLER_TYPE_VIRTIO_SERIAL => "virtio-serial"
       | VIR_DOMAIN_CONTROLLER_TYPE_CCID => "ccid"
       | VIR_DOMAIN_CONTROLLER_TYPE_USB => "usb"
       | VIR_DOMAIN_CONTROLLER_TYPE_PCI => "pci"
       | VIR_DOMAIN_CONTROLLER_TYPE_XENBUS => "xenbus"
       | VIR_DOMAIN_CONTROLLER_TYPE_ISA => "isa"
       end;
     virDiskNameToIndex := disk_name_to_index;
     qemuDomainFindSCSIControllerModel := find_scsi_controller_model;
     VIR_DOMAIN_CONTROLLER_MODEL_PCIE_ROOT := 1;
     VIR_DOMAIN_CONTROLLER_MODEL_SCSI_NCR53C90 := 10;
     VIR_DOMAIN_CONTROLLER_MODEL_SCSI_LSILOGIC := 2 |}.

(** The storage helpers on local files, with sub-parsers that read the
    attributes they are named after. *)
Definition libvirt_backup_collaborators : BackupCollaborators :=
  {| virDomainStorageNetworkParseHost := fun node =>
       Some {| host_name := virXMLPropString node "name"; host_port := 0;
               host_transport :=
                 match virXMLPropString node "transport" with
                 | Some "unix" => VIR_STORAGE_NET_HOST_TRANS_UNIX
                 | Some "rdma" => VIR_STORAGE_NET_HOST_TRANS_RDMA
                 | _ => VIR_STORAGE_NET_HOST_TRANS_TCP
                 end;
               host_socket := virXMLPropString node "socket" |};
     virDomainStorageSourceParseBase := fun type _ _ =>
       match type with
       | Some "block" =>
         Some {| storage_type := VIR_STORAGE_TYPE_BLOCK; storage_path := None;
                 storage_readonly := false; storage_format := 0; storage_id := 0 |}
       | Some "file" | None =>
         Some {| storage_type := VIR_STORAGE_TYPE_FILE; storage_path := None;
                 storage_readonly := false; storage_format := 0; storage_id := 0 |}
       | Some _ => None
       end;
     virDomainStorageSourceParse := fun node store _ =>
       Some {| storage_type := storage_type store;
               storage_path := virXMLPropString node "file";
               storage_readonly := storage_readonly store;
               storage_format := storage_format store;
               storage_id := storage_id store |};
     virStorageSourceIsEmpty := fun src =>
       (bool_decide (storage_type src = VIR_STORAGE_TYPE_NONE)
        || (negb (bool_decide (storage_type src = VIR_STORAGE_TYPE_NETWORK))
            && negb (bool_decide (is_Some (storage_path src)))))%bool;
     virStorageSourceGetActualType := storage_type |}.

(** Devices and domains to build examples from. *)
Definition no_drive : virDomainDeviceDriveAddress :=
  {| drive_controller := 0; drive_bus := 0; drive_target := 0; drive_unit := 0 |}.

Definition info_of (a : option string) : virDomainDeviceInfo :=
  {| alias := a; info_type := VIR_DOMAIN_DEVICE_ADDRESS_TYPE_NONE;
     addr_drive := no_drive; addr_dimm_slot := 0 |}.

Definition empty_def : virDomainDef :=
  {| disks := []; nets := []; fss := []; sounds := []; hostdevs := [];
     redirdevs := []; videos := []; controllers := []; inputs := [];
     parallels := []; serials := []; channels := []; consoles := []; hubs := [];
     shmems := []; smartcards := []; watchdog := None; memballoon := None;
     rngs := []; tpms := []; mems := []; vsock := None;
     has_builtin_ide := true; is_q35 := false |}.

Definition net_of (a : option string) (ty : virDomainNetType) : virDomainNetDef :=
  {| net_info := info_of a; net_actual_type := ty |}.

Definition file_source (path : string) (ro : bool) : virStorageSource :=
  {| storage_type := VIR_STORAGE_TYPE_FILE; storage_path := Some path;
     storage_readonly := ro; storage_format := 0; storage_id := 0 |}.

Definition virtio_disk (dst : string) (src : virStorageSource) : virDomainDiskDef :=
  {| disk_info := info_of None; disk_bus := VIR_DOMAIN_DISK_BUS_VIRTIO;
     disk_dst := dst; disk_src := src; disk_qomName := None |}.

Definition default_caps : virQEMUCaps :=
  {| caps_pci_multibus := true; caps_blockdev := true |}.

(** ** Specification-level notions used in the statements *)

(** Following the spec's words, "the maximum seen plus one": the suffixes
    seen are the non-negative indices the aliases parse to under the
    prefix, and the next index is the highest of them plus one, 0 when
    none was seen. *)
Definition seen_suffixes (prefix : string) (aliases : list (option string)) : list Z :=
  List.filter (fun z => 0 <=? z)
              (map (fun a => qemuDomainDeviceAliasIndex a prefix) aliases).

Definition highest_plus_one (suffixes : list Z) : Z :=
  foldr (fun z acc => Z.max (z + 1) acc) 0 suffixes.

(** The scan meets the undefined increment exactly when an alias carries
    the suffix [INT_MAX]. *)
Definition has_int_max (prefix : string) (aliases : list (option string)) : bool :=
  existsb (fun a => qemuDomainDeviceAliasIndex a prefix =? INT_MAX) aliases.

(** A domain disk that the backfill of an empty disk list backs up. *)
Definition backed_up `{BackupCollaborators} (d : virDomainDiskDef) : bool :=
  (negb (virStorageSourceIsEmpty (disk_src d))
   && negb (storage_readonly (disk_src d)))%bool.

(** What the claim on the backfill says of the directive [b] made for the
    domain disk [d]: it carries the target of the disk; for a disk to
    back up it is enabled and its store is a file whose path is the path
    of the disk, a dot and the suffix (a disk without a path is printed
    as "(null)"); for any other disk it is disabled and has no store. *)
Definition aligned_directive `{BackupCollaborators} (suffix : string)
    (d : virDomainDiskDef) (b : virDomainBackupDiskDef) : Prop :=
  bdisk_name b = Some (disk_dst d) /\
  if backed_up d then
    bdisk_backup b = VIR_TRISTATE_BOOL_YES /\
    exists store,
      bdisk_store b = Some store /\
      storage_type store = VIR_STORAGE_TYPE_FILE /\
      storage_path store
      = Some (match storage_path (disk_src d) with
              | Some path => path ++ "." ++ suffix
              | None => "(null)." ++ suffix
              end)
  else
    bdisk_backup b = VIR_TRISTATE_BOOL_NO /\ bdisk_store b = None.

(** The directive the second loop writes into a zeroed slot. *)
Definition filled_directive `{BackupCollaborators} (suffix : string)
    (d : virDomainDiskDef) : virDomainBackupDiskDef :=
  if backed_up d then
    bdisk_set_store
      (Some (new_file_store (fmt_s (storage_path (disk_src d)) ++ "." ++ suffix)))
      (bdisk_set_backup VIR_TRISTATE_BOOL_YES
         (bdisk_set_name (Some (disk_dst d)) bdisk_zero))
  else
    bdisk_set_backup VIR_TRISTATE_BOOL_NO
      (bdisk_set_name (Some (disk_dst d)) bdisk_zero).

(** The live storage of every disk to back up is a plain file. *)
Definition all_plain_files `{BackupCollaborators} (l : list virDomainDiskDef) : bool :=
  forallb (fun d =>
             implb (backed_up d)
                   (bool_decide (virStorageSourceGetActualType (disk_src d)
                                 = VIR_STORAGE_TYPE_FILE))) l.

Definition empty_backup (type : Z) : virDomainBackupDef :=
  {| backup_type := type; backup_incremental := None; backup_server := None;
     backup_tls := 0; backup_disks := []; backup_tlsAlias := None;
     backup_tlsSecretAlias := None |}.

(** "Other things being valid": the [<server>] block, when there is one,
    and every element under [<disks>] parse under the backup type [type]. *)
Definition rest_valid `{BackupCollaborators} (type : Z) (root : xmlNode)
    (internal : bool) : Prop :=
  match virXPathNode_child "server" root with
  | Some node => is_Some (backup_parse_server type node)
  | None => True
  end /\
  is_Some (mapM (fun n => virDomainBackupDiskDefParseXML
                            n (type =? VIR_DOMAIN_BACKUP_TYPE_PUSH) internal)
                (virXPathNodeSet_grandchildren "disks" root)).

(** [<domainbackup mode='...'><disks/></domainbackup>] *)
Definition minimal_backup_xml (mode : string) : xmlNode :=
  XmlElem "domainbackup" [("mode", mode)] "" [XmlElem "disks" [] "" []].

(** The prefix of a memory model, for the models that have one. *)
Definition memory_prefix (model : virDomainMemoryModel) : option string :=
  match model with
  | VIR_DOMAIN_MEMORY_MODEL_DIMM => Some "dimm"
  | VIR_DOMAIN_MEMORY_MODEL_NVDIMM => Some "nvdimm"
  | VIR_DOMAIN_MEMORY_MODEL_VIRTIO_PMEM => Some "virtiopmem"
  | _ => None
  end.

Definition net_aliases (def : virDomainDef) : list (option string) :=
  map (fun n => alias (net_info n)) (nets def).

Definition mem_aliases (def : virDomainDef) : list (option string) :=
  map (fun m => alias (mem_info m)) (mems def).

(** The aliases read through the info pointers of the host devices. *)
Definition hostdev_aliases (def : virDomainDef) : list (option string) :=
  map (hostdev_alias def) (hostdevs def).

(** The scavenged index put behind the prefix, as an outcome. *)
Definition scavenged {S : Type} (prefix : string) (aliases : list (option string))
    (k : string -> S) : outcome S :=
  if has_int_max prefix aliases then Undef
  else Ret0 (k (prefix ++ fmt_d (highest_plus_one (seen_suffixes prefix aliases)))).

(** A network interface that carries "hostdev7" and a host device that
    carries "hostdev2". *)
Definition hostdev7_dom : virDomainDef :=
  set_nets [net_of (Some "hostdev7") VIR_DOMAIN_NET_TYPE_HOSTDEV]
    (set_hostdevs [ {| hostdev_info := OwnInfo (info_of (Some "hostdev2")) |} ]
                  empty_def).

(** A domain whose network interfaces carry "net0" and "net2". *)
Definition net0_net2_dom : virDomainDef :=
  set_nets [net_of (Some "net0") VIR_DOMAIN_NET_TYPE_OTHER;
            net_of (Some "net2") VIR_DOMAIN_NET_TYPE_OTHER] empty_def.

Definition mem_of (model : virDomainMemoryModel) (slot : Z) : virDomainMemoryDef :=
  {| mem_info := {| alias := None; info_type := VIR_DOMAIN_DEVICE_ADDRESS_TYPE_DIMM;
                    addr_drive := no_drive; addr_dimm_slot := slot |};
     mem_model := model |}.

Definition mem_named (a : option string) (model : virDomainMemoryModel) (slot : Z)
  : virDomainMemoryDef :=
  {| mem_info := {| alias := a; info_type := VIR_DOMAIN_DEVICE_ADDRESS_TYPE_DIMM;
                    addr_drive := no_drive; addr_dimm_slot := slot |};
     mem_model := model |}.

(** A domain whose memory devices carry "dimm0" and "dimm2". *)
Definition dimm0_dimm2_dom : virDomainDef :=
  set_mems [mem_named (Some "dimm0") VIR_DOMAIN_MEMORY_MODEL_DIMM 0;
            mem_named (Some "dimm2") VIR_DOMAIN_MEMORY_MODEL_DIMM 1] empty_def.

(** ** What the pass may change *)

(** An info after some assigners ran: as it was, or, if it had no alias,
    with an alias set and nothing else changed. *)
Definition info_upd (i i' : virDomainDeviceInfo) : Prop :=
  i' = i \/ (alias i = None /\ exists a, i' = set_alias (Some a) i).

Definition disk_upd (x x' : virDomainDiskDef) : Prop :=
  info_upd (disk_info x) (disk_info x') /\ disk_bus x' = disk_bus x /\
  disk_dst x' = disk_dst x /\ disk_src x' = disk_src x.

Definition net_upd (x x' : virDomainNetDef) : Prop :=
  info_upd (net_info x) (net_info x') /\ net_actual_type x' = net_actual_type x.

Definition hostdev_upd (h h' : virDomainHostdevDef) : Prop :=
  match hostdev_info h, hostdev_info h' with
  | OwnInfo i, OwnInfo i' => info_upd i i'
  | NetInfo n, NetInfo n' => n' = n
  | _, _ => False
  end.

Definition controller_upd (x x' : virDomainControllerDef) : Prop :=
  info_upd (controller_info x) (controller_info x') /\
  controller_type x' = controller_type x /\ controller_idx x' = controller_idx x /\
  controller_model x' = controller_model x.

Definition chr_upd (x x' : virDomainChrDef) : Prop :=
  info_upd (chr_info x) (chr_info x') /\ chr_deviceType x' = chr_deviceType x.

Definition mem_upd (x x' : virDomainMemoryDef) : Prop :=
  info_upd (mem_info x) (mem_info x') /\ mem_model x' = mem_model x.

(** A memory balloon of model none is left alone. *)
Definition memballoon_upd (x x' : virDomainMemballoonDef) : Prop :=
  info_upd (memballoon_info x) (memballoon_info x') /\
  memballoon_model x' = memballoon_model x /\
  (memballoon_model x = VIR_DOMAIN_MEMBALLOON_MODEL_NONE -> x' = x).

(** The domain after some steps of the pass: the same devices in the same
    arrays, each with the alias it had, or with one where it had none. *)
Record def_upd (d d' : virDomainDef) : Prop := {
  upd_disks : Forall2 disk_upd (disks d) (disks d');
  upd_nets : Forall2 net_upd (nets d) (nets d');
  upd_fss : Forall2 info_upd (fss d) (fss d');
  upd_sounds : Forall2 info_upd (sounds d) (sounds d');
  upd_hostdevs : Forall2 hostdev_upd (hostdevs d) (hostdevs d');
  upd_redirdevs : Forall2 info_upd (redirdevs d) (redirdevs d');
  upd_videos : Forall2 info_upd (videos d) (videos d');
  upd_controllers : Forall2 controller_upd (controllers d) (controllers d');
  upd_inputs : Forall2 info_upd (inputs d) (inputs d');
  upd_parallels : Forall2 chr_upd (parallels d) (parallels d');
  upd_serials : Forall2 chr_upd (serials d) (serials d');
  upd_channels : Forall2 chr_upd (channels d) (channels d');
  upd_consoles : Forall2 chr_upd (consoles d) (consoles d');
  upd_hubs : Forall2 info_upd (hubs d) (hubs d');
  upd_shmems : Forall2 info_upd (shmems d) (shmems d');
  upd_smartcards : Forall2 info_upd (smartcards d) (smartcards d');
  upd_watchdog : option_Forall2 info_upd (watchdog d) (watchdog d');
  upd_memballoon : option_Forall2 memballoon_upd (memballoon d) (memballoon d');
  upd_rngs : Forall2 info_upd (rngs d) (rngs d');
  upd_tpms : Forall2 info_upd (tpms d) (tpms d');
  upd_mems : Forall2 mem_upd (mems d) (mems d');
  upd_vsock : option_Forall2 info_upd (vsock d) (vsock d');
  upd_has_builtin_ide : has_builtin_ide d' = has_builtin_ide d;
  upd_is_q35 : is_q35 d' = is_q35 d
}.

(** ** The aliases of a domain *)

Definition disk_alias (x : virDomainDiskDef) : option string := alias (disk_info x).
Definition net_alias (x : virDomainNetDef) : option string := alias (net_info x).
Definition controller_alias (x : virDomainControllerDef) : option string :=
  alias (controller_info x).
Definition chr_alias (x : virDomainChrDef) : option string := alias (chr_info x).
Definition mem_alias (x : virDomainMemoryDef) : option string := alias (mem_info x).
Definition memballoon_alias (x : virDomainMemballoonDef) : option string :=
  alias (memballoon_info x).

(** The alias of every device of the domain, in the order of the pass;
    that of a host device is read through its info pointer. *)
Definition device_aliases (def : virDomainDef) : list (option string) :=
  (map disk_alias (disks def)
   ++ map net_alias (nets def)
   ++ map alias (fss def)
   ++ map alias (sounds def)
   ++ map (hostdev_alias def) (hostdevs def)
   ++ map alias (redirdevs def)
   ++ map alias (videos def)
   ++ map controller_alias (controllers def)
   ++ map alias (inputs def)
   ++ map chr_alias (parallels def)
   ++ map chr_alias (serials def)
   ++ map chr_alias (channels def)
   ++ map chr_alias (consoles def)
   ++ map alias (hubs def)
   ++ map alias (shmems def)
   ++ map alias (smartcards def)
   ++ map alias (option_list (watchdog def))
   ++ map memballoon_alias (option_list (memballoon def))
   ++ map alias (rngs def)
   ++ map alias (tpms def)
   ++ map mem_alias (mems def)
   ++ map alias (option_list (vsock def)))%list.

(** The memory balloon, unless its model is none. *)
Definition real_memballoon (def : virDomainDef) : list virDomainMemballoonDef :=
  List.filter
    (fun b => negb (bool_decide (memballoon_model b = VIR_DOMAIN_MEMBALLOON_MODEL_NONE)))
    (option_list (memballoon def)).

(** The same without a memory balloon of model none. *)
Definition assignable_aliases (def : virDomainDef) : list (option string) :=
  (map disk_alias (disks def)
   ++ map net_alias (nets def)
   ++ map alias (fss def)
   ++ map alias (sounds def)
   ++ map (hostdev_alias def) (hostdevs def)
   ++ map alias (redirdevs def)
   ++ map alias (videos def)
   ++ map controller_alias (controllers def)
   ++ map alias (inputs def)
   ++ map chr_alias (parallels def)
   ++ map chr_alias (serials def)
   ++ map chr_alias (channels def)
   ++ map chr_alias (consoles def)
   ++ map alias (hubs def)
   ++ map alias (shmems def)
   ++ map alias (smartcards def)
   ++ map alias (option_list (watchdog def))
   ++ map memballoon_alias (real_memballoon def)
   ++ map alias (rngs def)
   ++ map alias (tpms def)
   ++ map mem_alias (mems def)
   ++ map alias (option_list (vsock def)))%list.

(** The info pointer of every linked host device points into [nets]. *)
Definition links_valid (def : virDomainDef) : bool :=
  forallb (fun h => match hostdev_info h with
                    | OwnInfo _ => true
                    | NetInfo n => Nat.ltb n (length (nets def))
                    end) (hostdevs def).

(** An alias that was set is still there, with the same value. *)
Definition kept (a a' : option string) : Prop := is_Some a -> a' = a.

(** What each step of the pass leaves behind when it returns 0, step by
    step: the devices of its array all carry an alias. *)
Definition pass_posts : list (virDomainDef -> Prop) :=
  [ fun d => Forall (fun x => is_Some (disk_alias x)) (disks d);
    fun d => Forall (fun x => is_Some (net_alias x)) (nets d);
    fun d => Forall (fun x => is_Some (alias x)) (fss d);
    fun d => Forall (fun x => is_Some (alias x)) (sounds d);
    fun d => Forall (fun h => is_Some (hostdev_alias d h)) (hostdevs d);
    fun d => Forall (fun x => is_Some (alias x)) (redirdevs d);
    fun d => Forall (fun x => is_Some (alias x)) (videos d);
    fun d => Forall (fun x => is_Some (controller_alias x)) (controllers d);
    fun d => Forall (fun x => is_Some (alias x)) (inputs d);
    fun d => Forall (fun x => is_Some (chr_alias x)) (parallels d);
    fun d => Forall (fun x => is_Some (chr_alias x)) (serials d);
    fun d => Forall (fun x => is_Some (chr_alias x)) (channels d);
    fun d => Forall (fun x => is_Some (chr_alias x)) (consoles d);
    fun d => Forall (fun x => is_Some (alias x)) (hubs d);
    fun d => Forall (fun x => is_Some (alias x)) (shmems d);
    fun d => Forall (fun x => is_Some (alias x)) (smartcards d);
    fun d => Forall (fun x => is_Some (alias x)) (option_list (watchdog d));
    fun d => Forall (fun x => is_Some (memballoon_alias x)) (real_memballoon d);
    fun d => Forall (fun x => is_Some (alias x)) (rngs d);
    fun d => Forall (fun x => is_Some (alias x)) (tpms d);
    fun d => Forall (fun x => is_Some (mem_alias x)) (mems d);
    fun d => Forall (fun x => is_Some (alias x)) (option_list (vsock d)) ].

(** A memory balloon of model none, which the pass skips. *)
Definition balloon_none_dom : virDomainDef :=
  set_memballoon
    (Some {| memballoon_info := info_of None;
             memballoon_model := VIR_DOMAIN_MEMBALLOON_MODEL_NONE |}) empty_def.

(** A domain with devices of several classes, none with an alias; the
    second network interface resolves to the hostdev type and the first
    host device is the one linked to it. *)
Definition sample_dom : virDomainDef :=
  set_disks [virtio_disk "vda" (file_source "/a.img" false)]
    (set_nets [net_of None VIR_DOMAIN_NET_TYPE_OTHER;
               net_of None VIR_DOMAIN_NET_TYPE_HOSTDEV]
       (set_hostdevs [ {| hostdev_info := NetInfo 1 |};
                       {| hostdev_info := OwnInfo (info_of None) |} ]
          (set_fss [info_of None; info_of None]
             (set_watchdog (Some (info_of None))
                (set_memballoon
                   (Some {| memballoon_info := info_of None;
                            memballoon_model := VIR_DOMAIN_MEMBALLOON_MODEL_VIRTIO |})
                   (set_rngs [info_of None] empty_def)))))).

(** [sample_dom] as the pass leaves it. *)
Definition sample_dom_assigned : virDomainDef :=
  Eval vm_compute in
    match @qemuAssignDeviceAliases libvirt_collaborators sample_dom default_caps with
    | Ret0 d => d
    | _ => sample_dom
    end.

(** A host device of its own and two network interfaces, the second of
    which resolves to the hostdev type; no device has an alias. *)
Definition net_hostdev_dom : virDomainDef :=
  set_nets [net_of None VIR_DOMAIN_NET_TYPE_OTHER;
            net_of None VIR_DOMAIN_NET_TYPE_HOSTDEV]
    (set_hostdevs [ {| hostdev_info := OwnInfo (info_of None) |} ] empty_def).

Definition net_hostdev_dom_assigned : virDomainDef :=
  Eval vm_compute in
    match @qemuAssignDeviceAliases libvirt_collaborators net_hostdev_dom default_caps with
    | Ret0 d => d
    | _ => net_hostdev_dom
    end.

(** ** Classes of generated aliases *)

(** The prefixes the numbering assigners use, each with the number of the
    class of devices it names; "net" and "hostdev" name the one class of
    network interfaces and host devices. *)
Definition alias_prefixes : list (string * nat) :=
  [ ("net", 0); ("hostdev", 0); ("fs", 1); ("sound", 2); ("redir", 3);
    ("video", 4); ("input", 5); ("parallel", 6); ("serial", 7);
    ("channel", 8); ("console", 9); ("hub", 10); ("shmem", 11);
    ("smartcard", 12); ("watchdog", 13); ("balloon", 14); ("rng", 15);
    ("tpm", 16); ("vsock", 17) ]%nat.

Fixpoint class_of (tbl : list (string * nat)) (a : string) : option nat :=
  match tbl with
  | [] => None
  | (p, k) :: rest =>
    match strip_prefix p a with
    | Some _ => Some k
    | None => class_of rest a
    end
  end.

Definition alias_class (a : string) : option nat := class_of alias_prefixes a.

(** The alias of a host device that has its own info; a linked host
    device is the network interface it is linked to, not a device more. *)
Definition own_hostdev_alias (h : virDomainHostdevDef) : option string :=
  match hostdev_info h with
  | OwnInfo info => alias info
  | NetInfo _ => None
  end.

(** The aliases of the devices that the pass numbers by position or by
    scavenging, class by class: all devices but the disks, the
    controllers and the memory devices. *)
Definition numbered_alias_parts (def : virDomainDef) : list (list (option string)) :=
  [ (map net_alias (nets def) ++ map own_hostdev_alias (hostdevs def))%list;
    map alias (fss def);
    map alias (sounds def);
    map alias (redirdevs def);
    map alias (videos def);
    map alias (inputs def);
    map chr_alias (parallels def);
    map chr_alias (serials def);
    map chr_alias (channels def);
    map chr_alias (consoles def);
    map alias (hubs def);
    map alias (shmems def);
    map alias (smartcards def);
    map alias (option_list (watchdog def));
    map memballoon_alias (option_list (memballoon def));
    map alias (rngs def);
    map alias (tpms def);
    map alias (option_list (vsock def)) ].

(** Every character device sits in the array of its type. *)
Definition chr_arrays_typed (def : virDomainDef) : bool :=
  (forallb (fun c => bool_decide (chr_deviceType c = VIR_DOMAIN_CHR_DEVICE_TYPE_PARALLEL))
           (parallels def)
   && forallb (fun c => bool_decide (chr_deviceType c = VIR_DOMAIN_CHR_DEVICE_TYPE_SERIAL))
              (serials def)
   && forallb (fun c => bool_decide (chr_deviceType c = VIR_DOMAIN_CHR_DEVICE_TYPE_CHANNEL))
              (channels def)
   && forallb (fun c => bool_decide (chr_deviceType c = VIR_DOMAIN_CHR_DEVICE_TYPE_CONSOLE))
              (consoles def))%bool.

(** The arrays numbered by position hold fewer than 2^31 devices, so
    that the position is the [int] handed to the assigner. *)
Definition arrays_within_int (def : virDomainDef) : bool :=
  forallb (fun n => Z.of_nat n <=? INT_MAX)
          [ length (fss def); length (sounds def); length (redirdevs def);
            length (videos def); length (inputs def); length (parallels def);
            length (serials def); length (channels def); length (consoles def);
            length (hubs def); length (shmems def); length (smartcards def);
            length (tpms def) ].

(** No device of the domain carries an alias. *)
Definition no_alias_set (def : virDomainDef) : bool :=
  forallb (fun a => negb (bool_decide (is_Some a))) (device_aliases def).

(** A domain with a writable disk and a read-only one. *)
Definition two_disk_dom : virDomainDef :=
  set_disks [virtio_disk "vda" (file_source "/a.img" false);
             virtio_disk "vdb" (file_source "/b.img" true)] empty_def.

(** A step keeps [def_upd], whether it returns 0 or -1. *)
Definition step_upd (f : virDomainDef -> outcome virDomainDef) : Prop :=
  forall d d', f d = Ret0 d' \/ f d = RetErr d' -> def_upd d d'.

(** What the loop over the host devices did for a host device with its
    own info and no alias: at some state [t] of the loop it scavenged
    an index above every hostdev suffix of the host devices and of the
    network interfaces, and the device carries that alias at the end. *)
Definition own_hostdev_named (d t' : virDomainDef) (k : nat) : Prop :=
  forall h info,
    hostdevs d !! k = Some h -> hostdev_info h = OwnInfo info -> alias info = None ->
    exists t N h',
      def_upd d t /\ def_upd t t' /\ 0 <= N <= INT_MAX /\
      (Some ("hostdev" ++ fmt_d N) ∉ (hostdev_aliases t ++ net_aliases t)%list) /\
      Forall (fun a => qemuDomainDeviceAliasIndex a "hostdev" < N)
             (hostdev_aliases t ++ net_aliases t)%list /\
      hostdevs t' !! k = Some h' /\
      hostdev_alias t' h' = Some ("hostdev" ++ fmt_d N).

(** A step that leaves a part of the domain as it was. *)
Definition step_keeps {B : Type} (F : virDomainDef -> B)
    (f : virDomainDef -> outcome virDomainDef) : Prop :=
  forall d d', f d = Ret0 d' -> F d' = F d.

(** A file system without an alias before one that carries "fs0". *)
Definition fs_preset_dom : virDomainDef :=
  set_fss [info_of None; info_of (Some "fs0")] empty_def.

(** [fs_preset_dom] as the pass leaves it. *)
Definition fs_preset_dom_assigned : virDomainDef :=
  Eval vm_compute in
    match @qemuAssignDeviceAliases libvirt_collaborators fs_preset_dom default_caps with
    | Ret0 d => d
    | _ => fs_preset_dom
    end.

(** Two DIMMs in one slot, without aliases. *)
Definition same_slot_dom : virDomainDef :=
  set_mems [mem_of VIR_DOMAIN_MEMORY_MODEL_DIMM 0; mem_of VIR_DOMAIN_MEMORY_MODEL_DIMM 0]
           empty_def.

(** [same_slot_dom] as the pass leaves it. *)
Definition same_slot_dom_assigned : virDomainDef :=
  Eval vm_compute in
    match @qemuAssignDeviceAliases libvirt_collaborators same_slot_dom default_caps with
    | Ret0 d => d
    | _ => same_slot_dom
    end.

(** ** Names derived from an alias (the second half of qemu_alias.c) *)

Definition QEMU_DRIVE_HOST_PREFIX : string := "drive-".

(** NULL, with an error reported, is [None]. *)
Definition qemuAliasDiskDriveFromDisk (disk : virDomainDiskDef) : option string :=
  match alias (disk_info disk) with
  | None => None
  | Some a => Some (QEMU_DRIVE_HOST_PREFIX ++ a)
  end.

Definition qemuAliasDiskDriveSkipPrefix (dev_name : string) : string :=
  match strip_prefix QEMU_DRIVE_HOST_PREFIX dev_name with
  | Some rest => rest
  | None => dev_name
  end.

Definition qemuDomainGetMasterKeyAlias : string := "masterKey0".

(** [obj] may be NULL. *)
Definition qemuAliasForSecret (parentalias : string) (obj : option string) : string :=
  match obj with
  | Some o => parentalias ++ "-" ++ o ++ "-secret0"
  | None => parentalias ++ "-secret0"
  end.

Definition qemuAliasTLSObjFromSrcAlias (srcAlias : string) : string :=
  "obj" ++ srcAlias ++ "_tls0".

Definition qemuAliasChardevFromDevAlias (devAlias : string) : string :=
  "char" ++ devAlias.

Definition qemuDomainGetManagedPRAlias : string := "pr-helper0".

Definition qemuDomainGetUnmanagedPRAlias (parentalias : string) : string :=
  "pr-helper-" ++ parentalias.

Definition qemuDomainGetDBusVMStateAlias : string := "dbus-vmstate0".

Definition qemuDomainGetVhostUserChrAlias (devalias : string) : string :=
  "chr-vu-" ++ devalias.

(** The prefix that [qemuAssignDeviceChrAlias] picks for a device type. *)
Definition chr_prefix (ty : virDomainChrDeviceType) : string :=
  match ty with
  | VIR_DOMAIN_CHR_DEVICE_TYPE_PARALLEL => "parallel"
  | VIR_DOMAIN_CHR_DEVICE_TYPE_SERIAL => "serial"
  | VIR_DOMAIN_CHR_DEVICE_TYPE_CONSOLE => "console"
  | VIR_DOMAIN_CHR_DEVICE_TYPE_CHANNEL => "channel"
  | VIR_DOMAIN_CHR_DEVICE_TYPE_LAST => ""
  end.

(** A drive address whose four members print as themselves under [%d]. *)
Definition drive_within_int (a : virDomainDeviceDriveAddress) : Prop :=
  0 <= drive_controller a <= INT_MAX /\ 0 <= drive_bus a <= INT_MAX /\
  0 <= drive_target a <= INT_MAX /\ 0 <= drive_unit a <= INT_MAX.

(** The devices on which the pass can return -1: a SCSI disk on a drive
    address, a character device of no type, a memory device of no model;
    each without an alias. *)
Definition failing_disk (x : virDomainDiskDef) : Prop :=
  disk_alias x = None /\ disk_bus x = VIR_DOMAIN_DISK_BUS_SCSI /\
  info_type (disk_info x) = VIR_DOMAIN_DEVICE_ADDRESS_TYPE_DRIVE.

Definition failing_chr (c : virDomainChrDef) : Prop :=
  chr_alias c = None /\ chr_deviceType c = VIR_DOMAIN_CHR_DEVICE_TYPE_LAST.

Definition failing_mem (m : virDomainMemoryDef) : Prop :=
  mem_alias m = None /\
  (mem_model m = VIR_DOMAIN_MEMORY_MODEL_NONE \/ mem_model m = VIR_DOMAIN_MEMORY_MODEL_LAST).

Definition failure_cause (d : virDomainDef) : Prop :=
  Exists failing_disk (disks d) \/
  Exists failing_chr (parallels d ++ serials d ++ channels d ++ consoles d)%list \/
  Exists failing_mem (mems d).

(** A memory device of model none, without an alias. *)
Definition mem_none_dom : virDomainDef :=
  set_mems [mem_of VIR_DOMAIN_MEMORY_MODEL_NONE 0] empty_def.

(** No character of the string is the separator of the drive aliases. *)
Fixpoint no_dash (s : string) : bool :=
  match s with
  | EmptyString => true
  | String c r => negb (Ascii.eqb c "-") && no_dash r
  end.

(** ** Notions for the alignment of a job that lists disks *)

(** The domain disks that no directive of the job names. *)
Definition unlisted (seen : gset string) (dom : virDomainDef) : list virDomainDiskDef :=
  filter (fun d => disk_dst d ∉ seen) (disks dom).

(** The directive the second loop writes for an unlisted disk. *)
Definition unlisted_directive `{BackupCollaborators} (backup_all : bool)
    (suffix : string) (d : virDomainDiskDef) : virDomainBackupDiskDef :=
  if backup_all then filled_directive suffix d
  else bdisk_set_backup VIR_TRISTATE_BOOL_NO
         (bdisk_set_name (Some (disk_dst d)) bdisk_zero).

(** A directive after the first loop: as it was, or, where it had no
    store, with a store. *)
Definition store_assigned (b0 b : virDomainBackupDiskDef) : Prop :=
  b = b0 \/ (bdisk_store b0 = None /\ exists st, b = bdisk_set_store (Some st) b0).

(** An incremental directive has a checkpoint to start from, its own or
    the one of the job. *)
Definition incremental_named (inc : option string) (b : virDomainBackupDiskDef) : Prop :=
  bdisk_backupmode b = VIR_DOMAIN_BACKUP_DISK_BACKUP_MODE_INCREMENTAL ->
  is_Some (bdisk_incremental b) \/ is_Some inc.

(** The mode of a directive after the alignment: never the default, and
    incremental only with a checkpoint named in the directive. *)
Definition mode_settled (b : virDomainBackupDiskDef) : Prop :=
  bdisk_backupmode b <> VIR_DOMAIN_BACKUP_DISK_BACKUP_MODE_DEFAULT /\
  (bdisk_backupmode b = VIR_DOMAIN_BACKUP_DISK_BACKUP_MODE_INCREMENTAL ->
   is_Some (bdisk_incremental b)).

(** The targets of the disks of a domain. *)
Definition disk_targets (dom : virDomainDef) : list string :=
  map disk_dst (disks dom).

(** A job that lists the read-only disk of [two_disk_dom] as its only
    disk, to be backed up into a file of its own. *)
Definition vdb_backup : virDomainBackupDef :=
  {| backup_type := VIR_DOMAIN_BACKUP_TYPE_PUSH; backup_incremental := None;
     backup_server := None; backup_tls := 0;
     backup_disks :=
       [ {| bdisk_name := Some "vdb"; bdisk_backup := VIR_TRISTATE_BOOL_YES;
            bdisk_backupmode := 0; bdisk_incremental := None;
            bdisk_exportname := None; bdisk_exportbitmap := None;
            bdisk_store := Some (new_file_store "/backup/b.img");
            bdisk_state := 0 |} ];
     backup_tlsAlias := None; backup_tlsSecretAlias := None |}.

(** [vdb_backup] as the alignment against [two_disk_dom] leaves it. *)
Definition vdb_backup_aligned : virDomainBackupDef :=
  Eval vm_compute in
    match @virDomainBackupAlignDisks libvirt_backup_collaborators
            vdb_backup two_disk_dom "bak" with
    | Ret0 d => d
    | _ => vdb_backup
    end.

(** A directive after the first loop, which found the disk it names and,
    if the disk is to be backed up, settled its store. *)
Definition checked `{BackupCollaborators} (dom : virDomainDef) (suffix : string)
    (b0 b : virDomainBackupDiskDef) : Prop :=
  exists n d,
    bdisk_name b0 = Some n /\ virDomainDiskByTarget dom n = Some d /\
    if bdisk_backup b0 =? VIR_TRISTATE_BOOL_YES
    then virDomainBackupDefAssignStore b0 (disk_src d) suffix = Ret0 b
    else b = b0.

(** A pull-mode descriptor with a server and two disks, the second
    disabled. *)
Definition sample_backup_xml : xmlNode :=
  XmlElem "domainbackup" [("mode", "pull")] ""
    [ XmlElem "server" [("transport", "tcp"); ("name", "localhost"); ("tls", "yes")]
              "" [];
      XmlElem "disks" [] ""
        [ XmlElem "disk" [("name", "vda"); ("backup", "yes"); ("type", "file")] ""
                  [XmlElem "scratch" [("file", "/s.img")] "" []];
          XmlElem "disk" [("name", "vdb"); ("backup", "no")] "" [] ] ].

(** [sample_backup_xml] as the parser returns it. *)
Definition sample_backup_parsed : virDomainBackupDef :=
  Eval vm_compute in
    match @virDomainBackupDefParse libvirt_backup_collaborators
            sample_backup_xml false with
    | Some d => d
    | None => empty_backup 0
    end.

(** The backup mode of a directive is one of the two that name a kind of
    backup. *)
Definition mode_named (b : virDomainBackupDiskDef) : Prop :=
  bdisk_backupmode b = VIR_DOMAIN_BACKUP_DISK_BACKUP_MODE_FULL \/
  bdisk_backupmode b = VIR_DOMAIN_BACKUP_DISK_BACKUP_MODE_INCREMENTAL.

(** An unaliased controller of the given type, index and model. *)
Definition plain_controller (ty : virDomainControllerType) (idx model : Z)
  : virDomainControllerDef :=
  {| controller_info := info_of None; controller_type := ty;
     controller_idx := idx; controller_model := model |}.

(** [isdigit] of the C locale. *)
Definition isdigit (c : ascii) : bool :=
  let n := nat_of_ascii c in (Nat.leb 48 n && Nat.leb n 57)%bool.

(** The last character of the string is a decimal digit. *)
Fixpoint ends_in_digit (s : string) : bool :=
  match s with
  | EmptyString => false
  | String c EmptyString => isdigit c
  | String _ r => ends_in_digit r
  end.

(** An IDE disk on a drive address with a target. *)
Definition ide_disk_at (controller bus target unit : Z) : virDomainDiskDef :=
  {| disk_info := {| alias := None; info_type := VIR_DOMAIN_DEVICE_ADDRESS_TYPE_DRIVE;
                     addr_drive := {| drive_controller := controller; drive_bus := bus;
                                      drive_target := target; drive_unit := unit |};
                     addr_dimm_slot := 0 |};
     disk_bus := VIR_DOMAIN_DISK_BUS_IDE; disk_dst := "hda";
     disk_src := file_source "/a.img" false; disk_qomName := None |}.

(** The alias of a disk on a drive address names the target: on a SCSI
    bus whose controller is not an LSI one. *)
Definition with_target `{Collaborators} (def : virDomainDef) (d : virDomainDiskDef)
  : bool :=
  (bool_decide (disk_bus d = VIR_DOMAIN_DISK_BUS_SCSI)
   && negb (qemuDomainFindSCSIControllerModel def (disk_info d)
            =? VIR_DOMAIN_CONTROLLER_MODEL_SCSI_LSILOGIC))%bool.

(** ** All the aliases of a domain *)

(** The aliases of all devices, class by class and each device once: the
    numbered classes, then the disks, the controllers and the memory
    devices. *)
Definition domain_alias_parts (def : virDomainDef) : list (list (option string)) :=
  (numbered_alias_parts def
   ++ [ map disk_alias (disks def);
        map controller_alias (controllers def);
        map mem_alias (mems def) ])%list.

(** The aliases that are set, among those. *)
Definition domain_aliases (def : virDomainDef) : list string :=
  omap id (concat (domain_alias_parts def)).

(** [a] starts with [p]. *)
Definition starts_with (p a : string) : bool :=
  match strip_prefix p a with
  | Some _ => true
  | None => false
  end.

(** The names of the disk buses and of the controller types. *)
Definition address_names : list string :=
  [ "ide"; "fdc"; "scsi"; "virtio"; "xen"; "usb"; "uml"; "sata"; "sd"; "(null)";
    "ccid"; "pci"; "xenbus"; "isa" ].

(** The prefixes of the aliases of the memory devices. *)
Definition memory_prefixes : list string := [ "dimm"; "nvdimm"; "virtiopmem" ].

(** An alias that no assigner makes: it starts with none of the prefixes
    of the numbered classes, with no name of a disk bus or of a
    controller type, and with no prefix of a memory model.  The user
    aliases of libvirt, which start with "ua-", are of this kind. *)
Definition foreign (a : string) : bool :=
  forallb (fun p => negb (starts_with p a))
          (map fst alias_prefixes ++ address_names ++ memory_prefixes).

(** Every alias set in the domain is foreign. *)
Definition presets_foreign (def : virDomainDef) : bool :=
  forallb foreign (domain_aliases def).

(** The class of a generated alias: that of its prefix for the numbered
    classes (0 to 17), 18 for the disks, 19 for the controllers and 20
    for the memory devices.  Among the aliases that start with the name
    of a bus or of a controller type, those of the disks hold a dash,
    and so does the name "virtio-serial". *)
Definition alias_kind (a : string) : option nat :=
  match alias_class a with
  | Some k => Some k
  | None =>
    if existsb (fun p => starts_with p a) memory_prefixes then Some 20%nat
    else if starts_with "virtio-serial" a then Some 19%nat
    else if existsb (fun p => starts_with p a) address_names then
      if no_dash a then Some 19%nat else Some 18%nat
    else None
  end.

(** The name tables of the collaborators are those of libvirt. *)
Definition libvirt_names `{Collaborators} : Prop :=
  (forall b, virDomainDiskBusTypeToString b
             = @virDomainDiskBusTypeToString libvirt_collaborators b) /\
  (forall t, virDomainControllerTypeToString t
             = @virDomainControllerTypeToString libvirt_collaborators t).

(** The model of the SCSI controller of a drive address is looked up in
    the controllers of the domain. *)
Definition scsi_model_by_controllers `{Collaborators} : Prop :=
  forall d d' info,
    controllers d' = controllers d ->
    qemuDomainFindSCSIControllerModel d' info = qemuDomainFindSCSIControllerModel d info.

(** Where a disk sits, as far as its alias tells: its bus and, on a drive
    address, the controller, the bus and the unit, with the target
    before the unit where the alias names it; off a drive address, the
    index of its target name. *)
Definition disk_place `{Collaborators} (def : virDomainDef) (d : virDomainDiskDef)
  : virDomainDiskBus * bool * list Z :=
  let a := addr_drive (disk_info d) in
  if bool_decide (info_type (disk_info d) = VIR_DOMAIN_DEVICE_ADDRESS_TYPE_DRIVE) then
    (disk_bus d, true,
     if with_target def d
     then [drive_controller a; drive_bus a; drive_target a; drive_unit a]
     else [drive_controller a; drive_bus a; drive_unit a])
  else (disk_bus d, false, [virDiskNameToIndex (disk_dst d)]).

(** The devices without alias whose alias the pass makes from an address. *)
Definition unaliased_disks (def : virDomainDef) : list virDomainDiskDef :=
  List.filter (fun d => negb (bool_decide (is_Some (disk_alias d)))) (disks def).

Definition unaliased_controllers (def : virDomainDef) : list virDomainControllerDef :=
  List.filter (fun c => negb (bool_decide (is_Some (controller_alias c))))
              (controllers def).

(** The memory devices without alias that the pass names after their
    slot: all but the virtio-pmem ones. *)
Definition unaliased_dimms (def : virDomainDef) : list virDomainMemoryDef :=
  List.filter
    (fun m => negb (bool_decide (is_Some (mem_alias m)))
              && negb (bool_decide (mem_model m = VIR_DOMAIN_MEMORY_MODEL_VIRTIO_PMEM)))
    (mems def).

(** The addresses that the pass prints are in range: the members of a
    drive address and the index of a controller within [0, INT_MAX], a
    DIMM slot within [0, UINT_MAX]. *)
Definition places_within_int (def : virDomainDef) : bool :=
  (forallb (fun d =>
              let a := addr_drive (disk_info d) in
              implb (bool_decide (info_type (disk_info d)
                                  = VIR_DOMAIN_DEVICE_ADDRESS_TYPE_DRIVE))
                    (forallb (fun z => (0 <=? z) && (z <=? INT_MAX))
                             [drive_controller a; drive_bus a; drive_target a;
                              drive_unit a]))
           (unaliased_disks def)
   && forallb (fun c => (0 <=? controller_idx c) && (controller_idx c <=? INT_MAX))
              (unaliased_controllers def)
   && forallb (fun m => (0 <=? addr_dimm_slot (mem_info m))
                        && (addr_dimm_slot (mem_info m) <=? UINT_MAX))
              (unaliased_dimms def))%bool.

(** No two devices without alias sit at the same place: no two disks on
    the same bus at the same drive address or with the same index, no two
    controllers of one type with the same index, no two DIMMs or NVDIMMs
    of one model in the same slot.  A qemu with a single PCI bus has at
    most one PCI controller to name, and the machine has the integrated
    IDE controller or the integrated SATA controller of Q35, not both. *)
Definition places_distinct `{Collaborators} (def : virDomainDef) (caps : virQEMUCaps)
  : Prop :=
  NoDup (map (disk_place def) (unaliased_disks def)) /\
  NoDup (map (fun c => (controller_type c, controller_idx c))
             (unaliased_controllers def)) /\
  NoDup (map (fun m => (mem_model m, addr_dimm_slot (mem_info m)))
             (unaliased_dimms def)) /\
  (caps_pci_multibus caps = false ->
   (length (List.filter
              (fun c => bool_decide (controller_type c = VIR_DOMAIN_CONTROLLER_TYPE_PCI))
              (unaliased_controllers def)) <= 1)%nat) /\
  (has_builtin_ide def && is_q35 def)%bool = false.

(** The aliases of one class after the pass, [before] being those of the
    class before it: they are distinct, and each was set before the pass
    or is a generated alias of the class [k]. *)
Definition part_fine (k : nat) (before after : list (option string)) : Prop :=
  NoDup (omap id after) /\
  Forall (fun a => Some a ∈ before \/ alias_kind a = Some k) (omap id after).

(** What the disk assigner prints for a disk without alias. *)
Definition disk_alias_text `{Collaborators} (def : virDomainDef) (x : virDomainDiskDef)
  : string :=
  let a := addr_drive (disk_info x) in
  let bus := virDomainDiskBusTypeToString (disk_bus x) in
  if bool_decide (info_type (disk_info x) = VIR_DOMAIN_DEVICE_ADDRESS_TYPE_DRIVE) then
    bus ++ fmt_d (to_int (drive_controller a)) ++ "-"
        ++ fmt_d (to_int (drive_bus a)) ++ "-"
        ++ (if with_target def x
            then fmt_d (to_int (drive_target a)) ++ "-" ++ fmt_d (to_int (drive_unit a))
            else fmt_d (to_int (drive_unit a)))
  else bus ++ "-disk" ++ fmt_d (virDiskNameToIndex (disk_dst x)).

(** What the controller assigner prints for a controller without alias. *)
Definition controller_alias_text `{Collaborators} (def : virDomainDef)
    (caps : virQEMUCaps) (c : virDomainControllerDef) : string :=
  let indexed := virDomainControllerTypeToString (controller_type c)
                 ++ fmt_d (controller_idx c) in
  match controller_type c with
  | VIR_DOMAIN_CONTROLLER_TYPE_PCI =>
    if negb (caps_pci_multibus caps) then "pci"
    else if controller_model c =? VIR_DOMAIN_CONTROLLER_MODEL_PCIE_ROOT
    then "pcie." ++ fmt_d (controller_idx c)
    else "pci." ++ fmt_d (controller_idx c)
  | VIR_DOMAIN_CONTROLLER_TYPE_IDE =>
    if (has_builtin_ide def && (controller_idx c =? 0))%bool then "ide" else indexed
  | VIR_DOMAIN_CONTROLLER_TYPE_SATA =>
    if (is_q35 def && (controller_idx c =? 0))%bool then "ide" else indexed
  | VIR_DOMAIN_CONTROLLER_TYPE_USB =>
    if controller_idx c =? 0 then "usb" else indexed
  | VIR_DOMAIN_CONTROLLER_TYPE_SCSI =>
    if ((controller_model c =? VIR_DOMAIN_CONTROLLER_MODEL_SCSI_NCR53C90)
        && (controller_idx c =? 0))%bool then "scsi" else indexed
  | _ => indexed
  end.

(** A domain with devices of most classes.  The first disk carries the
    user alias "ua-mydisk" and the second file system "ua-share"; the
    other devices have no alias.  Two IDE disks sit on drive addresses
    that differ in the unit, the second network interface resolves to the
    hostdev type and the first host device is the one linked to it, and
    the memory devices are two DIMMs, an NVDIMM and two virtio-pmem
    devices. *)
Definition mixed_dom : virDomainDef :=
  set_disks [ {| disk_info := info_of (Some "ua-mydisk");
                 disk_bus := VIR_DOMAIN_DISK_BUS_VIRTIO; disk_dst := "vda";
                 disk_src := file_source "/a.img" false; disk_qomName := None |};
              virtio_disk "vdb" (file_source "/b.img" false);
              ide_disk_at 0 0 0 0; ide_disk_at 0 0 0 1 ]
    (set_nets [net_of None VIR_DOMAIN_NET_TYPE_OTHER;
               net_of None VIR_DOMAIN_NET_TYPE_HOSTDEV]
       (set_hostdevs [ {| hostdev_info := NetInfo 1 |};
                       {| hostdev_info := OwnInfo (info_of None) |} ]
          (set_fss [info_of None; info_of (Some "ua-share")]
             (set_controllers
                [ plain_controller VIR_DOMAIN_CONTROLLER_TYPE_IDE 0 (-1);
                  plain_controller VIR_DOMAIN_CONTROLLER_TYPE_USB 0 (-1);
                  plain_controller VIR_DOMAIN_CONTROLLER_TYPE_USB 1 (-1);
                  plain_controller VIR_DOMAIN_CONTROLLER_TYPE_PCI 0 (-1) ]
                (set_serials
                   [ {| chr_info := info_of None;
                        chr_deviceType := VIR_DOMAIN_CHR_DEVICE_TYPE_SERIAL |} ]
                   (set_watchdog (Some (info_of None))
                      (set_rngs [info_of None]
                         (set_mems [ mem_of VIR_DOMAIN_MEMORY_MODEL_DIMM 0;
                                     mem_of VIR_DOMAIN_MEMORY_MODEL_DIMM 1;
                                     mem_of VIR_DOMAIN_MEMORY_MODEL_NVDIMM 0;
                                     mem_of VIR_DOMAIN_MEMORY_MODEL_VIRTIO_PMEM 0;
                                     mem_of VIR_DOMAIN_MEMORY_MODEL_VIRTIO_PMEM 0 ]
                                   empty_def)))))))).

(** [mixed_dom] as the pass leaves it. *)
Definition mixed_dom_assigned : virDomainDef :=
  Eval vm_compute in
    match @qemuAssignDeviceAliases libvirt_collaborators mixed_dom default_caps with
    | Ret0 d => d
    | _ => mixed_dom
    end.

(** * Properties *)

(** ** Loops and outcomes *)

Lemma for_from_inv {S : Type} (Inv : nat -> S -> Prop) (body : nat -> S -> outcome S)
    (n i : nat) (s s' : S) :
  Inv i s ->
  (forall j t t', (i <= j < i + n)%nat -> Inv j t -> body j t = Ret0 t' ->
                  Inv (Datatypes.S j) t') ->
  for_from body i n s = Ret0 s' ->
  Inv (i + n)%nat s'.
Proof.
  revert i s. induction n as [|n IH]; intros i s Hi Hstep Hrun; simpl in Hrun.
  - injection Hrun as <-. by rewrite Nat.add_0_r.
  - destruct (body i s) as [t| |] eqn:Hb; simpl in Hrun; try discriminate.
    replace (i + Datatypes.S n)%nat with (Datatypes.S i + n)%nat by lia.
    apply (IH (Datatypes.S i) t); [ | | exact Hrun].
    + apply (Hstep i s t); [lia | exact Hi | exact Hb].
    + intros j u u' Hj. apply Hstep. lia.
Qed.

(** The same for a relation kept by every iteration, whatever the loop
    returns. *)
Lemma for_from_rel {S : Type} (R : S -> S -> Prop) (body : nat -> S -> outcome S)
    (n i : nat) (s s' : S) :
  (forall t, R t t) -> (forall t u v, R t u -> R u v -> R t v) ->
  (forall j t t', body j t = Ret0 t' \/ body j t = RetErr t' -> R t t') ->
  for_from body i n s = Ret0 s' \/ for_from body i n s = RetErr s' ->
  R s s'.
Proof.
  intros Hrefl Htrans Hstep. revert i s.
  induction n as [|n IH]; intros i s Hrun; simpl in Hrun.
  - destruct Hrun as [Hrun|Hrun]; [injection Hrun as <-; apply Hrefl | discriminate].
  - destruct (body i s) as [t|t|] eqn:Hb; simpl in Hrun.
    + apply (Htrans _ t); [apply (Hstep i); by left | by apply (IH (Datatypes.S i))].
    + destruct Hrun as [Hrun|Hrun]; [discriminate|].
      injection Hrun as <-. apply (Hstep i). by right.
    + destruct Hrun; discriminate.
Qed.

Lemma run_steps_app {S : Type} (l1 l2 : list (S -> outcome S)) (s s' : S) :
  run_steps (l1 ++ l2)%list s = Ret0 s' <->
  exists t, run_steps l1 s = Ret0 t /\ run_steps l2 t = Ret0 s'.
Proof.
  revert s. induction l1 as [|f l1 IH]; intros s; simpl.
  - split; [intros Hr; by exists s | intros (t & [= <-] & Hr); exact Hr].
  - destruct (f s) as [t| |]; simpl.
    + apply IH.
    + split; [discriminate | intros (t & Hd & _); discriminate].
    + split; [discriminate | intros (t & Hd & _); discriminate].
Qed.

(** ** Backup-disk alignment *)

Section AlignProperties.
Context `{BackupCollaborators}.

Lemma assign_store_fresh (b : virDomainBackupDiskDef) (src : virStorageSource)
    (suffix : string) :
  bdisk_store b = None ->
  virStorageSourceIsEmpty src = false ->
  virDomainBackupDefAssignStore b src suffix
  = if bool_decide (virStorageSourceGetActualType src = VIR_STORAGE_TYPE_FILE)
    then Ret0 (bdisk_set_store
                 (Some (new_file_store (fmt_s (storage_path src) ++ "." ++ suffix))) b)
    else RetErr b.
Proof.
  intros Hst Hne. unfold virDomainBackupDefAssignStore. by rewrite Hne, Hst.
Qed.

Lemma align_fill_step (dom : virDomainDef) (suffix : string) (i n : nat)
    (d : virDomainDiskDef) (bdisks : list virDomainBackupDiskDef) :
  disks dom !! i = Some d ->
  bdisks !! n = Some bdisk_zero ->
  align_fill ∅ true dom suffix i (bdisks, n)
  = if backed_up d then
      if bool_decide (virStorageSourceGetActualType (disk_src d) = VIR_STORAGE_TYPE_FILE)
      then Ret0 (<[n:=filled_directive suffix d]> bdisks, Datatypes.S n)
      else RetErr (<[n:=bdisk_set_backup VIR_TRISTATE_BOOL_YES
                          (bdisk_set_name (Some (disk_dst d)) bdisk_zero)]> bdisks,
                   Datatypes.S n)
    else Ret0 (<[n:=filled_directive suffix d]> bdisks, Datatypes.S n).
Proof.
  intros Hd Hslot. unfold align_fill. rewrite Hd, Hslot.
  rewrite bool_decide_eq_false_2 by apply not_elem_of_empty.
  unfold filled_directive.
  destruct (backed_up d) eqn:Hbk; unfold backed_up in Hbk; simpl andb; rewrite Hbk.
  - apply andb_prop in Hbk as [He Hro]. apply negb_true_iff in He.
    rewrite assign_store_fresh by done.
    by destruct (bool_decide _).
  - done.
Qed.

(** The second loop on a job without explicit disks: it fills the zeroed
    slots in the order of the domain disks, and stops with -1 at the first
    disk to back up whose storage is not a plain file. *)
Lemma align_fill_all (dom : virDomainDef) (suffix : string)
    (rest pre : list virDomainDiskDef) (res : list virDomainBackupDiskDef) :
  disks dom = (pre ++ rest)%list ->
  length res = length pre ->
  if all_plain_files rest then
    for_from (align_fill ∅ true dom suffix) (length pre) (length rest)
             ((res ++ replicate (length rest) bdisk_zero)%list, length pre)
    = Ret0 ((res ++ map (filled_directive suffix) rest)%list,
            (length pre + length rest)%nat)
  else
    exists st,
      for_from (align_fill ∅ true dom suffix) (length pre) (length rest)
               ((res ++ replicate (length rest) bdisk_zero)%list, length pre)
      = RetErr st.
Proof.
  revert pre res. induction rest as [|d rest IH]; intros pre res Hdom Hlen.
  - simpl. by rewrite Nat.add_0_r.
  - assert (Hd : disks dom !! length pre = Some d)
      by (rewrite Hdom; apply list_lookup_middle; done).
    assert (Hslot : (res ++ replicate (length (d :: rest)) bdisk_zero)%list
                      !! length pre = Some bdisk_zero).
    { rewrite <- Hlen. by rewrite lookup_app_r, Nat.sub_diag by lia. }
    assert (Hins : forall b,
               <[length pre:=b]> (res ++ replicate (length (d :: rest)) bdisk_zero)%list
               = ((res ++ [b]) ++ replicate (length rest) bdisk_zero)%list).
    { intros b. rewrite <- Hlen. simpl.
      rewrite insert_app_r_alt, Nat.sub_diag by lia. simpl.
      by rewrite <- app_assoc. }
    assert (Hdom' : disks dom = ((pre ++ [d]) ++ rest)%list)
      by (by rewrite <- app_assoc).
    assert (Hl1 : length (pre ++ [d])%list = Datatypes.S (length pre))
      by (rewrite length_app; simpl; lia).
    specialize (IH (pre ++ [d])%list (res ++ [filled_directive suffix d])%list Hdom').
    rewrite Hl1 in IH. rewrite length_app in IH. simpl in IH.
    specialize (IH ltac:(lia)).
    change (all_plain_files (d :: rest))
      with (implb (backed_up d)
                  (bool_decide (virStorageSourceGetActualType (disk_src d)
                                = VIR_STORAGE_TYPE_FILE))
            && all_plain_files rest)%bool.
    change (for_from ?body ?i (length (d :: rest)) ?s)
      with (obind (body i s) (for_from body (Datatypes.S i) (length rest))).
    rewrite (align_fill_step dom suffix _ _ d) by done.
    rewrite !Hins.
    destruct (backed_up d); simpl implb;
      [destruct (bool_decide _); simpl andb; [|eexists; reflexivity]|];
      simpl obind; destruct (all_plain_files rest); try exact IH;
      rewrite IH, <- app_assoc; simpl; do 2 f_equal; lia.
Qed.

Lemma backfill_mode_keeps (inc : option string) (b : virDomainBackupDiskDef) :
  bdisk_name (backfill_mode inc b) = bdisk_name b /\
  bdisk_backup (backfill_mode inc b) = bdisk_backup b /\
  bdisk_store (backfill_mode inc b) = bdisk_store b.
Proof.
  unfold backfill_mode.
  repeat match goal with |- context [if ?c then _ else _] => destruct c end;
    done.
Qed.

Lemma filled_directive_aligned (suffix : string) (inc : option string)
    (d : virDomainDiskDef) :
  aligned_directive suffix d (backfill_mode inc (filled_directive suffix d)).
Proof.
  unfold aligned_directive.
  destruct (backfill_mode_keeps inc (filled_directive suffix d)) as (-> & -> & ->).
  unfold filled_directive. destruct (backed_up d); [|done].
  split; [done|]. split; [done|]. eexists. split; [reflexivity|]. simpl.
  split; [done|]. by destruct (storage_path (disk_src d)).
Qed.

Lemma align_backfill (def : virDomainBackupDef) (dom : virDomainDef)
    (suffix : string) :
  backup_disks def = [] ->
  disks dom <> [] ->
  if all_plain_files (disks dom) then
    exists def',
      virDomainBackupAlignDisks def dom suffix = Ret0 def' /\
      length (backup_disks def') = length (disks dom) /\
      Forall2 (aligned_directive suffix) (disks dom) (backup_disks def')
  else
    exists def', virDomainBackupAlignDisks def dom suffix = RetErr def'.
Proof.
  intros Hnil Hdom. unfold virDomainBackupAlignDisks.
  destruct (disks dom) as [|d0 l0] eqn:Hl; [done|]. rewrite <- Hl in *.
  replace (Nat.eqb (length (disks dom)) 0) with false
    by (rewrite Hl; reflexivity).
  rewrite Hnil. simpl for_each at 1.
  unfold for_each; simpl.
  rewrite Nat.sub_0_r.
  pose proof (align_fill_all dom suffix (disks dom) [] [] eq_refl eq_refl) as Hfill.
  simpl in Hfill.
  destruct (all_plain_files (disks dom)).
  - rewrite Hfill. eexists. split; [reflexivity|]. simpl. split.
    + by rewrite !length_map.
    + apply Forall2_fmap_r, Forall2_fmap_r, Forall_Forall2_diag, Forall_forall.
      intros d _. apply filled_directive_aligned.
  - destruct Hfill as ([bd n] & ->). eexists. reflexivity.
Qed.

End AlignProperties.

(** C9. A job with an empty disk list, aligned against a domain with at
    least one disk, gets exactly one directive per domain disk, in the
    order of the domain: disabled and without store for a disk that is
    read-only or has no media; enabled, with a store of type file whose
    path is the path of the disk, a dot and the suffix, for every other
    disk; the alignment fails when the storage of a disk to back up is not
    a plain file.  So with the suffix "bak" a writable disk vda on the
    file /a.img is backed up to the file /a.img.bak, and a read-only disk
    vdb beside it is left out. *)
Theorem align_disks_backfills_empty_list :
  (forall (C : BackupCollaborators) (def : virDomainBackupDef) (dom : virDomainDef)
          (suffix : string),
     backup_disks def = [] ->
     disks dom <> [] ->
     if all_plain_files (disks dom) then
       exists def',
         virDomainBackupAlignDisks def dom suffix = Ret0 def' /\
         length (backup_disks def') = length (disks dom) /\
         Forall2 (aligned_directive suffix) (disks dom) (backup_disks def')
     else
       exists def', virDomainBackupAlignDisks def dom suffix = RetErr def') /\
  exists def',
    @virDomainBackupAlignDisks libvirt_backup_collaborators
      (empty_backup VIR_DOMAIN_BACKUP_TYPE_PUSH) two_disk_dom "bak" = Ret0 def' /\
    map bdisk_name (backup_disks def') = [Some "vda"; Some "vdb"] /\
    map bdisk_backup (backup_disks def')
    = [VIR_TRISTATE_BOOL_YES; VIR_TRISTATE_BOOL_NO] /\
    map (fun b => storage_type <$> bdisk_store b) (backup_disks def')
    = [Some VIR_STORAGE_TYPE_FILE; None] /\
    map (fun b => bdisk_store b ≫= storage_path) (backup_disks def')
    = [Some "/a.img.bak"; None].
Proof.
  split; [intros C; apply align_backfill|].
  eexists. split; [vm_compute; reflexivity|]. by repeat split.
Qed.

Section AlignRejects.
Context `{BackupCollaborators}.

(** C10. Against a domain without disks the alignment returns -1 and the
    job is left as it was, whatever disks it lists. *)
Theorem align_disks_rejects_diskless_domain (def : virDomainBackupDef)
    (dom : virDomainDef) (suffix : string) :
  disks dom = [] ->
  virDomainBackupAlignDisks def dom suffix = RetErr def.
Proof.
  intros Hnil. unfold virDomainBackupAlignDisks. by rewrite Hnil.
Qed.

End AlignRejects.

Lemma align_disks_backfills_empty_list_witness :
  exists def',
    @virDomainBackupAlignDisks libvirt_backup_collaborators
      (empty_backup VIR_DOMAIN_BACKUP_TYPE_PUSH) two_disk_dom "bak" = Ret0 def' /\
    length (backup_disks def') = length (disks two_disk_dom) /\
    Forall2 (@aligned_directive libvirt_backup_collaborators "bak")
            (disks two_disk_dom) (backup_disks def').
Proof.
  exact (proj1 align_disks_backfills_empty_list libvirt_backup_collaborators
           (empty_backup VIR_DOMAIN_BACKUP_TYPE_PUSH) two_disk_dom "bak"
           eq_refl ltac:(discriminate)).
Defined.

Lemma align_disks_rejects_diskless_domain_witness :
  @virDomainBackupAlignDisks libvirt_backup_collaborators
    (empty_backup VIR_DOMAIN_BACKUP_TYPE_PULL) empty_def "bak"
  = RetErr (empty_backup VIR_DOMAIN_BACKUP_TYPE_PULL).
Proof.
  exact (@align_disks_rejects_diskless_domain libvirt_backup_collaborators
           (empty_backup VIR_DOMAIN_BACKUP_TYPE_PULL) empty_def "bak" eq_refl).
Defined.

(** ** Backup descriptor parsing *)

Lemma backup_type_of_mode (mode : string) :
  (mode = "push" /\ virDomainBackupTypeFromString mode = VIR_DOMAIN_BACKUP_TYPE_PUSH) \/
  (mode = "pull" /\ virDomainBackupTypeFromString mode = VIR_DOMAIN_BACKUP_TYPE_PULL) \/
  (mode <> "push" /\ mode <> "pull" /\ virDomainBackupTypeFromString mode <= 0).
Proof.
  unfold virDomainBackupTypeFromString. cbn [virEnumFromString].
  destruct (String.eqb_spec "default" mode) as [<-|Hd].
  { right; right. repeat split; (discriminate || done). }
  destruct (String.eqb_spec "push" mode) as [<-|Hp]; [left; done|].
  destruct (String.eqb_spec "pull" mode) as [<-|Hl]; [right; left; done|].
  right; right. repeat split; (congruence || done).
Qed.

Section ParseProperties.
Context `{BackupCollaborators}.

Lemma backup_parse_success (root : xmlNode) (internal : bool) (type : Z) :
  (virXMLPropString root "mode" = None /\ type = VIR_DOMAIN_BACKUP_TYPE_PUSH) \/
  (exists m, virXMLPropString root "mode" = Some m /\
             virDomainBackupTypeFromString m = type /\ 0 < type) ->
  (is_Some (virDomainBackupDefParse root internal) <-> rest_valid type root internal) /\
  (forall def, virDomainBackupDefParse root internal = Some def -> backup_type def = type).
Proof.
  intros Hmode. unfold virDomainBackupDefParse, rest_valid.
  assert (Hty : from_option virDomainBackupTypeFromString VIR_DOMAIN_BACKUP_TYPE_PUSH
                            (virXMLPropString root "mode") = type /\
                (bool_decide (is_Some (virXMLPropString root "mode")) && (type <=? 0))
                = false).
  { destruct Hmode as [[-> ->]|(m & -> & <- & Hpos)]; simpl; [done|].
    split; [done|]. apply Z.leb_gt. exact Hpos. }
  destruct Hty as [-> ->].
  destruct (virXPathNode_child "server" root) as [node|].
  - destruct (backup_parse_server type node) as [[srv tls]|].
    + destruct (mapM _ _) as [l|].
      * split; [|by intros def [= <-]].
        split; intros _; repeat split; eexists; reflexivity.
      * split; [|by intros def [=]].
        split; [intros [? [=]] | intros [_ [? [=]]]].
    + split; [|by intros def [=]].
      split; [intros [? [=]] | intros [[? [=]] _]].
  - destruct (mapM _ _) as [l|].
    + split; [|by intros def [= <-]].
      split; intros _; repeat split; eexists; reflexivity.
    + split; [|by intros def [=]].
      split; [intros [? [=]] | intros [_ [? [=]]]].
Qed.

(** C8 (as amended). With a [mode] attribute, [virDomainBackupDefParse]
    succeeds exactly when the mode is push or pull and the rest of the
    document is valid for that mode, the result carrying the type named;
    every other value of the attribute, "default" among them, is an
    error. *)
Theorem backup_parse_mode (root : xmlNode) (internal : bool) (mode : string) :
  virXMLPropString root "mode" = Some mode ->
  (is_Some (virDomainBackupDefParse root internal) <->
   (mode = "push" \/ mode = "pull") /\
   rest_valid (virDomainBackupTypeFromString mode) root internal) /\
  (forall def, virDomainBackupDefParse root internal = Some def ->
               backup_type def = virDomainBackupTypeFromString mode) /\
  (mode <> "push" -> mode <> "pull" -> virDomainBackupDefParse root internal = None).
Proof.
  intros Hmode.
  destruct (backup_type_of_mode mode) as [[-> Ht]|[[-> Ht]|(Hp & Hl & Ht)]].
  - destruct (backup_parse_success root internal VIR_DOMAIN_BACKUP_TYPE_PUSH)
      as [Hiff Hdef]; [right; by exists "push"|].
    rewrite Ht. split; [|split; [exact Hdef | done]].
    rewrite Hiff. split; [intros Hv; split; [by left | exact Hv] | by intros [_ Hv]].
  - destruct (backup_parse_success root internal VIR_DOMAIN_BACKUP_TYPE_PULL)
      as [Hiff Hdef]; [right; by exists "pull"|].
    rewrite Ht. split; [|split; [exact Hdef | done]].
    rewrite Hiff. split; [intros Hv; split; [by right | exact Hv] | by intros [_ Hv]].
  - assert (Hnone : virDomainBackupDefParse root internal = None).
    { unfold virDomainBackupDefParse. rewrite Hmode. simpl.
      apply Z.leb_le in Ht. by rewrite Ht. }
    rewrite Hnone. split; [|split; [done | done]].
    split; [intros [? [=]] | intros [[?|?] _]; done].
Qed.

End ParseProperties.

(** The document of the claim with mode push parses under the concrete
    collaborators. *)
Lemma backup_parse_mode_witness :
  is_Some (@virDomainBackupDefParse libvirt_backup_collaborators
             (minimal_backup_xml "push") false)
  <-> ("push" = "push" \/ "push" = "pull") /\
      @rest_valid libvirt_backup_collaborators
        (virDomainBackupTypeFromString "push") (minimal_backup_xml "push") false.
Proof.
  exact (proj1 (@backup_parse_mode libvirt_backup_collaborators
                  (minimal_backup_xml "push") false "push" eq_refl)).
Defined.

(** C8 as stated fails: the mode "default" is refused, in a document that
    parses with the mode push and with the mode pull. *)
Lemma backup_parse_default_refused :
  @virDomainBackupDefParse libvirt_backup_collaborators
    (minimal_backup_xml "default") false = None /\
  is_Some (@virDomainBackupDefParse libvirt_backup_collaborators
             (minimal_backup_xml "push") false) /\
  is_Some (@virDomainBackupDefParse libvirt_backup_collaborators
             (minimal_backup_xml "pull") false).
Proof. repeat split; vm_compute; eauto. Qed.


(** ** Printing and parsing indices *)

Lemma to_int_small (z : Z) : 0 <= z <= INT_MAX -> to_int z = z.
Proof.
  unfold to_int, INT_MAX. intros Hz.
  rewrite Z.mod_small by lia. lia.
Qed.

Lemma to_int_wraps (z : Z) : INT_MAX < z <= UINT_MAX -> to_int z = z - 4294967296.
Proof.
  unfold to_int, INT_MAX, UINT_MAX. intros Hz.
  replace (z + 2147483648) with (z - 2147483648 + 1 * 4294967296) by lia.
  rewrite Z.mod_add by lia. rewrite Z.mod_small by lia. lia.
Qed.

Lemma to_int_range (z : Z) : INT_MIN <= to_int z <= INT_MAX.
Proof.
  unfold to_int, INT_MIN, INT_MAX.
  pose proof (Z.mod_pos_bound (z + 2147483648) 4294967296 ltac:(lia)). lia.
Qed.

Lemma strip_prefix_app (p s : string) : strip_prefix p (p ++ s) = Some s.
Proof.
  induction p as [|c p IH]; simpl; [done|]. by rewrite Ascii.eqb_refl.
Qed.

Lemma uint_string_head (d : Decimal.uint) :
  d <> Decimal.Nil ->
  exists c r, NilEmpty.string_of_uint d = String c r /\
              isspace c = false /\ Ascii.eqb c "-" = false /\
              Ascii.eqb c "+" = false.
Proof.
  intros Hd. destruct d; [done|..]; simpl; eexists _, _; by repeat split.
Qed.

Lemma strtol_of_digits (d : Decimal.uint) :
  d <> Decimal.Nil ->
  virStrToLong_i (NilEmpty.string_of_uint d)
  = if ((INT_MIN <=? Z.of_uint d) && (Z.of_uint d <=? INT_MAX))%bool
    then Some (Z.of_uint d) else None.
Proof.
  intros Hd. destruct (uint_string_head d Hd) as (c & r & Hs & Hsp & Hm & Hp).
  unfold virStrToLong_i. rewrite Hs. simpl skip_space. rewrite Hsp, Hm, Hp.
  rewrite <- Hs, NilEmpty.usu. done.
Qed.

Lemma strtol_of_minus_digits (d : Decimal.uint) :
  d <> Decimal.Nil ->
  virStrToLong_i (String "-" (NilEmpty.string_of_uint d))
  = if ((INT_MIN <=? - Z.of_uint d) && (- Z.of_uint d <=? INT_MAX))%bool
    then Some (- Z.of_uint d) else None.
Proof.
  intros Hd. destruct (uint_string_head d Hd) as (c & r & Hs & Hsp & Hm & Hp).
  unfold virStrToLong_i. simpl. rewrite Hs at 1. rewrite NilEmpty.usu. done.
Qed.

Lemma string_of_uint_pos (p : positive) :
  NilZero.string_of_uint (Pos.to_uint p) = NilEmpty.string_of_uint (Pos.to_uint p).
Proof.
  pose proof (DecimalPos.Unsigned.to_uint_nonnil p) as Hn.
  by destruct (Pos.to_uint p).
Qed.

(** What [%d] prints, [strtol] reads back. *)
Lemma strtol_fmt_d (n : Z) :
  INT_MIN <= n <= INT_MAX -> virStrToLong_i (fmt_d n) = Some n.
Proof.
  intros Hn. unfold fmt_d. destruct n as [|p|p]; [done|..]; simpl.
  - rewrite string_of_uint_pos,
      strtol_of_digits by apply DecimalPos.Unsigned.to_uint_nonnil.
    unfold Z.of_uint. rewrite DecimalPos.Unsigned.of_to. simpl.
    by rewrite !(proj2 (Z.leb_le _ _)) by (unfold INT_MIN, INT_MAX in *; lia).
  - rewrite string_of_uint_pos,
      strtol_of_minus_digits by apply DecimalPos.Unsigned.to_uint_nonnil.
    unfold Z.of_uint. rewrite DecimalPos.Unsigned.of_to. simpl.
    change (- Z.pos p) with (Z.neg p).
    by rewrite !(proj2 (Z.leb_le _ _)) by (unfold INT_MIN, INT_MAX in *; lia).
Qed.

Lemma fmt_d_inj (a b : Z) :
  INT_MIN <= a <= INT_MAX -> INT_MIN <= b <= INT_MAX -> fmt_d a = fmt_d b -> a = b.
Proof.
  intros Ha Hb Heq. pose proof (strtol_fmt_d a Ha) as H1.
  rewrite Heq, (strtol_fmt_d b Hb) in H1. congruence.
Qed.

Lemma fmt_d_inj_Z (a b : Z) : fmt_d a = fmt_d b -> a = b.
Proof.
  unfold fmt_d. intros Heq.
  assert (Hn : forall z, Z.to_int z <> Decimal.Pos Decimal.Nil /\
                         Z.to_int z <> Decimal.Neg Decimal.Nil).
  { intros [|p|p]; simpl; split; try discriminate; intros [= Hp];
      by apply (DecimalPos.Unsigned.to_uint_nonnil p). }
  apply DecimalZ.to_int_inj.
  destruct (Hn a) as [Ha1 Ha2], (Hn b) as [Hb1 Hb2].
  pose proof (NilZero.isi (Z.to_int a) Ha1 Ha2) as Ha.
  rewrite Heq, (NilZero.isi (Z.to_int b) Hb1 Hb2) in Ha. congruence.
Qed.

Lemma strtol_range (s : string) (v : Z) :
  virStrToLong_i s = Some v -> INT_MIN <= v <= INT_MAX.
Proof.
  unfold virStrToLong_i.
  destruct (match skip_space s with
            | String c r => _
            | EmptyString => _
            end) as [neg s2].
  destruct s2; [done|]. destruct (NilEmpty.uint_of_string _); [|done].
  destruct (_ && _)%bool eqn:Hr; [|done]. intros [= <-].
  apply andb_prop in Hr as [H1%Z.leb_le H2%Z.leb_le]. done.
Qed.

Lemma alias_index_range (a : option string) (prefix : string) :
  INT_MIN <= qemuDomainDeviceAliasIndex a prefix <= INT_MAX.
Proof.
  unfold qemuDomainDeviceAliasIndex.
  destruct a as [a|]; [|done]. destruct (strip_prefix prefix a); [|done].
  destruct (virStrToLong_i s) eqn:Hs; [|done]. by apply strtol_range in Hs.
Qed.

Lemma alias_index_fmt (prefix : string) (n : Z) :
  INT_MIN <= n <= INT_MAX ->
  qemuDomainDeviceAliasIndex (Some (prefix ++ fmt_d n)) prefix = n.
Proof.
  intros Hn. unfold qemuDomainDeviceAliasIndex.
  by rewrite strip_prefix_app, strtol_fmt_d.
Qed.

(** ** The scanning loops *)

Lemma highest_plus_one_nonneg (l : list Z) : 0 <= highest_plus_one l.
Proof. induction l; simpl; lia. Qed.

Lemma seen_suffixes_cons (prefix : string) (a : option string)
    (l : list (option string)) :
  seen_suffixes prefix (a :: l)
  = if 0 <=? qemuDomainDeviceAliasIndex a prefix
    then qemuDomainDeviceAliasIndex a prefix :: seen_suffixes prefix l
    else seen_suffixes prefix l.
Proof. reflexivity. Qed.

(** Every alias of the list has an index below the highest seen plus one. *)
Lemma highest_plus_one_above (prefix : string) (l : list (option string))
    (a : option string) :
  a ∈ l ->
  qemuDomainDeviceAliasIndex a prefix < highest_plus_one (seen_suffixes prefix l).
Proof.
  induction l as [|b l IH]; intros Hin; [by apply elem_of_nil in Hin|].
  rewrite seen_suffixes_cons.
  pose proof (highest_plus_one_nonneg (seen_suffixes prefix l)) as Hnn.
  apply elem_of_cons in Hin as [->|Hin].
  - destruct (0 <=? qemuDomainDeviceAliasIndex b prefix) eqn:Hb; simpl; [lia|].
    apply Z.leb_gt in Hb. lia.
  - specialize (IH Hin).
    destruct (0 <=? qemuDomainDeviceAliasIndex b prefix); simpl; lia.
Qed.

(** The loop with [continue]: undefined when an alias carries [INT_MAX],
    otherwise the highest suffix seen plus one, or the start if larger. *)
Lemma scan_skip_spec (prefix : string) (l : list (option string)) (i : Z) :
  0 <= i <= INT_MAX ->
  scan_skip prefix l i
  = if has_int_max prefix l then None
    else Some (Z.max i (highest_plus_one (seen_suffixes prefix l))).
Proof.
  revert i. induction l as [|a l IH]; intros i Hi.
  - simpl. f_equal. lia.
  - cbn [scan_skip has_int_max existsb]. rewrite seen_suffixes_cons.
    fold (has_int_max prefix l).
    pose proof (alias_index_range a prefix) as Hr.
    set (t := qemuDomainDeviceAliasIndex a prefix) in *.
    destruct (t <? 0) eqn:Hneg.
    + apply Z.ltb_lt in Hneg.
      rewrite (proj2 (Z.eqb_neq t INT_MAX)) by (unfold INT_MAX; lia).
      rewrite (proj2 (Z.leb_gt 0 t)) by lia. simpl. by apply IH.
    + apply Z.ltb_ge in Hneg. rewrite (proj2 (Z.leb_le 0 t)) by lia.
      destruct (t =? INT_MAX) eqn:Hmax.
      * apply Z.eqb_eq in Hmax. simpl.
        rewrite (proj2 (Z.geb_le t i)) by lia.
        unfold int_succ. by rewrite (proj2 (Z.ltb_ge t INT_MAX)) by lia.
      * apply Z.eqb_neq in Hmax. simpl.
        destruct (t >=? i) eqn:Hge.
        -- apply Z.geb_le in Hge. unfold int_succ.
           rewrite (proj2 (Z.ltb_lt t INT_MAX)) by lia.
           rewrite IH by lia. destruct (has_int_max prefix l); [done|].
           f_equal. lia.
        -- rewrite Z.geb_leb in Hge. apply Z.leb_gt in Hge.
           rewrite IH by lia. destruct (has_int_max prefix l); [done|].
           f_equal. lia.
Qed.

(** From a non-negative start the loop without [continue] does the same. *)
Lemma scan_ge_skip (prefix : string) (l : list (option string)) (m : Z) :
  0 <= m -> scan_ge prefix l m = scan_skip prefix l m.
Proof.
  revert m. induction l as [|a l IH]; intros m Hm; [done|].
  cbn [scan_ge scan_skip].
  set (t := qemuDomainDeviceAliasIndex a prefix).
  destruct (t <? 0) eqn:Hneg.
  - apply Z.ltb_lt in Hneg.
    assert (Hge : (t >=? m) = false) by (rewrite Z.geb_leb; apply Z.leb_gt; lia).
    rewrite Hge. by apply IH.
  - apply Z.ltb_ge in Hneg. destruct (t >=? m); [|by apply IH].
    unfold int_succ. destruct (t <? INT_MAX); [|done]. apply IH. lia.
Qed.

Lemma has_int_max_app (prefix : string) (l1 l2 : list (option string)) :
  has_int_max prefix (l1 ++ l2)%list
  = (has_int_max prefix l1 || has_int_max prefix l2)%bool.
Proof. unfold has_int_max. apply existsb_app. Qed.

Lemma scan_skip_app (prefix : string) (l1 l2 : list (option string)) (i : Z) :
  scan_skip prefix (l1 ++ l2)%list i
  = match scan_skip prefix l1 i with
    | Some j => scan_skip prefix l2 j
    | None => None
    end.
Proof.
  revert i. induction l1 as [|a l1 IH]; intros i; [done|].
  cbn [scan_skip app]. fold (@app (option string)).
  destruct (_ <? 0); [apply IH|].
  destruct (_ >=? i); [|apply IH].
  destruct (int_succ _); [apply IH|done].
Qed.

(** ** The scavenging assigners *)

Lemma scan_skip_from_0 (prefix : string) (l : list (option string)) :
  scan_skip prefix l 0
  = if has_int_max prefix l then None
    else Some (highest_plus_one (seen_suffixes prefix l)).
Proof.
  rewrite scan_skip_spec by done.
  pose proof (highest_plus_one_nonneg (seen_suffixes prefix l)).
  destruct (has_int_max prefix l); [done|]. f_equal. lia.
Qed.

Lemma with_index_scan_skip {S : Type} (prefix : string) (l : list (option string))
    (k : Z -> S) :
  with_index (scan_skip prefix l 0) k
  = scavenged prefix l (fun _ => k (highest_plus_one (seen_suffixes prefix l))).
Proof.
  rewrite scan_skip_from_0. unfold scavenged.
  by destruct (has_int_max prefix l).
Qed.

Lemma net_alias_scavenged (def : virDomainDef) (net : virDomainNetDef) :
  alias (net_info net) = None ->
  net_actual_type net <> VIR_DOMAIN_NET_TYPE_HOSTDEV ->
  qemuAssignDeviceNetAlias def net (-1)
  = scavenged "net" (net_aliases def) (fun a => net_set_alias (Some a) net).
Proof.
  intros Hnone Hty. unfold qemuAssignDeviceNetAlias.
  rewrite Hnone, bool_decide_eq_false_2 by done.
  change (-1 =? -1) with true. cbv iota.
  by rewrite with_index_scan_skip.
Qed.

(** C4. The index scavenged by the scanning loops is the highest suffix
    seen under the prefix plus one (0 when none is seen), for every list
    of aliases and every prefix, and is undefined only when an alias
    carries [INT_MAX]; so the network-interface assigner, asked to
    scavenge, names the interface "net" followed by that index: with
    "net0" and "net2" present it is "net3", not the unused "net1". *)
Theorem net_alias_scavenges_highest_plus_one :
  (forall prefix aliases,
     scan_skip prefix aliases 0
     = (if has_int_max prefix aliases then None
        else Some (highest_plus_one (seen_suffixes prefix aliases))) /\
     scan_ge prefix aliases 0 = scan_skip prefix aliases 0) /\
  (forall def net,
     alias (net_info net) = None ->
     net_actual_type net <> VIR_DOMAIN_NET_TYPE_HOSTDEV ->
     qemuAssignDeviceNetAlias def net (-1)
     = scavenged "net" (net_aliases def) (fun a => net_set_alias (Some a) net)) /\
  qemuAssignDeviceNetAlias net0_net2_dom (net_of None VIR_DOMAIN_NET_TYPE_OTHER) (-1)
  = Ret0 (net_of (Some "net3") VIR_DOMAIN_NET_TYPE_OTHER).
Proof.
  split; [|split].
  - intros prefix aliases. split; [apply scan_skip_from_0 | by apply scan_ge_skip].
  - apply net_alias_scavenged.
  - reflexivity.
Qed.

Lemma net_alias_scavenges_highest_plus_one_witness :
  qemuAssignDeviceNetAlias net0_net2_dom (net_of None VIR_DOMAIN_NET_TYPE_OTHER) (-1)
  = scavenged "net" (net_aliases net0_net2_dom)
              (fun a => net_set_alias (Some a) (net_of None VIR_DOMAIN_NET_TYPE_OTHER)).
Proof.
  exact (proj1 (proj2 net_alias_scavenges_highest_plus_one)
               net0_net2_dom (net_of None VIR_DOMAIN_NET_TYPE_OTHER)
               eq_refl ltac:(discriminate)).
Defined.

(** C5, the code at the empty lists: asked to scavenge, the input assigner
    starts its scan from the -1 it was given and names the first input
    device "input-1"; the shared-memory, redirdev, RNG, network-interface
    and host-device assigners start theirs from 0. *)
Theorem input_alias_on_empty_list (def : virDomainDef) (dev : virDomainDeviceInfo) :
  alias dev = None ->
  (inputs def = [] ->
   qemuAssignDeviceInputAlias def dev (-1) = Ret0 (set_alias (Some "input-1") dev)) /\
  (shmems def = [] ->
   qemuAssignDeviceShmemAlias def dev (-1) = Ret0 (set_alias (Some "shmem0") dev)) /\
  (redirdevs def = [] ->
   qemuAssignDeviceRedirdevAlias def dev (-1) = Ret0 (set_alias (Some "redir0") dev)) /\
  (rngs def = [] ->
   qemuAssignDeviceRNGAlias def dev = Ret0 (set_alias (Some "rng0") dev)) /\
  (nets def = [] -> hostdevs def = [] ->
   qemuAssignDeviceHostdevAlias def None (-1) = Ret0 (Some "hostdev0")).
Proof.
  intros Hnone. repeat split.
  - intros Hl. unfold qemuAssignDeviceInputAlias. by rewrite Hnone, Hl.
  - intros Hl. unfold qemuAssignDeviceShmemAlias. by rewrite Hnone, Hl.
  - intros Hl. unfold qemuAssignDeviceRedirdevAlias. by rewrite Hnone, Hl.
  - intros Hl. unfold qemuAssignDeviceRNGAlias. by rewrite Hnone, Hl.
  - intros Hn Hh. unfold qemuAssignDeviceHostdevAlias. by rewrite Hn, Hh.
Qed.

Lemma input_alias_on_empty_list_witness :
  qemuAssignDeviceInputAlias empty_def (info_of None) (-1)
  = Ret0 (set_alias (Some "input-1") (info_of None)).
Proof.
  exact (proj1 (input_alias_on_empty_list empty_def (info_of None) eq_refl) eq_refl).
Defined.

Lemma memory_alias_cases (def : virDomainDef) (mem : virDomainMemoryDef)
    (oldAlias : bool) (prefix : string) :
  alias (mem_info mem) = None ->
  memory_prefix (mem_model mem) = Some prefix ->
  qemuAssignDeviceMemoryAlias def mem oldAlias
  = if (negb oldAlias
        && negb (bool_decide (mem_model mem = VIR_DOMAIN_MEMORY_MODEL_VIRTIO_PMEM)))%bool
    then Ret0 (mem_set_alias
                 (Some (prefix ++ fmt_d (to_int (addr_dimm_slot (mem_info mem))))) mem)
    else scavenged prefix (mem_aliases def) (fun a => mem_set_alias (Some a) mem).
Proof.
  intros Hnone Hp. unfold qemuAssignDeviceMemoryAlias, qemuDeviceMemoryGetAliasID.
  rewrite Hnone.
  assert (Hpre : match mem_model mem with
                 | VIR_DOMAIN_MEMORY_MODEL_DIMM => Some "dimm"
                 | VIR_DOMAIN_MEMORY_MODEL_NVDIMM => Some "nvdimm"
                 | VIR_DOMAIN_MEMORY_MODEL_VIRTIO_PMEM => Some "virtiopmem"
                 | _ => None
                 end = Some prefix) by (by destruct (mem_model mem)).
  rewrite Hpre.
  destruct (negb oldAlias && _)%bool; [done|].
  rewrite scan_ge_skip by done. apply with_index_scan_skip.
Qed.




(** ** The pass only adds aliases *)

#[local] Instance info_upd_refl : Reflexive info_upd.
Proof. intros i. by left. Qed.

#[local] Instance info_upd_trans : Transitive info_upd.
Proof.
  intros i j k [->|(Hn & a & ->)] [->|(Hn' & b & ->)].
  - by left.
  - right. eauto.
  - right. eauto.
  - done.
Qed.

Lemma info_upd_assign (i : virDomainDeviceInfo) (a : string) :
  alias i = None -> info_upd i (set_alias (Some a) i).
Proof. intros Hn. right. eauto. Qed.

Lemma info_upd_alias (i i' : virDomainDeviceInfo) (a : string) :
  info_upd i i' -> alias i = Some a -> i' = i.
Proof. intros [->|(Hn & _)] Ha; [done|congruence]. Qed.

Lemma info_upd_is_Some (i i' : virDomainDeviceInfo) :
  info_upd i i' -> is_Some (alias i) -> is_Some (alias i').
Proof. intros [->|(Hn & _)] [a Ha]; [eauto|congruence]. Qed.

#[local] Instance disk_upd_refl : Reflexive disk_upd.
Proof. intros x. by repeat split. Qed.
#[local] Instance disk_upd_trans : Transitive disk_upd.
Proof.
  intros x y z (H1 & H2 & H3 & H4) (H1' & H2' & H3' & H4').
  repeat split; [by etrans|congruence..].
Qed.

#[local] Instance net_upd_refl : Reflexive net_upd.
Proof. intros x. by repeat split. Qed.
#[local] Instance net_upd_trans : Transitive net_upd.
Proof.
  intros x y z (H1 & H2) (H1' & H2'). split; [by etrans|congruence].
Qed.

#[local] Instance hostdev_upd_refl : Reflexive hostdev_upd.
Proof. intros [[i|n]]; unfold hostdev_upd; simpl; done. Qed.
#[local] Instance hostdev_upd_trans : Transitive hostdev_upd.
Proof.
  intros [[i|n]] [[j|m]] [[k|o]]; unfold hostdev_upd; simpl; try done.
  - apply info_upd_trans.
  - congruence.
Qed.

#[local] Instance controller_upd_refl : Reflexive controller_upd.
Proof. intros x. by repeat split. Qed.
#[local] Instance controller_upd_trans : Transitive controller_upd.
Proof.
  intros x y z (H1 & H2 & H3 & H4) (H1' & H2' & H3' & H4').
  repeat split; [by etrans|congruence..].
Qed.

#[local] Instance chr_upd_refl : Reflexive chr_upd.
Proof. intros x. by repeat split. Qed.
#[local] Instance chr_upd_trans : Transitive chr_upd.
Proof.
  intros x y z (H1 & H2) (H1' & H2'). split; [by etrans|congruence].
Qed.

#[local] Instance mem_upd_refl : Reflexive mem_upd.
Proof. intros x. by repeat split. Qed.
#[local] Instance mem_upd_trans : Transitive mem_upd.
Proof.
  intros x y z (H1 & H2) (H1' & H2'). split; [by etrans|congruence].
Qed.

#[local] Instance memballoon_upd_refl : Reflexive memballoon_upd.
Proof. intros x. by repeat split. Qed.
#[local] Instance memballoon_upd_trans : Transitive memballoon_upd.
Proof.
  intros x y z (H1 & H2 & H3) (H1' & H2' & H3').
  repeat split; [by etrans|congruence|].
  intros Hm. rewrite H3' by congruence. by apply H3.
Qed.

#[local] Instance def_upd_refl : Reflexive def_upd.
Proof. intros d. by constructor. Qed.

#[local] Instance def_upd_trans : Transitive def_upd.
Proof.
  intros d1 d2 d3 [] []. constructor; (by etrans) || congruence.
Qed.

Lemma set_alias_same (i : virDomainDeviceInfo) : set_alias (alias i) i = i.
Proof. by destruct i. Qed.

Lemma Forall2_insert_r {A : Type} (R : A -> A -> Prop) `{!Reflexive R}
    (l : list A) (i : nat) (x x' : A) :
  l !! i = Some x -> R x x' -> Forall2 R l (<[i:=x']> l).
Proof.
  intros Hl HR. rewrite <- (list_insert_id l i x Hl) at 1.
  by apply Forall2_insert.
Qed.

(** Every leaf of an assigner is the device as it was, the device with a
    fresh alias, or no result. *)
Ltac assigner_leaves :=
  repeat case_match; simplify_eq/=;
  intros [Hr|Hr]; simplify_eq/=;
  repeat split; try done; try (by apply info_upd_assign).

Lemma assign_indexed_upd (prefix : string) (i i' : virDomainDeviceInfo) (idx : Z) :
  assign_indexed prefix i idx = Ret0 i' \/ assign_indexed prefix i idx = RetErr i' ->
  info_upd i i'.
Proof. unfold assign_indexed. assigner_leaves. Qed.

Lemma with_index_upd {S : Type} (R : S -> S -> Prop) (o : option Z) (k : Z -> S)
    (x x' : S) :
  (forall i, R x (k i)) ->
  with_index o k = Ret0 x' \/ with_index o k = RetErr x' -> R x x'.
Proof. intros Hk. destruct o; simpl; intros [[= <-]|[=]]. apply Hk. Qed.

Lemma redirdev_upd (def : virDomainDef) (i i' : virDomainDeviceInfo) (idx : Z) :
  qemuAssignDeviceRedirdevAlias def i idx = Ret0 i'
  \/ qemuAssignDeviceRedirdevAlias def i idx = RetErr i' ->
  info_upd i i'.
Proof.
  unfold qemuAssignDeviceRedirdevAlias. destruct (alias i) eqn:Ha.
  - intros [[= <-]|[=]]. done.
  - apply with_index_upd. intros. by apply info_upd_assign.
Qed.

Lemma shmem_upd (def : virDomainDef) (i i' : virDomainDeviceInfo) (idx : Z) :
  qemuAssignDeviceShmemAlias def i idx = Ret0 i'
  \/ qemuAssignDeviceShmemAlias def i idx = RetErr i' ->
  info_upd i i'.
Proof.
  unfold qemuAssignDeviceShmemAlias. destruct (alias i) eqn:Ha.
  - intros [[= <-]|[=]]. done.
  - apply with_index_upd. intros. by apply info_upd_assign.
Qed.

Lemma input_upd (def : virDomainDef) (i i' : virDomainDeviceInfo) (idx : Z) :
  qemuAssignDeviceInputAlias def i idx = Ret0 i'
  \/ qemuAssignDeviceInputAlias def i idx = RetErr i' ->
  info_upd i i'.
Proof.
  unfold qemuAssignDeviceInputAlias. destruct (alias i) eqn:Ha.
  - intros [[= <-]|[=]]. done.
  - apply with_index_upd. intros. by apply info_upd_assign.
Qed.

Lemma rng_upd (def : virDomainDef) (i i' : virDomainDeviceInfo) :
  qemuAssignDeviceRNGAlias def i = Ret0 i'
  \/ qemuAssignDeviceRNGAlias def i = RetErr i' ->
  info_upd i i'.
Proof.
  unfold qemuAssignDeviceRNGAlias. destruct (alias i) eqn:Ha.
  - intros [[= <-]|[=]]. done.
  - apply with_index_upd. intros. by apply info_upd_assign.
Qed.

Lemma watchdog_upd (i i' : virDomainDeviceInfo) :
  qemuAssignDeviceWatchdogAlias i = Ret0 i'
  \/ qemuAssignDeviceWatchdogAlias i = RetErr i' ->
  info_upd i i'.
Proof. unfold qemuAssignDeviceWatchdogAlias. assigner_leaves. Qed.

Lemma vsock_upd (i i' : virDomainDeviceInfo) :
  qemuAssignDeviceVsockAlias i = Ret0 i' \/ qemuAssignDeviceVsockAlias i = RetErr i' ->
  info_upd i i'.
Proof. unfold qemuAssignDeviceVsockAlias. assigner_leaves. Qed.

Lemma memballoon_assign_upd (b b' : virDomainMemballoonDef) (idx : Z) :
  qemuAssignDeviceMemballoonAlias b idx = Ret0 b'
  \/ qemuAssignDeviceMemballoonAlias b idx = RetErr b' ->
  info_upd (memballoon_info b) (memballoon_info b') /\
  memballoon_model b' = memballoon_model b.
Proof. unfold qemuAssignDeviceMemballoonAlias. assigner_leaves. Qed.

Lemma chr_assign_upd (def : virDomainDef) (c c' : virDomainChrDef) (idx : Z) :
  qemuAssignDeviceChrAlias def c idx = Ret0 c'
  \/ qemuAssignDeviceChrAlias def c idx = RetErr c' ->
  chr_upd c c'.
Proof. unfold qemuAssignDeviceChrAlias, chr_upd. assigner_leaves. Qed.

Lemma mem_assign_upd (def : virDomainDef) (m m' : virDomainMemoryDef) (old : bool) :
  qemuAssignDeviceMemoryAlias def m old = Ret0 m'
  \/ qemuAssignDeviceMemoryAlias def m old = RetErr m' ->
  mem_upd m m'.
Proof.
  unfold qemuAssignDeviceMemoryAlias. destruct (alias (mem_info m)) eqn:Ha.
  - intros [[= <-]|[=]]. done.
  - destruct (match mem_model m with
              | VIR_DOMAIN_MEMORY_MODEL_DIMM => _
              | _ => _
              end).
    + apply with_index_upd. intros. split; [by apply info_upd_assign|done].
    + intros [[=]|[= <-]]. done.
Qed.

Lemma hostdev_assign_upd (def : virDomainDef) (a a' : option string) (idx : Z) :
  qemuAssignDeviceHostdevAlias def a idx = Ret0 a'
  \/ qemuAssignDeviceHostdevAlias def a idx = RetErr a' ->
  a' = a \/ (a = None /\ is_Some a').
Proof.
  unfold qemuAssignDeviceHostdevAlias. destruct a as [a|].
  - intros [[= <-]|[=]]. by left.
  - intros Hr. right. split; [done|].
    revert Hr. apply (with_index_upd (fun _ r => is_Some r) _ _ None).
    intros. by eexists.
Qed.

Lemma net_assign_upd (def : virDomainDef) (n n' : virDomainNetDef) (idx : Z) :
  qemuAssignDeviceNetAlias def n idx = Ret0 n'
  \/ qemuAssignDeviceNetAlias def n idx = RetErr n' ->
  net_upd n n'.
Proof.
  unfold qemuAssignDeviceNetAlias. destruct (alias (net_info n)) eqn:Ha.
  - intros [[= <-]|[=]]. done.
  - case_bool_decide.
    + destruct (qemuAssignDeviceHostdevAlias def None (-1)) as [a|a|] eqn:Hh;
        intros [[= <-]|[= <-]];
        (destruct (hostdev_assign_upd def None a (-1)) as [->|[_ [s ->]]];
         [by eauto | | ]);
        split; try done; try (by apply info_upd_assign).
      all: unfold net_set_alias; simpl; rewrite <- Ha at 1;
        by rewrite set_alias_same.
    + apply with_index_upd. intros. split; [by apply info_upd_assign|done].
Qed.

Section AssignerUpd.
Context `{Collaborators}.

Lemma controller_assign_upd (def : virDomainDef) (caps : virQEMUCaps)
    (c c' : virDomainControllerDef) :
  qemuAssignDeviceControllerAlias def caps c = Ret0 c'
  \/ qemuAssignDeviceControllerAlias def caps c = RetErr c' ->
  controller_upd c c'.
Proof. unfold qemuAssignDeviceControllerAlias, controller_upd. assigner_leaves. Qed.

Lemma disk_assign_alias_upd (def : virDomainDef) (x x' : virDomainDiskDef) :
  disk_assign_alias def x = Ret0 x' \/ disk_assign_alias def x = RetErr x' ->
  disk_upd x x' /\ disk_qomName x' = disk_qomName x.
Proof. unfold disk_assign_alias, disk_upd. assigner_leaves. Qed.

Lemma disk_assign_qomName_upd (caps : virQEMUCaps) (x : virDomainDiskDef) :
  disk_upd x (disk_assign_qomName caps x).
Proof.
  unfold disk_assign_qomName, disk_upd. repeat case_match; by repeat split.
Qed.

Lemma disk_assign_upd (def : virDomainDef) (caps : virQEMUCaps)
    (x x' : virDomainDiskDef) :
  qemuAssignDeviceDiskAlias def x caps = Ret0 x'
  \/ qemuAssignDeviceDiskAlias def x caps = RetErr x' ->
  disk_upd x x'.
Proof.
  unfold qemuAssignDeviceDiskAlias.
  destruct (disk_assign_alias def x) as [y|y|] eqn:Hy; simpl;
    intros [[= <-]|[= <-]].
  - etrans; [|apply disk_assign_qomName_upd].
    apply (disk_assign_alias_upd def). by left.
  - apply (disk_assign_alias_upd def). by right.
Qed.

End AssignerUpd.

Lemma loop_over_upd {A : Type} (R : A -> A -> Prop) `{!Reflexive R}
    (get : virDomainDef -> list A) (set : list A -> virDomainDef -> virDomainDef)
    (assign : virDomainDef -> nat -> A -> outcome A) :
  (forall d i x x',
      assign d i x = Ret0 x' \/ assign d i x = RetErr x' -> R x x') ->
  (forall d l, Forall2 R (get d) l -> def_upd d (set l d)) ->
  forall d d',
    loop_over get set assign d = Ret0 d' \/ loop_over get set assign d = RetErr d' ->
    def_upd d d'.
Proof.
  intros Hassign Hset d d'. unfold loop_over, for_each.
  apply for_from_rel; [apply def_upd_refl | apply def_upd_trans |].
  intros j t t'. destruct (get t !! j) as [x|] eqn:Hx.
  - destruct (assign t j x) as [x'|x'|] eqn:Ha; simpl;
      intros [[= <-]|[= <-]]; apply Hset;
      apply (Forall2_insert_r R _ _ x); try done;
      apply (Hassign t j); auto.
  - intros [[= <-]|[=]]. done.
Qed.

Lemma put_back_cases {A S : Type} (o : outcome A) (k : A -> S) (s : S) :
  put_back o k = Ret0 s \/ put_back o k = RetErr s ->
  exists a, (o = Ret0 a \/ o = RetErr a) /\ s = k a.
Proof. destruct o as [a|a|]; simpl; intros [[= <-]|[= <-]]; eauto. Qed.

Lemma hostdev_store_upd (d : virDomainDef) (i : nat) (h : virDomainHostdevDef)
    (a : option string) :
  hostdevs d !! i = Some h ->
  a = hostdev_alias d h \/ (hostdev_alias d h = None /\ is_Some a) ->
  def_upd d (hostdev_store_alias d i h a).
Proof.
  intros Hh Ha. unfold hostdev_store_alias, hostdev_alias in *.
  destruct h as [[info|n]]; simpl in *.
  - constructor; simpl; try done.
    apply (Forall2_insert_r hostdev_upd _ _ _ _ Hh). unfold hostdev_upd; simpl.
    destruct Ha as [->|[Hn [s ->]]];
      [by rewrite set_alias_same | by apply info_upd_assign].
  - destruct (nets d !! n) as [net|] eqn:Hnet; [|done].
    constructor; simpl; try done.
    apply (Forall2_insert_r net_upd _ _ _ _ Hnet). split; [|done]. simpl.
    destruct Ha as [->|[Hn [s ->]]];
      [by rewrite set_alias_same | by apply info_upd_assign].
Qed.

Lemma assign_hostdevs_upd (d d' : virDomainDef) :
  assign_hostdevs d = Ret0 d' \/ assign_hostdevs d = RetErr d' -> def_upd d d'.
Proof.
  unfold assign_hostdevs, for_each.
  apply for_from_rel; [apply def_upd_refl | apply def_upd_trans |].
  intros j t t'. destruct (hostdevs t !! j) as [h|] eqn:Hh.
  - intros (a & Ha & ->)%put_back_cases. apply hostdev_store_upd; [done|].
    apply hostdev_assign_upd in Ha as [->|[? ?]]; auto.
  - intros [[= <-]|[=]]. done.
Qed.

Lemma assign_watchdog_upd (d d' : virDomainDef) :
  assign_watchdog d = Ret0 d' \/ assign_watchdog d = RetErr d' -> def_upd d d'.
Proof.
  unfold assign_watchdog. destruct (watchdog d) as [w|] eqn:Hw.
  - intros (a & Ha & ->)%put_back_cases. apply watchdog_upd in Ha.
    constructor; simpl; try done. rewrite Hw. by constructor.
  - intros [[= <-]|[=]]. done.
Qed.

Lemma assign_vsock_upd (d d' : virDomainDef) :
  assign_vsock d = Ret0 d' \/ assign_vsock d = RetErr d' -> def_upd d d'.
Proof.
  unfold assign_vsock. destruct (vsock d) as [w|] eqn:Hw.
  - intros (a & Ha & ->)%put_back_cases. apply vsock_upd in Ha.
    constructor; simpl; try done. rewrite Hw. by constructor.
  - intros [[= <-]|[=]]. done.
Qed.

Lemma assign_memballoon_upd (d d' : virDomainDef) :
  assign_memballoon d = Ret0 d' \/ assign_memballoon d = RetErr d' -> def_upd d d'.
Proof.
  unfold assign_memballoon. destruct (memballoon d) as [b|] eqn:Hb.
  - case_bool_decide as Hm; simpl.
    + intros [[= <-]|[=]]. done.
    + intros (a & Ha & ->)%put_back_cases.
      apply memballoon_assign_upd in Ha as [Hi Hmod].
      constructor; simpl; try done. rewrite Hb. constructor.
      by repeat split.
  - intros [[= <-]|[=]]. done.
Qed.

Lemma run_steps_upd (steps : list (virDomainDef -> outcome virDomainDef)) :
  Forall step_upd steps -> step_upd (run_steps steps).
Proof.
  induction 1 as [|f steps Hf _ IH]; intros d d'; simpl.
  - intros [[= <-]|[=]]. done.
  - destruct (f d) as [t|t|] eqn:Hfd; simpl.
    + intros Hr. etrans; [apply Hf; by left | by apply IH].
    + intros [[=]|[= <-]]. apply Hf. by right.
    + intros [[=]|[=]].
Qed.

Ltac loop_upd R lem :=
  apply (loop_over_upd R);
  [ intros ? ? ? ?; apply lem
  | intros ? ? ?; constructor; simpl; done ].

Section PassUpd.
Context `{Collaborators}.

Lemma pass_steps_upd (caps : virQEMUCaps) :
  Forall step_upd (qemuAssignDeviceAliases_steps caps).
Proof.
  unfold qemuAssignDeviceAliases_steps. repeat apply Forall_cons_2;
    try apply Forall_nil_2; unfold step_upd.
  - loop_upd disk_upd disk_assign_upd.
  - loop_upd net_upd net_assign_upd.
  - loop_upd info_upd assign_indexed_upd.
  - loop_upd info_upd assign_indexed_upd.
  - apply assign_hostdevs_upd.
  - loop_upd info_upd redirdev_upd.
  - loop_upd info_upd assign_indexed_upd.
  - loop_upd controller_upd controller_assign_upd.
  - loop_upd info_upd input_upd.
  - loop_upd chr_upd chr_assign_upd.
  - loop_upd chr_upd chr_assign_upd.
  - loop_upd chr_upd chr_assign_upd.
  - loop_upd chr_upd chr_assign_upd.
  - loop_upd info_upd assign_indexed_upd.
  - loop_upd info_upd shmem_upd.
  - loop_upd info_upd assign_indexed_upd.
  - apply assign_watchdog_upd.
  - apply assign_memballoon_upd.
  - loop_upd info_upd rng_upd.
  - loop_upd info_upd assign_indexed_upd.
  - loop_upd mem_upd mem_assign_upd.
  - apply assign_vsock_upd.
Qed.

(** Whatever the pass returns, it left every device in place and changed
    no alias that was set. *)
Lemma pass_upd (def def' : virDomainDef) (caps : virQEMUCaps) :
  qemuAssignDeviceAliases def caps = Ret0 def'
  \/ qemuAssignDeviceAliases def caps = RetErr def' ->
  def_upd def def'.
Proof. apply run_steps_upd, pass_steps_upd. Qed.

End PassUpd.

(** ** Aliases that are set stay *)

Lemma info_upd_kept (i i' : virDomainDeviceInfo) :
  info_upd i i' -> kept (alias i) (alias i').
Proof. intros [->|(Hn & _)] [a Ha]; [done|congruence]. Qed.

Lemma Forall2_kept {A : Type} (R : A -> A -> Prop) (f : A -> option string)
    (l l' : list A) :
  (forall x x', R x x' -> kept (f x) (f x')) ->
  Forall2 R l l' -> Forall2 kept (map f l) (map f l').
Proof.
  intros HR Hl. apply Forall2_fmap. eapply Forall2_impl; [exact Hl|done].
Qed.

Lemma option_Forall2_kept {A : Type} (R : A -> A -> Prop) (f : A -> option string)
    (o o' : option A) :
  (forall x x', R x x' -> kept (f x) (f x')) ->
  option_Forall2 R o o' ->
  Forall2 kept (map f (option_list o)) (map f (option_list o')).
Proof. intros HR [x x' Hx|]; simpl; repeat constructor. by apply HR. Qed.

Lemma hostdev_aliases_kept (d d' : virDomainDef) :
  def_upd d d' ->
  Forall2 kept (map (hostdev_alias d) (hostdevs d))
               (map (hostdev_alias d') (hostdevs d')).
Proof.
  intros Hupd. apply Forall2_fmap.
  eapply Forall2_impl; [apply (upd_hostdevs _ _ Hupd)|].
  intros [[i|n]] [[i'|n']]; unfold hostdev_upd, hostdev_alias; simpl; try done.
  - apply info_upd_kept.
  - intros ->. destruct (nets d !! n) as [net|] eqn:Hn; [|by intros [? [=]]].
    destruct (Forall2_lookup_l _ _ _ _ _ (upd_nets _ _ Hupd) Hn)
      as (net' & -> & Hnet & _).
    by apply info_upd_kept.
Qed.

Lemma def_upd_kept (d d' : virDomainDef) :
  def_upd d d' -> Forall2 kept (device_aliases d) (device_aliases d').
Proof.
  intros Hupd. pose proof (hostdev_aliases_kept d d' Hupd) as Hh.
  destruct Hupd. unfold device_aliases.
  repeat (apply Forall2_app; [|]); try exact Hh;
    first [ eapply Forall2_kept; [|eassumption]
          | eapply option_Forall2_kept; [|eassumption] ];
    first [ exact info_upd_kept | intros x x' Hx; apply info_upd_kept, Hx ].
Qed.

(** ** Every device gets an alias *)

(** A loop over an array leaves, when it returns 0, every element as an
    assigner returned it. *)
Lemma loop_over_post {A : Type} (P : A -> Prop)
    (get : virDomainDef -> list A) (set : list A -> virDomainDef -> virDomainDef)
    (assign : virDomainDef -> nat -> A -> outcome A) :
  (forall l d, get (set l d) = l) ->
  (forall d i x x', assign d i x = Ret0 x' -> P x') ->
  forall d d', loop_over get set assign d = Ret0 d' -> Forall P (get d').
Proof.
  intros Hlens Hassign d d' Hrun. unfold loop_over, for_each in Hrun.
  set (n := length (get d)) in *.
  assert (Hinv : length (get d') = n /\
                 forall k x, (k < 0 + n)%nat -> get d' !! k = Some x -> P x).
  { revert Hrun.
    apply (for_from_inv
             (fun j t => length (get t) = n /\
                         forall k x, (k < j)%nat -> get t !! k = Some x -> P x)).
    - split; [done|]. intros k x Hk. lia.
    - intros j t t' Hj [Hlen Hdone] Hbody.
      destruct (get t !! j) as [x|] eqn:Hx.
      + destruct (assign t j x) as [x'| |] eqn:Ha; simpl in Hbody; try done.
        injection Hbody as <-. rewrite Hlens. split; [by rewrite length_insert|].
        intros k y Hk. destruct (decide (k = j)) as [->|Hne].
        * rewrite list_lookup_insert_eq by (by eapply lookup_lt_Some).
          intros [= <-]. by eapply Hassign.
        * rewrite list_lookup_insert_ne by done. apply Hdone. lia.
      + apply lookup_ge_None in Hx. lia. }
  destruct Hinv as [Hlen Hall]. apply Forall_lookup. intros k x Hk.
  apply (Hall k x); [|done]. apply lookup_lt_Some in Hk. lia.
Qed.

Ltac assigner_total :=
  repeat case_match; simplify_eq/=; try done; intros; simplify_eq/=;
  by eexists.

Lemma with_index_total {S : Type} (P : S -> Prop) (o : option Z) (k : Z -> S)
    (x' : S) :
  (forall i, P (k i)) -> with_index o k = Ret0 x' -> P x'.
Proof. intros Hk. destruct o; simpl; intros [= <-]. apply Hk. Qed.

Lemma assign_indexed_total (prefix : string) (i i' : virDomainDeviceInfo) (idx : Z) :
  assign_indexed prefix i idx = Ret0 i' -> is_Some (alias i').
Proof. unfold assign_indexed. assigner_total. Qed.

Lemma redirdev_total (def : virDomainDef) (i i' : virDomainDeviceInfo) (idx : Z) :
  qemuAssignDeviceRedirdevAlias def i idx = Ret0 i' -> is_Some (alias i').
Proof.
  unfold qemuAssignDeviceRedirdevAlias. destruct (alias i) eqn:Ha.
  - intros [= <-]. by rewrite Ha.
  - apply (with_index_total (fun x => is_Some (alias x))). intros. by eexists.
Qed.

Lemma shmem_total (def : virDomainDef) (i i' : virDomainDeviceInfo) (idx : Z) :
  qemuAssignDeviceShmemAlias def i idx = Ret0 i' -> is_Some (alias i').
Proof.
  unfold qemuAssignDeviceShmemAlias. destruct (alias i) eqn:Ha.
  - intros [= <-]. by rewrite Ha.
  - apply (with_index_total (fun x => is_Some (alias x))). intros. by eexists.
Qed.

Lemma input_total (def : virDomainDef) (i i' : virDomainDeviceInfo) (idx : Z) :
  qemuAssignDeviceInputAlias def i idx = Ret0 i' -> is_Some (alias i').
Proof.
  unfold qemuAssignDeviceInputAlias. destruct (alias i) eqn:Ha.
  - intros [= <-]. by rewrite Ha.
  - apply (with_index_total (fun x => is_Some (alias x))). intros. by eexists.
Qed.

Lemma rng_total (def : virDomainDef) (i i' : virDomainDeviceInfo) :
  qemuAssignDeviceRNGAlias def i = Ret0 i' -> is_Some (alias i').
Proof.
  unfold qemuAssignDeviceRNGAlias. destruct (alias i) eqn:Ha.
  - intros [= <-]. by rewrite Ha.
  - apply (with_index_total (fun x => is_Some (alias x))). intros. by eexists.
Qed.

Lemma chr_total (def : virDomainDef) (c c' : virDomainChrDef) (idx : Z) :
  qemuAssignDeviceChrAlias def c idx = Ret0 c' -> is_Some (chr_alias c').
Proof. unfold qemuAssignDeviceChrAlias, chr_alias. assigner_total. Qed.

Lemma mem_total (def : virDomainDef) (m m' : virDomainMemoryDef) (old : bool) :
  qemuAssignDeviceMemoryAlias def m old = Ret0 m' -> is_Some (mem_alias m').
Proof.
  unfold qemuAssignDeviceMemoryAlias, mem_alias.
  destruct (alias (mem_info m)) eqn:Ha.
  - intros [= <-]. by rewrite Ha.
  - destruct (match mem_model m with
              | VIR_DOMAIN_MEMORY_MODEL_DIMM => _
              | _ => _
              end); [|done].
    apply (with_index_total (fun x => is_Some (alias (mem_info x)))). intros. by eexists.
Qed.

Lemma hostdev_total (def : virDomainDef) (a a' : option string) (idx : Z) :
  qemuAssignDeviceHostdevAlias def a idx = Ret0 a' -> is_Some a'.
Proof.
  unfold qemuAssignDeviceHostdevAlias. destruct a as [a|].
  - intros [= <-]. by eexists.
  - apply (with_index_total (fun x => is_Some x)). intros. by eexists.
Qed.

Lemma net_total (def : virDomainDef) (n n' : virDomainNetDef) (idx : Z) :
  qemuAssignDeviceNetAlias def n idx = Ret0 n' -> is_Some (net_alias n').
Proof.
  unfold qemuAssignDeviceNetAlias, net_alias.
  destruct (alias (net_info n)) eqn:Ha.
  - intros [= <-]. by rewrite Ha.
  - case_bool_decide.
    + destruct (qemuAssignDeviceHostdevAlias def None (-1)) as [a|a|] eqn:Hh;
        intros [= <-]. by apply hostdev_total in Hh.
    + apply (with_index_total (fun x => is_Some (alias (net_info x)))). intros. by eexists.
Qed.

Section AssignerTotal.
Context `{Collaborators}.

Lemma controller_total (def : virDomainDef) (caps : virQEMUCaps)
    (c c' : virDomainControllerDef) :
  qemuAssignDeviceControllerAlias def caps c = Ret0 c' -> is_Some (controller_alias c').
Proof. unfold qemuAssignDeviceControllerAlias, controller_alias. assigner_total. Qed.

Lemma disk_total (def : virDomainDef) (caps : virQEMUCaps) (x x' : virDomainDiskDef) :
  qemuAssignDeviceDiskAlias def x caps = Ret0 x' -> is_Some (disk_alias x').
Proof.
  unfold qemuAssignDeviceDiskAlias, disk_alias.
  destruct (disk_assign_alias def x) as [y|y|] eqn:Hy; simpl; try done.
  intros [= <-].
  assert (Hy' : is_Some (alias (disk_info y))).
  { revert Hy. unfold disk_assign_alias. assigner_total. }
  destruct (disk_assign_qomName_upd caps y) as (Hi & _).
  by eapply info_upd_is_Some.
Qed.

End AssignerTotal.

Lemma Forall2_Forall_stable {A : Type} (R : A -> A -> Prop) (P : A -> Prop)
    (l l' : list A) :
  (forall x x', R x x' -> P x -> P x') -> Forall2 R l l' -> Forall P l -> Forall P l'.
Proof.
  intros HR Hl. induction Hl as [|x x' l l' Hx _ IH]; [done|].
  intros [Hpx Hpl]%Forall_cons. constructor; [by eapply HR|by apply IH].
Qed.

Lemma option_Forall2_Forall_stable {A : Type} (R : A -> A -> Prop) (P : A -> Prop)
    (o o' : option A) :
  (forall x x', R x x' -> P x -> P x') ->
  option_Forall2 R o o' -> Forall P (option_list o) -> Forall P (option_list o').
Proof.
  intros HR [x x' Hx|]; simpl; [|done].
  intros [Hp _]%Forall_cons. repeat constructor. by eapply HR.
Qed.

Lemma links_valid_upd (d d' : virDomainDef) :
  def_upd d d' -> links_valid d = true -> links_valid d' = true.
Proof.
  intros Hupd. unfold links_valid. rewrite !forallb_forall.
  intros Hd h' Hin. apply list_elem_of_In, list_elem_of_lookup in Hin as [k Hk].
  destruct (Forall2_lookup_r _ _ _ _ _ (upd_hostdevs _ _ Hupd) Hk)
    as (h & Hh & Hrel).
  specialize (Hd h). rewrite <- list_elem_of_In in Hd.
  specialize (Hd ltac:(by eapply list_elem_of_lookup_2)).
  rewrite <- (Forall2_length _ _ _ (upd_nets _ _ Hupd)).
  destruct h as [[i|n]], h' as [[i'|n']]; unfold hostdev_upd in Hrel;
    simpl in *; try done. by subst.
Qed.

Lemma hostdev_alias_stable (d d' : virDomainDef) (k : nat)
    (h h' : virDomainHostdevDef) :
  def_upd d d' -> hostdevs d !! k = Some h -> hostdevs d' !! k = Some h' ->
  is_Some (hostdev_alias d h) -> hostdev_alias d' h' = hostdev_alias d h.
Proof.
  intros Hupd Hh Hh' Hs.
  pose proof (hostdev_aliases_kept d d' Hupd) as Hk.
  eapply (Forall2_lookup_lr _ _ _ k) in Hk.
  - by apply Hk.
  - by rewrite list_lookup_fmap, Hh.
  - by rewrite list_lookup_fmap, Hh'.
Qed.

Lemma hostdevs_covered_stable (d d' : virDomainDef) :
  def_upd d d' ->
  Forall (fun h => is_Some (hostdev_alias d h)) (hostdevs d) ->
  Forall (fun h => is_Some (hostdev_alias d' h)) (hostdevs d').
Proof.
  intros Hupd Hall. apply Forall_lookup. intros k h' Hh'.
  destruct (Forall2_lookup_r _ _ _ _ _ (upd_hostdevs _ _ Hupd) Hh')
    as (h & Hh & _).
  pose proof (Forall_lookup_1 _ _ _ _ Hall Hh) as Hs.
  by rewrite (hostdev_alias_stable d d' k h h').
Qed.

Lemma real_memballoon_stable (d d' : virDomainDef) :
  def_upd d d' ->
  Forall (fun x => is_Some (memballoon_alias x)) (real_memballoon d) ->
  Forall (fun x => is_Some (memballoon_alias x)) (real_memballoon d').
Proof.
  intros Hupd. unfold real_memballoon.
  destruct (upd_memballoon _ _ Hupd) as [b b' (Hi & Hm & _)|]; simpl; [|done].
  rewrite Hm. case_bool_decide; simpl; [done|].
  intros [Hs _]%Forall_cons. repeat constructor.
  by eapply info_upd_is_Some.
Qed.

Lemma hostdev_store_own (t : virDomainDef) (j : nat) (h : virDomainHostdevDef)
    (info : virDomainDeviceInfo) (a : option string) :
  hostdevs t !! j = Some h -> hostdev_info h = OwnInfo info ->
  exists h', hostdevs (hostdev_store_alias t j h a) !! j = Some h' /\
             hostdev_alias (hostdev_store_alias t j h a) h' = a.
Proof.
  intros Hh Hi. unfold hostdev_store_alias. rewrite Hi. simpl.
  eexists. split; [apply list_lookup_insert_eq; by eapply lookup_lt_Some|done].
Qed.

Lemma hostdev_store_linked (t : virDomainDef) (j n : nat) (h : virDomainHostdevDef)
    (a : option string) :
  hostdevs t !! j = Some h -> hostdev_info h = NetInfo n ->
  (n < length (nets t))%nat ->
  hostdevs (hostdev_store_alias t j h a) !! j = Some h /\
  hostdev_alias (hostdev_store_alias t j h a) h = a.
Proof.
  intros Hh Hi Hn. unfold hostdev_store_alias, hostdev_alias. rewrite Hi.
  destruct (lookup_lt_is_Some_2 (nets t) n Hn) as [net Hnet]. rewrite Hnet. simpl.
  split; [done|]. by rewrite list_lookup_insert_eq.
Qed.

Lemma links_valid_lookup (d : virDomainDef) (k n : nat) (h : virDomainHostdevDef) :
  links_valid d = true -> hostdevs d !! k = Some h -> hostdev_info h = NetInfo n ->
  (n < length (nets d))%nat.
Proof.
  unfold links_valid. rewrite forallb_forall. intros Hall Hk Hi.
  specialize (Hall h). rewrite <- list_elem_of_In in Hall.
  specialize (Hall ltac:(by eapply list_elem_of_lookup_2)).
  rewrite Hi in Hall. by apply Nat.ltb_lt.
Qed.

Lemma assign_hostdevs_post (d d' : virDomainDef) :
  links_valid d = true -> assign_hostdevs d = Ret0 d' ->
  Forall (fun h => is_Some (hostdev_alias d' h)) (hostdevs d').
Proof.
  intros Hlinks Hrun.
  pose proof (assign_hostdevs_upd d d' (or_introl Hrun)) as Hupd.
  unfold assign_hostdevs, for_each in Hrun.
  set (n := length (hostdevs d)) in *.
  assert (Hinv : def_upd d d' /\
                 forall k h, (k < 0 + n)%nat -> hostdevs d' !! k = Some h ->
                             is_Some (hostdev_alias d' h)).
  { revert Hrun.
    apply (for_from_inv
             (fun j t => def_upd d t /\
                         forall k h, (k < j)%nat -> hostdevs t !! k = Some h ->
                                     is_Some (hostdev_alias t h))).
    - split; [done|]. intros k h Hk. lia.
    - intros j t t' Hj [Hdt Hdone] Hbody.
      destruct (hostdevs t !! j) as [h|] eqn:Hh.
      + destruct (qemuAssignDeviceHostdevAlias t (hostdev_alias t h) (-1))
          as [a|a|] eqn:Ha; simpl in Hbody; try done.
        injection Hbody as <-.
        pose proof (hostdev_total _ _ _ _ Ha) as Hsome.
        assert (Hstep : def_upd t (hostdev_store_alias t j h a)).
        { apply hostdev_store_upd; [done|].
          destruct (hostdev_assign_upd t _ a (-1) (or_introl Ha)) as [->|[? ?]]; auto. }
        split; [by etrans|].
        intros k h' Hk Hh'. destruct (decide (k = j)) as [->|Hne].
        * destruct (hostdev_info h) as [info|m] eqn:Hi.
          -- destruct (hostdev_store_own t j h info a Hh Hi) as (h2 & Hl & Hal).
             rewrite Hl in Hh'. injection Hh' as <-. by rewrite Hal.
          -- assert (Hm : (m < length (nets t))%nat).
             { eapply links_valid_lookup; [|exact Hh|exact Hi].
               by eapply links_valid_upd. }
             destruct (hostdev_store_linked t j m h a Hh Hi Hm) as (Hl & Hal).
             rewrite Hl in Hh'. injection Hh' as <-. by rewrite Hal.
        * destruct (Forall2_lookup_r _ _ _ _ _ (upd_hostdevs _ _ Hstep) Hh')
            as (h0 & Hh0 & _).
          rewrite (hostdev_alias_stable t _ k h0 h'); try done;
            apply (Hdone k h0); (lia || done).
      + apply lookup_ge_None in Hh.
        pose proof (Forall2_length _ _ _ (upd_hostdevs _ _ Hdt)). lia. }
  destruct Hinv as [_ Hall]. apply Forall_lookup. intros k h Hk.
  apply (Hall k h); [|done]. apply lookup_lt_Some in Hk.
  pose proof (Forall2_length _ _ _ (upd_hostdevs _ _ Hupd)). lia.
Qed.

(** The steps of a run that returned 0 each left their postcondition,
    and the later steps kept it. *)
Lemma run_steps_posts (Q : virDomainDef -> Prop)
    (steps : list (virDomainDef -> outcome virDomainDef))
    (posts : list (virDomainDef -> Prop)) :
  (forall d d', def_upd d d' -> Q d -> Q d') ->
  Forall step_upd steps ->
  Forall2 (fun f P => (forall d d', Q d -> f d = Ret0 d' -> P d') /\
                      (forall d d', def_upd d d' -> P d -> P d')) steps posts ->
  forall d d', Q d -> run_steps steps d = Ret0 d' -> Forall (fun P => P d') posts.
Proof.
  intros HQ Hupd Hposts. induction Hposts as [|f P steps posts [Hf HP] _ IH];
    intros d d' Hq Hrun; [done|].
  apply Forall_cons in Hupd as [Hfu Hsu]. simpl in Hrun.
  destruct (f d) as [t| |] eqn:Hfd; simpl in Hrun; try done.
  assert (Hdt : def_upd d t) by (apply Hfu; by left).
  constructor.
  - apply (HP t); [apply (run_steps_upd steps Hsu); by left|by eapply Hf].
  - apply (IH Hsu t); [by eapply HQ|done].
Qed.

Ltac loop_post lem :=
  split;
  [ intros ? ? _;
    match goal with
    | |- loop_over ?get ?set ?assign _ = _ -> Forall ?P _ =>
      apply (loop_over_post P get set assign (fun _ _ => eq_refl))
    end;
    intros ? ? ? ?; apply lem
  | intros ? ? Hu; eapply Forall2_Forall_stable; [|apply Hu];
    first [ intros ? ? ?; by apply info_upd_is_Some
          | intros ? ? [? _]; by apply info_upd_is_Some ] ].

Section PassPosts.
Context `{Collaborators}.

Lemma pass_steps_posts (caps : virQEMUCaps) :
  Forall2 (fun f P =>
             (forall d d', links_valid d = true -> f d = Ret0 d' -> P d') /\
             (forall d d', def_upd d d' -> P d -> P d'))
          (qemuAssignDeviceAliases_steps caps) pass_posts.
Proof.
  unfold qemuAssignDeviceAliases_steps, pass_posts.
  repeat apply Forall2_cons_2; try apply Forall2_nil_2.
  - loop_post disk_total.
  - loop_post net_total.
  - loop_post assign_indexed_total.
  - loop_post assign_indexed_total.
  - split; [apply assign_hostdevs_post | apply hostdevs_covered_stable].
  - loop_post redirdev_total.
  - loop_post assign_indexed_total.
  - loop_post controller_total.
  - loop_post input_total.
  - loop_post chr_total.
  - loop_post chr_total.
  - loop_post chr_total.
  - loop_post chr_total.
  - loop_post assign_indexed_total.
  - loop_post shmem_total.
  - loop_post assign_indexed_total.
  - split.
    + intros d d' _. unfold assign_watchdog.
      destruct (watchdog d) as [w|] eqn:Hw.
      * unfold qemuAssignDeviceWatchdogAlias.
        destruct (alias w) eqn:Ha; simpl; intros [= <-]; simpl;
          repeat constructor; by rewrite ?Ha.
      * intros [= <-]. by rewrite Hw.
    + intros d d' Hu. eapply option_Forall2_Forall_stable; [|apply Hu].
      intros ? ? ?; by apply info_upd_is_Some.
  - split; [|apply real_memballoon_stable].
    intros d d' _. unfold assign_memballoon, real_memballoon.
    destruct (memballoon d) as [b|] eqn:Hb.
    + case_bool_decide as Hm; simpl.
      * intros [= <-]. rewrite Hb. simpl. by rewrite bool_decide_eq_true_2.
      * unfold qemuAssignDeviceMemballoonAlias, memballoon_alias.
        destruct (alias (memballoon_info b)) eqn:Ha; simpl; intros [= <-]; simpl;
          rewrite bool_decide_eq_false_2 by done; simpl;
          repeat constructor; by rewrite ?Ha.
    + intros [= <-]. by rewrite Hb.
  - loop_post rng_total.
  - loop_post assign_indexed_total.
  - loop_post mem_total.
  - split.
    + intros d d' _. unfold assign_vsock.
      destruct (vsock d) as [w|] eqn:Hw.
      * unfold qemuAssignDeviceVsockAlias.
        destruct (alias w) eqn:Ha; simpl; intros [= <-]; simpl;
          repeat constructor; by rewrite ?Ha.
      * intros [= <-]. by rewrite Hw.
    + intros d d' Hu. eapply option_Forall2_Forall_stable; [|apply Hu].
      intros ? ? ?; by apply info_upd_is_Some.
Qed.

Lemma pass_posts_hold (def def' : virDomainDef) (caps : virQEMUCaps) :
  links_valid def = true ->
  qemuAssignDeviceAliases def caps = Ret0 def' ->
  Forall (fun P => P def') pass_posts.
Proof.
  intros Hl Hrun.
  apply (run_steps_posts (fun d => links_valid d = true)
                         (qemuAssignDeviceAliases_steps caps) pass_posts
                         links_valid_upd (pass_steps_upd caps)
                         (pass_steps_posts caps) def def' Hl Hrun).
Qed.

Lemma pass_posts_assignable (d : virDomainDef) :
  Forall (fun P => P d) pass_posts <-> Forall is_Some (assignable_aliases d).
Proof.
  unfold pass_posts, assignable_aliases.
  rewrite !Forall_cons, !Forall_app, !Forall_fmap, Forall_nil. unfold compose.
  split; intros Hx;
    repeat match goal with Hc : _ /\ _ |- _ => destruct Hc end;
    repeat split; first [assumption | exact I].
Qed.

(** C3 (as amended). After a run of the pass that returned 0, every
    device of every array of the domain, the watchdog and the vsock
    device carry an alias, and so does the memory balloon unless its
    model is none; a host device linked to a network interface carries
    the alias of that interface. *)
Theorem pass_covers_every_device (def def' : virDomainDef) (caps : virQEMUCaps) :
  links_valid def = true ->
  qemuAssignDeviceAliases def caps = Ret0 def' ->
  Forall is_Some (assignable_aliases def').
Proof.
  intros Hl Hrun. apply pass_posts_assignable. by eapply pass_posts_hold.
Qed.

End PassPosts.

Lemma pass_covers_every_device_witness :
  exists def',
    @qemuAssignDeviceAliases libvirt_collaborators sample_dom default_caps = Ret0 def' /\
    Forall is_Some (assignable_aliases def').
Proof.
  eexists. split; [vm_compute; reflexivity|].
  apply (@pass_covers_every_device libvirt_collaborators sample_dom _ default_caps);
    [reflexivity | vm_compute; reflexivity].
Defined.

(** C3 as stated fails: a memory balloon of model none is a device of the
    domain, has no alias before the run and none after it. *)
Lemma pass_skips_memballoon_none :
  exists def',
    @qemuAssignDeviceAliases libvirt_collaborators balloon_none_dom default_caps
    = Ret0 def' /\
    device_aliases balloon_none_dom = [None] /\
    device_aliases def' = [None].
Proof. eexists. split; [vm_compute; reflexivity|]. by split. Qed.

(** ** A second run changes no alias *)

Lemma for_from_total {S : Type} (Inv : S -> Prop) (body : nat -> S -> outcome S)
    (n i : nat) (s : S) :
  Inv s ->
  (forall j t, Inv t -> exists t', body j t = Ret0 t' /\ Inv t') ->
  exists s', for_from body i n s = Ret0 s' /\ Inv s'.
Proof.
  intros Hs Hstep. revert i s Hs. induction n as [|n IH]; intros i s Hs; simpl.
  - by exists s.
  - destruct (Hstep i s Hs) as (t & -> & Ht). simpl. by apply IH.
Qed.

Lemma loop_over_total {A : Type} (P : A -> Prop)
    (get : virDomainDef -> list A) (set : list A -> virDomainDef -> virDomainDef)
    (assign : virDomainDef -> nat -> A -> outcome A) :
  (forall l d, get (set l d) = l) ->
  (forall d i x, P x -> exists x', assign d i x = Ret0 x' /\ P x') ->
  forall d, Forall P (get d) -> exists d', loop_over get set assign d = Ret0 d'.
Proof.
  intros Hlens Hassign d Hall. unfold loop_over, for_each.
  destruct (for_from_total (fun t => Forall P (get t))
              (fun i t =>
                 match get t !! i with
                 | Some x => put_back (assign t i x)
                                      (fun x' => set (<[i:=x']> (get t)) t)
                 | None => Ret0 t
                 end) (length (get d)) 0 d Hall) as (d' & Hd' & _); [|by exists d'].
  intros j t Ht. destruct (get t !! j) as [x|] eqn:Hx; [|by exists t].
  destruct (Hassign t j x (Forall_lookup_1 _ _ _ _ Ht Hx)) as (x' & -> & Hp).
  simpl. eexists. split; [done|]. rewrite Hlens. by apply Forall_insert.
Qed.

Lemma assign_hostdevs_total (d : virDomainDef) :
  Forall (fun h => is_Some (hostdev_alias d h)) (hostdevs d) ->
  exists d', assign_hostdevs d = Ret0 d'.
Proof.
  intros Hall. unfold assign_hostdevs, for_each.
  destruct (for_from_total
              (fun t => Forall (fun h => is_Some (hostdev_alias t h)) (hostdevs t))
              (fun i t =>
                 match hostdevs t !! i with
                 | Some h =>
                   put_back (qemuAssignDeviceHostdevAlias t (hostdev_alias t h) (-1))
                            (hostdev_store_alias t i h)
                 | None => Ret0 t
                 end) (length (hostdevs d)) 0 d Hall) as (d' & Hd' & _);
    [|by exists d'].
  intros j t Ht. destruct (hostdevs t !! j) as [h|] eqn:Hh; [|by exists t].
  destruct (Forall_lookup_1 _ _ _ _ Ht Hh) as [a Ha].
  rewrite Ha. simpl. eexists. split; [done|].
  eapply hostdevs_covered_stable; [|exact Ht].
  apply hostdev_store_upd; [done|]. by left.
Qed.

Lemma run_steps_total (Q : virDomainDef -> Prop)
    (steps : list (virDomainDef -> outcome virDomainDef))
    (posts : list (virDomainDef -> Prop)) :
  (forall d d', def_upd d d' -> Q d -> Q d') ->
  Forall step_upd steps ->
  Forall2 (fun f P => (forall d, Q d -> P d -> exists d', f d = Ret0 d') /\
                      (forall d d', def_upd d d' -> P d -> P d')) steps posts ->
  forall d, Q d -> Forall (fun P => P d) posts ->
            exists d', run_steps steps d = Ret0 d'.
Proof.
  intros HQ Hupd Hposts. induction Hposts as [|f P steps posts [Hf HP] Hrest IH];
    intros d Hq Hall; [by exists d|].
  apply Forall_cons in Hupd as [Hfu Hsu]. apply Forall_cons in Hall as [Hp Hall].
  destruct (Hf d Hq Hp) as (t & Ht). simpl. rewrite Ht. simpl.
  assert (Hdt : def_upd d t) by (apply Hfu; by left).
  apply (IH Hsu t); [by eapply HQ|].
  clear IH. induction Hrest as [|g R ? ? [_ HR] _ IHr]; [done|].
  apply Forall_cons in Hall as [Hr Hall]. apply Forall_cons in Hsu as [_ Hsu].
  constructor; [by eapply HR|by apply IHr].
Qed.

Ltac loop_total tac :=
  split;
  [ intros ? _;
    match goal with
    | |- Forall ?P _ -> exists _, loop_over ?get ?set ?assign _ = _ =>
      apply (loop_over_total P get set assign (fun _ _ => eq_refl))
    end;
    intros ? ? x [? Hx]; tac; rewrite ?Hx; simpl; eexists; (split; [done|]);
    by rewrite ?Hx
  | intros ? ? Hu; eapply Forall2_Forall_stable; [|apply Hu];
    first [ intros ? ? ?; by apply info_upd_is_Some
          | intros ? ? [? _]; by apply info_upd_is_Some ] ].

Section SecondRun.
Context `{Collaborators}.

Lemma pass_steps_total (caps : virQEMUCaps) :
  Forall2 (fun f P =>
             (forall d, links_valid d = true -> P d -> exists d', f d = Ret0 d') /\
             (forall d d', def_upd d d' -> P d -> P d'))
          (qemuAssignDeviceAliases_steps caps) pass_posts.
Proof.
  unfold qemuAssignDeviceAliases_steps, pass_posts.
  repeat apply Forall2_cons_2; try apply Forall2_nil_2.
  - split.
    + intros d _.
      apply (loop_over_total (fun x => is_Some (disk_alias x)) disks set_disks _
                             (fun _ _ => eq_refl)).
      intros t i x [a Hx]. unfold qemuAssignDeviceDiskAlias, disk_assign_alias.
      unfold disk_alias in Hx. rewrite Hx. simpl. eexists. split; [done|].
      destruct (disk_assign_qomName_upd caps x) as (Hi & _).
      eapply info_upd_is_Some; [exact Hi|]. by rewrite Hx.
    + intros ? ? Hu; eapply Forall2_Forall_stable; [|apply Hu].
      intros ? ? [? _]; by apply info_upd_is_Some.
  - loop_total ltac:(unfold qemuAssignDeviceNetAlias, net_alias in * ).
  - loop_total ltac:(unfold qemuAssignDeviceFSAlias, assign_indexed).
  - loop_total ltac:(unfold qemuAssignDeviceSoundAlias, assign_indexed).
  - split; [intros d _; apply assign_hostdevs_total | apply hostdevs_covered_stable].
  - loop_total ltac:(unfold qemuAssignDeviceRedirdevAlias).
  - loop_total ltac:(unfold qemuAssignDeviceVideoAlias, assign_indexed).
  - loop_total ltac:(unfold qemuAssignDeviceControllerAlias, controller_alias in * ).
  - loop_total ltac:(unfold qemuAssignDeviceInputAlias).
  - loop_total ltac:(unfold qemuAssignDeviceChrAlias, chr_alias in * ).
  - loop_total ltac:(unfold qemuAssignDeviceChrAlias, chr_alias in * ).
  - loop_total ltac:(unfold qemuAssignDeviceChrAlias, chr_alias in * ).
  - loop_total ltac:(unfold qemuAssignDeviceChrAlias, chr_alias in * ).
  - loop_total ltac:(unfold qemuAssignDeviceHubAlias, assign_indexed).
  - loop_total ltac:(unfold qemuAssignDeviceShmemAlias).
  - loop_total ltac:(unfold qemuAssignDeviceSmartcardAlias, assign_indexed).
  - split.
    + intros d _ _. unfold assign_watchdog, qemuAssignDeviceWatchdogAlias.
      repeat case_match; simpl; by eexists.
    + intros d d' Hu. eapply option_Forall2_Forall_stable; [|apply Hu].
      intros ? ? ?; by apply info_upd_is_Some.
  - split; [|apply real_memballoon_stable].
    intros d _ _. unfold assign_memballoon, qemuAssignDeviceMemballoonAlias.
    repeat case_match; simpl; by eexists.
  - loop_total ltac:(unfold qemuAssignDeviceRNGAlias).
  - loop_total ltac:(unfold qemuAssignDeviceTPMAlias, assign_indexed).
  - loop_total ltac:(unfold qemuAssignDeviceMemoryAlias, mem_alias in * ).
  - split.
    + intros d _ _. unfold assign_vsock, qemuAssignDeviceVsockAlias.
      repeat case_match; simpl; by eexists.
    + intros d d' Hu. eapply option_Forall2_Forall_stable; [|apply Hu].
      intros ? ? ?; by apply info_upd_is_Some.
Qed.

End SecondRun.

Lemma map_alias_same {A : Type} (R : A -> A -> Prop) (f : A -> option string)
    (l l' : list A) :
  (forall x x', R x x' -> is_Some (f x) -> f x' = f x) ->
  Forall2 R l l' -> Forall (fun x => is_Some (f x)) l -> map f l' = map f l.
Proof.
  intros HR Hl. induction Hl as [|x x' l l' Hx _ IH]; [done|].
  intros [Hs Hall]%Forall_cons. simpl. f_equal; [by apply HR|by apply IH].
Qed.

Lemma option_alias_same (o o' : option virDomainDeviceInfo) :
  option_Forall2 info_upd o o' ->
  Forall (fun x => is_Some (alias x)) (option_list o) ->
  map alias (option_list o') = map alias (option_list o).
Proof.
  intros [x x' Hx|]; simpl; [|done]. intros [[a Ha] _]%Forall_cons.
  by rewrite (info_upd_alias x x' a).
Qed.

Lemma hostdev_aliases_same (d d' : virDomainDef) :
  def_upd d d' ->
  Forall (fun h => is_Some (hostdev_alias d h)) (hostdevs d) ->
  map (hostdev_alias d') (hostdevs d') = map (hostdev_alias d) (hostdevs d).
Proof.
  intros Hupd Hall. apply list_eq. intros k. rewrite !list_lookup_fmap.
  destruct (hostdevs d !! k) as [h|] eqn:Hh.
  - destruct (Forall2_lookup_l _ _ _ _ _ (upd_hostdevs _ _ Hupd) Hh)
      as (h' & Hh' & _).
    rewrite Hh'. simpl. f_equal.
    apply (hostdev_alias_stable d d' k); try done.
    by eapply (Forall_lookup_1 _ _ _ _ Hall).
  - apply lookup_ge_None in Hh.
    rewrite (Forall2_length _ _ _ (upd_hostdevs _ _ Hupd)) in Hh.
    apply lookup_ge_None in Hh. by rewrite Hh.
Qed.

Lemma memballoon_alias_same (d d' : virDomainDef) :
  def_upd d d' ->
  Forall (fun x => is_Some (memballoon_alias x)) (real_memballoon d) ->
  map memballoon_alias (option_list (memballoon d'))
  = map memballoon_alias (option_list (memballoon d)).
Proof.
  intros Hupd. unfold real_memballoon.
  destruct (upd_memballoon _ _ Hupd) as [b b' (Hi & Hm & Hnone)|]; simpl; [|done].
  case_bool_decide as Hmod; simpl.
  - intros _. by rewrite Hnone.
  - intros [[a Ha] _]%Forall_cons. unfold memballoon_alias in *.
    by rewrite (info_upd_alias _ _ a Hi Ha).
Qed.

(** Once every device that can get an alias has one, further steps of
    the pass leave all aliases as they are. *)
Lemma def_upd_same_aliases (d d' : virDomainDef) :
  def_upd d d' -> Forall is_Some (assignable_aliases d) ->
  device_aliases d' = device_aliases d.
Proof.
  intros Hupd Hcov%pass_posts_assignable.
  pose proof (hostdev_aliases_same d d' Hupd) as Hh.
  pose proof (memballoon_alias_same d d' Hupd) as Hb.
  unfold pass_posts in Hcov. rewrite !Forall_cons in Hcov.
  repeat match goal with Hc : _ /\ _ |- _ => destruct Hc end.
  destruct Hupd. unfold device_aliases.
  repeat (apply (f_equal2 app); [|]);
    first [ by apply Hh | by apply Hb
          | by apply option_alias_same
          | eapply map_alias_same; [|eassumption|eassumption] ];
    first [ intros x x' Hx [a Ha]; by rewrite (info_upd_alias x x' a)
          | intros x x' [Hx _] [a Ha];
            unfold disk_alias, net_alias, controller_alias, chr_alias, mem_alias in *;
            by rewrite (info_upd_alias _ _ a Hx Ha) ].
Qed.

Section Idempotence.
Context `{Collaborators}.

Lemma second_run (def : virDomainDef) (caps : virQEMUCaps) :
  links_valid def = true ->
  Forall is_Some (assignable_aliases def) ->
  exists def', qemuAssignDeviceAliases def caps = Ret0 def' /\
               device_aliases def' = device_aliases def.
Proof.
  intros Hl Hcov.
  destruct (run_steps_total (fun d => links_valid d = true)
              (qemuAssignDeviceAliases_steps caps) pass_posts
              links_valid_upd (pass_steps_upd caps) (pass_steps_total caps)
              def Hl (proj2 (pass_posts_assignable def) Hcov)) as (def' & Hrun).
  exists def'. split; [exact Hrun|].
  apply def_upd_same_aliases; [|exact Hcov].
  apply (pass_upd def def' caps). by left.
Qed.

(** C2. A device whose alias is set keeps it, with the same value, through
    every per-class assigner and through the domain-wide pass (whether the
    pass returns 0 or -1); so after a run that returned 0, a second run
    returns 0 as well and leaves every alias of the domain as the first
    run left it. *)
Theorem assignment_keeps_set_aliases :
  (forall (def : virDomainDef) (caps : virQEMUCaps) (a : string) (idx : Z)
          (oldAlias : bool),
     (forall x, chr_alias x = Some a -> qemuAssignDeviceChrAlias def x idx = Ret0 x) /\
     (forall x, controller_alias x = Some a ->
                qemuAssignDeviceControllerAlias def caps x = Ret0 x) /\
     (forall x, disk_alias x = Some a ->
                exists x', qemuAssignDeviceDiskAlias def x caps = Ret0 x' /\
                           disk_alias x' = Some a) /\
     qemuAssignDeviceHostdevAlias def (Some a) idx = Ret0 (Some a) /\
     (forall x, net_alias x = Some a -> qemuAssignDeviceNetAlias def x idx = Ret0 x) /\
     (forall x, alias x = Some a ->
                qemuAssignDeviceFSAlias x idx = Ret0 x /\
                qemuAssignDeviceSoundAlias x idx = Ret0 x /\
                qemuAssignDeviceVideoAlias x idx = Ret0 x /\
                qemuAssignDeviceHubAlias x idx = Ret0 x /\
                qemuAssignDeviceSmartcardAlias x idx = Ret0 x /\
                qemuAssignDeviceTPMAlias x idx = Ret0 x /\
                qemuAssignDeviceRedirdevAlias def x idx = Ret0 x /\
                qemuAssignDeviceRNGAlias def x = Ret0 x /\
                qemuAssignDeviceShmemAlias def x idx = Ret0 x /\
                qemuAssignDeviceWatchdogAlias x = Ret0 x /\
                qemuAssignDeviceInputAlias def x idx = Ret0 x /\
                qemuAssignDeviceVsockAlias x = Ret0 x) /\
     (forall x, memballoon_alias x = Some a ->
                qemuAssignDeviceMemballoonAlias x idx = Ret0 x) /\
     (forall x, mem_alias x = Some a ->
                qemuAssignDeviceMemoryAlias def x oldAlias = Ret0 x)) /\
  (forall (def def' : virDomainDef) (caps : virQEMUCaps),
     qemuAssignDeviceAliases def caps = Ret0 def'
     \/ qemuAssignDeviceAliases def caps = RetErr def' ->
     Forall2 kept (device_aliases def) (device_aliases def')) /\
  (forall (def def' : virDomainDef) (caps : virQEMUCaps),
     links_valid def = true ->
     qemuAssignDeviceAliases def caps = Ret0 def' ->
     exists def'', qemuAssignDeviceAliases def' caps = Ret0 def'' /\
                   device_aliases def'' = device_aliases def').
Proof.
  split; [|split].
  - intros def caps a idx oldAlias.
    unfold chr_alias, controller_alias, disk_alias, net_alias, memballoon_alias,
      mem_alias.
    repeat split; intros;
      unfold qemuAssignDeviceChrAlias, qemuAssignDeviceControllerAlias,
        qemuAssignDeviceNetAlias, qemuAssignDeviceFSAlias,
        qemuAssignDeviceSoundAlias, qemuAssignDeviceVideoAlias,
        qemuAssignDeviceHubAlias, qemuAssignDeviceSmartcardAlias,
        qemuAssignDeviceTPMAlias, qemuAssignDeviceRedirdevAlias,
        qemuAssignDeviceRNGAlias, qemuAssignDeviceShmemAlias,
        qemuAssignDeviceWatchdogAlias, qemuAssignDeviceInputAlias,
        qemuAssignDeviceVsockAlias, qemuAssignDeviceMemballoonAlias,
        qemuAssignDeviceMemoryAlias, assign_indexed;
      try match goal with Hx : alias _ = Some _ |- _ => by rewrite Hx end.
    match goal with Hx : alias (disk_info ?x) = Some _ |- _ =>
      unfold qemuAssignDeviceDiskAlias, disk_assign_alias; rewrite Hx; simpl;
      eexists; split; [done|];
      destruct (disk_assign_qomName_upd caps x) as (Hi & _);
      by rewrite (info_upd_alias _ _ a Hi Hx)
    end.
  - intros def def' caps Hrun. by apply def_upd_kept, (pass_upd def def' caps).
  - intros def def' caps Hl Hrun. apply second_run.
    + eapply links_valid_upd; [|exact Hl]. apply (pass_upd def def' caps). by left.
    + apply pass_posts_assignable. by eapply pass_posts_hold.
Qed.

End Idempotence.

Lemma assignment_keeps_set_aliases_witness :
  exists def'',
    @qemuAssignDeviceAliases libvirt_collaborators sample_dom_assigned default_caps
    = Ret0 def'' /\
    device_aliases def'' = device_aliases sample_dom_assigned.
Proof.
  apply (proj2 (proj2 (@assignment_keeps_set_aliases libvirt_collaborators))
               sample_dom sample_dom_assigned default_caps);
    vm_compute; reflexivity.
Defined.

(** ** Invariants of the loops of the pass *)

Lemma loop_over_inv {A : Type} (Inv : nat -> virDomainDef -> Prop)
    (get : virDomainDef -> list A) (set : list A -> virDomainDef -> virDomainDef)
    (assign : virDomainDef -> nat -> A -> outcome A) (d d' : virDomainDef) :
  (forall l t, get (set l t) = l) ->
  Inv 0%nat d ->
  (forall j t x x',
      length (get t) = length (get d) -> Inv j t -> get t !! j = Some x ->
      assign t j x = Ret0 x' -> Inv (Datatypes.S j) (set (<[j:=x']> (get t)) t)) ->
  loop_over get set assign d = Ret0 d' ->
  Inv (length (get d)) d' /\ length (get d') = length (get d).
Proof.
  intros Hlens H0 Hstep Hrun. unfold loop_over, for_each in Hrun.
  set (n := length (get d)) in *.
  assert (Hinv : Inv (0 + n)%nat d' /\ length (get d') = n); [|done].
  revert Hrun.
  apply (for_from_inv (fun j t => Inv j t /\ length (get t) = n)); [done|].
  intros j t t' Hj [Hi Hlen] Hbody.
  destruct (get t !! j) as [x|] eqn:Hx.
  - destruct (assign t j x) as [x'| |] eqn:Ha; simpl in Hbody; try done.
    injection Hbody as <-. split; [by eapply Hstep|].
    by rewrite Hlens, length_insert.
  - apply lookup_ge_None in Hx. lia.
Qed.

(** A loop over one array leaves alone what its setter leaves alone. *)
Lemma loop_over_frame {A B : Type} (F : virDomainDef -> B)
    (get : virDomainDef -> list A) (set : list A -> virDomainDef -> virDomainDef)
    (assign : virDomainDef -> nat -> A -> outcome A) (d d' : virDomainDef) :
  (forall l t, F (set l t) = F t) ->
  loop_over get set assign d = Ret0 d' -> F d' = F d.
Proof.
  intros Hset Hrun. unfold loop_over, for_each in Hrun.
  eapply (for_from_rel (fun t t' => F t' = F t));
    [done | intros t u v H1 H2; congruence | | left; exact Hrun].
  intros j t t'. simpl. destruct (get t !! j) as [x|].
  - intros (a & _ & ->)%put_back_cases. apply Hset.
  - intros [[= <-]|[=]]. done.
Qed.

Lemma hostdev_store_length (t : virDomainDef) (j : nat) (h : virDomainHostdevDef)
    (a : option string) :
  length (hostdevs (hostdev_store_alias t j h a)) = length (hostdevs t).
Proof.
  unfold hostdev_store_alias. destruct (hostdev_info h) as [i|n]; simpl.
  - by rewrite length_insert.
  - by destruct (nets t !! n).
Qed.

Lemma assign_hostdevs_inv (Inv : nat -> virDomainDef -> Prop) (d d' : virDomainDef) :
  Inv 0%nat d ->
  (forall j t h a,
      length (hostdevs t) = length (hostdevs d) -> Inv j t ->
      hostdevs t !! j = Some h ->
      qemuAssignDeviceHostdevAlias t (hostdev_alias t h) (-1) = Ret0 a ->
      Inv (Datatypes.S j) (hostdev_store_alias t j h a)) ->
  assign_hostdevs d = Ret0 d' ->
  Inv (length (hostdevs d)) d'.
Proof.
  intros H0 Hstep Hrun. unfold assign_hostdevs, for_each in Hrun.
  set (n := length (hostdevs d)) in *.
  assert (Hinv : Inv (0 + n)%nat d' /\ length (hostdevs d') = n); [|by apply Hinv].
  revert Hrun.
  apply (for_from_inv (fun j t => Inv j t /\ length (hostdevs t) = n)); [done|].
  intros j t t' Hj [Hi Hlen] Hbody.
  destruct (hostdevs t !! j) as [h|] eqn:Hh.
  - destruct (qemuAssignDeviceHostdevAlias t (hostdev_alias t h) (-1))
      as [a| |] eqn:Ha; simpl in Hbody; try done.
    injection Hbody as <-. split; [by eapply Hstep|].
    by rewrite hostdev_store_length.
  - apply lookup_ge_None in Hh. lia.
Qed.

Lemma run_steps_split {S : Type} (k : nat) (steps : list (S -> outcome S))
    (s s' : S) :
  run_steps steps s = Ret0 s' ->
  exists t, run_steps (take k steps) s = Ret0 t /\
            run_steps (drop k steps) t = Ret0 s'.
Proof. rewrite <- (take_drop k steps) at 1. apply run_steps_app. Qed.

(** ** Scavenged aliases are new *)

Lemma highest_plus_one_le (prefix : string) (l : list (option string)) :
  has_int_max prefix l = false ->
  0 <= highest_plus_one (seen_suffixes prefix l) <= INT_MAX.
Proof.
  intros Hmax. split; [apply highest_plus_one_nonneg|].
  induction l as [|a l IH]; [done|].
  cbn [has_int_max existsb] in Hmax. apply orb_false_iff in Hmax as [Ha Hl].
  apply Z.eqb_neq in Ha. specialize (IH Hl).
  pose proof (alias_index_range a prefix) as Hr.
  rewrite seen_suffixes_cons. destruct (0 <=? _); simpl; lia.
Qed.

Lemma scavenged_Ret0 {S : Type} (prefix : string) (l : list (option string))
    (k : string -> S) (r : S) :
  scavenged prefix l k = Ret0 r ->
  has_int_max prefix l = false /\
  r = k (prefix ++ fmt_d (highest_plus_one (seen_suffixes prefix l))).
Proof. unfold scavenged. destruct (has_int_max prefix l); by intros [= <-]. Qed.

(** The alias made of the prefix and the scavenged index is carried by no
    device of the lists scanned. *)
Lemma scavenged_fresh (prefix : string) (l : list (option string)) :
  has_int_max prefix l = false ->
  Some (prefix ++ fmt_d (highest_plus_one (seen_suffixes prefix l))) ∉ l.
Proof.
  intros Hmax Hin. pose proof (highest_plus_one_le prefix l Hmax) as Hr.
  apply (highest_plus_one_above prefix) in Hin.
  rewrite alias_index_fmt in Hin by (unfold INT_MIN; lia). lia.
Qed.

Lemma hostdev_scavenged (def : virDomainDef) :
  qemuAssignDeviceHostdevAlias def None (-1)
  = scavenged "hostdev" (hostdev_aliases def ++ net_aliases def)%list Some.
Proof.
  unfold qemuAssignDeviceHostdevAlias, scavenged. change (-1 =? -1) with true.
  cbv iota. fold (hostdev_aliases def).
  change (map (fun n => alias (net_info n)) (nets def)) with (net_aliases def).
  rewrite <- scan_skip_app, scan_skip_from_0.
  by destruct (has_int_max _ _).
Qed.

(** An index above what the scanner reads off every alias is above the
    index of every alias printed from the prefix and an index. *)
Lemma index_above_printed (prefix : string) (l : list (option string)) (N : Z) :
  Forall (fun a => qemuDomainDeviceAliasIndex a prefix < N) l ->
  forall K, INT_MIN <= K <= INT_MAX -> Some (prefix ++ fmt_d K) ∈ l -> K < N.
Proof.
  intros Hall K HK Hin. rewrite Forall_forall in Hall. specialize (Hall _ Hin).
  by rewrite alias_index_fmt in Hall.
Qed.

Lemma hostdev_scavenged_above (def : virDomainDef) (a' : option string) :
  qemuAssignDeviceHostdevAlias def None (-1) = Ret0 a' ->
  exists N, a' = Some ("hostdev" ++ fmt_d N) /\ 0 <= N <= INT_MAX /\
            (Some ("hostdev" ++ fmt_d N)
               ∉ (hostdev_aliases def ++ net_aliases def)%list) /\
            Forall (fun a => qemuDomainDeviceAliasIndex a "hostdev" < N)
                   (hostdev_aliases def ++ net_aliases def)%list.
Proof.
  rewrite hostdev_scavenged. intros [Hmax ->]%scavenged_Ret0.
  eexists. split; [done|]. split; [by apply highest_plus_one_le|].
  split; [by apply scavenged_fresh|].
  apply Forall_forall. intros a Ha. by apply highest_plus_one_above.
Qed.

(** ** Host devices are named after the network interfaces *)

Lemma hostdev_store_other (t : virDomainDef) (j k : nat) (h : virDomainHostdevDef)
    (a : option string) :
  k <> j -> hostdevs (hostdev_store_alias t j h a) !! k = hostdevs t !! k.
Proof.
  intros Hne. unfold hostdev_store_alias. destruct (hostdev_info h) as [i|n]; simpl.
  - by rewrite list_lookup_insert_ne.
  - by destruct (nets t !! n).
Qed.

Lemma own_hostdev_named_stable (d t t' : virDomainDef) (k : nat) :
  def_upd t t' -> own_hostdev_named d t k -> own_hostdev_named d t' k.
Proof.
  intros Hupd Hk h info Hh Hi Ha.
  destruct (Hk h info Hh Hi Ha) as (t0 & N & h0 & H1 & H2 & H3 & H4 & H5 & H6 & H7).
  destruct (Forall2_lookup_l _ _ _ _ _ (upd_hostdevs _ _ Hupd) H6) as (h' & Hh' & _).
  exists t0, N, h'. split; [done|]. split; [by etrans|].
  do 4 (split; [done|]).
  rewrite (hostdev_alias_stable t t' k h0 h'); by rewrite ?H7.
Qed.

Lemma assign_hostdevs_own (d d' : virDomainDef) :
  assign_hostdevs d = Ret0 d' ->
  forall k, (k < length (hostdevs d))%nat -> own_hostdev_named d d' k.
Proof.
  intros Hrun.
  assert (Hinv : def_upd d d' /\
                 (forall k, (length (hostdevs d) <= k)%nat ->
                            hostdevs d' !! k = hostdevs d !! k) /\
                 (forall k, (k < length (hostdevs d))%nat -> own_hostdev_named d d' k));
    [|by apply Hinv].
  revert Hrun.
  apply (assign_hostdevs_inv
           (fun j t => def_upd d t /\
                       (forall k, (j <= k)%nat -> hostdevs t !! k = hostdevs d !! k) /\
                       (forall k, (k < j)%nat -> own_hostdev_named d t k))).
  - split; [done|]. split; [done|]. intros k Hk. lia.
  - intros j t h a Hlen (Hdt & Htail & Hdone) Hh Ha.
    assert (Hstep : def_upd t (hostdev_store_alias t j h a)).
    { apply hostdev_store_upd; [done|].
      destruct (hostdev_assign_upd t _ a (-1) (or_introl Ha)) as [->|[? ?]]; auto. }
    split; [by etrans|]. split.
    + intros k Hk. rewrite hostdev_store_other by lia. apply Htail. lia.
    + intros k Hk. destruct (decide (k = j)) as [->|Hne].
      * intros h0 info Hh0 Hi Hnone.
        rewrite <- Htail, Hh in Hh0 by done. injection Hh0 as <-.
        assert (Hal : hostdev_alias t h = None)
          by (unfold hostdev_alias; by rewrite Hi).
        rewrite Hal in Ha.
        destruct (hostdev_scavenged_above t a Ha) as (N & -> & Hr & Hfresh & Hall).
        destruct (hostdev_store_own t j h info (Some ("hostdev" ++ fmt_d N)) Hh Hi)
          as (h' & Hl & Halias).
        exists t, N, h'. by do 6 (split; [done|]).
      * eapply own_hostdev_named_stable; [exact Hstep|]. apply Hdone. lia.
Qed.

Lemma net_aliases_same (d d' : virDomainDef) :
  def_upd d d' -> Forall (fun x => is_Some (net_alias x)) (nets d) ->
  net_aliases d' = net_aliases d.
Proof.
  intros Hupd Hcov. unfold net_aliases.
  apply (map_alias_same net_upd net_alias); [|apply Hupd|exact Hcov].
  intros x x' [Hx _] [a Ha]. unfold net_alias in *.
  by rewrite (info_upd_alias _ _ a Hx Ha).
Qed.

(** A network interface without an alias that resolves to the hostdev
    type is given a hostdev alias by the assigner. *)
Lemma net_hostdev_named (t : virDomainDef) (net net' : virDomainNetDef) (idx : Z) :
  net_alias net = None -> net_actual_type net = VIR_DOMAIN_NET_TYPE_HOSTDEV ->
  qemuAssignDeviceNetAlias t net idx = Ret0 net' ->
  exists M, net_alias net' = Some ("hostdev" ++ fmt_d M) /\ 0 <= M.
Proof.
  unfold net_alias, qemuAssignDeviceNetAlias. intros -> ->.
  rewrite bool_decide_eq_true_2 by done.
  destruct (qemuAssignDeviceHostdevAlias t None (-1)) as [a| |] eqn:Ha;
    intros [= <-].
  destruct (hostdev_scavenged_above t a Ha) as (M & -> & Hr & _).
  exists M. split; [done|lia].
Qed.

Lemma nets_step_hostdev_named (d d' : virDomainDef) (idx : Z) :
  loop_over nets set_nets (fun t _ net => qemuAssignDeviceNetAlias t net idx) d
  = Ret0 d' ->
  forall i net,
    nets d !! i = Some net -> net_alias net = None ->
    net_actual_type net = VIR_DOMAIN_NET_TYPE_HOSTDEV ->
    exists M net', nets d' !! i = Some net' /\
                   net_alias net' = Some ("hostdev" ++ fmt_d M) /\ 0 <= M.
Proof.
  intros Hrun i net Hi Hnone Hty.
  pose (P := fun (t : virDomainDef) (k : nat) =>
               forall net, nets d !! k = Some net -> net_alias net = None ->
                           net_actual_type net = VIR_DOMAIN_NET_TYPE_HOSTDEV ->
                           exists M net', nets t !! k = Some net' /\
                                          net_alias net' = Some ("hostdev" ++ fmt_d M) /\
                                          0 <= M).
  destruct (loop_over_inv
              (fun j t => (forall k, (j <= k)%nat -> nets t !! k = nets d !! k) /\
                          (forall k, (k < j)%nat -> P t k))
              nets set_nets (fun t _ net => qemuAssignDeviceNetAlias t net idx)
              d d' (fun _ _ => eq_refl)) as [[_ Hall] _];
    [ | |exact Hrun|].
  - split; [done|]. intros k Hk. lia.
  - intros j t x x' Hlen [Htail Hdone] Hx Ha. unfold P in *. simpl. split.
    + intros k Hk. rewrite list_lookup_insert_ne by lia. apply Htail. lia.
    + intros k Hk. destruct (decide (k = j)) as [->|Hne].
      * intros n0 Hn0 Hnone0 Hty0. rewrite <- Htail, Hx in Hn0 by done.
        injection Hn0 as <-.
        destruct (net_hostdev_named t x x' idx Hnone0 Hty0 Ha) as (M & HM & Hpos).
        exists M, x'. split; [|done].
        apply list_lookup_insert_eq. by eapply lookup_lt_Some.
      * intros n0 Hn0 Hnone0 Hty0.
        destruct (Hdone k ltac:(lia) n0 Hn0 Hnone0 Hty0) as (M & n' & Hl & HM).
        exists M, n'. by rewrite list_lookup_insert_ne.
  - by apply (Hall i ltac:(by eapply lookup_lt_Some) net).
Qed.

Lemma run_steps_cons {S : Type} (f : S -> outcome S) (rest : list (S -> outcome S))
    (s s' : S) :
  run_steps (f :: rest) s = Ret0 s' ->
  exists t, f s = Ret0 t /\ run_steps rest t = Ret0 s'.
Proof. simpl. destruct (f s) as [t| |]; simpl; [by exists t|done..]. Qed.

Ltac loop_frame F Hrun :=
  eapply (loop_over_frame F); [|exact Hrun]; intros; reflexivity.

Section HostdevOrder.
Context `{Collaborators}.

(** C7. A scavenged host-device alias is "hostdevN" with N above every
    hostdev suffix carried by a host device or by a network interface of
    the domain: above the index of every alias "hostdevK" among them,
    and above what the scanner reads off every alias; so the alias is
    carried by none of them.  In the domain-wide pass the host devices
    come after the network interfaces: an interface that resolved to the
    hostdev type has taken its "hostdevM" by then, and every host device
    named by the pass gets an alias that no network interface of the
    resulting domain carries, with an index above the hostdev suffix of
    every one of them.  So beside a network interface "hostdev7" and a
    host device "hostdev2" the next host device is "hostdev8"; and the
    pass names an interface of the hostdev type "hostdev0" and the host
    device after it "hostdev1". *)
Theorem hostdev_alias_after_nets :
  (forall (def : virDomainDef) (a' : option string),
     qemuAssignDeviceHostdevAlias def None (-1) = Ret0 a' ->
     exists N, a' = Some ("hostdev" ++ fmt_d N) /\ 0 <= N <= INT_MAX /\
               (Some ("hostdev" ++ fmt_d N)
                  ∉ (hostdev_aliases def ++ net_aliases def)%list) /\
               (forall K, INT_MIN <= K <= INT_MAX ->
                          Some ("hostdev" ++ fmt_d K)
                            ∈ (hostdev_aliases def ++ net_aliases def)%list ->
                          K < N) /\
               Forall (fun a => qemuDomainDeviceAliasIndex a "hostdev" < N)
                      (hostdev_aliases def ++ net_aliases def)%list) /\
  (forall (def def' : virDomainDef) (caps : virQEMUCaps),
     qemuAssignDeviceAliases def caps = Ret0 def' ->
     (forall i net,
        nets def !! i = Some net -> net_alias net = None ->
        net_actual_type net = VIR_DOMAIN_NET_TYPE_HOSTDEV ->
        exists M net', nets def' !! i = Some net' /\
                       net_alias net' = Some ("hostdev" ++ fmt_d M) /\ 0 <= M) /\
     (forall j h info,
        hostdevs def !! j = Some h -> hostdev_info h = OwnInfo info ->
        alias info = None ->
        exists N h', hostdevs def' !! j = Some h' /\
                     hostdev_alias def' h' = Some ("hostdev" ++ fmt_d N) /\
                     0 <= N <= INT_MAX /\
                     (Some ("hostdev" ++ fmt_d N) ∉ net_aliases def') /\
                     (forall K, INT_MIN <= K <= INT_MAX ->
                                Some ("hostdev" ++ fmt_d K) ∈ net_aliases def' ->
                                K < N) /\
                     Forall (fun a => qemuDomainDeviceAliasIndex a "hostdev" < N)
                            (net_aliases def'))) /\
  qemuAssignDeviceHostdevAlias hostdev7_dom None (-1) = Ret0 (Some "hostdev8") /\
  exists def',
    qemuAssignDeviceAliases net_hostdev_dom default_caps = Ret0 def' /\
    map net_alias (nets def') = [Some "net0"; Some "hostdev0"] /\
    hostdev_aliases def' = [Some "hostdev1"].
Proof.
  split; [|split; [|split; [reflexivity|]]]; cycle 2.
  { eexists. split; [reflexivity|]. by split. }
  { intros def a' Ha.
    destruct (hostdev_scavenged_above def a' Ha) as (N & -> & Hr & Hfresh & Hall).
    exists N. split; [done|]. split; [done|]. split; [done|].
    split; [by apply index_above_printed|done]. }
  intros def def' caps Hrun.
  pose proof (pass_steps_upd caps) as Hsu.
  unfold qemuAssignDeviceAliases, qemuAssignDeviceAliases_steps in *.
  apply run_steps_cons in Hrun as (d1 & H1 & Hrun).
  apply Forall_cons in Hsu as [_ Hsu].
  apply run_steps_cons in Hrun as (d2 & H2 & Hrun).
  apply Forall_cons in Hsu as [_ Hsu].
  assert (Hu2 : def_upd d2 def') by (apply (run_steps_upd _ Hsu); by left).
  apply run_steps_cons in Hrun as (d3 & H3 & Hrun).
  apply Forall_cons in Hsu as [Hs3 Hsu].
  apply run_steps_cons in Hrun as (d4 & H4 & Hrun).
  apply Forall_cons in Hsu as [Hs4 Hsu].
  apply run_steps_cons in Hrun as (d5 & H5 & Hrun).
  apply Forall_cons in Hsu as [_ Hsu].
  assert (Hu5 : def_upd d5 def') by (apply (run_steps_upd _ Hsu); by left).
  assert (Hu24 : def_upd d2 d4).
  { etrans; [apply Hs3; left; exact H3 | apply Hs4; left; exact H4]. }
  assert (Hn1 : nets d1 = nets def) by (loop_frame nets H1).
  assert (Hh4 : hostdevs d4 = hostdevs def).
  { transitivity (hostdevs d3); [loop_frame hostdevs H4|].
    transitivity (hostdevs d2); [loop_frame hostdevs H3|].
    transitivity (hostdevs d1); [loop_frame hostdevs H2|loop_frame hostdevs H1]. }
  assert (Hcov2 : Forall (fun x => is_Some (net_alias x)) (nets d2)).
  { eapply (loop_over_post (fun x => is_Some (net_alias x)) nets set_nets);
      [done| |exact H2].
    intros t i x x'. apply net_total. }
  split.
  - intros i net Hi Hnone Hty. rewrite <- Hn1 in Hi.
    destruct (nets_step_hostdev_named d1 d2 (-1) H2 i net Hi Hnone Hty)
      as (M & net2 & Hl2 & HM & Hpos).
    destruct (Forall2_lookup_l _ _ _ _ _ (upd_nets _ _ Hu2) Hl2)
      as (net' & Hl' & Hnet & _).
    exists M, net'. split; [done|]. split; [|done].
    unfold net_alias in *. by rewrite (info_upd_alias _ _ _ Hnet HM).
  - intros j h info Hj Hi Hnone. rewrite <- Hh4 in Hj.
    destruct (assign_hostdevs_own d4 d5 H5 j ltac:(by eapply lookup_lt_Some)
                                  h info Hj Hi Hnone)
      as (t & N & h5 & Hd4t & Htd5 & Hr & Hfresh & Hall & Hl5 & Hal5).
    destruct (Forall2_lookup_l _ _ _ _ _ (upd_hostdevs _ _ Hu5) Hl5)
      as (h' & Hl' & _).
    assert (Hnets : net_aliases def' = net_aliases t).
    { apply net_aliases_same; [by etrans|].
      eapply Forall2_Forall_stable; [|apply (upd_nets d2 t); by etrans|exact Hcov2].
      intros x x' [Hx _]. unfold net_alias. by apply info_upd_is_Some. }
    apply Forall_app in Hall as [_ Hall].
    exists N, h'. split; [done|]. split.
    { rewrite (hostdev_alias_stable d5 def' j h5 h'); by rewrite ?Hal5. }
    rewrite Hnets. split; [done|]. split.
    { intros Hin. apply Hfresh, elem_of_app. by right. }
    split; [by apply index_above_printed|done].
Qed.

End HostdevOrder.

Lemma hostdev_alias_after_nets_witness :
  exists N h',
    hostdevs net_hostdev_dom_assigned !! 0%nat = Some h' /\
    hostdev_alias net_hostdev_dom_assigned h' = Some ("hostdev" ++ fmt_d N) /\
    0 <= N <= INT_MAX /\
    (Some ("hostdev" ++ fmt_d N) ∉ net_aliases net_hostdev_dom_assigned) /\
    (forall K, INT_MIN <= K <= INT_MAX ->
               Some ("hostdev" ++ fmt_d K) ∈ net_aliases net_hostdev_dom_assigned ->
               K < N) /\
    Forall (fun a => qemuDomainDeviceAliasIndex a "hostdev" < N)
           (net_aliases net_hostdev_dom_assigned).
Proof.
  apply (proj2 (proj1 (proj2 (@hostdev_alias_after_nets libvirt_collaborators))
                      net_hostdev_dom net_hostdev_dom_assigned default_caps
                      ltac:(vm_compute; reflexivity))
               0%nat {| hostdev_info := OwnInfo (info_of None) |} (info_of None));
    reflexivity.
Defined.

(** ** Lists of aliases and the steps of the pass *)

Lemma int_of_size_t_small (i : nat) :
  Z.of_nat i <= INT_MAX -> int_of_size_t i = Z.of_nat i.
Proof. intros Hi. apply to_int_small. lia. Qed.

Lemma string_app_inv_l (p x y : string) : p ++ x = p ++ y -> x = y.
Proof. induction p as [|c p IH]; simpl; [done|]. intros [= Heq]. by apply IH. Qed.

Lemma omap_id_Some {A : Type} (k : list A) : omap id (Some <$> k) = k.
Proof. induction k as [|x k IH]; [done|]. simpl. f_equal. exact IH. Qed.

Lemma omap_id_None {A : Type} (l : list (option A)) :
  Forall (fun a => a = None) l -> omap id l = [].
Proof. induction 1 as [|a l -> _ IH]; [done|]. exact IH. Qed.

Lemma omap_id_app {A : Type} (l k : list (option A)) :
  omap id (l ++ k)%list = (omap id l ++ omap id k)%list.
Proof. apply omap_app. Qed.

(** Setting an alias where there was none adds it to the aliases set. *)
Lemma omap_id_insert {A : Type} (l : list (option A)) (j : nat) (a : A) :
  l !! j = Some None -> omap id (<[j:=Some a]> l) ≡ₚ a :: omap id l.
Proof.
  intros Hj.
  assert (Hl : omap id l = (omap id (take j l) ++ omap id (drop (Datatypes.S j) l))%list).
  { rewrite <- (take_drop_middle l j None Hj) at 1. by rewrite omap_id_app. }
  rewrite Hl, insert_take_drop, omap_id_app by (by eapply lookup_lt_Some).
  simpl. symmetry. apply Permutation_middle.
Qed.

Lemma run_steps_keeps {B : Type} (F : virDomainDef -> B)
    (steps : list (virDomainDef -> outcome virDomainDef)) :
  Forall (step_keeps F) steps -> step_keeps F (run_steps steps).
Proof.
  induction 1 as [|f steps Hf _ IH]; intros d d'; simpl.
  - by intros [= <-].
  - destruct (f d) as [t| |] eqn:Hfd; simpl; try done.
    intros Hr. rewrite (IH t d' Hr). by apply Hf.
Qed.

Lemma loop_over_keeps {A B : Type} (F : virDomainDef -> B)
    (get : virDomainDef -> list A) (set : list A -> virDomainDef -> virDomainDef)
    (assign : virDomainDef -> nat -> A -> outcome A) :
  (forall l t, F (set l t) = F t) -> step_keeps F (loop_over get set assign).
Proof. intros Hset d d' Hrun. by eapply loop_over_frame. Qed.

Lemma assign_hostdevs_keeps {B : Type} (F : virDomainDef -> B) :
  (forall l t, F (set_hostdevs l t) = F t) ->
  (forall l t, F (set_nets l t) = F t) ->
  step_keeps F assign_hostdevs.
Proof.
  intros Hh Hn d d' Hrun. unfold assign_hostdevs, for_each in Hrun.
  eapply (for_from_rel (fun t t' => F t' = F t));
    [done | intros t u v H1 H2; congruence | | left; exact Hrun].
  intros j t t'. simpl. destruct (hostdevs t !! j) as [h|].
  - intros (a & _ & ->)%put_back_cases. unfold hostdev_store_alias.
    destruct (hostdev_info h) as [i|n]; [apply Hh|].
    destruct (nets t !! n); [apply Hn|done].
  - intros [[= <-]|[=]]. done.
Qed.

Lemma assign_watchdog_keeps {B : Type} (F : virDomainDef -> B) :
  (forall o t, F (set_watchdog o t) = F t) -> step_keeps F assign_watchdog.
Proof.
  intros Hs d d'. unfold assign_watchdog. destruct (watchdog d) as [w|].
  - intros Hr. destruct (put_back_cases _ _ _ (or_introl Hr)) as (a & _ & ->).
    apply Hs.
  - by intros [= <-].
Qed.

Lemma assign_memballoon_keeps {B : Type} (F : virDomainDef -> B) :
  (forall o t, F (set_memballoon o t) = F t) -> step_keeps F assign_memballoon.
Proof.
  intros Hs d d'. unfold assign_memballoon. destruct (memballoon d) as [b|].
  - destruct (negb _).
    + intros Hr. destruct (put_back_cases _ _ _ (or_introl Hr)) as (a & _ & ->).
      apply Hs.
    + by intros [= <-].
  - by intros [= <-].
Qed.

Lemma assign_vsock_keeps {B : Type} (F : virDomainDef -> B) :
  (forall o t, F (set_vsock o t) = F t) -> step_keeps F assign_vsock.
Proof.
  intros Hs d d'. unfold assign_vsock. destruct (vsock d) as [w|].
  - intros Hr. destruct (put_back_cases _ _ _ (or_introl Hr)) as (a & _ & ->).
    apply Hs.
  - by intros [= <-].
Qed.

(** The steps before the one of an array leave the array alone. *)
Ltac steps_keep :=
  repeat (apply Forall_cons_2;
          [ first [ apply loop_over_keeps; intros; reflexivity
                  | apply assign_hostdevs_keeps; intros; reflexivity
                  | apply assign_watchdog_keeps; intros; reflexivity
                  | apply assign_memballoon_keeps; intros; reflexivity
                  | apply assign_vsock_keeps; intros; reflexivity ] | ]);
  apply Forall_nil_2.

Section Focus.
Context `{Collaborators}.

(** The run of the pass around its step [k]: the state [d] the step
    started from, reached by the steps before it, and the state [d'] it
    left, from which the rest of the pass only added aliases. *)
Lemma pass_focus (k : nat) (f : virDomainDef -> outcome virDomainDef)
    (caps : virQEMUCaps) (def def' : virDomainDef) :
  qemuAssignDeviceAliases_steps caps !! k = Some f ->
  qemuAssignDeviceAliases def caps = Ret0 def' ->
  exists d d',
    run_steps (take k (qemuAssignDeviceAliases_steps caps)) def = Ret0 d /\
    f d = Ret0 d' /\ def_upd d' def'.
Proof.
  intros Hk Hrun. unfold qemuAssignDeviceAliases in Hrun.
  destruct (run_steps_split k _ _ _ Hrun) as (d & Hpre & Hpost).
  rewrite (drop_S _ _ _ Hk) in Hpost.
  apply run_steps_cons in Hpost as (d' & Hf & Hrest).
  exists d, d'. split; [done|]. split; [done|].
  apply (run_steps_upd (drop (Datatypes.S k) (qemuAssignDeviceAliases_steps caps)));
    [|by left].
  apply Forall_drop, pass_steps_upd.
Qed.

End Focus.

Lemma position_not_minus_one (l : list virDomainDeviceInfo) (i : nat)
    (x : virDomainDeviceInfo) :
  Z.of_nat (length l) <= INT_MAX -> l !! i = Some x ->
  int_of_size_t i = Z.of_nat i /\ (int_of_size_t i =? -1) = false.
Proof.
  intros Hlen Hi%lookup_lt_Some.
  rewrite int_of_size_t_small by lia. split; [done|]. apply Z.eqb_neq. lia.
Qed.

Lemma rng_fresh (t : virDomainDef) (x x' : virDomainDeviceInfo) :
  alias x = None -> qemuAssignDeviceRNGAlias t x = Ret0 x' ->
  exists a, alias x' = Some a /\ (Some a ∉ (alias <$> rngs t)) /\
            alias_class a = Some 15%nat.
Proof.
  unfold qemuAssignDeviceRNGAlias. intros ->.
  rewrite scan_ge_skip, with_index_scan_skip by done.
  intros [Hmax ->]%scavenged_Ret0. eexists. split; [done|].
  split; [by apply scavenged_fresh|done].
Qed.

Lemma net_fresh (t : virDomainDef) (x x' : virDomainNetDef) :
  net_alias x = None -> qemuAssignDeviceNetAlias t x (-1) = Ret0 x' ->
  exists a, net_alias x' = Some a /\ (Some a ∉ (net_alias <$> nets t)) /\
            alias_class a = Some 0%nat.
Proof.
  unfold net_alias. intros Hnone.
  destruct (decide (net_actual_type x = VIR_DOMAIN_NET_TYPE_HOSTDEV)) as [Hty|Hty].
  - unfold qemuAssignDeviceNetAlias. rewrite Hnone, bool_decide_eq_true_2 by done.
    destruct (qemuAssignDeviceHostdevAlias t None (-1)) as [a| |] eqn:Ha;
      intros [= <-].
    destruct (hostdev_scavenged_above t a Ha) as (N & -> & _ & Hfresh & _).
    eexists. split; [done|]. split; [|done].
    intros Hin. apply Hfresh, elem_of_app. by right.
  - rewrite (net_alias_scavenged t x Hnone Hty).
    intros [Hmax ->]%scavenged_Ret0. eexists. split; [done|].
    split; [by apply scavenged_fresh|done].
Qed.

Lemma info_upd_same_alias (x x' : virDomainDeviceInfo) :
  info_upd x x' -> is_Some (alias x) -> alias x' = alias x.
Proof. intros Hu [a Ha]. by rewrite (info_upd_alias _ _ _ Hu Ha). Qed.

Lemma chr_upd_same_alias (x x' : virDomainChrDef) :
  chr_upd x x' -> is_Some (chr_alias x) -> chr_alias x' = chr_alias x.
Proof. intros [Hu _]. by apply info_upd_same_alias. Qed.

Lemma arrays_within_int_parts (def : virDomainDef) :
  arrays_within_int def = true ->
  Forall (fun n => Z.of_nat n <= INT_MAX)
    [ length (fss def); length (sounds def); length (redirdevs def);
      length (videos def); length (inputs def); length (parallels def);
      length (serials def); length (channels def); length (consoles def);
      length (hubs def); length (shmems def); length (smartcards def);
      length (tpms def) ].
Proof.
  unfold arrays_within_int. intros Hall. apply Forall_forall.
  intros n Hn%list_elem_of_In. rewrite forallb_forall in Hall.
  by apply Z.leb_le, Hall.
Qed.

Lemma chr_arrays_typed_parts (def : virDomainDef) :
  chr_arrays_typed def = true ->
  forallb (fun c => bool_decide (chr_deviceType c = VIR_DOMAIN_CHR_DEVICE_TYPE_PARALLEL))
          (parallels def) = true /\
  forallb (fun c => bool_decide (chr_deviceType c = VIR_DOMAIN_CHR_DEVICE_TYPE_SERIAL))
          (serials def) = true /\
  forallb (fun c => bool_decide (chr_deviceType c = VIR_DOMAIN_CHR_DEVICE_TYPE_CHANNEL))
          (channels def) = true /\
  forallb (fun c => bool_decide (chr_deviceType c = VIR_DOMAIN_CHR_DEVICE_TYPE_CONSOLE))
          (consoles def) = true.
Proof.
  unfold chr_arrays_typed. rewrite !andb_true_iff. tauto.
Qed.

Lemma elem_of_omap_id {A : Type} (l : list (option A)) (a : A) :
  a ∈ omap id l <-> Some a ∈ l.
Proof.
  rewrite list_elem_of_omap. split.
  - intros (x & Hx & Hid). by rewrite <- Hid.
  - intros Ha. by exists (Some a).
Qed.

Lemma own_hostdev_alias_resolved (t : virDomainDef) (a : string) :
  Some a ∈ own_hostdev_alias <$> hostdevs t -> Some a ∈ hostdev_aliases t.
Proof.
  unfold hostdev_aliases. intros (h & Hh & Hin)%list_elem_of_fmap.
  apply list_elem_of_fmap. exists h. split; [|done].
  unfold own_hostdev_alias, hostdev_alias in *.
  by destruct (hostdev_info h).
Qed.

Section Around.
Context `{Collaborators}.

(** The run of the pass around its step [k], with the run of the steps
    after it. *)
Lemma pass_around (k : nat) (f : virDomainDef -> outcome virDomainDef)
    (caps : virQEMUCaps) (def def' : virDomainDef) :
  qemuAssignDeviceAliases_steps caps !! k = Some f ->
  qemuAssignDeviceAliases def caps = Ret0 def' ->
  exists d d',
    run_steps (take k (qemuAssignDeviceAliases_steps caps)) def = Ret0 d /\
    f d = Ret0 d' /\
    run_steps (drop (Datatypes.S k) (qemuAssignDeviceAliases_steps caps)) d' = Ret0 def'.
Proof.
  intros Hk Hrun. unfold qemuAssignDeviceAliases in Hrun.
  destruct (run_steps_split k _ _ _ Hrun) as (d & Hpre & Hpost).
  rewrite (drop_S _ _ _ Hk) in Hpost.
  apply run_steps_cons in Hpost as (d' & Hf & Hrest).
  by exists d, d'.
Qed.

End Around.

Ltac run_keeps F Hrun :=
  eapply (run_steps_keeps F); [|exact Hrun];
  unfold qemuAssignDeviceAliases_steps; simpl; steps_keep.

Lemma omap_id_concat {A : Type} (parts : list (list (option A))) :
  omap id (concat parts) = concat (map (omap id) parts).
Proof.
  induction parts as [|part parts IH]; [done|].
  simpl. by rewrite omap_id_app, IH.
Qed.

(** ** The alias index, read back *)

Lemma string_app_cons (c : ascii) (s t : string) :
  String c s ++ t = String c (s ++ t).
Proof. reflexivity. Qed.

Lemma string_app_nil_r (s : string) : s ++ "" = s.
Proof. induction s as [|c s IH]; [done|]. by rewrite string_app_cons, IH. Qed.

Lemma string_length_app (s t : string) :
  String.length (s ++ t) = (String.length s + String.length t)%nat.
Proof.
  induction s as [|c s IH]; [done|]. rewrite string_app_cons. simpl. by rewrite IH.
Qed.

Lemma string_app_inv_r (x y s : string) : x ++ s = y ++ s -> x = y.
Proof.
  revert y. induction x as [|c x IH]; intros [|c' y] Heq.
  - done.
  - apply (f_equal String.length) in Heq.
    rewrite !string_length_app in Heq. simpl in Heq. lia.
  - apply (f_equal String.length) in Heq.
    rewrite !string_length_app in Heq. simpl in Heq. lia.
  - rewrite !string_app_cons in Heq. injection Heq as -> Heq.
    f_equal. by apply IH.
Qed.

(** X1. The index that an assigner printed behind a prefix is the index
    that [qemuDomainDeviceAliasIndex] reads back under that prefix, for
    every [int]. *)
Theorem alias_index_reads_back (prefix : string) (n : Z) :
  INT_MIN <= n <= INT_MAX ->
  qemuDomainDeviceAliasIndex (Some (prefix ++ fmt_d n)) prefix = n.
Proof. apply alias_index_fmt. Qed.

Lemma alias_index_reads_back_witness :
  qemuDomainDeviceAliasIndex (Some ("hostdev" ++ fmt_d 12)) "hostdev" = 12.
Proof. apply alias_index_reads_back. unfold INT_MIN, INT_MAX. lia. Defined.

(** X2. [qemuDomainDeviceAliasIndex] always returns an [int]; it returns
    -1 for a device without alias, for an alias that does not start with
    the prefix, and for an alias that is the prefix alone. *)
Theorem alias_index_not_found (prefix : string) :
  (forall a, INT_MIN <= qemuDomainDeviceAliasIndex a prefix <= INT_MAX) /\
  qemuDomainDeviceAliasIndex None prefix = -1 /\
  (forall a, strip_prefix prefix a = None ->
             qemuDomainDeviceAliasIndex (Some a) prefix = -1) /\
  qemuDomainDeviceAliasIndex (Some prefix) prefix = -1.
Proof.
  split; [intros a; apply alias_index_range|]. split; [done|]. split.
  - intros a Ha. unfold qemuDomainDeviceAliasIndex. by rewrite Ha.
  - pose proof (strip_prefix_app prefix "") as Hs.
    rewrite string_app_nil_r in Hs.
    unfold qemuDomainDeviceAliasIndex. by rewrite Hs.
Qed.

Lemma alias_index_not_found_witness :
  qemuDomainDeviceAliasIndex (Some "sound0") "net" = -1.
Proof. by apply (proj1 (proj2 (proj2 (alias_index_not_found "net")))). Defined.

(** ** Names derived from an alias *)

(** X3. The drive alias of a disk is made exactly when the disk has an
    alias, and [qemuAliasDiskDriveSkipPrefix] gives that alias back from
    it; a name without the drive prefix is returned as it is. *)
Theorem drive_alias_skip_prefix :
  (forall disk, qemuAliasDiskDriveFromDisk disk = None <-> disk_alias disk = None) /\
  (forall disk a, disk_alias disk = Some a ->
     exists n, qemuAliasDiskDriveFromDisk disk = Some n /\
               qemuAliasDiskDriveSkipPrefix n = a) /\
  (forall name, strip_prefix QEMU_DRIVE_HOST_PREFIX name = None ->
                qemuAliasDiskDriveSkipPrefix name = name).
Proof.
  unfold qemuAliasDiskDriveFromDisk, qemuAliasDiskDriveSkipPrefix, disk_alias.
  split; [|split].
  - intros disk. by destruct (alias (disk_info disk)).
  - intros disk a ->. eexists. split; [done|]. by rewrite strip_prefix_app.
  - by intros name ->.
Qed.

Lemma drive_alias_skip_prefix_witness :
  exists n, qemuAliasDiskDriveFromDisk
              (disk_set_alias (Some "virtio-disk0")
                              (virtio_disk "vda" (file_source "/a.img" false)))
            = Some n /\
            qemuAliasDiskDriveSkipPrefix n = "virtio-disk0".
Proof. by apply (proj1 (proj2 drive_alias_skip_prefix)). Defined.

(** X4. The names made from an alias tell the aliases apart: two aliases
    with the same chardev, TLS object, secret, PR helper or vhost-user name
    are the same alias; and the name of an unmanaged PR helper is never
    the name of the managed one. *)
Theorem derived_names_injective (a b : string) :
  (qemuAliasChardevFromDevAlias a = qemuAliasChardevFromDevAlias b -> a = b) /\
  (qemuAliasTLSObjFromSrcAlias a = qemuAliasTLSObjFromSrcAlias b -> a = b) /\
  (forall obj, qemuAliasForSecret a obj = qemuAliasForSecret b obj -> a = b) /\
  (qemuDomainGetUnmanagedPRAlias a = qemuDomainGetUnmanagedPRAlias b -> a = b) /\
  (qemuDomainGetVhostUserChrAlias a = qemuDomainGetVhostUserChrAlias b -> a = b) /\
  qemuDomainGetUnmanagedPRAlias a <> qemuDomainGetManagedPRAlias.
Proof.
  unfold qemuAliasChardevFromDevAlias, qemuAliasTLSObjFromSrcAlias,
    qemuAliasForSecret, qemuDomainGetUnmanagedPRAlias,
    qemuDomainGetVhostUserChrAlias, qemuDomainGetManagedPRAlias.
  repeat split.
  - apply string_app_inv_l.
  - intros Heq%string_app_inv_l. by apply string_app_inv_r in Heq.
  - intros [o|] Heq; by apply string_app_inv_r in Heq.
  - apply string_app_inv_l.
  - apply string_app_inv_l.
  - discriminate.
Qed.

(** ** The scavengers of the character devices and of the arrays *)

Lemma console_not_serial (a : option string) :
  0 <= qemuDomainDeviceAliasIndex a "console" ->
  qemuDomainDeviceAliasIndex a "serial" = -1.
Proof.
  destruct a as [[|c s]|]; [done| |done].
  unfold qemuDomainDeviceAliasIndex.
  change (strip_prefix "console" (String c s))
    with (if Ascii.eqb "c" c then strip_prefix "onsole" s else None).
  change (strip_prefix "serial" (String c s))
    with (if Ascii.eqb "s" c then strip_prefix "erial" s else None).
  destruct (Ascii.eqb "c" c) eqn:Hc; [|simpl; lia].
  apply Ascii.eqb_eq in Hc as <-. done.
Qed.

(** The loop of [qemuGetNextChrDevIndex] ends above its start and above
    every index it looked at. *)
Lemma chr_scan_above (prefix : string) (prefix2 : option string)
    (l : list (option string)) (i : Z) :
  0 <= i ->
  i <= chr_scan prefix prefix2 l i /\
  Forall (fun a => qemuDomainDeviceAliasIndex a prefix < chr_scan prefix prefix2 l i) l /\
  (forall p2, prefix2 = Some p2 ->
     Forall (fun a => qemuDomainDeviceAliasIndex a prefix < 0 ->
                      qemuDomainDeviceAliasIndex a p2 < chr_scan prefix prefix2 l i) l).
Proof.
  revert i. induction l as [|a l IH]; intros i Hi.
  - split; [simpl; lia|]. split; [constructor|]. intros p2 _. constructor.
  - cbn [chr_scan].
    set (t1 := qemuDomainDeviceAliasIndex a prefix).
    destruct (t1 <? 0) eqn:Hneg.
    + apply Z.ltb_lt in Hneg. destruct prefix2 as [p2|].
      * set (t2 := qemuDomainDeviceAliasIndex a p2).
        destruct (t2 <? 0) eqn:Hneg2.
        -- apply Z.ltb_lt in Hneg2. destruct (IH i Hi) as (Hle & Hall & Hall2).
           split; [done|]. split; [constructor; [lia|done]|].
           intros q [= <-]. constructor; [fold t2; lia|by apply Hall2].
        -- apply Z.ltb_ge in Hneg2. destruct (t2 >=? i) eqn:Hge.
           ++ apply Z.geb_le in Hge.
              destruct (IH (t2 + 1) ltac:(lia)) as (Hle & Hall & Hall2).
              split; [lia|]. split; [constructor; [lia|done]|].
              intros q [= <-]. constructor; [fold t2; lia|by apply Hall2].
           ++ rewrite Z.geb_leb in Hge. apply Z.leb_gt in Hge.
              destruct (IH i Hi) as (Hle & Hall & Hall2).
              split; [done|]. split; [constructor; [lia|done]|].
              intros q [= <-]. constructor; [fold t2; lia|by apply Hall2].
      * assert (Hge : (t1 >=? i) = false)
          by (rewrite Z.geb_leb; apply Z.leb_gt; lia).
        rewrite Hge. destruct (IH i Hi) as (Hle & Hall & Hall2).
        split; [done|]. split; [constructor; [lia|done]|]. by intros q [=].
    + apply Z.ltb_ge in Hneg. destruct (t1 >=? i) eqn:Hge.
      * apply Z.geb_le in Hge.
        destruct (IH (t1 + 1) ltac:(lia)) as (Hle & Hall & Hall2).
        split; [lia|]. split; [constructor; [lia|done]|].
        intros q Hq. constructor; [fold t1; lia|by apply Hall2].
      * rewrite Z.geb_leb in Hge. apply Z.leb_gt in Hge.
        destruct (IH i Hi) as (Hle & Hall & Hall2).
        split; [done|]. split; [constructor; [lia|done]|].
        intros q Hq. constructor; [fold t1; lia|by apply Hall2].
Qed.



(** X6. The redirdev, shared-memory and RNG assigners that scavenge
    their index (no alias carries the suffix [INT_MAX]) return 0 with an
    alias that no device of their array carries. *)
Theorem scavenged_alias_is_fresh (def : virDomainDef) (dev : virDomainDeviceInfo) :
  alias dev = None ->
  (has_int_max "redir" (map alias (redirdevs def)) = false ->
   exists a, qemuAssignDeviceRedirdevAlias def dev (-1) = Ret0 (set_alias (Some a) dev) /\
             (Some a ∉ map alias (redirdevs def))) /\
  (has_int_max "shmem" (map alias (shmems def)) = false ->
   exists a, qemuAssignDeviceShmemAlias def dev (-1) = Ret0 (set_alias (Some a) dev) /\
             (Some a ∉ map alias (shmems def))) /\
  (has_int_max "rng" (map alias (rngs def)) = false ->
   exists a, qemuAssignDeviceRNGAlias def dev = Ret0 (set_alias (Some a) dev) /\
             (Some a ∉ map alias (rngs def))).
Proof.
  intros Hnone.
  unfold qemuAssignDeviceRedirdevAlias, qemuAssignDeviceShmemAlias,
    qemuAssignDeviceRNGAlias.
  rewrite Hnone. change (-1 =? -1) with true. cbv iota.
  rewrite scan_ge_skip by done. rewrite !with_index_scan_skip. unfold scavenged.
  repeat split; intros Hmax; rewrite Hmax; eexists; (split; [done|]);
    by apply scavenged_fresh.
Qed.

Lemma scavenged_alias_is_fresh_witness :
  exists a,
    qemuAssignDeviceRNGAlias (set_rngs [info_of (Some "rng0"); info_of (Some "rng5")]
                                       empty_def) (info_of None)
    = Ret0 (set_alias (Some a) (info_of None)) /\
    (Some a ∉ [Some "rng0"; Some "rng5"]).
Proof.
  apply (proj2 (proj2 (scavenged_alias_is_fresh
                         (set_rngs [info_of (Some "rng0"); info_of (Some "rng5")]
                                   empty_def) (info_of None) eq_refl)));
    reflexivity.
Defined.

(** ** What the pass changes, and what makes it fail *)

Section PassShape.
Context `{Collaborators}.


End PassShape.


Lemma for_from_err {S : Type} (body : nat -> S -> outcome S) (n i : nat) (s s' : S) :
  for_from body i n s = RetErr s' -> exists j t, body j t = RetErr s'.
Proof.
  revert i s. induction n as [|n IH]; intros i s; simpl; [done|].
  destruct (body i s) as [t|t|] eqn:Hb; simpl; [apply IH| |done].
  intros [= <-]. eauto.
Qed.

Lemma loop_over_err {A : Type}
    (get : virDomainDef -> list A) (set : list A -> virDomainDef -> virDomainDef)
    (assign : virDomainDef -> nat -> A -> outcome A) (d d' : virDomainDef) :
  loop_over get set assign d = RetErr d' ->
  exists t i x x', get t !! i = Some x /\ assign t i x = RetErr x' /\
                   d' = set (<[i:=x']> (get t)) t.
Proof.
  unfold loop_over, for_each. intros (j & t & Hb)%for_from_err.
  destruct (get t !! j) as [x|] eqn:Hx; [|done].
  destruct (assign t j x) as [x'|x'|] eqn:Ha; simpl in Hb; simplify_eq.
  by exists t, j, x, x'.
Qed.

Lemma run_steps_err {S : Type} (steps : list (S -> outcome S)) (s s' : S) :
  run_steps steps s = RetErr s' ->
  Exists (fun f => exists t, f t = RetErr s') steps.
Proof.
  revert s. induction steps as [|f steps IH]; intros s; simpl; [done|].
  destruct (f s) as [t|t|] eqn:Hf; simpl.
  - intros Hr. apply Exists_cons_tl. by eapply IH.
  - intros [= <-]. apply Exists_cons_hd. by exists s.
  - done.
Qed.

Lemma with_index_no_err {S : Type} (o : option Z) (k : Z -> S) (x : S) :
  with_index o k <> RetErr x.
Proof. by destruct o. Qed.

Lemma hostdev_no_err (def : virDomainDef) (a a' : option string) (idx : Z) :
  qemuAssignDeviceHostdevAlias def a idx <> RetErr a'.
Proof.
  unfold qemuAssignDeviceHostdevAlias. destruct a; [done|]. apply with_index_no_err.
Qed.

Lemma net_no_err (def : virDomainDef) (n n' : virDomainNetDef) (idx : Z) :
  qemuAssignDeviceNetAlias def n idx <> RetErr n'.
Proof.
  unfold qemuAssignDeviceNetAlias. destruct (alias (net_info n)); [done|].
  case_bool_decide; [|apply with_index_no_err].
  destruct (qemuAssignDeviceHostdevAlias def None (-1)) as [a|a|] eqn:Hh; try done.
  by apply hostdev_no_err in Hh.
Qed.

Lemma assign_indexed_no_err (prefix : string) (i i' : virDomainDeviceInfo) (idx : Z) :
  assign_indexed prefix i idx <> RetErr i'.
Proof. unfold assign_indexed. by destruct (alias i). Qed.

Lemma scanning_no_err (def : virDomainDef) (i i' : virDomainDeviceInfo) (idx : Z) :
  qemuAssignDeviceRedirdevAlias def i idx <> RetErr i' /\
  qemuAssignDeviceShmemAlias def i idx <> RetErr i' /\
  qemuAssignDeviceInputAlias def i idx <> RetErr i' /\
  qemuAssignDeviceRNGAlias def i <> RetErr i'.
Proof.
  unfold qemuAssignDeviceRedirdevAlias, qemuAssignDeviceShmemAlias,
    qemuAssignDeviceInputAlias, qemuAssignDeviceRNGAlias.
  destruct (alias i); repeat split; try done; apply with_index_no_err.
Qed.

Lemma chr_err (def : virDomainDef) (c c' : virDomainChrDef) (i : nat) :
  qemuAssignDeviceChrAlias def c (Z.of_nat i) = RetErr c' ->
  c' = c /\ failing_chr c.
Proof.
  unfold qemuAssignDeviceChrAlias, failing_chr, chr_alias.
  assert (Hne : (Z.of_nat i =? -1) = false) by (apply Z.eqb_neq; lia).
  rewrite Hne. destruct (alias (chr_info c)); [done|].
  destruct (chr_deviceType c); simpl; try done. by intros [= <-].
Qed.

Lemma mem_err (def : virDomainDef) (m m' : virDomainMemoryDef) (old : bool) :
  qemuAssignDeviceMemoryAlias def m old = RetErr m' ->
  m' = m /\ failing_mem m.
Proof.
  unfold qemuAssignDeviceMemoryAlias, failing_mem, mem_alias.
  destruct (alias (mem_info m)); [done|].
  destruct (mem_model m); simpl;
    first [ by intros [= <-]; auto
          | intros Hw; by apply with_index_no_err in Hw ].
Qed.

Lemma info_upd_none (i i' : virDomainDeviceInfo) :
  info_upd i i' -> alias i' = None -> i' = i.
Proof. by intros [->|(_ & a & ->)]. Qed.

Lemma Exists_upd_back {A : Type} (R : A -> A -> Prop) (P : A -> Prop) (l l' : list A) :
  Forall2 R l l' -> (forall x x', R x x' -> P x' -> P x) -> Exists P l' -> Exists P l.
Proof.
  intros Hl HP. induction Hl as [|x x' l l' Hx _ IH]; [done|].
  intros [Hp|Hp]%Exists_cons; [apply Exists_cons_hd; by eapply HP|].
  apply Exists_cons_tl. by apply IH.
Qed.

Lemma Exists_inserted {A : Type} (P : A -> Prop) (l : list A) (i : nat) (x y : A) :
  l !! i = Some y -> P x -> Exists P (<[i:=x]> l).
Proof.
  intros Hi Hx. apply Exists_exists. exists x. split; [|done].
  apply list_elem_of_lookup. exists i.
  apply list_lookup_insert_eq. by eapply lookup_lt_Some.
Qed.

Section PassFailure.
Context `{Collaborators}.

Lemma controller_no_err (def : virDomainDef) (caps : virQEMUCaps)
    (c c' : virDomainControllerDef) :
  qemuAssignDeviceControllerAlias def caps c <> RetErr c'.
Proof. unfold qemuAssignDeviceControllerAlias. by repeat case_match. Qed.

Lemma disk_err (def : virDomainDef) (caps : virQEMUCaps) (x x' : virDomainDiskDef) :
  qemuAssignDeviceDiskAlias def x caps = RetErr x' -> x' = x /\ failing_disk x.
Proof.
  unfold qemuAssignDeviceDiskAlias, disk_assign_alias, failing_disk, disk_alias.
  destruct (alias (disk_info x)); [done|].
  case_bool_decide as Hty; [|done].
  case_bool_decide as Hbus; simpl; [|done].
  destruct (_ <? 0); simpl; [by intros [= <-]|].
  by destruct (_ =? _).
Qed.

Ltac loop_no_err lem :=
  intros t d' (t' & i & x & x' & _ & Ha & _)%loop_over_err;
  exfalso; revert Ha; apply lem.

Lemma pass_steps_fail (caps : virQEMUCaps) :
  Forall (fun f => forall t d', f t = RetErr d' -> failure_cause d')
         (qemuAssignDeviceAliases_steps caps).
Proof.
  unfold qemuAssignDeviceAliases_steps, failure_cause.
  repeat apply Forall_cons_2; try apply Forall_nil_2.
  - intros t d' (t' & i & x & x' & Hx & Ha & ->)%loop_over_err.
    apply disk_err in Ha as [-> Hf]. left. simpl. by eapply Exists_inserted.
  - loop_no_err net_no_err.
  - loop_no_err assign_indexed_no_err.
  - loop_no_err assign_indexed_no_err.
  - intros t d'. unfold assign_hostdevs, for_each.
    intros (j & t' & Hb)%for_from_err. destruct (hostdevs t' !! j); [|done].
    destruct (qemuAssignDeviceHostdevAlias t' _ (-1)) as [a|a|] eqn:Hh; try done.
    by apply hostdev_no_err in Hh.
  - loop_no_err (fun d i i' idx => proj1 (scanning_no_err d i i' idx)).
  - loop_no_err assign_indexed_no_err.
  - loop_no_err controller_no_err.
  - loop_no_err (fun d i i' idx => proj1 (proj2 (proj2 (scanning_no_err d i i' idx)))).
  - intros t d' (t' & i & x & x' & Hx & Ha & ->)%loop_over_err.
    apply chr_err in Ha as [-> Hf]. right. left. simpl.
    rewrite !Exists_app. left. by eapply Exists_inserted.
  - intros t d' (t' & i & x & x' & Hx & Ha & ->)%loop_over_err.
    apply chr_err in Ha as [-> Hf]. right. left. simpl.
    rewrite !Exists_app. right. left. by eapply Exists_inserted.
  - intros t d' (t' & i & x & x' & Hx & Ha & ->)%loop_over_err.
    apply chr_err in Ha as [-> Hf]. right. left. simpl.
    rewrite !Exists_app. right. right. left. by eapply Exists_inserted.
  - intros t d' (t' & i & x & x' & Hx & Ha & ->)%loop_over_err.
    apply chr_err in Ha as [-> Hf]. right. left. simpl.
    rewrite !Exists_app. right. right. right. by eapply Exists_inserted.
  - loop_no_err assign_indexed_no_err.
  - loop_no_err (fun d i i' idx => proj1 (proj2 (scanning_no_err d i i' idx))).
  - loop_no_err assign_indexed_no_err.
  - intros t d'. unfold assign_watchdog, qemuAssignDeviceWatchdogAlias.
    destruct (watchdog t) as [w|]; [|done]. by destruct (alias w).
  - intros t d'. unfold assign_memballoon, qemuAssignDeviceMemballoonAlias.
    destruct (memballoon t) as [b|]; [|done]. destruct (negb _); [|done].
    by destruct (alias (memballoon_info b)).
  - loop_no_err (fun d (_ : nat) i i' =>
                   proj2 (proj2 (proj2 (scanning_no_err d i i' 0)))).
  - loop_no_err assign_indexed_no_err.
  - intros t d' (t' & i & x & x' & Hx & Ha & ->)%loop_over_err.
    apply mem_err in Ha as [-> Hf]. right. right. simpl. by eapply Exists_inserted.
  - intros t d'. unfold assign_vsock, qemuAssignDeviceVsockAlias.
    destruct (vsock t) as [w|]; [|done]. by destruct (alias w).
Qed.

(** X8. The pass returns -1 only for a domain that holds, without an
    alias, a SCSI disk on a drive address (its controller model was not
    found), a character device of no type, or a memory device of no
    model; no other assigner fails. *)
Theorem pass_fails_only_on (def def' : virDomainDef) (caps : virQEMUCaps) :
  qemuAssignDeviceAliases def caps = RetErr def' -> failure_cause def.
Proof.
  intros Hrun.
  pose proof (pass_upd def def' caps (or_intror Hrun)) as Hu.
  assert (Hc : failure_cause def').
  { unfold qemuAssignDeviceAliases in Hrun. apply run_steps_err in Hrun.
    apply Exists_exists in Hrun as (f & Hin & t & Hf).
    pose proof (pass_steps_fail caps) as Hall. rewrite Forall_forall in Hall.
    by apply (Hall f Hin t). }
  destruct Hc as [Hd|[Hc|Hm]]; [left|right; left|right; right].
  - eapply Exists_upd_back; [apply (upd_disks _ _ Hu)| |exact Hd].
    intros x x' (Hi & Hb & _) (Ha & Hbus & Hty). unfold failing_disk, disk_alias in *.
    pose proof (info_upd_none _ _ Hi Ha) as Heq. rewrite Heq in Ha, Hty.
    by rewrite <- Hb.
  - eapply Exists_upd_back; [| |exact Hc].
    + repeat apply Forall2_app; apply Hu.
    + intros x x' (Hi & Hty) (Ha & Hl). unfold failing_chr, chr_alias in *.
      pose proof (info_upd_none _ _ Hi Ha) as Heq. rewrite Heq in Ha.
      by rewrite <- Hty.
  - eapply Exists_upd_back; [apply (upd_mems _ _ Hu)| |exact Hm].
    intros x x' (Hi & Hmod) (Ha & Hl). unfold failing_mem, mem_alias in *.
    pose proof (info_upd_none _ _ Hi Ha) as Heq. rewrite Heq in Ha.
    by rewrite <- Hmod.
Qed.

End PassFailure.

Lemma pass_fails_only_on_witness : failure_cause mem_none_dom.
Proof.
  apply (@pass_fails_only_on libvirt_collaborators mem_none_dom mem_none_dom
           default_caps).
  vm_compute. reflexivity.
Defined.

(** ** Disk aliases and drive addresses *)

Lemma uint_no_dash (d : Decimal.uint) : no_dash (NilEmpty.string_of_uint d) = true.
Proof. induction d; simpl; done. Qed.

Lemma fmt_d_no_dash (n : Z) : 0 <= n -> no_dash (fmt_d n) = true.
Proof.
  intros Hn. unfold fmt_d. destruct n as [|p|p]; [done| |lia]. simpl.
  rewrite string_of_uint_pos. apply uint_no_dash.
Qed.

(** Two strings without separator, each followed by a separator: the
    place of the first separator tells them apart. *)
Lemma dash_split (x x' r r' : string) :
  no_dash x = true -> no_dash x' = true ->
  x ++ "-" ++ r = x' ++ "-" ++ r' -> x = x' /\ r = r'.
Proof.
  revert x'. induction x as [|c x IH]; intros [|c' x'] Hx Hx' Heq.
  - injection Heq as Heq. split; [done|exact Heq].
  - injection Heq as Hc _. by rewrite <- Hc in Hx'.
  - injection Heq as Hc _. by rewrite Hc in Hx.
  - injection Heq as -> Heq.
    simpl in Hx, Hx'. apply andb_prop in Hx as [_ Hx]. apply andb_prop in Hx' as [_ Hx'].
    destruct (IH x' Hx Hx' Heq) as [-> ->]. done.
Qed.

Lemma no_dash_not_split (x y r : string) :
  no_dash x = true -> x <> y ++ "-" ++ r.
Proof.
  revert x. induction y as [|c y IH]; intros [|c' x] Hx Heq; try done.
  - injection Heq as Hc _. by rewrite Hc in Hx.
  - injection Heq as -> Heq.
    simpl in Hx. apply andb_prop in Hx as [_ Hx]. by apply (IH x).
Qed.

Section DiskAddresses.
Context `{Collaborators}.

Lemma disk_qomName_keeps_alias (caps : virQEMUCaps) (x : virDomainDiskDef) :
  disk_alias (disk_assign_qomName caps x) = disk_alias x.
Proof. unfold disk_assign_qomName, disk_alias. by repeat case_match. Qed.

(** The alias of a disk on a drive address: the name of the bus, then
    controller, bus and unit, with the target before the unit on the SCSI
    controllers that have targets. *)
Lemma drive_disk_alias (def : virDomainDef) (caps : virQEMUCaps)
    (x x' : virDomainDiskDef) :
  disk_alias x = None ->
  info_type (disk_info x) = VIR_DOMAIN_DEVICE_ADDRESS_TYPE_DRIVE ->
  qemuAssignDeviceDiskAlias def x caps = Ret0 x' ->
  disk_alias x'
  = Some (virDomainDiskBusTypeToString (disk_bus x)
          ++ fmt_d (to_int (drive_controller (addr_drive (disk_info x)))) ++ "-"
          ++ fmt_d (to_int (drive_bus (addr_drive (disk_info x)))) ++ "-"
          ++ (if with_target def x
              then fmt_d (to_int (drive_target (addr_drive (disk_info x)))) ++ "-"
                   ++ fmt_d (to_int (drive_unit (addr_drive (disk_info x))))
              else fmt_d (to_int (drive_unit (addr_drive (disk_info x)))))).
Proof.
  unfold disk_alias at 1. intros Hnone Hty.
  unfold qemuAssignDeviceDiskAlias, disk_assign_alias, with_target.
  rewrite Hnone, Hty. rewrite bool_decide_eq_true_2 by done.
  destruct (_ && (_ <? 0))%bool; [done|].
  destruct (bool_decide (disk_bus x = VIR_DOMAIN_DISK_BUS_SCSI)); simpl;
    [destruct (_ =? VIR_DOMAIN_CONTROLLER_MODEL_SCSI_LSILOGIC); simpl|];
    intros [= <-]; by rewrite disk_qomName_keeps_alias.
Qed.

(** Two aliases made on drive addresses of one bus are the same only for
    the same controller, bus and unit, and the same target when one of
    them names its target. *)
Lemma drive_alias_inj (name : string) (wx wy : bool) (cx bx tx ux cy by' ty uy : Z) :
  0 <= cx -> 0 <= bx -> 0 <= tx -> 0 <= ux ->
  0 <= cy -> 0 <= by' -> 0 <= ty -> 0 <= uy ->
  name ++ fmt_d cx ++ "-" ++ fmt_d bx ++ "-"
       ++ (if wx then fmt_d tx ++ "-" ++ fmt_d ux else fmt_d ux)
  = name ++ fmt_d cy ++ "-" ++ fmt_d by' ++ "-"
         ++ (if wy then fmt_d ty ++ "-" ++ fmt_d uy else fmt_d uy) ->
  cx = cy /\ bx = by' /\ ux = uy /\ wx = wy /\ (wx = true -> tx = ty).
Proof.
  intros Hcx Hbx Htx Hux Hcy Hby Hty Huy Heq.
  apply string_app_inv_l in Heq.
  apply dash_split in Heq as [Hc Heq]; [|by apply fmt_d_no_dash..].
  apply dash_split in Heq as [Hb Heq]; [|by apply fmt_d_no_dash..].
  apply fmt_d_inj_Z in Hc, Hb. split; [done|]. split; [done|].
  destruct wx, wy.
  - apply dash_split in Heq as [Ht Hu]; [|by apply fmt_d_no_dash..].
    apply fmt_d_inj_Z in Ht, Hu. by repeat split.
  - exfalso. symmetry in Heq. revert Heq. apply no_dash_not_split.
    by apply fmt_d_no_dash.
  - exfalso. revert Heq. apply no_dash_not_split. by apply fmt_d_no_dash.
  - apply fmt_d_inj_Z in Heq. by repeat split.
Qed.

(** X9. Two disks without alias on drive addresses of the same bus type
    (address members within [0, INT_MAX]) that are given the same alias
    sit at the same controller, bus and unit; and at the same target when
    the alias names the target, that is on a SCSI controller that is not
    an LSI one.  Other disks are not told apart by their target: two IDE
    disks at targets 0 and 1 of one controller, bus and unit are both
    given "ide0-1-0". *)
Theorem drive_disk_aliases_differ :
  (forall (def : virDomainDef) (caps : virQEMUCaps) (x y x' y' : virDomainDiskDef),
     disk_alias x = None -> disk_alias y = None ->
     info_type (disk_info x) = VIR_DOMAIN_DEVICE_ADDRESS_TYPE_DRIVE ->
     info_type (disk_info y) = VIR_DOMAIN_DEVICE_ADDRESS_TYPE_DRIVE ->
     disk_bus x = disk_bus y ->
     drive_within_int (addr_drive (disk_info x)) ->
     drive_within_int (addr_drive (disk_info y)) ->
     qemuAssignDeviceDiskAlias def x caps = Ret0 x' ->
     qemuAssignDeviceDiskAlias def y caps = Ret0 y' ->
     disk_alias x' = disk_alias y' ->
     drive_controller (addr_drive (disk_info x))
     = drive_controller (addr_drive (disk_info y)) /\
     drive_bus (addr_drive (disk_info x)) = drive_bus (addr_drive (disk_info y)) /\
     drive_unit (addr_drive (disk_info x)) = drive_unit (addr_drive (disk_info y)) /\
     (disk_bus x = VIR_DOMAIN_DISK_BUS_SCSI ->
      qemuDomainFindSCSIControllerModel def (disk_info x)
      <> VIR_DOMAIN_CONTROLLER_MODEL_SCSI_LSILOGIC ->
      drive_target (addr_drive (disk_info x))
      = drive_target (addr_drive (disk_info y)))) /\
  exists x' y',
    @qemuAssignDeviceDiskAlias libvirt_collaborators empty_def (ide_disk_at 0 1 0 0)
                               default_caps = Ret0 x' /\
    @qemuAssignDeviceDiskAlias libvirt_collaborators empty_def (ide_disk_at 0 1 1 0)
                               default_caps = Ret0 y' /\
    disk_alias x' = Some "ide0-1-0" /\ disk_alias y' = Some "ide0-1-0".
Proof.
  split.
  - intros def caps x y x' y' Hx Hy Htx Hty Hbus (Hc & Hb & Ht & Hu)
      (Hc' & Hb' & Ht' & Hu') Hrx Hry Heq.
    rewrite (drive_disk_alias def caps x x' Hx Htx Hrx),
      (drive_disk_alias def caps y y' Hy Hty Hry), Hbus in Heq.
    injection Heq as Heq. rewrite !to_int_small in Heq by done.
    apply drive_alias_inj in Heq as (-> & -> & -> & Hw & Htg); try lia.
    do 3 (split; [done|]). intros Hscsi Hmodel. apply Htg.
    unfold with_target. rewrite Hscsi, bool_decide_eq_true_2 by done. simpl.
    apply negb_true_iff, Z.eqb_neq. done.
  - eexists _, _. split; [vm_compute; reflexivity|].
    split; [vm_compute; reflexivity|]. by split.
Qed.

End DiskAddresses.

Lemma drive_disk_aliases_differ_witness :
  drive_controller (addr_drive (disk_info (ide_disk_at 0 1 0 0)))
  = drive_controller (addr_drive (disk_info (ide_disk_at 0 1 1 0))) /\
  drive_bus (addr_drive (disk_info (ide_disk_at 0 1 0 0)))
  = drive_bus (addr_drive (disk_info (ide_disk_at 0 1 1 0))) /\
  drive_unit (addr_drive (disk_info (ide_disk_at 0 1 0 0)))
  = drive_unit (addr_drive (disk_info (ide_disk_at 0 1 1 0))) /\
  (disk_bus (ide_disk_at 0 1 0 0) = VIR_DOMAIN_DISK_BUS_SCSI ->
   @qemuDomainFindSCSIControllerModel libvirt_collaborators empty_def
     (disk_info (ide_disk_at 0 1 0 0))
   <> @VIR_DOMAIN_CONTROLLER_MODEL_SCSI_LSILOGIC libvirt_collaborators ->
   drive_target (addr_drive (disk_info (ide_disk_at 0 1 0 0)))
   = drive_target (addr_drive (disk_info (ide_disk_at 0 1 1 0)))).
Proof.
  apply (proj1 (@drive_disk_aliases_differ libvirt_collaborators)
           empty_def default_caps
           (ide_disk_at 0 1 0 0) (ide_disk_at 0 1 1 0)
           (disk_set_qomName (Some "ide0-1-0") (disk_set_alias (Some "ide0-1-0")
                                                  (ide_disk_at 0 1 0 0)))
           (disk_set_qomName (Some "ide0-1-0") (disk_set_alias (Some "ide0-1-0")
                                                  (ide_disk_at 0 1 1 0))));
    try reflexivity; unfold drive_within_int, INT_MAX; simpl; lia.
Defined.

(** ** The alignment of a job that lists disks *)

Section AlignLoops.
Context `{BackupCollaborators}.

Lemma assign_store_cases (b b' : virDomainBackupDiskDef) (src : virStorageSource)
    (suffix : string) :
  virDomainBackupDefAssignStore b src suffix = Ret0 b' -> store_assigned b b'.
Proof.
  unfold virDomainBackupDefAssignStore, store_assigned.
  destruct (virStorageSourceIsEmpty src), (bdisk_store b) eqn:Hst;
    try case_bool_decide; intros [= <-]; eauto.
Qed.

Lemma store_assigned_name (b0 b : virDomainBackupDiskDef) :
  store_assigned b0 b ->
  bdisk_name b = bdisk_name b0 /\ bdisk_backup b = bdisk_backup b0 /\
  bdisk_backupmode b = bdisk_backupmode b0 /\
  bdisk_incremental b = bdisk_incremental b0 /\
  (is_Some (bdisk_store b0) -> bdisk_store b = bdisk_store b0).
Proof.
  intros [->|(Hst & st & ->)]; [done|]. simpl. repeat split.
  rewrite Hst. by intros [? [=]].
Qed.

(** The first loop, when it returns 0: every directive names a disk of
    the domain, no two name the same, an incremental directive has its
    checkpoint, and the directives are as they were but for the stores
    the loop gave. *)
Lemma align_check_loop (inc : option string) (dom : virDomainDef) (suffix : string)
    (bdisks0 bdisks : list virDomainBackupDiskDef) (seen : gset string) :
  for_each (length bdisks0) (align_check inc dom suffix) (bdisks0, ∅)
  = Ret0 (bdisks, seen) ->
  exists names,
    map bdisk_name bdisks0 = map Some names /\ NoDup names /\
    seen = list_to_set names /\
    Forall (fun n => is_Some (virDomainDiskByTarget dom n)) names /\
    Forall2 (checked dom suffix) bdisks0 bdisks /\
    Forall (incremental_named inc) bdisks0.
Proof.
  intros Hrun. unfold for_each in Hrun.
  pose (Inv := fun (j : nat) (st : list virDomainBackupDiskDef * gset string) =>
                 length st.1 = length bdisks0 /\
                 (forall k, (j <= k)%nat -> st.1 !! k = bdisks0 !! k) /\
                 exists names,
                   map bdisk_name (take j bdisks0) = map Some names /\ NoDup names /\
                   st.2 = list_to_set names /\
                   Forall (fun n => is_Some (virDomainDiskByTarget dom n)) names /\
                   Forall2 (checked dom suffix) (take j bdisks0) (take j st.1) /\
                   Forall (incremental_named inc) (take j bdisks0)).
  assert (Hend : Inv (0 + length bdisks0)%nat (bdisks, seen)).
  { eapply (for_from_inv Inv); [| |exact Hrun].
    - unfold Inv. simpl. split; [done|]. split; [done|]. exists []. simpl.
      rewrite take_0. repeat split; try done; constructor.
    - intros j [bd sn] [bd' sn'] Hj (Hlen & Htail & names & Hn & Hnd & Hsn & Hdom & Hst & Hinc).
      simpl in *. unfold align_check.
      assert (Hjl : (j < length bdisks0)%nat) by lia.
      destruct (lookup_lt_is_Some_2 bdisks0 j Hjl) as [b0 Hb0].
      rewrite (Htail j) by done. rewrite Hb0.
      destruct (bdisk_name b0) as [name|] eqn:Hname; [|done].
      destruct (virDomainDiskByTarget dom name) as [domdisk|] eqn:Hfind; [|done].
      case_bool_decide as Hseen; [done|].
      destruct (_ && _ && _)%bool eqn:Hbad; [done|].
      assert (Hincb : incremental_named inc b0).
      { intros Hmode. rewrite Hmode in Hbad. simpl in Hbad.
        apply andb_false_iff in Hbad as [Hb|Hb].
        - apply negb_false_iff, bool_decide_eq_true in Hb. by left.
        - apply negb_false_iff, bool_decide_eq_true in Hb. by right. }
      assert (Hcommon : forall b, checked dom suffix b0 b ->
                 Inv (Datatypes.S j) (<[j:=b]> bd, {[name]} ∪ sn)).
      { intros b Hb. unfold Inv. simpl. split; [by rewrite length_insert|]. split.
        - intros k Hk. rewrite list_lookup_insert_ne by lia. apply Htail. lia.
        - exists (names ++ [name])%list. rewrite (take_S_r _ _ _ Hb0).
          rewrite !map_app, Hn. simpl. rewrite Hname. split; [done|]. split.
          { apply NoDup_app. split; [done|]. split; [|apply NoDup_singleton].
            intros x Hx ->%list_elem_of_singleton. apply Hseen. rewrite Hsn.
            by apply elem_of_list_to_set. }
          split; [rewrite list_to_set_snoc_L, Hsn; apply (comm_L (∪))|].
          split; [apply Forall_app; split; [done|]; apply Forall_singleton;
                  by rewrite Hfind|].
          split.
          + rewrite (take_S_r (<[j:=b]> bd) j b)
              by (apply list_lookup_insert_eq; lia).
            rewrite take_insert_ge by done. apply Forall2_app; [done|].
            by apply Forall2_cons.
          + apply Forall_app. split; [done|]. by apply Forall_singleton. }
      destruct (bdisk_backup b0 =? VIR_TRISTATE_BOOL_YES) eqn:Hyes.
      + destruct (virDomainBackupDefAssignStore b0 (disk_src domdisk) suffix)
          as [b| |] eqn:Has; simpl; intros [= <- <-].
        apply Hcommon. exists name, domdisk. by rewrite Hyes.
      + intros [= <- <-].
        rewrite <- (list_insert_id bd j b0) by (by rewrite Htail).
        apply Hcommon. exists name, domdisk. by rewrite Hyes. }
  destruct Hend as (Hlen & _ & names & Hn & Hnd & Hsn & Hdom & Hst & Hinc).
  simpl in *. rewrite !take_ge in * by lia.
  exists names. by repeat split.
Qed.

Lemma checked_store_assigned (dom : virDomainDef) (suffix : string)
    (b0 b : virDomainBackupDiskDef) :
  checked dom suffix b0 b -> store_assigned b0 b.
Proof.
  intros (n & d & _ & _ & Hb). destruct (_ =? _).
  - by eapply assign_store_cases.
  - by left.
Qed.

End AlignLoops.

Lemma for_from_safe {S : Type} (Inv : nat -> S -> Prop) (body : nat -> S -> outcome S)
    (n i : nat) (s : S) :
  Inv i s ->
  (forall j t, (i <= j < i + n)%nat -> Inv j t ->
               body j t <> Undef /\
               forall t', body j t = Ret0 t' -> Inv (Datatypes.S j) t') ->
  for_from body i n s <> Undef.
Proof.
  revert i s. induction n as [|n IH]; intros i s Hi Hstep; simpl; [done|].
  destruct (Hstep i s ltac:(lia) Hi) as [Hsafe Hnext].
  destruct (body i s) as [t|t|] eqn:Hb; simpl; [|done|done].
  apply IH; [by apply Hnext|]. intros j u Hj. apply Hstep. lia.
Qed.

Lemma filter_take_length {A : Type} (P : A -> Prop) `{!forall x, Decision (P x)}
    (l : list A) (j : nat) :
  (length (filter P (take j l)) <= length (filter P l))%nat.
Proof.
  rewrite <- (take_drop j l) at 2. rewrite filter_app, length_app. lia.
Qed.

Lemma insert_fresh_slot {A : Type} (pre mid : list A) (z x : A) (r : nat) :
  <[(length pre + length mid)%nat:=x]> (pre ++ mid ++ replicate (Datatypes.S r) z)%list
  = (pre ++ (mid ++ [x]) ++ replicate r z)%list.
Proof.
  rewrite insert_app_r_alt by lia.
  replace (length pre + length mid - length pre)%nat with (length mid) by lia.
  rewrite insert_app_r_alt by lia. rewrite Nat.sub_diag. simpl.
  by rewrite <- app_assoc.
Qed.

Lemma lookup_fresh_slot {A : Type} (pre mid : list A) (z : A) (r : nat) :
  (pre ++ mid ++ replicate (Datatypes.S r) z)%list !! (length pre + length mid)%nat
  = Some z.
Proof.
  rewrite lookup_app_r by lia.
  replace (length pre + length mid - length pre)%nat with (length mid) by lia.
  rewrite lookup_app_r by lia. by rewrite Nat.sub_diag.
Qed.

Section AlignFill.
Context `{BackupCollaborators}.

(** One turn of the second loop on an unlisted disk, with a free slot. *)
Lemma align_fill_unlisted (seen : gset string) (backup_all : bool) (dom : virDomainDef)
    (suffix : string) (i : nat) (d : virDomainDiskDef)
    (pre mid : list virDomainBackupDiskDef) (r : nat) :
  disks dom !! i = Some d -> disk_dst d ∉ seen ->
  align_fill seen backup_all dom suffix i
             ((pre ++ mid ++ replicate (Datatypes.S r) bdisk_zero)%list,
              (length pre + length mid)%nat)
  = Ret0 ((pre ++ (mid ++ [unlisted_directive backup_all suffix d])
               ++ replicate r bdisk_zero)%list,
          Datatypes.S (length pre + length mid))
  \/ exists st, align_fill seen backup_all dom suffix i
                  ((pre ++ mid ++ replicate (Datatypes.S r) bdisk_zero)%list,
                   (length pre + length mid)%nat) = RetErr st.
Proof.
  intros Hd Hseen. unfold align_fill. rewrite Hd, bool_decide_eq_false_2 by done.
  rewrite lookup_fresh_slot. unfold unlisted_directive, filled_directive, backed_up.
  destruct backup_all; simpl andb.
  - destruct (negb (virStorageSourceIsEmpty (disk_src d))
              && negb (storage_readonly (disk_src d)))%bool eqn:Hbk.
    + apply andb_prop in Hbk as [He Hro]. apply negb_true_iff in He.
      rewrite assign_store_fresh by done.
      case_bool_decide; simpl; [left|right; eexists; reflexivity].
      do 2 f_equal. apply (insert_fresh_slot pre mid bdisk_zero _ r).
    + left. do 2 f_equal. apply (insert_fresh_slot pre mid bdisk_zero _ r).
  - left. do 2 f_equal. apply (insert_fresh_slot pre mid bdisk_zero _ r).
Qed.

(** The second loop, with room for the unlisted disks: it never stores
    outside the array, and when it returns 0 the array holds, after the
    directives it had, one directive for each unlisted disk, in the order
    of the domain. *)
Lemma align_fill_loop (seen : gset string) (backup_all : bool) (dom : virDomainDef)
    (suffix : string) (bdisks : list virDomainBackupDiskDef) (extra : nat) :
  (length (unlisted seen dom) <= extra)%nat ->
  for_each (length (disks dom)) (align_fill seen backup_all dom suffix)
           ((bdisks ++ replicate extra bdisk_zero)%list, length bdisks) <> Undef /\
  forall bd' n',
    for_each (length (disks dom)) (align_fill seen backup_all dom suffix)
             ((bdisks ++ replicate extra bdisk_zero)%list, length bdisks)
    = Ret0 (bd', n') ->
    bd' = (bdisks ++ map (unlisted_directive backup_all suffix) (unlisted seen dom)
                  ++ replicate (extra - length (unlisted seen dom)) bdisk_zero)%list.
Proof.
  intros Hroom. unfold for_each.
  pose (u := fun j => filter (fun d => disk_dst d ∉ seen) (take j (disks dom))).
  pose (Inv := fun (j : nat) (st : list virDomainBackupDiskDef * nat) =>
                 st.2 = (length bdisks + length (u j))%nat /\
                 st.1 = (bdisks ++ map (unlisted_directive backup_all suffix) (u j)
                                ++ replicate (extra - length (u j)) bdisk_zero)%list).
  assert (Hu : forall j, (length (u j) <= extra)%nat).
  { intros j. etrans; [apply filter_take_length|exact Hroom]. }
  assert (Hinit : Inv 0%nat ((bdisks ++ replicate extra bdisk_zero)%list, length bdisks)).
  { unfold Inv, u. rewrite take_0. simpl. split; [lia|]. by rewrite Nat.sub_0_r. }
  assert (Hstep : forall j t, (0 <= j < 0 + length (disks dom))%nat -> Inv j t ->
             align_fill seen backup_all dom suffix j t <> Undef /\
             forall t', align_fill seen backup_all dom suffix j t = Ret0 t' ->
                        Inv (Datatypes.S j) t').
  { intros j [bd nd] Hj [Hnd Hbd]. simpl in Hnd, Hbd.
    destruct (lookup_lt_is_Some_2 (disks dom) j ltac:(lia)) as [d Hd].
    assert (Huj : u (Datatypes.S j)
                  = (u j ++ filter (fun d => disk_dst d ∉ seen) [d])%list).
    { unfold u. by rewrite (take_S_r _ _ _ Hd), filter_app. }
    destruct (decide (disk_dst d ∈ seen)) as [Hin|Hnin].
    - assert (Hsame : u (Datatypes.S j) = u j).
      { rewrite Huj, filter_cons_False, filter_nil, app_nil_r; [done|].
        by intros Hn. }
      unfold align_fill. rewrite Hd, bool_decide_eq_true_2 by done.
      split; [done|]. intros t' [= <-]. unfold Inv. by rewrite Hsame.
    - assert (Hnext : u (Datatypes.S j) = (u j ++ [d])%list).
      { rewrite Huj, filter_cons_True, filter_nil; done. }
      pose proof (Hu (Datatypes.S j)) as Hlen. rewrite Hnext, length_app in Hlen.
      simpl in Hlen.
      destruct (extra - length (u j))%nat as [|r] eqn:Hr; [lia|].
      subst nd bd.
      rewrite <- (length_map (unlisted_directive backup_all suffix) (u j)).
      destruct (align_fill_unlisted seen backup_all dom suffix j d bdisks
                  (map (unlisted_directive backup_all suffix) (u j)) r Hd Hnin)
        as [Hok|[st Herr]].
      + rewrite Hok. split; [done|]. intros t' [= <-]. unfold Inv. simpl.
        rewrite Hnext, map_app, !length_app, !length_map. simpl.
        split; [lia|]. do 3 f_equal. lia.
      + rewrite Herr. split; [done|]. done. }
  split.
  - by apply (for_from_safe Inv).
  - intros bd' n' Hrun.
    destruct (for_from_inv Inv _ _ _ _ _ Hinit
                (fun j t t' Hj Hi Hb => proj2 (Hstep j t Hj Hi) t' Hb) Hrun)
      as [_ Hbd].
    simpl in Hbd. unfold u in Hbd. by rewrite take_ge in Hbd by lia.
Qed.

Lemma unlisted_count (names : list string) (dom : virDomainDef) :
  NoDup names ->
  Forall (fun n => is_Some (virDomainDiskByTarget dom n)) names ->
  (length names + length (unlisted (list_to_set names) dom) <= length (disks dom))%nat.
Proof.
  intros Hnd Hdom. unfold unlisted.
  set (P := fun d : virDomainDiskDef => disk_dst d ∉ (list_to_set names : gset string)).
  pose proof (filter_app_complement P (disks dom)) as Hperm.
  apply Permutation_length in Hperm. rewrite length_app in Hperm.
  assert (Hsub : names ⊆+ map disk_dst (filter (fun d => ¬ P d) (disks dom))).
  { apply NoDup_submseteq; [done|]. intros n Hn.
    rewrite Forall_forall in Hdom. destruct (Hdom n Hn) as [d Hd].
    unfold virDomainDiskByTarget in Hd. apply find_some in Hd as [Hin Heq].
    apply String.eqb_eq in Heq. apply list_elem_of_fmap. exists d. split; [done|].
    apply list_elem_of_filter. split; [|by apply list_elem_of_In].
    unfold P. intros Hnot. apply Hnot. rewrite Heq. by apply elem_of_list_to_set. }
  apply submseteq_length in Hsub. rewrite length_map in Hsub. lia.
Qed.

Lemma unlisted_count_exact (names : list string) (dom : virDomainDef) :
  NoDup names -> NoDup (disk_targets dom) ->
  Forall (fun n => is_Some (virDomainDiskByTarget dom n)) names ->
  (length names + length (unlisted (list_to_set names) dom))%nat = length (disks dom).
Proof.
  intros Hnd Hdst Hdom. pose proof (unlisted_count names dom Hnd Hdom) as Hle.
  unfold unlisted in *.
  set (P := fun d : virDomainDiskDef => disk_dst d ∉ (list_to_set names : gset string))
    in *.
  pose proof (filter_app_complement P (disks dom)) as Hperm.
  apply Permutation_length in Hperm. rewrite length_app in Hperm.
  assert (Hsub : map disk_dst (filter (fun d => ¬ P d) (disks dom)) ⊆+ names).
  { apply NoDup_submseteq.
    - apply (sublist_NoDup _ (disk_targets dom)); [exact Hdst|].
      unfold disk_targets. apply (fmap_sublist disk_dst), sublist_filter.
    - intros n (d & -> & Hd)%list_elem_of_fmap.
      apply list_elem_of_filter in Hd as [Hd _]. unfold P in Hd.
      destruct (decide (disk_dst d ∈ names)) as [Hin|Hnin]; [done|].
      exfalso. apply Hd. by rewrite elem_of_list_to_set. }
  apply submseteq_length in Hsub. rewrite length_map in Hsub. lia.
Qed.

End AlignFill.

Section AlignResult.
Context `{BackupCollaborators}.

Lemma check_loop_named (inc : option string) (dom : virDomainDef) (suffix : string)
    (bdisks0 : list virDomainBackupDiskDef) :
  Forall (fun b => is_Some (bdisk_name b)) bdisks0 ->
  for_each (length bdisks0) (align_check inc dom suffix) (bdisks0, ∅) <> Undef.
Proof.
  intros Hnamed. unfold for_each.
  apply (for_from_safe (fun _ st => Forall (fun b => is_Some (bdisk_name b)) st.1));
    [done|].
  intros j [bd sn] _ Hall. simpl in Hall. unfold align_check.
  destruct (bd !! j) as [b0|] eqn:Hb0; [|by split; [|intros t' [= <-]]].
  pose proof (Forall_lookup_1 _ _ _ _ Hall Hb0) as [name Hname]. rewrite Hname.
  destruct (virDomainDiskByTarget dom name) as [d|]; [|done].
  case_bool_decide; [done|]. destruct (_ && _ && _)%bool; [done|].
  destruct (_ =? _); [|by split; [|intros t' [= <-]]].
  destruct (virDomainBackupDefAssignStore b0 (disk_src d) suffix) as [b| |] eqn:Has;
    simpl; [|done|].
  - split; [done|]. intros t' [= <-]. simpl. apply Forall_insert; [done|].
    destruct (store_assigned_name b0 b (assign_store_cases _ _ _ _ Has)) as (-> & _).
    by rewrite Hname.
  - exfalso. revert Has. unfold virDomainBackupDefAssignStore.
    by repeat case_match.
Qed.

(** What the alignment made of a job, when it returned 0. *)
Lemma align_disks_result (def def' : virDomainBackupDef) (dom : virDomainDef)
    (suffix : string) :
  virDomainBackupAlignDisks def dom suffix = Ret0 def' ->
  exists names bdisks,
    map bdisk_name (backup_disks def) = map Some names /\ NoDup names /\
    Forall (fun n => is_Some (virDomainDiskByTarget dom n)) names /\
    Forall2 (checked dom suffix) (backup_disks def) bdisks /\
    Forall (incremental_named (backup_incremental def)) (backup_disks def) /\
    (length names + length (unlisted (list_to_set names) dom)
     <= length (disks dom))%nat /\
    def' = backup_set_disks
             (map (backfill_mode (backup_incremental def))
                  (bdisks
                   ++ map (unlisted_directive (Nat.eqb (length names) 0) suffix)
                          (unlisted (list_to_set names) dom)
                   ++ replicate (length (disks dom) - length names
                                 - length (unlisted (list_to_set names) dom))
                                bdisk_zero)) def.
Proof.
  unfold virDomainBackupAlignDisks. destruct (Nat.eqb _ 0); [done|].
  destruct (for_each (length (backup_disks def)) _ _) as [[bdisks seen]|[? ?]|] eqn:Hcheck;
    [|done..].
  destruct (align_check_loop _ _ _ _ _ _ Hcheck)
    as (names & Hn & Hnd & -> & Hdom & Hst & Hinc).
  pose proof (unlisted_count names dom Hnd Hdom) as Hcount.
  assert (Hlen : length bdisks = length names).
  { rewrite <- (Forall2_length _ _ _ Hst), <- (length_map bdisk_name), Hn.
    by rewrite length_map. }
  destruct (align_fill_loop (list_to_set names) (Nat.eqb (length bdisks) 0) dom suffix
              bdisks (length (disks dom) - length bdisks)) as [_ Hfill]; [lia|].
  destruct (for_each (length (disks dom)) _ _) as [[bd' n']|[? ?]|] eqn:Hrun; [|done..].
  intros [= <-]. exists names, bdisks.
  rewrite (Hfill bd' n' eq_refl), Hlen. by repeat split.
Qed.

Lemma found_in_targets (dom : virDomainDef) (n : string) :
  is_Some (virDomainDiskByTarget dom n) -> n ∈ disk_targets dom.
Proof.
  intros [d Hd]. unfold virDomainDiskByTarget in Hd.
  apply find_some in Hd as [Hin Heq]. apply String.eqb_eq in Heq.
  apply list_elem_of_fmap. exists d. split; [done|]. by apply list_elem_of_In.
Qed.

(** X10. When the alignment returns 0, the job did not list more disks
    than the domain has (so the size of the expansion did not wrap), and
    it ends with exactly as many directives as the domain has disks. *)
Theorem align_disks_one_per_domain_disk (def def' : virDomainBackupDef)
    (dom : virDomainDef) (suffix : string) :
  virDomainBackupAlignDisks def dom suffix = Ret0 def' ->
  (length (backup_disks def) <= length (disks dom))%nat /\
  length (backup_disks def') = length (disks dom).
Proof.
  intros (names & bdisks & Hn & Hnd & Hdom & Hst & Hinc & Hcount & ->)%align_disks_result.
  assert (Hlen : length (backup_disks def) = length names).
  { by rewrite <- (length_map bdisk_name), Hn, length_map. }
  pose proof (Forall2_length _ _ _ Hst) as Hlen'.
  split; [lia|]. simpl.
  rewrite length_map, !length_app, length_map, length_replicate. lia.
Qed.

Lemma align_disks_stays_in_bounds_lemma (def : virDomainBackupDef) (dom : virDomainDef)
    (suffix : string) :
  Forall (fun b => is_Some (bdisk_name b)) (backup_disks def) ->
  virDomainBackupAlignDisks def dom suffix <> Undef.
Proof.
  intros Hnamed. unfold virDomainBackupAlignDisks. destruct (Nat.eqb _ 0); [done|].
  pose proof (check_loop_named (backup_incremental def) dom suffix _ Hnamed) as Hsafe.
  destruct (for_each (length (backup_disks def)) _ _) as [[bdisks seen]|[? ?]|] eqn:Hcheck;
    [|done..].
  destruct (align_check_loop _ _ _ _ _ _ Hcheck)
    as (names & Hn & Hnd & -> & Hdom & Hst & Hinc).
  pose proof (unlisted_count names dom Hnd Hdom) as Hcount.
  assert (Hlen : length bdisks = length names).
  { rewrite <- (Forall2_length _ _ _ Hst), <- (length_map bdisk_name), Hn.
    by rewrite length_map. }
  destruct (align_fill_loop (list_to_set names) (Nat.eqb (length bdisks) 0) dom suffix
              bdisks (length (disks dom) - length bdisks)) as [Hfill _]; [lia|].
  by destruct (for_each (length (disks dom)) _ _) as [[bd' n']|[? ?]|].
Qed.

(** X11. A job whose directives all carry a name is aligned without a
    store outside the array of directives and without a read of a
    missing name, whatever the domain: the alignment returns 0 or -1. *)
Theorem align_disks_stays_in_bounds (def : virDomainBackupDef) (dom : virDomainDef)
    (suffix : string) :
  Forall (fun b => is_Some (bdisk_name b)) (backup_disks def) ->
  virDomainBackupAlignDisks def dom suffix <> Undef.
Proof. apply align_disks_stays_in_bounds_lemma. Qed.

(** X12. The alignment returns 0 only for a job whose directives name
    disks of the domain, no two of them the same disk, and whose
    incremental directives have a checkpoint to start from, their own or
    the one of the job. *)
Theorem align_disks_accepts_only_valid (def def' : virDomainBackupDef)
    (dom : virDomainDef) (suffix : string) :
  virDomainBackupAlignDisks def dom suffix = Ret0 def' ->
  exists names,
    map bdisk_name (backup_disks def) = map Some names /\ NoDup names /\
    Forall (fun n => n ∈ disk_targets dom) names /\
    Forall (incremental_named (backup_incremental def)) (backup_disks def).
Proof.
  intros (names & bdisks & Hn & Hnd & Hdom & Hst & Hinc & Hcount & ->)%align_disks_result.
  exists names. repeat split; try done.
  eapply Forall_impl; [exact Hdom|]. apply found_in_targets.
Qed.

Lemma backfill_mode_settles (inc : option string) (b : virDomainBackupDiskDef) :
  incremental_named inc b -> mode_settled (backfill_mode inc b).
Proof.
  unfold incremental_named, mode_settled, backfill_mode,
    VIR_DOMAIN_BACKUP_DISK_BACKUP_MODE_DEFAULT,
    VIR_DOMAIN_BACKUP_DISK_BACKUP_MODE_INCREMENTAL,
    VIR_DOMAIN_BACKUP_DISK_BACKUP_MODE_FULL.
  destruct b as [nm bk md incr en eb st sta]. simpl. intros Hinc.
  destruct (md =? 0) eqn:Hd; [apply Z.eqb_eq in Hd|apply Z.eqb_neq in Hd].
  - destruct inc as [i|], incr as [c|]; simpl; split; try done; by eauto.
  - destruct incr as [c|]; simpl; [by split; eauto|].
    destruct (md =? 2) eqn:Hm; [apply Z.eqb_eq in Hm|apply Z.eqb_neq in Hm]; simpl.
    + split; [done|]. intros _. by destruct (Hinc Hm) as [[? [=]]|?].
    + by split.
Qed.

Lemma unlisted_directive_default (backup_all : bool) (suffix : string)
    (d : virDomainDiskDef) :
  bdisk_backupmode (unlisted_directive backup_all suffix d) = 0 /\
  bdisk_incremental (unlisted_directive backup_all suffix d) = None /\
  bdisk_name (unlisted_directive backup_all suffix d) = Some (disk_dst d).
Proof.
  unfold unlisted_directive, filled_directive.
  destruct backup_all; [destruct (backed_up d)|]; done.
Qed.

Lemma align_disks_modes_settled (def def' : virDomainBackupDef)
    (dom : virDomainDef) (suffix : string) :
  virDomainBackupAlignDisks def dom suffix = Ret0 def' ->
  Forall mode_settled (backup_disks def').
Proof.
  intros (names & bdisks & Hn & Hnd & Hdom & Hst & Hinc & Hcount & ->)%align_disks_result.
  simpl. apply Forall_fmap, Forall_app. split; [|apply Forall_app; split].
  - rewrite Forall_forall in Hinc. apply Forall_forall. intros b Hb.
    apply list_elem_of_lookup in Hb as [i Hi].
    destruct (Forall2_lookup_r _ _ _ _ _ Hst Hi) as (b0 & Hi0 & Hc).
    apply backfill_mode_settles.
    destruct (store_assigned_name b0 b (checked_store_assigned _ _ _ _ Hc))
      as (_ & _ & Hm & Hi' & _).
    unfold incremental_named. rewrite Hm, Hi'.
    apply Hinc. by eapply list_elem_of_lookup_2.
  - apply Forall_fmap, Forall_forall. intros d _. apply backfill_mode_settles.
    destruct (unlisted_directive_default (Nat.eqb (length names) 0) suffix d)
      as (Hm & _). unfold incremental_named. by rewrite Hm.
  - apply Forall_replicate. apply backfill_mode_settles. by intros [=].
Qed.

(** X13. After an alignment that returned 0 no directive is left in the
    default backup mode, and every directive in incremental mode names
    the checkpoint it starts from. *)
Theorem align_disks_settles_modes (def def' : virDomainBackupDef)
    (dom : virDomainDef) (suffix : string) :
  virDomainBackupAlignDisks def dom suffix = Ret0 def' ->
  Forall mode_settled (backup_disks def').
Proof. apply align_disks_modes_settled. Qed.

End AlignResult.

Lemma align_disks_one_per_domain_disk_witness :
  (length (backup_disks vdb_backup) <= length (disks two_disk_dom))%nat /\
  length (backup_disks vdb_backup_aligned) = length (disks two_disk_dom).
Proof.
  apply (@align_disks_one_per_domain_disk libvirt_backup_collaborators
           vdb_backup vdb_backup_aligned two_disk_dom "bak").
  vm_compute. reflexivity.
Defined.

Lemma align_disks_stays_in_bounds_witness :
  @virDomainBackupAlignDisks libvirt_backup_collaborators vdb_backup two_disk_dom "bak"
  <> Undef.
Proof.
  apply (@align_disks_stays_in_bounds libvirt_backup_collaborators).
  repeat constructor. by eexists.
Defined.

Lemma align_disks_accepts_only_valid_witness :
  exists names,
    map bdisk_name (backup_disks vdb_backup) = map Some names /\ NoDup names /\
    Forall (fun n => n ∈ disk_targets two_disk_dom) names /\
    Forall (incremental_named (backup_incremental vdb_backup)) (backup_disks vdb_backup).
Proof.
  apply (@align_disks_accepts_only_valid libvirt_backup_collaborators
           vdb_backup vdb_backup_aligned two_disk_dom "bak").
  vm_compute. reflexivity.
Defined.

Lemma align_disks_settles_modes_witness :
  Forall mode_settled (backup_disks vdb_backup_aligned).
Proof.
  apply (@align_disks_settles_modes libvirt_backup_collaborators
           vdb_backup vdb_backup_aligned two_disk_dom "bak").
  vm_compute. reflexivity.
Defined.

Section AlignLayout.
Context `{BackupCollaborators}.

(** X14. For a domain whose disks have distinct targets and a job that
    lists some disks, an alignment that returns 0 keeps the directives of
    the job first, in their order, each with its name, its backup flag
    and the store it came with, and appends one disabled directive
    without store for every disk the job did not list, in the order of
    the domain. *)
Theorem align_disks_appends_unlisted (def def' : virDomainBackupDef)
    (dom : virDomainDef) (suffix : string) :
  NoDup (disk_targets dom) ->
  backup_disks def <> [] ->
  virDomainBackupAlignDisks def dom suffix = Ret0 def' ->
  exists names,
    map bdisk_name (backup_disks def) = map Some names /\
    Forall2 (fun b0 b => bdisk_name b = bdisk_name b0 /\
                         bdisk_backup b = bdisk_backup b0 /\
                         (is_Some (bdisk_store b0) -> bdisk_store b = bdisk_store b0))
            (backup_disks def) (take (length names) (backup_disks def')) /\
    Forall2 (fun d b => bdisk_name b = Some (disk_dst d) /\
                        bdisk_backup b = VIR_TRISTATE_BOOL_NO /\
                        bdisk_store b = None)
            (filter (fun d => disk_dst d ∉ names) (disks dom))
            (drop (length names) (backup_disks def')).
Proof.
  intros Hdst Hne
    (names & bdisks & Hn & Hnd & Hdom & Hst & Hinc & Hcount & ->)%align_disks_result.
  pose proof (unlisted_count_exact names dom Hnd Hdst Hdom) as Hexact.
  assert (Hlen : length bdisks = length names).
  { rewrite <- (Forall2_length _ _ _ Hst), <- (length_map bdisk_name), Hn.
    by rewrite length_map. }
  assert (Hnz : Nat.eqb (length names) 0 = false).
  { apply Nat.eqb_neq. destruct names; [|done]. by destruct (backup_disks def). }
  replace (length (disks dom) - length names
           - length (unlisted (list_to_set names) dom))%nat with 0%nat by lia.
  rewrite Hnz. simpl. rewrite app_nil_r, map_app.
  exists names. split; [done|]. split.
  - rewrite take_app_length' by (by rewrite length_map).
    apply Forall2_fmap_r. eapply Forall2_impl; [exact Hst|].
    intros b0 b Hc. unfold compose.
    destruct (backfill_mode_keeps (backup_incremental def) b) as (-> & -> & ->).
    destruct (store_assigned_name b0 b (checked_store_assigned _ _ _ _ Hc))
      as (Hnm & Hbk & _ & _ & Hsto).
    done.
  - rewrite drop_app_length' by (by rewrite length_map).
    unfold unlisted.
    rewrite (list_filter_iff
               (fun d => disk_dst d ∉ (list_to_set names : gset string))
               (fun d => disk_dst d ∉ names))
      by (intros d; by rewrite elem_of_list_to_set).
    apply Forall2_fmap_r, Forall2_fmap_r, Forall_Forall2_diag, Forall_forall.
    intros d _. unfold compose.
    by destruct (backfill_mode_keeps (backup_incremental def)
                   (unlisted_directive false suffix d)) as (-> & -> & ->).
Qed.

End AlignLayout.

Lemma align_disks_appends_unlisted_witness :
  exists names,
    map bdisk_name (backup_disks vdb_backup) = map Some names /\
    Forall2 (fun b0 b => bdisk_name b = bdisk_name b0 /\
                         bdisk_backup b = bdisk_backup b0 /\
                         (is_Some (bdisk_store b0) -> bdisk_store b = bdisk_store b0))
            (backup_disks vdb_backup)
            (take (length names) (backup_disks vdb_backup_aligned)) /\
    Forall2 (fun d b => bdisk_name b = Some (disk_dst d) /\
                        bdisk_backup b = VIR_TRISTATE_BOOL_NO /\
                        bdisk_store b = None)
            (filter (fun d => disk_dst d ∉ names) (disks two_disk_dom))
            (drop (length names) (backup_disks vdb_backup_aligned)).
Proof.
  apply (@align_disks_appends_unlisted libvirt_backup_collaborators
           vdb_backup vdb_backup_aligned two_disk_dom "bak").
  - unfold disk_targets. simpl. apply NoDup_cons. split.
    + intros [=]%list_elem_of_singleton.
    + apply NoDup_singleton.
  - discriminate.
  - vm_compute. reflexivity.
Defined.

Lemma for_from_exact {S : Type} (body : nat -> S -> outcome S) (st : nat -> S)
    (n i : nat) :
  (forall j, (i <= j < i + n)%nat -> body j (st j) = Ret0 (st (Datatypes.S j))) ->
  for_from body i n (st i) = Ret0 (st (i + n)%nat).
Proof.
  revert i. induction n as [|n IH]; intros i Hstep; simpl.
  - by rewrite Nat.add_0_r.
  - rewrite Hstep by lia. simpl. rewrite IH by (intros j Hj; apply Hstep; lia).
    do 2 f_equal. lia.
Qed.

Lemma find_by_target (dom : virDomainDef) (d : virDomainDiskDef) :
  NoDup (disk_targets dom) -> d ∈ disks dom ->
  virDomainDiskByTarget dom (disk_dst d) = Some d.
Proof.
  unfold disk_targets, virDomainDiskByTarget.
  induction (disks dom) as [|x l IH]; intros Hnd Hin; [by apply elem_of_nil in Hin|].
  simpl in *. apply NoDup_cons in Hnd as [Hx Hnd].
  apply elem_of_cons in Hin as [->|Hin]; [by rewrite String.eqb_refl|].
  destruct (String.eqb_spec (disk_dst x) (disk_dst d)) as [Heq|Hneq]; [|by apply IH].
  exfalso. apply Hx. rewrite Heq. apply list_elem_of_fmap. by exists d.
Qed.

Lemma Forall2_map_eq {A B C : Type} (f : A -> C) (g : B -> C)
    (l : list A) (k : list B) :
  Forall2 (fun x y => f x = g y) l k -> map f l = map g k.
Proof. induction 1 as [|x y l k Hxy _ IH]; simpl; [done|]. by rewrite Hxy, IH. Qed.

Section AlignTwice.
Context `{BackupCollaborators}.

(** A directive on which the first loop has nothing left to do. *)
Lemma assign_store_stable (b0 b b' : virDomainBackupDiskDef) (src : virStorageSource)
    (suffix : string) :
  virDomainBackupDefAssignStore b0 src suffix = Ret0 b ->
  bdisk_store b' = bdisk_store b ->
  virDomainBackupDefAssignStore b' src suffix = Ret0 b'.
Proof.
  unfold virDomainBackupDefAssignStore. intros Hrun Hst. rewrite Hst.
  destruct (virStorageSourceIsEmpty src), (bdisk_store b0) eqn:Hs0;
    try case_bool_decide; simplify_eq; simpl; try done; by rewrite ?Hs0.
Qed.

Lemma backfill_mode_settled (inc : option string) (b : virDomainBackupDiskDef) :
  mode_settled b -> backfill_mode inc b = b.
Proof.
  unfold mode_settled, backfill_mode. intros [Hd Hi].
  apply Z.eqb_neq in Hd. rewrite Hd.
  destruct (bdisk_backupmode b =? VIR_DOMAIN_BACKUP_DISK_BACKUP_MODE_INCREMENTAL)
    eqn:Hm; [|by rewrite andb_false_r].
  apply Z.eqb_eq in Hm. rewrite bool_decide_eq_true_2 by auto. done.
Qed.

(** The first loop over directives that are all in order: nothing
    changes, every name is recorded. *)
Lemma align_check_fixed (inc : option string) (dom : virDomainDef) (suffix : string)
    (l : list virDomainBackupDiskDef) (names : list string) :
  map bdisk_name l = map Some names -> NoDup names ->
  Forall (fun b => mode_settled b /\
                   exists n d, bdisk_name b = Some n /\
                               virDomainDiskByTarget dom n = Some d /\
                               (bdisk_backup b = VIR_TRISTATE_BOOL_YES ->
                                virDomainBackupDefAssignStore b (disk_src d) suffix
                                = Ret0 b)) l ->
  for_each (length l) (align_check inc dom suffix) (l, ∅)
  = Ret0 (l, list_to_set names).
Proof.
  intros Hn Hnd Hall. unfold for_each.
  assert (Hlen : length l = length names)
    by (by rewrite <- (length_map bdisk_name), Hn, length_map).
  etrans;
    [apply (for_from_exact (align_check inc dom suffix)
              (fun j => (l, list_to_set (take j names) : gset string))
              (length l) 0)|].
  - intros j Hj. unfold align_check.
    destruct (lookup_lt_is_Some_2 l j ltac:(lia)) as [b Hb]. rewrite Hb.
    destruct (Forall_lookup_1 _ _ _ _ Hall Hb) as ([Hd Hi] & n & d & Hname & Hfind & Hsto).
    rewrite Hname, Hfind.
    assert (Hnj : names !! j = Some n).
    { apply (f_equal (fun x => x !! j)) in Hn.
      rewrite !list_lookup_fmap, Hb in Hn. simpl in Hn. rewrite Hname in Hn.
      destruct (names !! j); by simplify_eq/=. }
    rewrite bool_decide_eq_false_2; last first.
    { rewrite elem_of_list_to_set. intros Hin.
      apply list_elem_of_lookup in Hin as [k Hk].
      apply lookup_take_Some in Hk as [Hk Hlt].
      pose proof (NoDup_lookup _ _ _ _ Hnd Hk Hnj). lia. }
    assert (Hseen : ({[n]} ∪ list_to_set (take j names) : gset string)
                    = list_to_set (take (Datatypes.S j) names)).
    { rewrite (take_S_r _ _ _ Hnj), list_to_set_snoc_L. apply (comm_L (∪)). }
    assert (Hok : ((bdisk_backupmode b =? VIR_DOMAIN_BACKUP_DISK_BACKUP_MODE_INCREMENTAL)
                   && negb (bool_decide (is_Some (bdisk_incremental b)))
                   && negb (bool_decide (is_Some inc)))%bool = false).
    { destruct (bdisk_backupmode b =? _) eqn:Hm; [|done]. apply Z.eqb_eq in Hm.
      by rewrite bool_decide_eq_true_2 by auto. }
    rewrite Hok.
    destruct (bdisk_backup b =? VIR_TRISTATE_BOOL_YES) eqn:Hyes;
      [|do 2 f_equal; exact Hseen].
    apply Z.eqb_eq in Hyes. rewrite (Hsto Hyes). simpl.
    rewrite list_insert_id by done. do 2 f_equal. exact Hseen.
  - simpl. by rewrite take_ge by lia.
Qed.

(** The second loop when every disk of the domain is listed. *)
Lemma align_fill_nothing (seen : gset string) (backup_all : bool) (dom : virDomainDef)
    (suffix : string) (st : list virDomainBackupDiskDef * nat) :
  Forall (fun d => disk_dst d ∈ seen) (disks dom) ->
  for_each (length (disks dom)) (align_fill seen backup_all dom suffix) st = Ret0 st.
Proof.
  intros Hall. unfold for_each.
  apply (for_from_exact (align_fill seen backup_all dom suffix) (fun _ => st)
                        (length (disks dom)) 0).
  intros j Hj. destruct st as [bd nd]. unfold align_fill.
  destruct (disks dom !! j) as [d|] eqn:Hd; [|done].
  pose proof (Forall_lookup_1 _ _ _ _ Hall Hd) as Hin.
  by rewrite bool_decide_eq_true_2.
Qed.

(** X15. Aligning again what an alignment returned changes nothing: for
    a domain whose disks have distinct targets, the alignment of the job
    it produced returns 0 and that same job. *)
Theorem align_disks_idempotent (def def' : virDomainBackupDef) (dom : virDomainDef)
    (suffix : string) :
  NoDup (disk_targets dom) ->
  virDomainBackupAlignDisks def dom suffix = Ret0 def' ->
  virDomainBackupAlignDisks def' dom suffix = Ret0 def'.
Proof.
  intros Hdst Hrun.
  pose proof (align_disks_modes_settled def def' dom suffix Hrun) as Hsettled.
  assert (Hnz : Nat.eqb (length (disks dom)) 0 = false).
  { unfold virDomainBackupAlignDisks in Hrun. by destruct (Nat.eqb _ 0). }
  destruct (align_disks_result def def' dom suffix Hrun)
    as (names & bdisks & Hn & Hnd & Hdom & Hst & Hinc & Hcount & Hdef').
  pose proof (unlisted_count_exact names dom Hnd Hdst Hdom) as Hexact.
  assert (Hlen : length bdisks = length names).
  { rewrite <- (Forall2_length _ _ _ Hst), <- (length_map bdisk_name), Hn.
    by rewrite length_map. }
  replace (length (disks dom) - length names
           - length (unlisted (list_to_set names) dom))%nat with 0%nat in Hdef' by lia.
  simpl in Hdef'. rewrite app_nil_r in Hdef'.
  set (inc := backup_incremental def) in *.
  set (ba := Nat.eqb (length names) 0) in *.
  set (u := unlisted (list_to_set names) dom) in *.
  set (l := map (backfill_mode inc) (bdisks ++ map (unlisted_directive ba suffix) u)) in *.
  assert (Hl : backup_disks def' = l) by (by rewrite Hdef').
  assert (Hinc' : backup_incremental def' = inc) by (by rewrite Hdef').
  assert (Hll : length l = length (disks dom)).
  { unfold l. rewrite length_map, length_app, length_map. lia. }
  assert (Hnames : map bdisk_name l = map Some (names ++ map disk_dst u)).
  { unfold l. rewrite map_map, !map_app. f_equal.
    - rewrite <- Hn. symmetry. apply Forall2_map_eq.
      eapply Forall2_impl; [exact Hst|]. intros b0 b Hc. simpl.
      destruct (backfill_mode_keeps inc b) as (-> & _).
      by destruct (store_assigned_name b0 b (checked_store_assigned _ _ _ _ Hc))
        as (-> & _).
    - rewrite !map_map. apply map_ext. intros d.
      destruct (backfill_mode_keeps inc (unlisted_directive ba suffix d)) as (-> & _).
      by destruct (unlisted_directive_default ba suffix d) as (_ & _ & ->). }
  assert (Hu : forall d, d ∈ u -> d ∈ disks dom /\ disk_dst d ∉ names).
  { intros d Hd. unfold u, unlisted in Hd. apply list_elem_of_filter in Hd as [Hp Hin].
    split; [done|]. by rewrite elem_of_list_to_set in Hp. }
  assert (Hnd' : NoDup (names ++ map disk_dst u)).
  { apply NoDup_app. split; [done|]. split.
    - intros n Hin (d & -> & Hd)%list_elem_of_fmap. by apply (Hu d Hd).
    - apply (sublist_NoDup _ (disk_targets dom)); [exact Hdst|].
      unfold disk_targets, u, unlisted. apply (fmap_sublist disk_dst), sublist_filter. }
  assert (Hcheck : for_each (length l) (align_check inc dom suffix) (l, ∅)
                   = Ret0 (l, list_to_set (names ++ map disk_dst u))).
  { apply align_check_fixed; [done..|].
    rewrite <- Hl. apply Forall_forall. intros b Hb.
    split; [by apply (proj1 (Forall_forall _ _) Hsettled)|].
    rewrite Hl in Hb. unfold l in Hb.
    apply list_elem_of_fmap in Hb as (b1 & -> & Hb1).
    destruct (backfill_mode_keeps inc b1) as (Hk1 & Hk2 & Hk3).
    rewrite Hk1, Hk2.
    apply elem_of_app in Hb1 as [Hb1|Hb1].
    - apply list_elem_of_lookup in Hb1 as [i Hi].
      destruct (Forall2_lookup_r _ _ _ _ _ Hst Hi) as (b0 & Hi0 & n & d & Hnm & Hfind & Hc).
      assert (Hsa : store_assigned b0 b1).
      { apply (checked_store_assigned dom suffix). exists n, d. by repeat split. }
      destruct (store_assigned_name b0 b1 Hsa) as (Hnm1 & Hbk1 & _).
      exists n, d. rewrite Hnm1, Hbk1. split; [done|]. split; [done|].
      intros Hyes. rewrite Hyes in Hc. simpl in Hc.
      by apply (assign_store_stable b0 b1).
    - apply list_elem_of_fmap in Hb1 as (d & -> & Hd).
      destruct (Hu d Hd) as [Hin Hnot].
      destruct (unlisted_directive_default ba suffix d) as (_ & _ & Hnm).
      exists (disk_dst d), d. split; [done|]. split; [by apply find_by_target|].
      assert (Hfacts : bdisk_backup (unlisted_directive ba suffix d)
                       = VIR_TRISTATE_BOOL_YES ->
                       virStorageSourceIsEmpty (disk_src d) = false /\
                       is_Some (bdisk_store (unlisted_directive ba suffix d))).
      { unfold unlisted_directive, filled_directive. unfold backed_up.
        destruct ba; [|done].
        destruct (negb (virStorageSourceIsEmpty (disk_src d))
                  && negb (storage_readonly (disk_src d)))%bool eqn:Hbk; [|done].
        intros _. apply andb_prop in Hbk as [He _]. apply negb_true_iff in He.
        split; [done|]. by eexists. }
      intros Hyes. destruct (Hfacts Hyes) as [He [st Hsto]].
      unfold virDomainBackupDefAssignStore. by rewrite He, Hk3, Hsto. }
  unfold virDomainBackupAlignDisks. rewrite Hnz, Hl, Hinc', Hcheck, Hll, Nat.sub_diag.
  simpl replicate. rewrite app_nil_r.
  rewrite align_fill_nothing; last first.
  { apply Forall_forall. intros d Hd. rewrite elem_of_list_to_set, elem_of_app.
    destruct (decide (disk_dst d ∈ names)) as [Hin|Hnot]; [by left|].
    right. apply list_elem_of_fmap. exists d. split; [done|].
    unfold u, unlisted. apply list_elem_of_filter. split; [|done].
    by rewrite elem_of_list_to_set. }
  assert (Hmap : map (backfill_mode inc) l = l).
  { rewrite <- Hl. rewrite <- (list_fmap_id (backup_disks def')) at 2.
    apply Forall_fmap_ext_1. eapply Forall_impl; [exact Hsettled|].
    intros b Hb. by apply backfill_mode_settled. }
  rewrite Hmap. f_equal. by rewrite Hdef'.
Qed.

End AlignTwice.

Lemma align_disks_idempotent_witness :
  @virDomainBackupAlignDisks libvirt_backup_collaborators
    vdb_backup_aligned two_disk_dom "bak" = Ret0 vdb_backup_aligned.
Proof.
  apply (@align_disks_idempotent libvirt_backup_collaborators vdb_backup).
  - unfold disk_targets. simpl. apply NoDup_cons. split.
    + intros [=]%list_elem_of_singleton.
    + apply NoDup_singleton.
  - vm_compute. reflexivity.
Defined.

(** ** What the parser of backup descriptors returns *)

Lemma virEnumFromString_range (names : list string) (type : string) :
  -1 <= virEnumFromString names type < Z.of_nat (length names).
Proof.
  induction names as [|n names IH]; [simpl; lia|].
  cbn [virEnumFromString length]. destruct (String.eqb n type); [lia|].
  destruct (virEnumFromString names type <? 0) eqn:Hneg; [lia|].
  apply Z.ltb_ge in Hneg. lia.
Qed.

Section ParseInvariants.
Context `{BackupCollaborators}.

Lemma backup_parse_server_ok (type : Z) (node : xmlNode)
    (srv : virStorageNetHostDef) (tls : Z) :
  backup_parse_server type node = Some (srv, tls) ->
  type = VIR_DOMAIN_BACKUP_TYPE_PULL /\
  host_transport srv <> VIR_STORAGE_NET_HOST_TRANS_RDMA /\
  (host_transport srv = VIR_STORAGE_NET_HOST_TRANS_UNIX ->
   starts_with_slash (host_socket srv) = true) /\
  (tls = VIR_TRISTATE_BOOL_ABSENT \/ tls = VIR_TRISTATE_BOOL_YES \/
   tls = VIR_TRISTATE_BOOL_NO).
Proof.
  unfold backup_parse_server.
  destruct (negb (type =? VIR_DOMAIN_BACKUP_TYPE_PULL)) eqn:Hpull; [done|].
  apply negb_false_iff, Z.eqb_eq in Hpull.
  destruct (virDomainStorageNetworkParseHost node) as [server|]; [|done].
  case_bool_decide as Hrdma; [done|].
  destruct (bool_decide (host_transport server = VIR_STORAGE_NET_HOST_TRANS_UNIX)
            && negb (starts_with_slash (host_socket server)))%bool eqn:Hunix; [done|].
  assert (Hu : host_transport server = VIR_STORAGE_NET_HOST_TRANS_UNIX ->
               starts_with_slash (host_socket server) = true).
  { intros Hu. rewrite Hu, bool_decide_eq_true_2 in Hunix by done. simpl in Hunix.
    by apply negb_false_iff in Hunix. }
  unfold VIR_TRISTATE_BOOL_ABSENT, VIR_TRISTATE_BOOL_YES, VIR_TRISTATE_BOOL_NO.
  destruct (virXMLPropString node "tls") as [t|]; simpl.
  - destruct (_ <=? 0) eqn:Hpos; [done|]. intros [= <- <-].
    apply Z.leb_gt in Hpos.
    pose proof (virEnumFromString_range ["default"; "yes"; "no"] t) as Hr.
    unfold virTristateBoolTypeFromString in *. simpl length in Hr.
    repeat split; try done. lia.
  - intros [= <- <-]. repeat split; try done. by left.
Qed.

(** X16. A descriptor that the parser returns is of type push or pull;
    it has a server only in pull mode, never over rdma, and over a unix
    socket only with an absolute path; its tls state is absent, yes or
    no, and absent without a server; the private aliases are read from
    internal documents only. *)
Theorem backup_parse_server_rules (root : xmlNode) (internal : bool)
    (def : virDomainBackupDef) :
  virDomainBackupDefParse root internal = Some def ->
  (backup_type def = VIR_DOMAIN_BACKUP_TYPE_PUSH \/
   backup_type def = VIR_DOMAIN_BACKUP_TYPE_PULL) /\
  (forall srv, backup_server def = Some srv ->
     backup_type def = VIR_DOMAIN_BACKUP_TYPE_PULL /\
     host_transport srv <> VIR_STORAGE_NET_HOST_TRANS_RDMA /\
     (host_transport srv = VIR_STORAGE_NET_HOST_TRANS_UNIX ->
      starts_with_slash (host_socket srv) = true)) /\
  (backup_server def = None -> backup_tls def = VIR_TRISTATE_BOOL_ABSENT) /\
  (backup_tls def = VIR_TRISTATE_BOOL_ABSENT \/ backup_tls def = VIR_TRISTATE_BOOL_YES \/
   backup_tls def = VIR_TRISTATE_BOOL_NO) /\
  (internal = false ->
   backup_tlsAlias def = None /\ backup_tlsSecretAlias def = None).
Proof.
  unfold virDomainBackupDefParse.
  set (type := from_option virDomainBackupTypeFromString VIR_DOMAIN_BACKUP_TYPE_PUSH
                           (virXMLPropString root "mode")).
  assert (Htype : (bool_decide (is_Some (virXMLPropString root "mode")) && (type <=? 0))%bool
                  = false ->
                  type = VIR_DOMAIN_BACKUP_TYPE_PUSH \/ type = VIR_DOMAIN_BACKUP_TYPE_PULL).
  { unfold type. destruct (virXMLPropString root "mode") as [m|]; simpl; [|by left].
    intros Hpos%Z.leb_gt.
    pose proof (virEnumFromString_range ["default"; "push"; "pull"] m) as Hr.
    unfold virDomainBackupTypeFromString, VIR_DOMAIN_BACKUP_TYPE_PUSH,
      VIR_DOMAIN_BACKUP_TYPE_PULL in *. simpl length in Hr. lia. }
  destruct (_ && (type <=? 0))%bool eqn:Hmode; [done|]. specialize (Htype eq_refl).
  destruct (virXPathNode_child "server" root) as [node|].
  - destruct (backup_parse_server type node) as [[srv tls]|] eqn:Hsrv; [|done].
    destruct (backup_parse_server_ok _ _ _ _ Hsrv) as (Hpull & Hrdma & Hunix & Htls).
    destruct (mapM _ _) as [disks|]; [|done]. intros [= <-]. simpl.
    split; [done|]. split; [by intros ? [= <-]|].
    split; [done|]. split; [done|]. by intros ->.
  - destruct (mapM _ _) as [disks|]; [|done]. intros [= <-]. simpl.
    split; [done|]. split; [done|]. split; [done|]. split; [by left|]. by intros ->.
Qed.

Lemma backup_disk_parse_facts (node : xmlNode) (push internal : bool)
    (d : virDomainBackupDiskDef) :
  virDomainBackupDiskDefParseXML node push internal = Some d ->
  is_Some (bdisk_name d) /\ bdisk_name d = virXMLPropString node "name" /\
  (bdisk_backup d = VIR_TRISTATE_BOOL_YES \/ bdisk_backup d = VIR_TRISTATE_BOOL_NO) /\
  (bdisk_backup d = VIR_TRISTATE_BOOL_NO ->
   d = bdisk_set_backup VIR_TRISTATE_BOOL_NO (bdisk_set_name (bdisk_name d) bdisk_zero)) /\
  (bdisk_backup d = VIR_TRISTATE_BOOL_YES -> is_Some (bdisk_store d)) /\
  0 <= bdisk_backupmode d <= 2 /\
  (push = true -> bdisk_exportname d = None /\ bdisk_exportbitmap d = None) /\
  (internal = false -> bdisk_state d = VIR_DOMAIN_BACKUP_DISK_STATE_NONE).
Proof.
  unfold virDomainBackupDiskDefParseXML.
  destruct (virXMLPropString node "name") as [name|] eqn:Hname; [|done].
  set (tmp := from_option virTristateBoolTypeFromString 1 (virXMLPropString node "backup")).
  assert (Htmp : (tmp <=? 0) = false -> tmp = 1 \/ tmp = 2).
  { unfold tmp. intros Hpos%Z.leb_gt.
    destruct (virXMLPropString node "backup") as [b|]; simpl in *; [|by left].
    pose proof (virEnumFromString_range ["default"; "yes"; "no"] b) as Hr.
    unfold virTristateBoolTypeFromString in *. simpl length in Hr. lia. }
  destruct (tmp <=? 0) eqn:Hpos; [done|]. specialize (Htmp eq_refl).
  unfold VIR_TRISTATE_BOOL_YES, VIR_TRISTATE_BOOL_NO, VIR_DOMAIN_BACKUP_DISK_STATE_NONE.
  destruct (tmp =? 2) eqn:Hno.
  { apply Z.eqb_eq in Hno. intros [= <-]. simpl. rewrite Hno.
    repeat split; try done; try lia; try (by eexists); auto. }
  apply Z.eqb_neq in Hno.
  set (mode := from_option virDomainBackupDiskBackupModeTypeFromString 0
                           (virXMLPropString node "backupmode")).
  assert (Hmode : (mode <? 0) = false -> 0 <= mode <= 2).
  { unfold mode. intros Hpos'%Z.ltb_ge.
    destruct (virXMLPropString node "backupmode") as [b|]; simpl in *; [|lia].
    pose proof (virEnumFromString_range [""; "full"; "incremental"] b) as Hr.
    unfold virDomainBackupDiskBackupModeTypeFromString in *. simpl length in Hr. lia. }
  destruct (mode <? 0) eqn:Hm; [done|]. specialize (Hmode eq_refl).
  set (state := if internal
                then from_option virDomainBackupDiskStateTypeFromString (-1)
                                 (virXMLPropString node "state")
                else 0).
  assert (Hst : internal = false -> state = 0) by (by intros ->).
  destruct (state <? 0) eqn:Hstate; [done|].
  destruct (virDomainStorageSourceParseBase _ _ _) as [store|]; [|done].
  destruct (_ && _)%bool; [done|].
  destruct (match (if push then _ else _) with
            | Some n => _
            | None => _
            end) as [store'|]; [|done].
  intros [= <-]. simpl.
  split; [by eexists|]. split; [done|]. split; [lia|]. split; [lia|].
  split; [by eexists|]. split; [done|]. split.
  - by intros ->.
  - exact Hst.
Qed.

(** X17. A directive that the parser returns carries the name attribute
    of its element and a backup flag that is yes or no. A disabled
    directive carries nothing else. An enabled one has a store and a
    backup mode that is default, full or incremental; in push mode it
    has no export name and no export bitmap, and outside internal
    documents its state is none. *)
Theorem backup_disk_parse_rules (node : xmlNode) (push internal : bool)
    (d : virDomainBackupDiskDef) :
  virDomainBackupDiskDefParseXML node push internal = Some d ->
  is_Some (bdisk_name d) /\ bdisk_name d = virXMLPropString node "name" /\
  (bdisk_backup d = VIR_TRISTATE_BOOL_YES \/ bdisk_backup d = VIR_TRISTATE_BOOL_NO) /\
  (bdisk_backup d = VIR_TRISTATE_BOOL_NO ->
   d = bdisk_set_backup VIR_TRISTATE_BOOL_NO (bdisk_set_name (bdisk_name d) bdisk_zero)) /\
  (bdisk_backup d = VIR_TRISTATE_BOOL_YES -> is_Some (bdisk_store d)) /\
  0 <= bdisk_backupmode d <= 2 /\
  (push = true -> bdisk_exportname d = None /\ bdisk_exportbitmap d = None) /\
  (internal = false -> bdisk_state d = VIR_DOMAIN_BACKUP_DISK_STATE_NONE).
Proof. apply backup_disk_parse_facts. Qed.

(** X18. The directives of a parsed descriptor are the child elements
    of its disks element, whatever their element names, one directive
    per element and in the order of the document. *)
Theorem backup_parse_disks_in_order (root : xmlNode) (internal : bool)
    (def : virDomainBackupDef) :
  virDomainBackupDefParse root internal = Some def ->
  Forall2 (fun n d =>
             virDomainBackupDiskDefParseXML
               n (backup_type def =? VIR_DOMAIN_BACKUP_TYPE_PUSH) internal = Some d)
          (virXPathNodeSet_grandchildren "disks" root) (backup_disks def) /\
  map bdisk_name (backup_disks def)
  = map (fun n => virXMLPropString n "name")
        (virXPathNodeSet_grandchildren "disks" root).
Proof.
  intros Hparse.
  assert (Hall : Forall2 (fun n d =>
                    virDomainBackupDiskDefParseXML
                      n (backup_type def =? VIR_DOMAIN_BACKUP_TYPE_PUSH) internal = Some d)
                    (virXPathNodeSet_grandchildren "disks" root) (backup_disks def)).
  { revert Hparse. unfold virDomainBackupDefParse.
    destruct (_ && _)%bool; [done|].
    destruct (match virXPathNode_child "server" root with
              | Some node => _
              | None => _
              end) as [[srv tls]|]; [|done].
    destruct (mapM _ _) as [disks|] eqn:Hdisks; [|done]. intros [= <-]. simpl.
    by apply mapM_Some. }
  split; [done|]. symmetry. apply Forall2_map_eq.
  eapply Forall2_impl; [exact Hall|]. intros n d Hd. simpl.
  by destruct (backup_disk_parse_facts n _ internal d Hd) as (_ & -> & _).
Qed.

End ParseInvariants.

Lemma backup_parse_server_rules_witness :
  backup_type sample_backup_parsed = VIR_DOMAIN_BACKUP_TYPE_PUSH \/
  backup_type sample_backup_parsed = VIR_DOMAIN_BACKUP_TYPE_PULL.
Proof.
  apply (@backup_parse_server_rules libvirt_backup_collaborators
           sample_backup_xml false sample_backup_parsed).
  vm_compute. reflexivity.
Defined.

Lemma backup_disk_parse_rules_witness :
  is_Some (bdisk_name (bdisk_set_backup VIR_TRISTATE_BOOL_NO
                         (bdisk_set_name (Some "vdb") bdisk_zero))).
Proof.
  apply (@backup_disk_parse_rules libvirt_backup_collaborators
           (XmlElem "disk" [("name", "vdb"); ("backup", "no")] "" []) false false).
  vm_compute. reflexivity.
Defined.

Lemma backup_parse_disks_in_order_witness :
  map bdisk_name (backup_disks sample_backup_parsed)
  = map (fun n => virXMLPropString n "name")
        (virXPathNodeSet_grandchildren "disks" sample_backup_xml).
Proof.
  apply (@backup_parse_disks_in_order libvirt_backup_collaborators
           sample_backup_xml false sample_backup_parsed).
  vm_compute. reflexivity.
Defined.

Section ParseThenAlign.
Context `{BackupCollaborators}.

Lemma backfill_mode_named (inc : option string) (b : virDomainBackupDiskDef) :
  0 <= bdisk_backupmode b <= 2 -> incremental_named inc b ->
  mode_named (backfill_mode inc b).
Proof.
  intros Hr Hinc. destruct (backfill_mode_settles inc b Hinc) as [Hd _].
  assert (Hrange : 0 <= bdisk_backupmode (backfill_mode inc b) <= 2).
  { unfold backfill_mode. repeat case_match; simpl; try done;
      unfold VIR_DOMAIN_BACKUP_DISK_BACKUP_MODE_INCREMENTAL,
        VIR_DOMAIN_BACKUP_DISK_BACKUP_MODE_FULL; lia. }
  unfold mode_named, VIR_DOMAIN_BACKUP_DISK_BACKUP_MODE_DEFAULT,
    VIR_DOMAIN_BACKUP_DISK_BACKUP_MODE_FULL,
    VIR_DOMAIN_BACKUP_DISK_BACKUP_MODE_INCREMENTAL in *. lia.
Qed.

(** X19. A descriptor that the parser returned can be aligned against
    any domain: its directives all have names, so the alignment returns
    0 or -1 without a store outside the array; and when it returns 0
    every directive is in full or in incremental mode. *)
Theorem parsed_backup_aligns (root : xmlNode) (internal : bool)
    (def : virDomainBackupDef) (dom : virDomainDef) (suffix : string) :
  virDomainBackupDefParse root internal = Some def ->
  virDomainBackupAlignDisks def dom suffix <> Undef /\
  forall def', virDomainBackupAlignDisks def dom suffix = Ret0 def' ->
               Forall mode_named (backup_disks def').
Proof.
  intros Hparse.
  assert (Hall : Forall (fun d => is_Some (bdisk_name d) /\ 0 <= bdisk_backupmode d <= 2)
                        (backup_disks def)).
  { revert Hparse. unfold virDomainBackupDefParse.
    destruct (_ && _)%bool; [done|].
    destruct (match virXPathNode_child "server" root with
              | Some node => _
              | None => _
              end) as [[srv tls]|]; [|done].
    destruct (mapM _ _) as [disks|] eqn:Hdisks; [|done]. intros [= <-]. simpl.
    apply mapM_Some in Hdisks. apply Forall_forall. intros d Hd.
    apply list_elem_of_lookup in Hd as [i Hi].
    destruct (Forall2_lookup_r _ _ _ _ _ Hdisks Hi) as (n & _ & Hn).
    destruct (backup_disk_parse_facts n _ internal d Hn)
      as (Hname & _ & Hbk & Hno & _ & Hmode & _).
    split; [done|]. destruct Hbk as [Hy|Hn']; [by apply Hmode|].
    rewrite (Hno Hn'). simpl. lia. }
  split.
  - apply align_disks_stays_in_bounds_lemma.
    eapply Forall_impl; [exact Hall|]. by intros d [Hd _].
  - intros def' (names & bdisks & Hn & Hnd & Hdom & Hst & Hinc & Hcount & ->)%align_disks_result.
    simpl. apply Forall_fmap, Forall_app. split; [|apply Forall_app; split].
    + rewrite Forall_forall in Hinc, Hall. apply Forall_forall. intros b Hb.
      apply list_elem_of_lookup in Hb as [i Hi].
      destruct (Forall2_lookup_r _ _ _ _ _ Hst Hi) as (b0 & Hi0 & Hc).
      destruct (store_assigned_name b0 b (checked_store_assigned _ _ _ _ Hc))
        as (_ & _ & Hm & Hi' & _).
      assert (Hin : b0 ∈ backup_disks def) by (by eapply list_elem_of_lookup_2).
      apply backfill_mode_named.
      * rewrite Hm. by apply Hall.
      * unfold incremental_named. rewrite Hm, Hi'. by apply Hinc.
    + apply Forall_fmap, Forall_forall. intros d _.
      destruct (unlisted_directive_default (Nat.eqb (length names) 0) suffix d)
        as (Hm & _).
      apply backfill_mode_named; [rewrite Hm; lia|].
      unfold incremental_named. by rewrite Hm.
    + apply Forall_replicate. apply backfill_mode_named; [simpl; lia|by intros [=]].
Qed.

End ParseThenAlign.

Lemma parsed_backup_aligns_witness :
  @virDomainBackupAlignDisks libvirt_backup_collaborators
    sample_backup_parsed two_disk_dom "bak" <> Undef.
Proof.
  apply (@parsed_backup_aligns libvirt_backup_collaborators
           sample_backup_xml false sample_backup_parsed two_disk_dom "bak").
  vm_compute. reflexivity.
Defined.

(** ** Controller aliases *)

Lemma ends_in_digit_cons (c : ascii) (r : string) :
  r <> "" -> ends_in_digit (String c r) = ends_in_digit r.
Proof. by destruct r. Qed.

Lemma ends_in_digit_app (p x : string) :
  x <> "" -> ends_in_digit (p ++ x) = ends_in_digit x.
Proof.
  intros Hx. induction p as [|c p IH]; [done|].
  rewrite string_app_cons, ends_in_digit_cons; [exact IH|]. by destruct p, x.
Qed.

Lemma uint_ends_in_digit (d : Decimal.uint) :
  NilEmpty.string_of_uint d <> "" -> ends_in_digit (NilEmpty.string_of_uint d) = true.
Proof.
  induction d as [|d IH|d IH|d IH|d IH|d IH|d IH|d IH|d IH|d IH|d IH];
    [intros Hn; destruct (Hn eq_refl)|..];
    intros _; simpl NilEmpty.string_of_uint;
    (destruct (NilEmpty.string_of_uint d) as [|c r] eqn:Hd;
     [done|rewrite ends_in_digit_cons by done; by apply IH]).
Qed.

Lemma fmt_d_ends_in_digit (n : Z) :
  INT_MIN <= n <= INT_MAX -> ends_in_digit (fmt_d n) = true.
Proof.
  intros Hn. pose proof (strtol_fmt_d n Hn) as Hs. revert Hs. unfold fmt_d.
  destruct n as [|p|p]; [done|..]; simpl.
  - intros Hs. rewrite string_of_uint_pos. apply uint_ends_in_digit.
    intros Heq. by rewrite string_of_uint_pos, Heq in Hs.
  - rewrite string_of_uint_pos. intros Hs.
    destruct (NilEmpty.string_of_uint (Pos.to_uint p)) as [|c r] eqn:Hd; [done|].
    rewrite <- Hd. apply uint_ends_in_digit. by rewrite Hd.
Qed.

Lemma indexed_name_ends_in_digit (p : string) (n : Z) :
  INT_MIN <= n <= INT_MAX -> ends_in_digit (p ++ fmt_d n) = true.
Proof.
  intros Hn. rewrite ends_in_digit_app; [by apply fmt_d_ends_in_digit|].
  intros Heq. pose proof (fmt_d_ends_in_digit n Hn) as Hd. by rewrite Heq in Hd.
Qed.

Section ControllerAliases.
Context `{Collaborators}.

(** X20. Controllers of one type are told apart by their aliases: when
    two unaliased controllers of the same type (indexes within [int])
    receive the same alias, their indexes are equal. For PCI controllers
    this needs a qemu with several PCI buses, and then the two are both
    pcie-root controllers or both not. *)
Theorem controller_aliases_differ (def : virDomainDef) (caps : virQEMUCaps)
    (c1 c2 c1' c2' : virDomainControllerDef) :
  alias (controller_info c1) = None -> alias (controller_info c2) = None ->
  controller_type c1 = controller_type c2 ->
  (controller_type c1 = VIR_DOMAIN_CONTROLLER_TYPE_PCI -> caps_pci_multibus caps = true) ->
  INT_MIN <= controller_idx c1 <= INT_MAX ->
  INT_MIN <= controller_idx c2 <= INT_MAX ->
  qemuAssignDeviceControllerAlias def caps c1 = Ret0 c1' ->
  qemuAssignDeviceControllerAlias def caps c2 = Ret0 c2' ->
  controller_alias c1' = controller_alias c2' ->
  controller_idx c1 = controller_idx c2 /\
  (controller_type c1 = VIR_DOMAIN_CONTROLLER_TYPE_PCI ->
   (controller_model c1 =? VIR_DOMAIN_CONTROLLER_MODEL_PCIE_ROOT)
   = (controller_model c2 =? VIR_DOMAIN_CONTROLLER_MODEL_PCIE_ROOT)).
Proof.
  intros Ha1 Ha2 Hty Hpci Hr1 Hr2 Hrun1 Hrun2 Halias.
  split; revert Hrun1 Hrun2 Halias;
    unfold qemuAssignDeviceControllerAlias, controller_alias;
    rewrite Ha1, Ha2, <- Hty;
    [|intros Hrun1 Hrun2 Halias Hp; revert Hrun1 Hrun2 Halias; rewrite Hp, (Hpci Hp);
      simpl;
      destruct (controller_model c1 =? _), (controller_model c2 =? _);
      intros [= <-] [= <-]; simpl; by intros Heq].
  assert (Hcase : forall s a1 a2,
            (a1 = s /\ a2 = s /\ controller_idx c1 = 0 /\ controller_idx c2 = 0
             \/ a1 = s /\ (exists p, a2 = p ++ fmt_d (controller_idx c2))
             \/ (exists p, a1 = p ++ fmt_d (controller_idx c1)) /\ a2 = s
             \/ exists p, a1 = p ++ fmt_d (controller_idx c1) /\
                          a2 = p ++ fmt_d (controller_idx c2)) ->
            ends_in_digit s = false -> Some a1 = Some a2 ->
            controller_idx c1 = controller_idx c2).
  { intros s a1 a2 [(-> & -> & -> & ->)|[(-> & p & ->)|[((p & ->) & ->)|(p & -> & ->)]]]
      Hs Heq.
    - done.
    - injection Heq as Heq. by rewrite Heq, indexed_name_ends_in_digit in Hs.
    - injection Heq as Heq. by rewrite <- Heq, indexed_name_ends_in_digit in Hs.
    - injection Heq as Heq. apply string_app_inv_l in Heq. by apply fmt_d_inj. }
  destruct (controller_type c1) eqn:Ht;
    try (intros [= <-] [= <-]; simpl; intros Heq;
         refine (Hcase "" _ _ _ eq_refl Heq); repeat right; by eexists).
  - (* IDE *)
    destruct (has_builtin_ide def); simpl;
      [|intros [= <-] [= <-]; simpl; intros Heq; refine (Hcase "" _ _ _ eq_refl Heq); repeat right; by eexists].
    destruct (controller_idx c1 =? 0) eqn:H1, (controller_idx c2 =? 0) eqn:H2;
      intros [= <-] [= <-]; simpl; intros Heq;
      try apply Z.eqb_eq in H1; try apply Z.eqb_eq in H2;
      refine (Hcase "ide" _ _ _ eq_refl Heq).
    + by left.
    + right; left. split; [done|]. by eexists.
    + right; right; left. split; [|done]. by eexists.
    + repeat right. by eexists.
  - (* SCSI *)
    destruct ((controller_model c1 =? _) && _)%bool eqn:H1,
             ((controller_model c2 =? _) && _)%bool eqn:H2;
      intros [= <-] [= <-]; simpl; intros Heq;
      try (apply andb_true_iff in H1 as [_ H1%Z.eqb_eq]);
      try (apply andb_true_iff in H2 as [_ H2%Z.eqb_eq]);
      refine (Hcase "scsi" _ _ _ eq_refl Heq).
    + by left.
    + right; left. split; [done|]. by eexists.
    + right; right; left. split; [|done]. by eexists.
    + repeat right. by eexists.
  - (* SATA *)
    destruct (is_q35 def); simpl;
      [|intros [= <-] [= <-]; simpl; intros Heq; refine (Hcase "" _ _ _ eq_refl Heq); repeat right; by eexists].
    destruct (controller_idx c1 =? 0) eqn:H1, (controller_idx c2 =? 0) eqn:H2;
      intros [= <-] [= <-]; simpl; intros Heq;
      try apply Z.eqb_eq in H1; try apply Z.eqb_eq in H2;
      refine (Hcase "ide" _ _ _ eq_refl Heq).
    + by left.
    + right; left. split; [done|]. by eexists.
    + right; right; left. split; [|done]. by eexists.
    + repeat right. by eexists.
  - (* USB *)
    destruct (controller_idx c1 =? 0) eqn:H1, (controller_idx c2 =? 0) eqn:H2;
      intros [= <-] [= <-]; simpl; intros Heq;
      try apply Z.eqb_eq in H1; try apply Z.eqb_eq in H2;
      refine (Hcase "usb" _ _ _ eq_refl Heq).
    + by left.
    + right; left. split; [done|]. by eexists.
    + right; right; left. split; [|done]. by eexists.
    + repeat right. by eexists.
  - (* PCI *)
    rewrite (Hpci eq_refl). simpl.
    destruct (controller_model c1 =? _), (controller_model c2 =? _);
      intros [= <-] [= <-]; simpl; intros Heq; try done;
      refine (Hcase "" _ _ _ eq_refl Heq); repeat right; by eexists.
Qed.

End ControllerAliases.

Lemma controller_aliases_differ_witness :
  0 = 0 /\
  (VIR_DOMAIN_CONTROLLER_TYPE_USB = VIR_DOMAIN_CONTROLLER_TYPE_PCI ->
   (0 =? @VIR_DOMAIN_CONTROLLER_MODEL_PCIE_ROOT libvirt_collaborators)
   = (0 =? @VIR_DOMAIN_CONTROLLER_MODEL_PCIE_ROOT libvirt_collaborators)).
Proof.
  apply (@controller_aliases_differ libvirt_collaborators two_disk_dom default_caps
           (plain_controller VIR_DOMAIN_CONTROLLER_TYPE_USB 0 0)
           (plain_controller VIR_DOMAIN_CONTROLLER_TYPE_USB 0 0)
           (controller_set_alias (Some "usb")
              (plain_controller VIR_DOMAIN_CONTROLLER_TYPE_USB 0 0))
           (controller_set_alias (Some "usb")
              (plain_controller VIR_DOMAIN_CONTROLLER_TYPE_USB 0 0)));
    try done; vm_compute; try done; split; discriminate.
Defined.

(** ** Distinct aliases, over all devices *)

(** The aliases set in a list are distinct when no alias is set at two
    places. *)
Lemma NoDup_omap_id {A : Type} (l : list (option A)) :
  NoDup (omap id l) <->
  forall i j a, l !! i = Some (Some a) -> l !! j = Some (Some a) -> i = j.
Proof.
  induction l as [|o l IH].
  - split; [intros _ i j a Hi; done|intros _; constructor].
  - destruct o as [x|].
    + change (omap id (Some x :: l)) with (x :: omap id l). rewrite NoDup_cons, IH.
      split.
      * intros [Hx Hl] [|i] [|j] a Hi Hj; simpl in *.
        -- done.
        -- injection Hi as <-. exfalso. apply Hx, elem_of_omap_id.
           by eapply list_elem_of_lookup_2.
        -- injection Hj as <-. exfalso. apply Hx, elem_of_omap_id.
           by eapply list_elem_of_lookup_2.
        -- f_equal. by eapply Hl.
      * intros Hall. split.
        -- intros Hx%elem_of_omap_id. apply list_elem_of_lookup in Hx as [j Hj].
           by specialize (Hall 0%nat (Datatypes.S j) x eq_refl Hj).
        -- intros i j a Hi Hj.
           by specialize (Hall (Datatypes.S i) (Datatypes.S j) a Hi Hj) as [= ->].
    + change (omap id (None :: l)) with (omap id l). rewrite IH. split.
      * intros Hl [|i] [|j] a Hi Hj; simpl in *; try done. f_equal. by eapply Hl.
      * intros Hall i j a Hi Hj.
        by specialize (Hall (Datatypes.S i) (Datatypes.S j) a Hi Hj) as [= ->].
Qed.

(** Devices told apart by what [f] reads off them, among those that [P]
    keeps: no two of them at different places have the same reading. *)
Lemma NoDup_filter_lookup {A B : Type} (f : A -> B) (P : A -> bool) (l : list A) :
  NoDup (map f (List.filter P l)) ->
  forall i j x y, l !! i = Some x -> l !! j = Some y -> P x = true -> P y = true ->
                  f x = f y -> i = j.
Proof.
  induction l as [|z l IH]; intros Hnd i j x y Hi Hj Hx Hy Heq; [done|].
  simpl in Hnd.
  assert (Hin : forall k w, l !! k = Some w -> P w = true ->
                            f w ∈ map f (List.filter P l)).
  { intros k w Hk Hw. apply list_elem_of_fmap. exists w. split; [done|].
    apply list_elem_of_In, filter_In. split; [|done].
    by eapply list_elem_of_In, list_elem_of_lookup_2. }
  destruct i as [|i], j as [|j]; simpl in *.
  - done.
  - injection Hi as ->. rewrite Hx in Hnd. simpl in Hnd.
    apply NoDup_cons in Hnd as [Hnin _]. exfalso. apply Hnin. rewrite Heq.
    by eapply Hin.
  - injection Hj as ->. rewrite Hy in Hnd. simpl in Hnd.
    apply NoDup_cons in Hnd as [Hnin _]. exfalso. apply Hnin. rewrite <- Heq.
    by eapply Hin.
  - f_equal. apply (IH ltac:(destruct (P z); [by apply NoDup_cons in Hnd as [_ ?]|done])
                       i j x y); done.
Qed.

(** Classes put side by side: the aliases set before the pass are
    distinct and of no class, those that the pass adds to the class [k]
    are of the kind [n + k]. *)
Lemma NoDup_parts (parts : list (list (option string) * list (option string)))
    (n : nat) :
  NoDup (omap id (concat (map fst parts))) ->
  Forall (fun a => alias_kind a = None) (omap id (concat (map fst parts))) ->
  (forall k bef aft, parts !! k = Some (bef, aft) -> part_fine (n + k) bef aft) ->
  NoDup (omap id (concat (map snd parts))) /\
  Forall (fun a => Some a ∈ concat (map fst parts) \/
                   exists k, alias_kind a = Some k /\ (n <= k)%nat)
         (omap id (concat (map snd parts))).
Proof.
  revert n. induction parts as [|[bef aft] parts IH]; intros n Hnd Hfor Hparts; simpl.
  - split; constructor.
  - simpl in Hnd, Hfor. rewrite omap_id_app in Hnd, Hfor.
    apply NoDup_app in Hnd as (Hnd1 & Hdisj & Hnd2).
    apply Forall_app in Hfor as [Hfor1 Hfor2].
    destruct (Hparts 0%nat bef aft eq_refl) as [Hok1 Hok2].
    rewrite Nat.add_0_r in Hok2.
    destruct (IH (Datatypes.S n) Hnd2 Hfor2) as [IHnd IHfor].
    { intros k b a Hk. specialize (Hparts (Datatypes.S k) b a Hk).
      by rewrite Nat.add_succ_r in Hparts. }
    rewrite omap_id_app. split.
    + apply NoDup_app. split; [done|]. split; [|done].
      intros a Ha Ha'. rewrite Forall_forall in Hok2, IHfor, Hfor1, Hfor2.
      destruct (Hok2 a Ha) as [Hpre|Hk], (IHfor a Ha') as [Hpre'|(k & Hk' & Hle)].
      * apply (Hdisj a); by apply elem_of_omap_id.
      * apply elem_of_omap_id in Hpre. rewrite (Hfor1 a Hpre) in Hk'. done.
      * apply elem_of_omap_id in Hpre'. rewrite (Hfor2 a Hpre') in Hk. done.
      * rewrite Hk in Hk'. injection Hk' as <-. lia.
    + apply Forall_app. split.
      * eapply Forall_impl; [exact Hok2|]. intros a [Ha|Ha].
        -- left. apply elem_of_app. by left.
        -- right. exists n. done.
      * eapply Forall_impl; [exact IHfor|]. intros a [Ha|(k & Hk & Hle)].
        -- left. apply elem_of_app. by right.
        -- right. exists k. split; [done|lia].
Qed.

(** A class whose new aliases are made place by place: [g i] at the
    place [i], told apart by the place. *)
Lemma pointwise_part (k : nat) (before after : list (option string))
    (g : nat -> string) :
  NoDup (omap id before) ->
  Forall (fun a => alias_kind a = None) (omap id before) ->
  (forall i a, after !! i = Some (Some a) ->
               before !! i = Some (Some a) \/
               (before !! i = Some None /\ a = g i /\ alias_kind a = Some k)) ->
  (forall i j, before !! i = Some None -> before !! j = Some None ->
               after !! i = Some (Some (g i)) -> after !! j = Some (Some (g j)) ->
               g i = g j -> i = j) ->
  part_fine k before after.
Proof.
  intros Hnd Hfor Hat Hinj. rewrite Forall_forall in Hfor. split.
  - apply NoDup_omap_id. intros i j a Hi Hj.
    destruct (Hat i a Hi) as [Hpi|(Hni & Hgi & Hki)],
             (Hat j a Hj) as [Hpj|(Hnj & Hgj & Hkj)].
    + by apply (proj1 (NoDup_omap_id before) Hnd i j a).
    + rewrite Hfor in Hkj; [done|]. apply elem_of_omap_id.
      by eapply list_elem_of_lookup_2.
    + rewrite Hfor in Hki; [done|]. apply elem_of_omap_id.
      by eapply list_elem_of_lookup_2.
    + apply Hinj; try done; congruence.
  - apply Forall_forall. intros a Ha%elem_of_omap_id.
    apply list_elem_of_lookup in Ha as [i Hi].
    destruct (Hat i a Hi) as [Hp|(_ & _ & Hk)]; [left|by right].
    by eapply list_elem_of_lookup_2.
Qed.

(** *** The kinds of the generated aliases *)

Lemma class_of_none (tbl : list (string * nat)) (a : string) :
  Forall (fun p => starts_with p a = false) (map fst tbl) -> class_of tbl a = None.
Proof.
  induction tbl as [|[p k] tbl IH]; [done|]. simpl.
  intros [Hp Hrest]%Forall_cons. unfold starts_with in Hp.
  destruct (strip_prefix p a); [done|]. by apply IH.
Qed.

Lemma existsb_none {A : Type} (f : A -> bool) (l : list A) :
  Forall (fun x => f x = false) l -> existsb f l = false.
Proof. induction 1 as [|x l Hx _ IH]; [done|]. simpl. by rewrite Hx, IH. Qed.

Lemma starts_with_app (p a : string) : starts_with p (p ++ a) = true.
Proof. unfold starts_with. by rewrite strip_prefix_app. Qed.

Lemma starts_with_weaken (p q a : string) :
  starts_with (p ++ q) a = true -> starts_with p a = true.
Proof.
  unfold starts_with. revert a. induction p as [|c p IH]; intros a; [done|].
  rewrite string_app_cons. simpl. destruct a as [|c' a]; [done|].
  destruct (Ascii.eqb c c'); [apply IH|done].
Qed.

(** An alias that is foreign is of no kind. *)
Lemma foreign_no_kind (a : string) : foreign a = true -> alias_kind a = None.
Proof.
  unfold foreign. intros Hall.
  assert (Hf : Forall (fun p => starts_with p a = false)
                      (map fst alias_prefixes ++ address_names ++ memory_prefixes)).
  { apply Forall_forall. intros p Hp%list_elem_of_In. rewrite forallb_forall in Hall.
    by apply negb_true_iff, Hall. }
  apply Forall_app in Hf as [Hnum Hf]. apply Forall_app in Hf as [Haddr Hmem].
  unfold alias_kind, alias_class. rewrite (class_of_none _ _ Hnum).
  rewrite (existsb_none _ _ Hmem), (existsb_none _ _ Haddr).
  assert (Hvs : starts_with "virtio-serial" a = false).
  { destruct (starts_with "virtio-serial" a) eqn:Hs; [|done].
    apply (starts_with_weaken "virtio" "-serial") in Hs.
    rewrite Forall_forall in Haddr. rewrite Haddr in Hs; [done|].
    unfold address_names. set_solver. }
  by rewrite Hvs.
Qed.

Lemma no_dash_app (x y : string) : no_dash (x ++ y) = (no_dash x && no_dash y)%bool.
Proof.
  induction x as [|c x IH]; [done|]. rewrite string_app_cons. simpl.
  rewrite IH. by rewrite andb_assoc.
Qed.

Lemma no_dash_mid (x y : string) : no_dash (x ++ "-" ++ y) = false.
Proof. rewrite no_dash_app. simpl. by rewrite andb_false_r. Qed.

(** A number that is not negative is printed with a digit first. *)
Lemma fmt_d_head (n : Z) :
  0 <= n -> exists c r, fmt_d n = String c r /\ isdigit c = true.
Proof.
  intros Hn. unfold fmt_d. destruct n as [|p|p]; [by eexists _, _| |lia]. simpl.
  rewrite string_of_uint_pos.
  pose proof (DecimalPos.Unsigned.to_uint_nonnil p) as Hnil.
  destruct (Pos.to_uint p); [done|..]; simpl; by eexists _, _.
Qed.

Lemma digit_not (l c : ascii) : isdigit c = true -> isdigit l = false -> Ascii.eqb l c = false.
Proof.
  intros Hc Hl. destruct (Ascii.eqb l c) eqn:Heq; [|done].
  apply Ascii.eqb_eq in Heq as ->. congruence.
Qed.

Lemma starts_with_not_digit (l : ascii) (p : string) (n : Z) (y : string) :
  isdigit l = false -> 0 <= n -> starts_with (String l p) (fmt_d n ++ y) = false.
Proof.
  intros Hl Hn. destruct (fmt_d_head n Hn) as (c & r & -> & Hc).
  unfold starts_with. simpl. by rewrite (digit_not l c).
Qed.

Lemma kind_of_disk (a : string) :
  alias_class a = None ->
  existsb (fun p => starts_with p a) memory_prefixes = false ->
  starts_with "virtio-serial" a = false ->
  existsb (fun p => starts_with p a) address_names = true ->
  no_dash a = false ->
  alias_kind a = Some 18%nat.
Proof. unfold alias_kind. by intros -> -> -> -> ->. Qed.

Lemma kind_of_controller (a : string) :
  alias_class a = None ->
  existsb (fun p => starts_with p a) memory_prefixes = false ->
  starts_with "virtio-serial" a = true \/
  (existsb (fun p => starts_with p a) address_names = true /\ no_dash a = true) ->
  alias_kind a = Some 19%nat.
Proof.
  unfold alias_kind. intros -> -> [->|[-> ->]]; [done|].
  by destruct (starts_with "virtio-serial" a).
Qed.

(** The alias of a disk on a drive address, and that of a disk named by
    the index of its target, are of the kind of the disks. *)
Lemma kind_disk_drive (b : virDomainDiskBus) (c : Z) (rest : string) :
  0 <= c ->
  alias_kind (@virDomainDiskBusTypeToString libvirt_collaborators b
              ++ fmt_d c ++ "-" ++ rest) = Some 18%nat.
Proof.
  intros Hc.
  destruct b; apply kind_of_disk; try reflexivity;
    try (rewrite no_dash_app, no_dash_mid; apply andb_false_r);
    simpl; rewrite ?orb_false_r; by apply starts_with_not_digit.
Qed.

Lemma kind_disk_index (b : virDomainDiskBus) (idx : Z) :
  alias_kind (@virDomainDiskBusTypeToString libvirt_collaborators b
              ++ "-disk" ++ fmt_d idx) = Some 18%nat.
Proof.
  destruct b; apply kind_of_disk; try reflexivity;
    rewrite no_dash_app; simpl; apply andb_false_r.
Qed.

(** The aliases of the controllers are of the kind of the controllers. *)
Lemma kind_controller_indexed (t : virDomainControllerType) (i : Z) :
  0 <= i ->
  alias_kind (@virDomainControllerTypeToString libvirt_collaborators t ++ fmt_d i)
  = Some 19%nat.
Proof.
  intros Hi.
  destruct t; apply kind_of_controller; try reflexivity;
    try (right; split; [reflexivity|];
         rewrite no_dash_app, fmt_d_no_dash by done; reflexivity).
  left. reflexivity.
Qed.

Lemma kind_controller_dotted (p : string) (i : Z) :
  p = "pci." \/ p = "pcie." -> 0 <= i -> alias_kind (p ++ fmt_d i) = Some 19%nat.
Proof.
  intros [-> | ->] Hi; apply kind_of_controller; try reflexivity;
    right; (split; [reflexivity|]); rewrite no_dash_app, fmt_d_no_dash by done;
    reflexivity.
Qed.

Lemma kind_memory (p x : string) :
  p ∈ memory_prefixes -> alias_kind (p ++ x) = Some 20%nat.
Proof.
  unfold memory_prefixes. intros Hp.
  repeat (apply elem_of_cons in Hp as [->|Hp]; [reflexivity|]).
  by apply elem_of_nil in Hp.
Qed.

Lemma kind_numbered (a : string) (k : nat) :
  alias_class a = Some k -> alias_kind a = Some k.
Proof. unfold alias_kind. by intros ->. Qed.

(** *** The classes numbered by position *)

(** What a loop over an array did at each place, for an assigner whose
    result at a place is described by [Q] in every state that leaves
    [F] as it was. *)
Lemma loop_over_pointwise {A B : Type} (Q : nat -> A -> A -> Prop)
    (F : virDomainDef -> B)
    (get : virDomainDef -> list A) (set : list A -> virDomainDef -> virDomainDef)
    (assign : virDomainDef -> nat -> A -> outcome A) (d d' : virDomainDef) :
  (forall l t, get (set l t) = l) ->
  (forall l t, F (set l t) = F t) ->
  (forall t j x x', F t = F d -> get d !! j = Some x -> assign t j x = Ret0 x' ->
                    Q j x x') ->
  loop_over get set assign d = Ret0 d' ->
  forall j x', get d' !! j = Some x' -> exists x, get d !! j = Some x /\ Q j x x'.
Proof.
  intros Hlens Hframe Hassign Hrun.
  destruct (loop_over_inv
              (fun j t => F t = F d /\
                          (forall i, (j <= i)%nat -> get t !! i = get d !! i) /\
                          (forall i x', (i < j)%nat -> get t !! i = Some x' ->
                                        exists x, get d !! i = Some x /\ Q i x x'))
              get set assign d d' Hlens) as [(_ & _ & Hall) Hlen]; [| |exact Hrun|].
  - split; [done|]. split; [done|]. intros i x' Hi. lia.
  - intros j t x x' Hl (HF & Htail & Hdone) Hx Ha. rewrite Hlens, Hframe.
    split; [done|]. split.
    + intros i Hi. rewrite list_lookup_insert_ne by lia. apply Htail. lia.
    + intros i y Hi. destruct (decide (i = j)) as [->|Hne].
      * rewrite list_lookup_insert_eq by (by eapply lookup_lt_Some).
        intros [= <-]. exists x. rewrite <- Htail by done. split; [done|].
        apply (Hassign t j x x'); [done| |done]. by rewrite <- Htail.
      * rewrite list_lookup_insert_ne by done. apply Hdone. lia.
  - intros j x' Hx. apply Hall; [|done]. apply lookup_lt_Some in Hx. lia.
Qed.

Section PointwiseParts.
Context `{Collaborators}.

(** An array whose devices are named place by place by the step [idx]
    of the pass: a device that had an alias keeps it, one that had none
    is given [g i x] at the place [i]. *)
Lemma pointwise_step {A B : Type} (al : A -> option string) (R : A -> A -> Prop)
    (F : virDomainDef -> B)
    (get : virDomainDef -> list A) (set : list A -> virDomainDef -> virDomainDef)
    (assign : virDomainDef -> nat -> A -> outcome A)
    (g : nat -> A -> string) (idx : nat) (caps : virQEMUCaps)
    (def def' : virDomainDef) :
  (forall l t, get (set l t) = l) ->
  (forall l t, F (set l t) = F t) ->
  qemuAssignDeviceAliases_steps caps !! idx = Some (loop_over get set assign) ->
  Forall (step_keeps get) (take idx (qemuAssignDeviceAliases_steps caps)) ->
  Forall (step_keeps F) (take idx (qemuAssignDeviceAliases_steps caps)) ->
  (forall d d', def_upd d d' -> Forall2 R (get d) (get d')) ->
  (forall x x', R x x' -> is_Some (al x) -> al x' = al x) ->
  (forall t i x x', F t = F def -> get def !! i = Some x -> al x = None ->
                    assign t i x = Ret0 x' -> al x' = Some (g i x)) ->
  qemuAssignDeviceAliases def caps = Ret0 def' ->
  forall i a, (al <$> get def') !! i = Some (Some a) ->
              exists x, get def !! i = Some x /\
                        (al x = Some a \/ (al x = None /\ a = g i x)).
Proof.
  intros Hlens Hframe Hidx Hkeep HkeepF HR Hal Hassign Hrun i a Hi.
  assert (Hupd : def_upd def def').
  { apply (run_steps_upd _ (pass_steps_upd caps)). by left. }
  destruct (pass_focus idx _ caps def def' Hidx Hrun) as (d & d' & Hpre & Hstep & Hpost).
  assert (Hd : get d = get def) by (by apply (run_steps_keeps get _ Hkeep def d)).
  assert (HFd : F d = F def) by (by apply (run_steps_keeps F _ HkeepF def d)).
  rewrite list_lookup_fmap in Hi.
  destruct (get def' !! i) as [x''|] eqn:Hx''; [|done]. injection Hi as Hi.
  destruct (Forall2_lookup_r _ _ _ _ _ (HR _ _ Hupd) Hx'') as (x & Hx & Hxx'').
  exists x. split; [done|].
  destruct (al x) as [b|] eqn:Hb.
  - left. rewrite <- Hi. symmetry. rewrite <- Hb. apply Hal; [done|]. by rewrite Hb.
  - right. split; [done|].
    destruct (Forall2_lookup_r _ _ _ _ _ (HR _ _ Hpost) Hx'') as (x' & Hx' & Hx'x'').
    destruct (loop_over_pointwise
                (fun j y y' => al y = None -> al y' = Some (g j y)) F
                get set assign d d' Hlens Hframe) with (j := i) (x' := x')
      as (y & Hy & HQ); [|done|done|].
    { intros t j y y' HF Hy Hnone Ha. apply (Hassign t j y y'); try done.
      - by rewrite HF.
      - by rewrite <- Hd. }
    rewrite Hd, Hx in Hy. injection Hy as <-. specialize (HQ Hb).
    assert (Hsame : al x'' = al x') by (apply Hal; [done|by rewrite HQ]).
    rewrite Hsame, HQ in Hi. by injection Hi.
Qed.

End PointwiseParts.

Lemma assign_indexed_new (prefix : string) (l : list virDomainDeviceInfo) (i : nat)
    (x x' : virDomainDeviceInfo) :
  Z.of_nat (length l) <= INT_MAX -> l !! i = Some x -> alias x = None ->
  assign_indexed prefix x (int_of_size_t i) = Ret0 x' ->
  alias x' = Some (prefix ++ fmt_d (Z.of_nat i)).
Proof.
  intros Hlen Hi Hnone. unfold assign_indexed. rewrite Hnone.
  intros [= <-]. simpl. rewrite int_of_size_t_small; [done|].
  apply lookup_lt_Some in Hi. lia.
Qed.

Lemma redirdev_new (def : virDomainDef) (l : list virDomainDeviceInfo) (i : nat)
    (x x' : virDomainDeviceInfo) :
  Z.of_nat (length l) <= INT_MAX -> l !! i = Some x -> alias x = None ->
  qemuAssignDeviceRedirdevAlias def x (int_of_size_t i) = Ret0 x' ->
  alias x' = Some ("redir" ++ fmt_d (Z.of_nat i)).
Proof.
  intros Hlen Hi Hnone. unfold qemuAssignDeviceRedirdevAlias. rewrite Hnone.
  destruct (position_not_minus_one l i x Hlen Hi) as [-> ->].
  by intros [= <-].
Qed.

Lemma shmem_new (def : virDomainDef) (l : list virDomainDeviceInfo) (i : nat)
    (x x' : virDomainDeviceInfo) :
  Z.of_nat (length l) <= INT_MAX -> l !! i = Some x -> alias x = None ->
  qemuAssignDeviceShmemAlias def x (int_of_size_t i) = Ret0 x' ->
  alias x' = Some ("shmem" ++ fmt_d (Z.of_nat i)).
Proof.
  intros Hlen Hi Hnone. unfold qemuAssignDeviceShmemAlias. rewrite Hnone.
  destruct (position_not_minus_one l i x Hlen Hi) as [-> ->].
  by intros [= <-].
Qed.

Lemma input_new (def : virDomainDef) (l : list virDomainDeviceInfo) (i : nat)
    (x x' : virDomainDeviceInfo) :
  Z.of_nat (length l) <= INT_MAX -> l !! i = Some x -> alias x = None ->
  qemuAssignDeviceInputAlias def x (int_of_size_t i) = Ret0 x' ->
  alias x' = Some ("input" ++ fmt_d (Z.of_nat i)).
Proof.
  intros Hlen Hi Hnone. unfold qemuAssignDeviceInputAlias. rewrite Hnone.
  destruct (position_not_minus_one l i x Hlen Hi) as [-> ->].
  by intros [= <-].
Qed.

(** A character device without an alias, in the array of its type. *)
Lemma chr_new (def : virDomainDef) (ty : virDomainChrDeviceType) (prefix : string)
    (l : list virDomainChrDef) (i : nat) (x x' : virDomainChrDef) :
  match ty with
  | VIR_DOMAIN_CHR_DEVICE_TYPE_PARALLEL => prefix = "parallel"
  | VIR_DOMAIN_CHR_DEVICE_TYPE_SERIAL => prefix = "serial"
  | VIR_DOMAIN_CHR_DEVICE_TYPE_CONSOLE => prefix = "console"
  | VIR_DOMAIN_CHR_DEVICE_TYPE_CHANNEL => prefix = "channel"
  | VIR_DOMAIN_CHR_DEVICE_TYPE_LAST => False
  end ->
  forallb (fun c => bool_decide (chr_deviceType c = ty)) l = true ->
  l !! i = Some x -> chr_alias x = None ->
  qemuAssignDeviceChrAlias def x (Z.of_nat i) = Ret0 x' ->
  chr_alias x' = Some (prefix ++ fmt_d (Z.of_nat i)).
Proof.
  intros Hp Hty Hi Hnone. unfold qemuAssignDeviceChrAlias, chr_alias in *.
  rewrite Hnone. rewrite forallb_forall in Hty.
  specialize (Hty x ltac:(by eapply list_elem_of_In, list_elem_of_lookup_2)).
  apply bool_decide_eq_true in Hty. rewrite Hty.
  assert (Hne : (Z.of_nat i =? -1) = false) by (apply Z.eqb_neq; lia).
  rewrite Hne. simpl. destruct ty; try done; subst; by intros [= <-].
Qed.

(** The aliases set before the pass, class by class: distinct and of no
    kind. *)
Lemma NoDup_concat_part {A : Type} (parts : list (list A)) (k : nat) (part : list A) :
  NoDup (concat parts) -> parts !! k = Some part -> NoDup part.
Proof.
  revert k. induction parts as [|p parts IH]; intros k Hnd Hk; [done|].
  simpl in Hnd. apply NoDup_app in Hnd as (Hp & _ & Hrest).
  destruct k as [|k]; [by injection Hk as <-|]. by apply (IH k).
Qed.

Lemma elem_of_concat_part {A : Type} (parts : list (list A)) (k : nat)
    (part : list A) (a : A) :
  parts !! k = Some part -> a ∈ part -> a ∈ concat parts.
Proof.
  revert k. induction parts as [|p parts IH]; intros k Hk Ha; [done|].
  simpl. apply elem_of_app. destruct k as [|k].
  - injection Hk as ->. by left.
  - right. by apply (IH k).
Qed.

Lemma preset_part (def : virDomainDef) (k : nat) (part : list (option string)) :
  presets_foreign def = true -> NoDup (domain_aliases def) ->
  domain_alias_parts def !! k = Some part ->
  NoDup (omap id part) /\ Forall (fun a => alias_kind a = None) (omap id part).
Proof.
  unfold presets_foreign, domain_aliases. rewrite omap_id_concat.
  intros Hfor Hnd Hk. split.
  - apply (NoDup_concat_part _ k _ Hnd). by rewrite list_lookup_fmap, Hk.
  - apply Forall_forall. intros a Ha. apply foreign_no_kind.
    rewrite forallb_forall in Hfor. apply Hfor, list_elem_of_In.
    apply (elem_of_concat_part _ k (omap id part)); [|done].
    by rewrite list_lookup_fmap, Hk.
Qed.

Section NumberedByPosition.
Context `{Collaborators}.
Variables (caps : virQEMUCaps) (def def' : virDomainDef).
Hypothesis Hfor : presets_foreign def = true.
Hypothesis Hnd : NoDup (domain_aliases def).
Hypothesis Hint : arrays_within_int def = true.
Hypothesis Htyped : chr_arrays_typed def = true.
Hypothesis Hrun : qemuAssignDeviceAliases def caps = Ret0 def'.

(** An array numbered by position under [prefix]. *)
Lemma positional_fine {A : Type} (al : A -> option string) (R : A -> A -> Prop)
    (get : virDomainDef -> list A) (set : list A -> virDomainDef -> virDomainDef)
    (assign : virDomainDef -> nat -> A -> outcome A)
    (prefix : string) (k idx part : nat) :
  (forall l t, get (set l t) = l) ->
  qemuAssignDeviceAliases_steps caps !! idx = Some (loop_over get set assign) ->
  Forall (step_keeps get) (take idx (qemuAssignDeviceAliases_steps caps)) ->
  (forall d d', def_upd d d' -> Forall2 R (get d) (get d')) ->
  (forall x x', R x x' -> is_Some (al x) -> al x' = al x) ->
  (forall t i x x', get def !! i = Some x -> al x = None ->
                    assign t i x = Ret0 x' ->
                    al x' = Some (prefix ++ fmt_d (Z.of_nat i))) ->
  (forall r, alias_class (prefix ++ r) = Some k) ->
  domain_alias_parts def !! part = Some (al <$> get def) ->
  part_fine k (al <$> get def) (al <$> get def').
Proof.
  intros Hlens Hidx Hkeep HR Hal Hassign Hcls Hpart.
  destruct (preset_part def part _ Hfor Hnd Hpart) as [Hpnd Hpfor].
  assert (Hat : forall i a, (al <$> get def') !! i = Some (Some a) ->
                  exists x, get def !! i = Some x /\
                    (al x = Some a \/
                     (al x = None /\ a = prefix ++ fmt_d (Z.of_nat i)))).
  { apply (pointwise_step al R (fun _ => tt) get set assign
                          (fun i _ => prefix ++ fmt_d (Z.of_nat i)) idx caps def def');
      try done.
    - apply Forall_forall. intros f _ d d' _. done.
    - intros t i x x' _. apply Hassign. }
  apply (pointwise_part k _ _ (fun i => prefix ++ fmt_d (Z.of_nat i)));
    [done|done| |].
  - intros i a Hi. destruct (Hat i a Hi) as (x & Hx & [Ha|[Ha ->]]).
    + left. by rewrite list_lookup_fmap, Hx, <- Ha.
    + right. rewrite list_lookup_fmap, Hx. simpl. rewrite Ha.
      split; [done|]. split; [done|]. apply kind_numbered, Hcls.
  - intros i j _ _ _ _ Heq%string_app_inv_l%fmt_d_inj_Z. lia.
Qed.

Ltac positional al R get set prefix k idx part :=
  pose proof (arrays_within_int_parts _ Hint) as Hl;
  repeat match goal with
         | Hc : Forall _ (_ :: _) |- _ => apply Forall_cons_1 in Hc as [? Hc]
         end;
  apply (positional_fine al R get set _ prefix k idx part (fun _ _ => eq_refl) eq_refl);
  [ unfold qemuAssignDeviceAliases_steps; simpl; steps_keep
  | intros d d' Hu; apply Hu
  | first [ apply info_upd_same_alias | apply chr_upd_same_alias ]
  | intros t i x x' Hi Hnone Has
  | intros r; reflexivity
  | reflexivity ].

Lemma fss_fine : part_fine 1 (map alias (fss def)) (map alias (fss def')).
Proof.
  positional alias info_upd fss set_fss "fs" 1%nat 2%nat 1%nat.
  by eapply (assign_indexed_new "fs" (fss def)).
Qed.

Lemma sounds_fine : part_fine 2 (map alias (sounds def)) (map alias (sounds def')).
Proof.
  positional alias info_upd sounds set_sounds "sound" 2%nat 3%nat 2%nat.
  by eapply (assign_indexed_new "sound" (sounds def)).
Qed.

Lemma redirdevs_fine :
  part_fine 3 (map alias (redirdevs def)) (map alias (redirdevs def')).
Proof.
  positional alias info_upd redirdevs set_redirdevs "redir" 3%nat 5%nat 3%nat.
  by eapply (redirdev_new t (redirdevs def)).
Qed.

Lemma videos_fine : part_fine 4 (map alias (videos def)) (map alias (videos def')).
Proof.
  positional alias info_upd videos set_videos "video" 4%nat 6%nat 4%nat.
  by eapply (assign_indexed_new "video" (videos def)).
Qed.

Lemma inputs_fine : part_fine 5 (map alias (inputs def)) (map alias (inputs def')).
Proof.
  positional alias info_upd inputs set_inputs "input" 5%nat 8%nat 5%nat.
  by eapply (input_new t (inputs def)).
Qed.

Lemma parallels_fine :
  part_fine 6 (map chr_alias (parallels def)) (map chr_alias (parallels def')).
Proof.
  destruct (chr_arrays_typed_parts _ Htyped) as (Hp & Hs & Hc & Ho).
  positional chr_alias chr_upd parallels set_parallels "parallel" 6%nat 9%nat 6%nat.
  by eapply (chr_new t VIR_DOMAIN_CHR_DEVICE_TYPE_PARALLEL "parallel" (parallels def)).
Qed.

Lemma serials_fine :
  part_fine 7 (map chr_alias (serials def)) (map chr_alias (serials def')).
Proof.
  destruct (chr_arrays_typed_parts _ Htyped) as (Hp & Hs & Hc & Ho).
  positional chr_alias chr_upd serials set_serials "serial" 7%nat 10%nat 7%nat.
  by eapply (chr_new t VIR_DOMAIN_CHR_DEVICE_TYPE_SERIAL "serial" (serials def)).
Qed.

Lemma channels_fine :
  part_fine 8 (map chr_alias (channels def)) (map chr_alias (channels def')).
Proof.
  destruct (chr_arrays_typed_parts _ Htyped) as (Hp & Hs & Hc & Ho).
  positional chr_alias chr_upd channels set_channels "channel" 8%nat 11%nat 8%nat.
  by eapply (chr_new t VIR_DOMAIN_CHR_DEVICE_TYPE_CHANNEL "channel" (channels def)).
Qed.

Lemma consoles_fine :
  part_fine 9 (map chr_alias (consoles def)) (map chr_alias (consoles def')).
Proof.
  destruct (chr_arrays_typed_parts _ Htyped) as (Hp & Hs & Hc & Ho).
  positional chr_alias chr_upd consoles set_consoles "console" 9%nat 12%nat 9%nat.
  by eapply (chr_new t VIR_DOMAIN_CHR_DEVICE_TYPE_CONSOLE "console" (consoles def)).
Qed.

Lemma hubs_fine : part_fine 10 (map alias (hubs def)) (map alias (hubs def')).
Proof.
  positional alias info_upd hubs set_hubs "hub" 10%nat 13%nat 10%nat.
  by eapply (assign_indexed_new "hub" (hubs def)).
Qed.

Lemma shmems_fine : part_fine 11 (map alias (shmems def)) (map alias (shmems def')).
Proof.
  positional alias info_upd shmems set_shmems "shmem" 11%nat 14%nat 11%nat.
  by eapply (shmem_new t (shmems def)).
Qed.

Lemma smartcards_fine :
  part_fine 12 (map alias (smartcards def)) (map alias (smartcards def')).
Proof.
  positional alias info_upd smartcards set_smartcards "smartcard" 12%nat 15%nat 12%nat.
  by eapply (assign_indexed_new "smartcard" (smartcards def)).
Qed.

Lemma tpms_fine : part_fine 16 (map alias (tpms def)) (map alias (tpms def')).
Proof.
  positional alias info_upd tpms set_tpms "tpm" 16%nat 19%nat 16%nat.
  by eapply (assign_indexed_new "tpm" (tpms def)).
Qed.

End NumberedByPosition.

(** *** The classes numbered by scavenging *)

Lemma fresh_loop_presets {A : Type} (al : A -> option string) (P : string -> Prop)
    (get : virDomainDef -> list A) (set : list A -> virDomainDef -> virDomainDef)
    (assign : virDomainDef -> nat -> A -> outcome A) (d d' : virDomainDef) :
  (forall l t, get (set l t) = l) ->
  NoDup (omap id (al <$> get d)) ->
  (forall t j x x', is_Some (al x) -> assign t j x = Ret0 x' -> al x' = al x) ->
  (forall t j x x', get t !! j = Some x -> al x = None -> assign t j x = Ret0 x' ->
                    exists a, al x' = Some a /\ (Some a ∉ (al <$> get t)) /\ P a) ->
  loop_over get set assign d = Ret0 d' ->
  NoDup (omap id (al <$> get d')) /\
  Forall (fun a => Some a ∈ (al <$> get d) \/ P a) (omap id (al <$> get d')).
Proof.
  intros Hlens Hnd Hkept Hassign Hrun.
  destruct (loop_over_inv
              (fun j t => NoDup (omap id (al <$> get t)) /\
                          Forall (fun a => Some a ∈ (al <$> get d) \/ P a)
                                 (omap id (al <$> get t)))
              get set assign d d' Hlens) as [Hall _]; [| |exact Hrun|done].
  - split; [done|]. apply Forall_forall. intros a Ha%elem_of_omap_id. by left.
  - intros j t x x' Hl (Hndt & Hp) Hx Ha. rewrite Hlens.
    destruct (al x) as [b|] eqn:Hb.
    + assert (Hsame : al <$> <[j:=x']> (get t) = al <$> get t).
      { rewrite list_fmap_insert. apply list_insert_id.
        rewrite list_lookup_fmap, Hx. simpl. f_equal.
        symmetry. apply (Hkept t j x x'); [by rewrite Hb|done]. }
      by rewrite Hsame.
    + destruct (Hassign t j x x' Hx Hb Ha) as (a & Hal & Hfresh & Hpa).
      assert (Hperm : omap id (al <$> <[j:=x']> (get t)) ≡ₚ a :: omap id (al <$> get t)).
      { rewrite list_fmap_insert, Hal. apply omap_id_insert.
        by rewrite list_lookup_fmap, Hx, <- Hb. }
      rewrite Hperm. split.
      * constructor; [|done]. intros Hin. by apply Hfresh, elem_of_omap_id.
      * constructor; [by right|done].
Qed.

Section NumberedByScavenging.
Context `{Collaborators}.
Variables (caps : virQEMUCaps) (def def' : virDomainDef).
Hypothesis Hfor : presets_foreign def = true.
Hypothesis Hnd : NoDup (domain_aliases def).
Hypothesis Hrun : qemuAssignDeviceAliases def caps = Ret0 def'.

Lemma rngs_fine : part_fine 15 (map alias (rngs def)) (map alias (rngs def')).
Proof.
  destruct (preset_part def 15 _ Hfor Hnd eq_refl) as [Hpnd Hpfor].
  destruct (pass_around 18 _ caps def def' eq_refl Hrun)
    as (d & d' & Hpre & Hstep & Hpost).
  assert (Hd : rngs d = rngs def) by (run_keeps rngs Hpre).
  assert (Hd' : rngs def' = rngs d') by (run_keeps rngs Hpost).
  rewrite Hd', <- Hd. unfold part_fine.
  eapply (fresh_loop_presets alias (fun a => alias_kind a = Some 15%nat) rngs set_rngs);
    [done|by rewrite Hd| | |exact Hstep].
  - intros t j x x' Hs Ha. apply info_upd_same_alias; [|done].
    apply (rng_upd t). by left.
  - intros t j x x' _ Hx Has.
    destruct (rng_fresh t x x' Hx Has) as (a & Ha & Hfresh & Hcls).
    exists a. split; [done|]. split; [done|]. by apply kind_numbered.
Qed.

(** A single device with a fixed name. *)
Lemma single_fine (k : nat) (name : string) (o o' : option virDomainDeviceInfo) :
  NoDup (omap id (map alias (option_list o))) ->
  alias_kind name = Some k ->
  match o with
  | Some w => exists w', o' = Some w' /\
                         alias w' = match alias w with
                                    | Some a => Some a
                                    | None => Some name
                                    end
  | None => o' = None
  end ->
  part_fine k (map alias (option_list o)) (map alias (option_list o')).
Proof.
  intros _ Hk Ho. destruct o as [w|].
  - destruct Ho as (w' & -> & Hw'). simpl. rewrite Hw'. split.
    + destruct (alias w); apply NoDup_singleton.
    + destruct (alias w) as [a|] eqn:Ha; apply Forall_singleton.
      * left. by left.
      * by right.
  - rewrite Ho. simpl. split; constructor.
Qed.

Lemma watchdog_fine :
  part_fine 13 (map alias (option_list (watchdog def)))
            (map alias (option_list (watchdog def'))).
Proof.
  destruct (preset_part def 13 _ Hfor Hnd eq_refl) as [Hpnd _].
  destruct (pass_around 16 _ caps def def' eq_refl Hrun)
    as (d & d' & Hpre & Hstep & Hpost).
  assert (Hd : watchdog d = watchdog def) by (run_keeps watchdog Hpre).
  assert (Hd' : watchdog def' = watchdog d') by (run_keeps watchdog Hpost).
  apply (single_fine 13 "watchdog0"); [done|reflexivity|].
  rewrite Hd'. unfold assign_watchdog in Hstep. rewrite Hd in Hstep.
  destruct (watchdog def) as [w|].
  - unfold qemuAssignDeviceWatchdogAlias in Hstep.
    destruct (alias w) eqn:Ha; injection Hstep as <-; eexists; (split; [done|]);
      simpl; by rewrite ?Ha.
  - by injection Hstep as <-.
Qed.

Lemma vsock_fine :
  part_fine 17 (map alias (option_list (vsock def)))
            (map alias (option_list (vsock def'))).
Proof.
  destruct (preset_part def 17 _ Hfor Hnd eq_refl) as [Hpnd _].
  destruct (pass_around 21 _ caps def def' eq_refl Hrun)
    as (d & d' & Hpre & Hstep & Hpost).
  assert (Hd : vsock d = vsock def) by (run_keeps vsock Hpre).
  assert (Hd' : vsock def' = vsock d') by (run_keeps vsock Hpost).
  apply (single_fine 17 "vsock0"); [done|reflexivity|].
  rewrite Hd'. unfold assign_vsock in Hstep. rewrite Hd in Hstep.
  destruct (vsock def) as [w|].
  - unfold qemuAssignDeviceVsockAlias in Hstep.
    destruct (alias w) eqn:Ha; injection Hstep as <-; eexists; (split; [done|]);
      simpl; by rewrite ?Ha.
  - by injection Hstep as <-.
Qed.

Lemma memballoon_fine :
  part_fine 14 (map memballoon_alias (option_list (memballoon def)))
            (map memballoon_alias (option_list (memballoon def'))).
Proof.
  destruct (preset_part def 14 _ Hfor Hnd eq_refl) as [Hpnd _].
  destruct (pass_around 17 _ caps def def' eq_refl Hrun)
    as (d & d' & Hpre & Hstep & Hpost).
  assert (Hd : memballoon d = memballoon def) by (run_keeps memballoon Hpre).
  assert (Hd' : memballoon def' = memballoon d') by (run_keeps memballoon Hpost).
  rewrite Hd'. unfold assign_memballoon in Hstep. rewrite Hd in Hstep.
  assert (Hsame : part_fine 14 (map memballoon_alias (option_list (memballoon def)))
                            (map memballoon_alias (option_list (memballoon def)))).
  { split; [done|]. apply Forall_forall. intros a Ha%elem_of_omap_id. by left. }
  destruct (memballoon def) as [b|] eqn:Hb.
  - destruct (negb _).
    + unfold qemuAssignDeviceMemballoonAlias in Hstep.
      destruct (alias (memballoon_info b)) eqn:Ha; injection Hstep as <-.
      * exact Hsame.
      * simpl. unfold memballoon_alias. simpl. split.
        -- apply NoDup_singleton.
        -- apply Forall_singleton. by right.
    + injection Hstep as <-. by rewrite Hd.
  - injection Hstep as <-. by rewrite Hd.
Qed.

(** The network interfaces and the host devices draw their "hostdevN"
    from the same numbers: the two arrays are one class. *)
Lemma nets_hostdevs_fine :
  part_fine 0 (map net_alias (nets def) ++ map own_hostdev_alias (hostdevs def))%list
            (map net_alias (nets def') ++ map own_hostdev_alias (hostdevs def'))%list.
Proof.
  destruct (preset_part def 0 _ Hfor Hnd eq_refl) as [Hpnd Hpfor].
  rewrite omap_id_app in Hpnd, Hpfor.
  apply NoDup_app in Hpnd as (HpndN & Hpdisj & HpndH).
  apply Forall_app in Hpfor as [HpforN HpforH].
  pose proof Hrun as Hr. pose proof (pass_steps_upd caps) as Hsu.
  unfold qemuAssignDeviceAliases, qemuAssignDeviceAliases_steps in Hr, Hsu.
  apply run_steps_cons in Hr as (d1 & H1 & Hr).
  apply Forall_cons in Hsu as [_ Hsu].
  apply run_steps_cons in Hr as (d2 & H2 & Hr).
  apply Forall_cons in Hsu as [_ Hsu].
  apply run_steps_cons in Hr as (d3 & H3 & Hr).
  apply Forall_cons in Hsu as [Hs3 Hsu].
  apply run_steps_cons in Hr as (d4 & H4 & Hr).
  apply Forall_cons in Hsu as [Hs4 Hsu].
  apply run_steps_cons in Hr as (d5 & H5 & Hr).
  assert (Hu24 : def_upd d2 d4).
  { etrans; [apply Hs3; left; exact H3 | apply Hs4; left; exact H4]. }
  assert (Hn1 : nets d1 = nets def) by (loop_frame nets H1).
  assert (Hh4 : hostdevs d4 = hostdevs def).
  { transitivity (hostdevs d3); [loop_frame hostdevs H4|].
    transitivity (hostdevs d2); [loop_frame hostdevs H3|].
    transitivity (hostdevs d1); [loop_frame hostdevs H2|loop_frame hostdevs H1]. }
  assert (Hcov2 : Forall (fun x => is_Some (net_alias x)) (nets d2)).
  { eapply (loop_over_post (fun x => is_Some (net_alias x)) nets set_nets);
      [done| |exact H2].
    intros t i x x'. apply net_total. }
  assert (Hn' : nets def' = nets d5).
  { eapply (run_steps_keeps nets); [|exact Hr]. steps_keep. }
  assert (Hh' : hostdevs def' = hostdevs d5).
  { eapply (run_steps_keeps hostdevs); [|exact Hr]. steps_keep. }
  assert (HA2 : NoDup (omap id (net_alias <$> nets d2)) /\
                Forall (fun a => Some a ∈ (net_alias <$> nets d1) \/
                                 alias_kind a = Some 0%nat)
                       (omap id (net_alias <$> nets d2))).
  { eapply (fresh_loop_presets net_alias (fun a => alias_kind a = Some 0%nat)
                               nets set_nets);
      [done|by rewrite Hn1| | |exact H2].
    - intros t j x x' Hs Ha. unfold net_alias in *.
      apply info_upd_same_alias; [|done]. apply (net_assign_upd t x x' (-1)). by left.
    - intros t j x x' _ Hx Has.
      destruct (net_fresh t x x' Hx Has) as (a & Ha & Hfresh & Hcls).
      exists a. split; [done|]. split; [done|]. by apply kind_numbered. }
  destruct HA2 as [HndA HclsA]. rewrite Hn1 in HclsA.
  set (A := omap id (net_alias <$> nets d2)) in *.
  assert (Hsame : forall t, def_upd d2 t -> net_aliases t = net_aliases d2).
  { intros t Ht. by apply net_aliases_same. }
  assert (Hinv : NoDup (omap id (own_hostdev_alias <$> hostdevs d5) ++ A)%list /\
                 Forall (fun a => Some a ∈ (own_hostdev_alias <$> hostdevs d4) \/
                                  alias_kind a = Some 0%nat)
                        (omap id (own_hostdev_alias <$> hostdevs d5))).
  { assert (Hgoal : def_upd d4 d5 /\
                    NoDup (omap id (own_hostdev_alias <$> hostdevs d5) ++ A)%list /\
                    Forall (fun a => Some a ∈ (own_hostdev_alias <$> hostdevs d4) \/
                                     alias_kind a = Some 0%nat)
                           (omap id (own_hostdev_alias <$> hostdevs d5)));
      [|by destruct Hgoal as (_ & ? & ?)].
    revert H5.
    apply (assign_hostdevs_inv
             (fun j t => def_upd d4 t /\
                         NoDup (omap id (own_hostdev_alias <$> hostdevs t) ++ A)%list /\
                         Forall (fun a => Some a ∈ (own_hostdev_alias <$> hostdevs d4) \/
                                          alias_kind a = Some 0%nat)
                                (omap id (own_hostdev_alias <$> hostdevs t)))).
    - split; [done|]. split.
      + apply NoDup_app. rewrite Hh4. split; [done|]. split; [|done].
        intros a Ha Ha'. rewrite Forall_forall in HclsA, HpforH.
        destruct (HclsA a Ha') as [Hpre|Hk].
        * apply (Hpdisj a); [by apply elem_of_omap_id|done].
        * by rewrite (HpforH a Ha) in Hk.
      + apply Forall_forall. intros a Ha%elem_of_omap_id. by left.
    - intros j t h a Hlen (Hdt & Hndt & Hcls) Hh Ha.
      assert (Hstep : def_upd t (hostdev_store_alias t j h a)).
      { apply hostdev_store_upd; [done|].
        destruct (hostdev_assign_upd t _ a (-1) (or_introl Ha)) as [->|[? ?]]; auto. }
      split; [by etrans|].
      destruct (hostdev_info h) as [info|n] eqn:Hi.
      + assert (Hown : own_hostdev_alias <$> hostdevs (hostdev_store_alias t j h a)
                       = <[j:=a]> (own_hostdev_alias <$> hostdevs t)).
        { unfold hostdev_store_alias. rewrite Hi. simpl.
          by rewrite list_fmap_insert. }
        assert (Hal : hostdev_alias t h = alias info)
          by (unfold hostdev_alias; by rewrite Hi).
        assert (Hat : (own_hostdev_alias <$> hostdevs t) !! j = Some (alias info)).
        { rewrite list_lookup_fmap, Hh. simpl. unfold own_hostdev_alias.
          by rewrite Hi. }
        rewrite Hal in Ha. rewrite Hown.
        destruct (alias info) as [b|] eqn:Hb.
        * injection Ha as <-. by rewrite list_insert_id.
        * destruct (hostdev_scavenged_above t a Ha) as (N & -> & _ & Hfresh & _).
          assert (Hperm : omap id (<[j:=Some ("hostdev" ++ fmt_d N)]>
                                     (own_hostdev_alias <$> hostdevs t))
                          ≡ₚ ("hostdev" ++ fmt_d N)
                               :: omap id (own_hostdev_alias <$> hostdevs t))
            by (by apply omap_id_insert).
          rewrite Hperm. split.
          -- simpl. apply NoDup_cons. split; [|done].
             intros [Hin|Hin]%elem_of_app; apply Hfresh, elem_of_app.
             ++ left. by apply own_hostdev_alias_resolved, elem_of_omap_id.
             ++ right. rewrite (Hsame t) by (by etrans).
                by apply elem_of_omap_id in Hin.
          -- apply Forall_cons. split; [by right|done].
      + assert (Hown : hostdevs (hostdev_store_alias t j h a) = hostdevs t).
        { unfold hostdev_store_alias. rewrite Hi. by destruct (nets t !! n). }
        by rewrite Hown. }
  destruct Hinv as [Hndf Hclsf]. rewrite Hh4 in Hclsf.
  assert (HA : omap id (net_alias <$> nets def') = A).
  { rewrite Hn'. unfold A. f_equal.
    apply (net_aliases_same d2 d5); [|done].
    etrans; [exact Hu24|]. apply assign_hostdevs_upd. by left. }
  unfold part_fine. rewrite omap_id_app, Hh'.
  change (map net_alias (nets def')) with (net_alias <$> nets def').
  change (map own_hostdev_alias (hostdevs d5))
    with (own_hostdev_alias <$> hostdevs d5).
  rewrite HA. split.
  - by rewrite (Permutation_app_comm A).
  - apply Forall_app. split.
    + eapply Forall_impl; [exact HclsA|]. intros a [Ha|Ha]; [left|by right].
      apply elem_of_app. by left.
    + eapply Forall_impl; [exact Hclsf|]. intros a [Ha|Ha]; [left|by right].
      apply elem_of_app. by right.
Qed.

End NumberedByScavenging.

(** *** The disks *)

Lemma forallb_filter_lookup {A : Type} (Q P : A -> bool) (l : list A) (i : nat) (x : A) :
  forallb Q (List.filter P l) = true -> l !! i = Some x -> P x = true -> Q x = true.
Proof.
  intros Hall Hi Hx. rewrite forallb_forall in Hall. apply Hall, filter_In.
  split; [|done]. by eapply list_elem_of_In, list_elem_of_lookup_2.
Qed.

Lemma unaliased_test (a : option string) :
  a = None -> negb (bool_decide (is_Some a)) = true.
Proof. intros ->. apply negb_true_iff, bool_decide_eq_false. by intros [? ?]. Qed.

Lemma within_int_disk (def : virDomainDef) (i : nat) (x : virDomainDiskDef) :
  places_within_int def = true -> disks def !! i = Some x -> disk_alias x = None ->
  info_type (disk_info x) = VIR_DOMAIN_DEVICE_ADDRESS_TYPE_DRIVE ->
  drive_within_int (addr_drive (disk_info x)).
Proof.
  unfold places_within_int. rewrite !andb_true_iff. intros [[Hd _] _] Hi Hnone Hty.
  pose proof (forallb_filter_lookup _ _ _ i x Hd Hi (unaliased_test _ Hnone)) as Hx.
  simpl in Hx. rewrite bool_decide_eq_true_2 in Hx by done. simpl in Hx.
  rewrite !andb_true_iff in Hx. unfold drive_within_int.
  repeat match goal with
         | Hc : _ /\ _ |- _ => destruct Hc
         | Hc : (_ <=? _) = true |- _ => apply Z.leb_le in Hc
         end. lia.
Qed.

Lemma within_int_controller (def : virDomainDef) (i : nat) (c : virDomainControllerDef) :
  places_within_int def = true -> controllers def !! i = Some c ->
  controller_alias c = None -> 0 <= controller_idx c <= INT_MAX.
Proof.
  unfold places_within_int. rewrite !andb_true_iff. intros [[_ Hc] _] Hi Hnone.
  pose proof (forallb_filter_lookup _ _ _ i c Hc Hi (unaliased_test _ Hnone)) as Hx.
  simpl in Hx. apply andb_true_iff in Hx as [H1%Z.leb_le H2%Z.leb_le]. lia.
Qed.

Lemma within_int_dimm (def : virDomainDef) (i : nat) (m : virDomainMemoryDef) :
  places_within_int def = true -> mems def !! i = Some m ->
  mem_alias m = None -> mem_model m <> VIR_DOMAIN_MEMORY_MODEL_VIRTIO_PMEM ->
  0 <= addr_dimm_slot (mem_info m) <= UINT_MAX.
Proof.
  unfold places_within_int. rewrite !andb_true_iff. intros [_ Hm] Hi Hnone Hmod.
  assert (Hp : (negb (bool_decide (is_Some (mem_alias m)))
                && negb (bool_decide (mem_model m = VIR_DOMAIN_MEMORY_MODEL_VIRTIO_PMEM)))%bool
               = true).
  { rewrite (unaliased_test _ Hnone). simpl.
    by apply negb_true_iff, bool_decide_eq_false. }
  pose proof (forallb_filter_lookup _ _ _ i m Hm Hi Hp) as Hx.
  simpl in Hx. apply andb_true_iff in Hx as [H1%Z.leb_le H2%Z.leb_le]. lia.
Qed.

(** The names of two buses followed by anything are told apart. *)
Lemma bus_text_split (b b' : virDomainDiskBus) (x y : string) :
  @virDomainDiskBusTypeToString libvirt_collaborators b ++ x
  = @virDomainDiskBusTypeToString libvirt_collaborators b' ++ y ->
  b = b' /\ x = y.
Proof.
  destruct b, b'; simpl; intros Heq; try discriminate; (split; [done|]);
    by simplify_eq.
Qed.

Lemma digit_first_not_dash (n : Z) (x y : string) :
  0 <= n -> fmt_d n ++ x <> String "-" y.
Proof.
  intros Hn Heq. destruct (fmt_d_head n Hn) as (c & r & Hf & Hc).
  rewrite Hf in Heq. injection Heq as -> _. done.
Qed.

Section Disks.
Context `{Collaborators}.
Variables (caps : virQEMUCaps) (def def' : virDomainDef).
Hypothesis Hnames : libvirt_names.
Hypothesis Hscsi : scsi_model_by_controllers.
Hypothesis Hfor : presets_foreign def = true.
Hypothesis Hnd : NoDup (domain_aliases def).
Hypothesis Hin : places_within_int def = true.
Hypothesis Hplaces : places_distinct def caps.
Hypothesis Hrun : qemuAssignDeviceAliases def caps = Ret0 def'.

Lemma disk_assigned (t : virDomainDef) (x x' : virDomainDiskDef) :
  controllers t = controllers def -> disk_alias x = None ->
  qemuAssignDeviceDiskAlias t x caps = Ret0 x' ->
  disk_alias x' = Some (disk_alias_text def x).
Proof.
  intros Hc Hnone Ha. unfold disk_alias_text.
  assert (Hw : with_target t x = with_target def x).
  { unfold with_target. by rewrite (Hscsi def t (disk_info x) Hc). }
  case_bool_decide as Hty.
  - by rewrite (drive_disk_alias t caps x x' Hnone Hty Ha), Hw.
  - revert Ha. unfold qemuAssignDeviceDiskAlias, disk_assign_alias.
    unfold disk_alias in Hnone. rewrite Hnone, bool_decide_eq_false_2 by done.
    simpl. intros [= <-]. by rewrite disk_qomName_keeps_alias.
Qed.

Lemma disk_text_kind (i : nat) (x : virDomainDiskDef) :
  disks def !! i = Some x -> disk_alias x = None ->
  alias_kind (disk_alias_text def x) = Some 18%nat.
Proof.
  intros Hi Hnone. unfold disk_alias_text. rewrite (proj1 Hnames).
  case_bool_decide as Hty.
  - destruct (within_int_disk def i x Hin Hi Hnone Hty) as (Hc & _).
    apply kind_disk_drive. rewrite to_int_small by done. lia.
  - apply kind_disk_index.
Qed.

Lemma disk_text_place (i j : nat) (x y : virDomainDiskDef) :
  disks def !! i = Some x -> disks def !! j = Some y ->
  disk_alias x = None -> disk_alias y = None ->
  disk_alias_text def x = disk_alias_text def y ->
  disk_place def x = disk_place def y.
Proof.
  intros Hi Hj Hx Hy. unfold disk_alias_text, disk_place. rewrite !(proj1 Hnames).
  pose proof (within_int_disk def i x Hin Hi Hx) as Hrx.
  pose proof (within_int_disk def j y Hin Hj Hy) as Hry.
  do 2 case_bool_decide.
  - destruct Hrx as (? & ? & ? & ?), Hry as (? & ? & ? & ?); try done.
    rewrite !to_int_small by done.
    intros Heq. pose proof Heq as Heq'.
    apply bus_text_split in Heq' as [Hb _]. rewrite Hb in Heq.
    apply drive_alias_inj in Heq as (-> & -> & -> & Hw & Ht); try lia.
    rewrite Hb, Hw. destruct (with_target def y); [|done]. by rewrite Ht.
  - destruct Hrx as (? & ? & ? & ?); [done|]. rewrite !to_int_small by done.
    intros [_ Heq]%bus_text_split. exfalso. revert Heq.
    apply digit_first_not_dash. lia.
  - destruct Hry as (? & ? & ? & ?); [done|]. rewrite !to_int_small by done.
    intros [_ Heq]%bus_text_split. exfalso. symmetry in Heq. revert Heq.
    apply digit_first_not_dash. lia.
  - intros [-> Heq]%bus_text_split.
    apply (string_app_inv_l "-disk") in Heq. apply fmt_d_inj_Z in Heq.
    by rewrite Heq.
Qed.

Lemma disks_fine : part_fine 18 (map disk_alias (disks def)) (map disk_alias (disks def')).
Proof.
  destruct (preset_part def 18 _ Hfor Hnd eq_refl) as [Hpnd Hpfor].
  assert (Hat : forall i a, (disk_alias <$> disks def') !! i = Some (Some a) ->
                  exists x, disks def !! i = Some x /\
                    (disk_alias x = Some a \/
                     (disk_alias x = None /\ a = disk_alias_text def x))).
  { apply (pointwise_step disk_alias disk_upd controllers disks set_disks
             (fun d _ disk => qemuAssignDeviceDiskAlias d disk caps)
             (fun _ x => disk_alias_text def x) 0 caps def def');
      try done.
    - intros d d' Hu. apply Hu.
    - intros x x' [Hu _]. by apply info_upd_same_alias.
    - intros t i x x' Hc _ Hnone Ha. by apply (disk_assigned t x x'). }
  apply (pointwise_part 18 _ _
           (fun i => from_option (disk_alias_text def) "" (disks def !! i)));
    [done|done| |].
  - intros i a Hi. destruct (Hat i a Hi) as (x & Hx & [Ha|[Ha ->]]).
    + left. by rewrite list_lookup_fmap, Hx, <- Ha.
    + right. rewrite list_lookup_fmap, Hx. simpl. rewrite Ha.
      split; [done|]. split; [done|]. by eapply disk_text_kind.
  - intros i j Hi Hj _ _. rewrite list_lookup_fmap in Hi, Hj.
    destruct (disks def !! i) as [x|] eqn:Hx; [|done].
    destruct (disks def !! j) as [y|] eqn:Hy; [|done].
    simpl in *. injection Hi as Hi. injection Hj as Hj. intros Heq.
    destruct Hplaces as (Hdisks & _).
    apply (NoDup_filter_lookup (disk_place def) _ (disks def) Hdisks i j x y);
      try done; try (by apply unaliased_test).
    by eapply disk_text_place.
Qed.

End Disks.

(** *** The controllers *)

Lemma filter_filter_and {A : Type} (P Q : A -> bool) (l : list A) :
  List.filter Q (List.filter P l) = List.filter (fun x => P x && Q x)%bool l.
Proof.
  induction l as [|x l IH]; [done|]. simpl.
  destruct (P x); simpl; [|done]. destruct (Q x); by rewrite IH.
Qed.

Lemma at_most_one_lookup {A : Type} (P : A -> bool) (l : list A) (i j : nat) (x y : A) :
  (length (List.filter P l) <= 1)%nat ->
  l !! i = Some x -> l !! j = Some y -> P x = true -> P y = true -> i = j.
Proof.
  intros Hlen Hi Hj Hx Hy.
  apply (NoDup_filter_lookup (fun _ => tt) P l) with (x := x) (y := y); try done.
  destruct (List.filter P l) as [|z [|z' r]]; simpl in *; [constructor| |lia].
  apply NoDup_cons. split; [apply not_elem_of_nil|constructor].
Qed.

Lemma fmt_d_not_empty (n : Z) : 0 <= n -> fmt_d n <> "".
Proof. intros Hn. destruct (fmt_d_head n Hn) as (c & r & -> & _). done. Qed.

Lemma name_not_indexed (p : string) (n : Z) : 0 <= n -> p <> p ++ fmt_d n.
Proof.
  intros Hn Heq. induction p as [|c p IH]; cbn in Heq.
  - symmetry in Heq. by apply fmt_d_not_empty in Heq.
  - injection Heq as Heq. by apply IH.
Qed.

Section Controllers.
Context `{Collaborators}.
Variables (caps : virQEMUCaps) (def def' : virDomainDef).
Hypothesis Hnames : libvirt_names.
Hypothesis Hfor : presets_foreign def = true.
Hypothesis Hnd : NoDup (domain_aliases def).
Hypothesis Hin : places_within_int def = true.
Hypothesis Hplaces : places_distinct def caps.
Hypothesis Hrun : qemuAssignDeviceAliases def caps = Ret0 def'.

Lemma controller_assigned (t : virDomainDef) (c c' : virDomainControllerDef) :
  (has_builtin_ide t, is_q35 t) = (has_builtin_ide def, is_q35 def) ->
  controller_alias c = None ->
  qemuAssignDeviceControllerAlias t caps c = Ret0 c' ->
  controller_alias c' = Some (controller_alias_text def caps c).
Proof.
  intros [= Hide Hq] Hnone. unfold controller_alias in Hnone.
  unfold qemuAssignDeviceControllerAlias, controller_alias_text.
  rewrite Hnone, Hide, Hq.
  repeat case_match; by intros [= <-].
Qed.

Lemma controller_text_kind (c : virDomainControllerDef) :
  0 <= controller_idx c ->
  alias_kind (controller_alias_text def caps c) = Some 19%nat.
Proof.
  intros Hc. unfold controller_alias_text. rewrite (proj2 Hnames).
  repeat case_match; try reflexivity;
    try (by apply kind_controller_indexed);
    apply kind_controller_dotted; auto.
Qed.

Lemma controller_text_place (c c' : virDomainControllerDef) :
  0 <= controller_idx c -> 0 <= controller_idx c' ->
  controller_alias_text def caps c = controller_alias_text def caps c' ->
  controller_type c = controller_type c' /\
  (controller_idx c = controller_idx c' \/
   (controller_type c = VIR_DOMAIN_CONTROLLER_TYPE_PCI /\ caps_pci_multibus caps = false)).
Proof.
  intros Hc Hc'. destruct Hplaces as (_ & _ & _ & _ & Hone).
  unfold controller_alias_text. rewrite !(proj2 Hnames).
  destruct (controller_type c), (controller_type c'); simpl;
    repeat match goal with
           | |- context [if ?b then _ else _] =>
             let E := fresh "E" in destruct b eqn:E
           end;
    intros Heq; try discriminate.
  all: repeat match goal with
              | E : (_ && _)%bool = true |- _ => apply andb_true_iff in E as [? ?]
              | E : (_ =? _) = true |- _ => apply Z.eqb_eq in E
              | E : negb _ = true |- _ => apply negb_true_iff in E
              end.
  all: simplify_eq/=.
  all: try match goal with
           | Hq : fmt_d _ = fmt_d _ |- _ => apply fmt_d_inj_Z in Hq
           | Hq : "" = fmt_d _ |- _ => symmetry in Hq; by apply fmt_d_not_empty in Hq
           | Hq : fmt_d _ = "" |- _ => by apply fmt_d_not_empty in Hq
           | Hq : ?p = ?p ++ fmt_d _ |- _ => by apply name_not_indexed in Hq
           | Hq : ?p ++ fmt_d _ = ?p |- _ =>
             symmetry in Hq; by apply name_not_indexed in Hq
           | H1 : has_builtin_ide def = true, H2 : is_q35 def = true |- _ =>
             by rewrite H1, H2 in Hone
           end.
  all: try (split; [done|]; first [left; lia | right; done]).
Qed.

Lemma controllers_fine :
  part_fine 19 (map controller_alias (controllers def))
            (map controller_alias (controllers def')).
Proof.
  destruct (preset_part def 19 _ Hfor Hnd eq_refl) as [Hpnd Hpfor].
  assert (Hat : forall i a,
            (controller_alias <$> controllers def') !! i = Some (Some a) ->
            exists x, controllers def !! i = Some x /\
              (controller_alias x = Some a \/
               (controller_alias x = None /\ a = controller_alias_text def caps x))).
  { apply (pointwise_step controller_alias controller_upd
             (fun d => (has_builtin_ide d, is_q35 d)) controllers set_controllers
             (fun d _ controller => qemuAssignDeviceControllerAlias d caps controller)
             (fun _ x => controller_alias_text def caps x) 7 caps def def');
      try done.
    - unfold qemuAssignDeviceAliases_steps; simpl; steps_keep.
    - unfold qemuAssignDeviceAliases_steps; simpl; steps_keep.
    - intros d d' Hu. apply Hu.
    - intros x x' [Hu _]. by apply info_upd_same_alias.
    - intros t i x x' HF _ Hnone Ha. by apply (controller_assigned t x x'). }
  apply (pointwise_part 19 _ _
           (fun i => from_option (controller_alias_text def caps) ""
                                 (controllers def !! i)));
    [done|done| |].
  - intros i a Hi. destruct (Hat i a Hi) as (x & Hx & [Ha|[Ha ->]]).
    + left. by rewrite list_lookup_fmap, Hx, <- Ha.
    + right. rewrite list_lookup_fmap, Hx. simpl. rewrite Ha.
      split; [done|]. split; [done|]. apply controller_text_kind.
      by apply (within_int_controller def i x).
  - intros i j Hi Hj _ _. rewrite list_lookup_fmap in Hi, Hj.
    destruct (controllers def !! i) as [x|] eqn:Hx; [|done].
    destruct (controllers def !! j) as [y|] eqn:Hy; [|done].
    simpl in *. injection Hi as Hi. injection Hj as Hj. intros Heq.
    pose proof (within_int_controller def i x Hin Hx Hi) as Hrx.
    pose proof (within_int_controller def j y Hin Hy Hj) as Hry.
    apply controller_text_place in Heq as [Hty [Hidx|[Hpci Hsingle]]]; try lia.
    + destruct Hplaces as (_ & Hctl & _).
      apply (NoDup_filter_lookup (fun c => (controller_type c, controller_idx c)) _
               (controllers def) Hctl i j x y);
        try done; try (by apply unaliased_test).
      by rewrite Hty, Hidx.
    + destruct Hplaces as (_ & _ & _ & Hone & _). specialize (Hone Hsingle).
      unfold unaliased_controllers in Hone. rewrite filter_filter_and in Hone.
      apply (at_most_one_lookup _ _ i j x y Hone Hx Hy).
      * rewrite (unaliased_test _ Hi). by apply bool_decide_eq_true_2.
      * rewrite (unaliased_test _ Hj). apply bool_decide_eq_true_2. by rewrite <- Hty.
Qed.

End Controllers.

(** *** The memory devices *)

Lemma to_int_inj_uint (a b : Z) :
  0 <= a <= UINT_MAX -> 0 <= b <= UINT_MAX -> to_int a = to_int b -> a = b.
Proof.
  intros Ha Hb.
  destruct (decide (a <= INT_MAX)), (decide (b <= INT_MAX));
    rewrite ?(to_int_small a), ?(to_int_small b), ?(to_int_wraps a), ?(to_int_wraps b)
      by lia; unfold INT_MAX, UINT_MAX in *; lia.
Qed.

Lemma dimm_text_place (x y : virDomainMemoryDef) (px py : string) :
  memory_prefix (mem_model x) = Some px -> memory_prefix (mem_model y) = Some py ->
  mem_model x <> VIR_DOMAIN_MEMORY_MODEL_VIRTIO_PMEM ->
  mem_model y <> VIR_DOMAIN_MEMORY_MODEL_VIRTIO_PMEM ->
  0 <= addr_dimm_slot (mem_info x) <= UINT_MAX ->
  0 <= addr_dimm_slot (mem_info y) <= UINT_MAX ->
  px ++ fmt_d (to_int (addr_dimm_slot (mem_info x)))
  = py ++ fmt_d (to_int (addr_dimm_slot (mem_info y))) ->
  (mem_model x, addr_dimm_slot (mem_info x)) = (mem_model y, addr_dimm_slot (mem_info y)).
Proof.
  destruct (mem_model x), (mem_model y); simpl;
    intros [= <-] [= <-] Hx Hy Hrx Hry Heq; try done; try discriminate;
    f_equal; simplify_eq/=;
    match goal with
    | Hq : fmt_d _ = fmt_d _ |- _ =>
      apply fmt_d_inj_Z in Hq; by apply to_int_inj_uint
    end.
Qed.

Lemma elem_of_insert_alias (l : list (option string)) (j : nat) (a b : string) :
  l !! j = Some None -> Some a ∈ <[j:=Some b]> l -> a = b \/ Some a ∈ l.
Proof.
  intros Hj Ha%elem_of_omap_id. rewrite (omap_id_insert l j b Hj) in Ha.
  apply elem_of_cons in Ha as [->|Ha]; [by left|]. right. by apply elem_of_omap_id.
Qed.

Lemma memory_prefix_listed (m : virDomainMemoryModel) (p : string) :
  memory_prefix m = Some p -> p ∈ memory_prefixes.
Proof. unfold memory_prefixes. destruct m; intros [= <-]; set_solver. Qed.

Section Memory.
Context `{Collaborators}.
Variables (caps : virQEMUCaps) (def def' : virDomainDef).
Hypothesis Hfor : presets_foreign def = true.
Hypothesis Hnd : NoDup (domain_aliases def).
Hypothesis Hin : places_within_int def = true.
Hypothesis Hplaces : places_distinct def caps.
Hypothesis Hrun : qemuAssignDeviceAliases def caps = Ret0 def'.

Lemma mems_fine : part_fine 20 (map mem_alias (mems def)) (map mem_alias (mems def')).
Proof.
  destruct (preset_part def 20 _ Hfor Hnd eq_refl) as [Hpnd Hpfor].
  rewrite Forall_forall in Hpfor.
  destruct (pass_around 20 _ caps def def' eq_refl Hrun)
    as (d & d' & Hpre & Hstep & Hpost).
  assert (Hd : mems d = mems def) by (run_keeps mems Hpre).
  assert (Hd' : mems def' = mems d') by (run_keeps mems Hpost).
  rewrite Hd'.
  destruct (loop_over_inv
              (fun j t =>
                 (forall i, (j <= i)%nat -> mems t !! i = mems def !! i) /\
                 NoDup (omap id (mem_alias <$> mems t)) /\
                 forall a, Some a ∈ (mem_alias <$> mems t) ->
                   Some a ∈ (mem_alias <$> mems def) \/
                   (exists i x p,
                       (i < j)%nat /\ mems def !! i = Some x /\ mem_alias x = None /\
                       mem_model x <> VIR_DOMAIN_MEMORY_MODEL_VIRTIO_PMEM /\
                       memory_prefix (mem_model x) = Some p /\
                       a = p ++ fmt_d (to_int (addr_dimm_slot (mem_info x)))) \/
                   (exists r, a = "virtiopmem" ++ r))
              mems set_mems (fun t _ mem => qemuAssignDeviceMemoryAlias t mem false)
              d d' (fun _ _ => eq_refl)) as [(_ & Hnd' & Hcls) _]; [| |exact Hstep|].
  - rewrite Hd. split; [done|]. split; [done|]. intros a Ha. by left.
  - intros j t x x' Hlen (Htail & Hndt & Hc) Hx Ha.
    change (mems (set_mems (<[j:=x']> (mems t)) t)) with (<[j:=x']> (mems t)).
    assert (Hxd : mems def !! j = Some x) by (by rewrite <- Htail).
    split; [intros i Hi; rewrite list_lookup_insert_ne by lia; apply Htail; lia|].
    assert (Hweak : forall a,
              Some a ∈ (mem_alias <$> mems t) ->
              Some a ∈ (mem_alias <$> mems def) \/
              (exists i x p,
                  (i < Datatypes.S j)%nat /\ mems def !! i = Some x /\
                  mem_alias x = None /\
                  mem_model x <> VIR_DOMAIN_MEMORY_MODEL_VIRTIO_PMEM /\
                  memory_prefix (mem_model x) = Some p /\
                  a = p ++ fmt_d (to_int (addr_dimm_slot (mem_info x)))) \/
              (exists r, a = "virtiopmem" ++ r)).
    { intros a Ha'. destruct (Hc a Ha') as [?|[(i & y & p & Hi & Hrest)|?]]; auto.
      right; left. exists i, y, p. split; [lia|done]. }
    destruct (mem_alias x) as [b|] eqn:Hb.
    + assert (Hsame : x' = x).
      { revert Ha. unfold qemuAssignDeviceMemoryAlias. unfold mem_alias in Hb.
        rewrite Hb. by intros [= <-]. }
      rewrite Hsame, list_insert_id by done. done.
    + destruct (memory_prefix (mem_model x)) as [p|] eqn:Hp.
      2: { revert Ha. unfold qemuAssignDeviceMemoryAlias. unfold mem_alias in Hb.
           rewrite Hb. by destruct (mem_model x). }
      rewrite (memory_alias_cases t x false p Hb Hp) in Ha. simpl in Ha.
      assert (Hj : (mem_alias <$> mems t) !! j = Some None)
        by (by rewrite list_lookup_fmap, Hx, <- Hb).
      case_bool_decide as Hmodel; simpl in Ha.
      * apply scavenged_Ret0 in Ha as [Hmax ->].
        pose proof (scavenged_fresh p (mem_aliases t) Hmax) as Hfresh.
        rewrite list_fmap_insert.
        change (mem_alias (mem_set_alias ?o ?y)) with o. split.
        -- rewrite (omap_id_insert _ j _ Hj). constructor; [|done].
           intros Hi. by apply Hfresh, elem_of_omap_id.
        -- intros a [->|Ha]%elem_of_insert_alias; [|by apply Hweak|done].
           right; right. rewrite Hmodel in Hp. injection Hp as <-. by eexists.
      * injection Ha as <-. rewrite list_fmap_insert.
        change (mem_alias (mem_set_alias ?o ?y)) with o.
        assert (Hnew : Some (p ++ fmt_d (to_int (addr_dimm_slot (mem_info x))))
                       ∉ (mem_alias <$> mems t)).
        { intros Hi. destruct (Hc _ Hi) as [Hpre'|[(i & y & q & Hlt & Hy & Hny & Hym & Hq & Heq)|[r Heq]]].
          - apply elem_of_omap_id, Hpfor in Hpre'.
            rewrite kind_memory in Hpre'; [done|]. by eapply memory_prefix_listed.
          - apply dimm_text_place in Heq; try done;
              try (by eapply within_int_dimm).
            destruct Hplaces as (_ & _ & Hdimms & _).
            assert (j = i); [|lia].
            apply (NoDup_filter_lookup
                     (fun m => (mem_model m, addr_dimm_slot (mem_info m))) _
                     (mems def) Hdimms j i x y); try done.
            + rewrite (unaliased_test _ Hb). simpl.
              by apply negb_true_iff, bool_decide_eq_false.
            + rewrite (unaliased_test _ Hny). simpl.
              by apply negb_true_iff, bool_decide_eq_false.
          - destruct (mem_model x); simplify_eq/=. }
        split.
        -- rewrite (omap_id_insert _ j _ Hj). constructor; [|done].
           intros Hi. by apply Hnew, elem_of_omap_id.
        -- intros a [->|Ha]%elem_of_insert_alias; [|by apply Hweak|done].
           right; left. exists j, x, p. split; [lia|done].
  - split; [done|]. apply Forall_forall. intros a Ha%elem_of_omap_id.
    destruct (Hcls a Ha) as [Hpre'|[(i & y & q & _ & _ & _ & _ & Hq & ->)|[r ->]]].
    + by left.
    + right. apply kind_memory. by eapply memory_prefix_listed.
    + right. apply kind_memory.
      by apply (memory_prefix_listed VIR_DOMAIN_MEMORY_MODEL_VIRTIO_PMEM).
Qed.

End Memory.

(** *** All the aliases of the domain *)

Lemma libvirt_names_hold : @libvirt_names libvirt_collaborators.
Proof. by split. Qed.

Lemma libvirt_scsi_model_by_controllers :
  @scsi_model_by_controllers libvirt_collaborators.
Proof.
  intros d d' info Hc. simpl. unfold find_scsi_controller_model. by rewrite Hc.
Qed.





(** The aliases derived from an address repeat when the addresses do:
    two DIMMs in slot 0, in a domain without aliases, are both named
    "dimm0". *)
Lemma pass_repeats_address_alias :
  no_alias_set same_slot_dom = true /\
  @qemuAssignDeviceAliases libvirt_collaborators same_slot_dom default_caps
  = Ret0 same_slot_dom_assigned /\
  device_aliases same_slot_dom_assigned = [Some "dimm0"; Some "dimm0"] /\
  domain_aliases same_slot_dom_assigned = ["dimm0"; "dimm0"] /\
  ~ @places_distinct libvirt_collaborators same_slot_dom default_caps.
Proof.
  split; [reflexivity|]. split; [vm_compute; reflexivity|]. split; [reflexivity|].
  split; [reflexivity|].
  intros (_ & _ & [Hin _]%NoDup_cons & _). apply Hin. by left.
Qed.
